(* ===== verification/_CoqProject ===== *)
-Q . S2P
Prelude.v
ByteOrder.v
MyBit.v
MyBitmap.v
BinlogTypes.v
BinlogFuncs.v
TableDef.v
BinDecimal.v
MyTime.v
RowValue.v
LogEvent.v
RowsEvent.v
RowSizes.v
FileCache.v
SharedQueue.v
ParseLog.v
LogFollow.v
TextCoding.v
Messages.v
SocketServer.v
Md5.v
ClientExport.v
ExportTime.v
JsonValue.v
JsonWriter.v
JsonReader.v
ApplyMessage.v
ExportText.v
Config.v
MessageQueue.v
ExportQueue.v
Dispatch.v
Connection.v
BinlogIndex.v
LogFiles.v
Pipeline.v
TableConfig.v
Downstream.v
Database.v
ServerStart.v
