(* ===== verification/Prelude.v ===== *)
(** * datasync: a verification library

    The program carries data between a central server and stores.  On the side of
    the data a library follows the binary log of a MySQL server and decodes the row
    changes in it; a client selects changed rows by time and sends them, and writes
    what it receives into its own database.  The server (DataSync) takes messages
    from a message queue service, dispatches them to the stores that are connected
    to it over TCP, and keeps those for stores that are not.  The threads of both
    sides hand data to each other through deques behind a mutex and conditions.

    ** The files and the code they model (paths under src/)

    - [Prelude]: machine integers with their wrap-around, little and big endian
      values of byte strings, C strings, the outcomes of loops ([run]), the tactics
      and the hint database [cint] the other files share.
    - [ByteOrder], [MyBit], [MyBitmap]: binlog/include/my_byteorder.h and the headers
      behind it, my_bit.h, my_bitmap.h, binlog/src/my_bitmap.cpp.
    - [BinlogTypes], [BinlogFuncs], [TableDef]: the enumerations, the sizes of fields
      (binary_log_funcs.cpp), the column metadata of a table map (TableDef.cpp).
    - [BinDecimal], [MyTime], [RowValue]: decimal.cpp, my_time.cpp, tx_rowvalue.cpp.
    - [LogEvent]: the header, the format description, query and table map events of
      LogEvent.cpp.  [RowsEvent]: its rows events, from the column sets to the
      values of every row.  [RowSizes]: the two computations of a value's width.
    - [FileCache], [ParseLog]: reading the file (FileCache.cpp) and the parser that
      goes through it, skips, resumes and dispatches (ParseLogEntry.cpp), with the
      reaction of the monitor to a change (BinlogMonitor.cpp).
    - [LogFollow]: an abstract log, and the parser against it.
    - [SharedQueue]: the deques of CRowData.cpp, CProcessMqData.cpp and
      UpdateDbThread.cpp as a step relation over the pieces of calls between lock,
      sleep and wakeup, in a section that a module for each of the three programs
      instantiates with its data, its deques and its capacity.
    - [TextCoding]: base64.cpp and urlencode.cpp of syncshare.
    - [Messages]: mSend and mRecv of public/Commfun.cpp and the framing of both ends.
    - [SocketServer]: the clients of SocketServer.cpp and HandlerClientSocket.cpp,
      their registration, dispatching, heartbeats and loss.
    - [Md5]: the MD5 class of public.
    - [Config]: the configuration files of syncshare/Config.cpp, their texts and numbers.
    - [MessageQueue]: the message queue service (syncshare/AliMessageQueue.cpp), its
      listeners (MyMessageListener.cpp) and the turns of the threads of
      CProcessMqData.cpp, between the queues, the service and the server.
    - [JsonValue], [JsonWriter], [JsonReader]: of jsoncpp, which is compiled with the
      client (wmsclient/jsoncpp), the values, the class FastWriter, the class Reader.
    - [ClientExport], [ExportTime]: one round of the client's export
      (wmsclient/wmsclient/MyslqQueue.cpp, increment_export.cpp): the times, the
      statements, the answers of the database, the messages queued.
    - [ExportText], [ExportQueue]: the text of a batch and the thread that sends it
      (PreBinlog.cpp), the export's deques as an instance of [SharedQueue].
    - [Dispatch]: the handlers of the messages the client receives, each in a thread
      of its own (HandlerMessage.cpp).
    - [Connection]: the attempts and the steps of the client's receiving thread
      (ClientSocketServer.cpp), the timer (RefreshUI.cpp, wmsclientDlg.cpp), and how
      they meet the server's registration of stores.
    - [ApplyMessage]: BuildFinally.cpp, MysqlOperation.cpp and the loop of
      UpdateDbThread.cpp: from the text of a received message to its statements and
      its transaction.
    - [BinlogIndex]: the index file the monitor follows (BinlogMonitor.cpp).
    - [Pipeline]: the way of a batch through [ExportQueue], [Messages], [SocketServer],
      [SharedQueue] and [MessageQueue], as one theorem.
    - [TableConfig]: the client's table configuration, read and written over the elements
      of tinyxml (increment_export.cpp, PreBinlog.cpp, include/tinyxml/tinyxml.cpp), and
      the statements of the export for what is read.
    - [Downstream]: the way of an update through [SocketServer], [Messages], [Dispatch],
      [SharedQueue] and [ApplyMessage] into a store's database, as one theorem.
    - [Database]: the client's connection to its database, its construction, errors and
      pings (MysqlOperation.cpp), under the thread of updates.
    - [ServerStart]: main.cpp, the functions it starts the threads with, and the loop that
      accepts connections.
    - [LogFiles]: the log files of public (LogData.cpp, LogError.cpp) and the texts of
      exceptions (MyException.cpp).

    The state of a component is a record with the members of the class; an operation
    has the name of its function.  The parser threads the records of [FileCache],
    the events and the sink of rows (the class [RowSink]: the theorems hold for every
    sink, an instance collects the rows); the server gives a list of effects, which [Messages] and [SharedQueue]
    carry out; a round of the export runs in a monad ([exec]) of the queries asked,
    the effects done and the static variables, a transaction in one of what the
    connection sees and what is committed, the message queue in one of the instance
    and the calls made to the service's library, each with whether it threw.

    ** Results, undefined behaviour and loops

    An operation of C that has no defined behaviour is a value: [None] where that is
    all that can happen, [Undef] in [run], [Undefined] in [outcome], beside the
    exceptions ([Throws], [thrown]).  A theorem that an operation returns a value therefore
    says that it reads and writes inside its buffers, too.

    Loops whose length the data decides take fuel and give [NoFuel] when it is used
    up; no theorem assumes that it is not used up.  Loading a query event needs one unit for
    each byte of its status variables, and [MAX_SIZE_LOG_EVENT_STATUS] bounds them
    ([query_event_terminates] proves that each turn advances); the parser needs a
    unit for each event of a round and two for those before the first
    ([growing_log_followed] states both bounds); the loop over the blocks of a
    digest one for each 64 bytes, and is given one for each byte; the receiving and the text loops one for each piece
    or byte; the JSON reader a unit for each character and two more, which
    [parse_terminates] proves enough.  Loops that need not end are theorems: [header_loop_diverges],
    [rows_without_columns_diverge] and [log_file_unopenable] say that no fuel is enough.  Files are below 2^31
    bytes, where [ftell] and [int] positions are exact.

    ** What the theorems show

    - The log.  [growing_log_followed] is the refinement: over any number of rounds
      of a growing log the parser hands on exactly the row changes of the abstract
      log, once and in order.  [torn_event_lost], [shorter_file_ignored] and
      [header_loop_diverges] show what lies outside its hypotheses.
    - Events and rows.  Table map, query and rows events of the server's format are
      loaded; the loop over the status variables visits each in turn and ends on any
      input; row images and rows events decode to the values the decoder has for each
      format, [value_formats] saying which come back and what the others lose;
      [decoder_sizes_agree] where the two computations of a width agree, type by type.
    - Values.  Decimals, times, bitmaps, integers and metadata are read back as
      stored, and the texts and calendar computations meet their references.
    - Queues.  [queue_history] is the invariant of every execution;
      [message_attended] shows that no datum waits while all consumers sleep, with
      one deque behind the conditions; the others are executions that go wrong.
    - From end to end.  [batches_reach_service]: the batches of a store go to the
      message queue service as through one channel, first in first out, with everything
      that is still on its way accounted for.  [updates_reach_database]: the updates of the
      server are applied to a store's database, each once, in the order in which the
      threads of the client have queued them, while the deque has room and the database
      accepts what it is given.
    - Server and messages.  [stores_reached_once] is the invariant of any history of
      connections, messages and heartbeats in which each client tells its code once;
      [messages_delivered] the round trip over
      a connection that splits data anywhere.
    - The connection.  [refused_client_never_retries]: the client's steps in any order
      with the server's in any order; [connect_loop_sleeps] the seconds between attempts.
    - The message queue.  [mq_configuration] says when the instance can be made, by way
      of [configuration_read]; [pushes_sent] which messages the service takes, whatever
      calls throw; [failed_messages_return] the way of a message for a store that is
      not connected; [final_topic_discarded] what becomes of those of the last topic.
    - Texts and digests.  Base64 against RFC 4648, URL coding in place, MD5 against
      RFC 1321 with its constants computed from the sine, as far as the count of bits is exact.
    - JSON.  [written_value_parsed] is the round trip through both classes;
      [parsed_value_typed] the invariant of every parsed value; what the reader makes
      of the bytes behind a document, of numbers and of texts that are cut off.
    - The export.  What a round sends when its lists are long enough; that the lists
      it is called with never are; how the rows of a table are cut into messages; the
      padding of times; the texts of the batches, read back; and what the deque of the
      sending thread comes to when it has no room.  [configuration_reread]: the times
      written to the configuration file are those read from it, and the windows of the
      statements made of them.
    - The start.  [server_lifetime]: what main starts, and what ends the server.
    - Applying messages.  [updates_reordered]: each update is queued once, in any
      order.  The three statements of each table against their joined form, with every
      error; what the text of a message does to the database, and that a failed one is
      not undone.  [lost_connection_drops_updates]: after one ping that fails no
      statement reaches the database any more.
    - Logs.  The name of the log the monitor follows; what log files hold.

    ** Parameters

    [malloc] and [fopen] are functions of the request; the contents of uninitialised
    memory and addresses are arguments; [recv] and [send] are scripts of pieces and
    timeouts; the database's answers, what its statements do, the reading of floating
    point numbers, the conversions between character sets, [localtime] and [mktime],
    what tinyxml makes of a file and makes it, which threads and sockets can be made, and
    which calls of the message queue's library, of [mkdir] and of [fopen] fail are
    functions; so are the bytes of a buffer behind the text in it.  Every
    theorem about them holds for all, or names what it needs and has a witness with
    concrete ones.

    ** Not modelled

    The vendored libraries in the tree (MySQL, curl, OpenSSL, hiredis, the queue SDK, the
    parser of tinyxml) and what only calls them.  Of jsoncpp what the client does not use
    (comments, error messages, the newer readers and writers, paths).  Of main.cpp
    init_daemon, which nothing calls; the cancellation of threads, the macros of locks,
    whose behaviour is the step relation of [SharedQueue]; singletons and destructors that
    only free memory; the client's window, which is MFC, and its configuration of names
    and addresses by Windows profiles.  Floating point accessors, which copy bytes, and
    [my_reverse_bits], whose table is missing from the tree.  Functions nothing calls
    (destoryInstance, commitSql, getTestdata, threadTest).  What is commented out: the
    whole of CDownloadBinlog.cpp, the arithmetic of decimals, the parsing of date texts.
*)
From Stdlib Require Export ZArith Lia.
From stdpp Require Export base tactics decidable option list numbers gmap strings.

Open Scope Z_scope.

(** ** Machine integers

    A C integer of width [w] is a [Z]; every conversion the source performs is
    one of the functions below.  [uN z] is the value of a [z] stored in an
    unsigned [N]-bit object, [sN z] in a two's-complement one. *)

Definition wrap (w z : Z) : Z := z mod 2 ^ w.
Definition swrap (w z : Z) : Z := (z + 2 ^ (w - 1)) mod 2 ^ w - 2 ^ (w - 1).

Abbreviation u8 := (wrap 8).
Abbreviation u16 := (wrap 16).
Abbreviation u32 := (wrap 32).
Abbreviation u64 := (wrap 64).
Abbreviation s8 := (swrap 8).
Abbreviation s16 := (swrap 16).
Abbreviation s32 := (swrap 32).
Abbreviation s64 := (swrap 64).

Declare Scope cint_scope.
Delimit Scope cint_scope with cint.
Infix ".&" := Z.land (at level 40, left associativity) : cint_scope.
Infix ".|" := Z.lor (at level 45, left associativity) : cint_scope.
Infix ".^" := Z.lxor (at level 42, left associativity) : cint_scope.
Infix ".<<" := Z.shiftl (at level 38, left associativity) : cint_scope.
Infix ".>>" := Z.shiftr (at level 38, left associativity) : cint_scope.
(** The buffer from the pointer [p + off] on. *)
Notation "p @+ off" := (drop (Z.to_nat off) p) (at level 35, only parsing) : cint_scope.
Open Scope cint_scope.

(** A byte is a [Z] in range; a buffer is a list of them. *)
Definition is_byte (b : Z) : Prop := 0 <= b < 256.
Abbreviation bytes_ok := (Forall is_byte).

#[export] Instance is_byte_dec b : Decision (is_byte b).
Proof. unfold is_byte. apply _. Defined.

(** ** Hints and tactics *)

Create HintDb cint.
#[export] Hint Unfold is_byte : cint.

(** [zshift]: shifts by constants become multiplications and divisions, the
    powers of two are evaluated, and [lia] sees only [div]/[mod] by numerals. *)
Ltac zpow :=
  repeat match goal with
  | |- context [2 ^ ?n] =>
      let n' := eval vm_compute in n in
      let v := eval vm_compute in (2 ^ n) in
      lazymatch v with Zpos _ => change (2 ^ n) with v end
  | H : context [2 ^ ?n] |- _ =>
      let v := eval vm_compute in (2 ^ n) in
      lazymatch v with Zpos _ => change (2 ^ n) with v in H end
  end.

Ltac zshift :=
  unfold wrap, swrap, is_byte in *;
  rewrite ?Z.shiftl_mul_pow2, ?Z.shiftr_div_pow2 in * by lia;
  zpow.

(** Remove the reductions that change nothing. *)
Ltac zmod_small :=
  repeat match goal with
  | |- context [?x mod ?n] => rewrite (Z.mod_small x n) by lia
  end.

(** Linear arithmetic with division and remainder by numerals. *)
Ltac zdm := Z.div_mod_to_equations; lia.

Ltac zsolve := zshift; zdm.

(** Case analysis on the first [match] scrutinee in the goal, keeping its
    equation. *)
Ltac case_step :=
  match goal with
  | |- context [match ?x with _ => _ end] => destruct x eqn:?
  end.

(** Invert a chain of [Some]-binds. *)
Ltac invert_bind H :=
  repeat match type of H with
  | mbind _ ?e = Some _ => destruct e eqn:?; cbn in H; [|discriminate H]
  end.

(** ** Wrapping *)

Lemma wrap_range w z : 0 <= w → 0 <= wrap w z < 2 ^ w.
Proof. intros. apply Z.mod_pos_bound. by apply Z.pow_pos_nonneg. Qed.

Lemma wrap_small w z : 0 <= z < 2 ^ w → wrap w z = z.
Proof. apply Z.mod_small. Qed.

Lemma swrap_range w z : 0 < w → - 2 ^ (w - 1) <= swrap w z < 2 ^ (w - 1).
Proof.
  intros. unfold swrap.
  pose proof (Z.mod_pos_bound (z + 2 ^ (w - 1)) (2 ^ w)) as B.
  replace (2 ^ w) with (2 * 2 ^ (w - 1)) in *
    by (rewrite <- Z.pow_succ_r by lia; f_equal; lia).
  pose proof (Z.pow_pos_nonneg 2 (w - 1)). lia.
Qed.

Lemma swrap_small w z : 0 < w → - 2 ^ (w - 1) <= z < 2 ^ (w - 1) → swrap w z = z.
Proof.
  intros Hw Hz. unfold swrap. rewrite Z.mod_small; [lia|].
  replace (2 ^ w) with (2 * 2 ^ (w - 1)); [lia|].
  rewrite <- Z.pow_succ_r by lia. f_equal. lia.
Qed.

Lemma u8_byte z : is_byte (u8 z).
Proof. apply (wrap_range 8). lia. Qed.

#[export] Hint Resolve u8_byte : cint.

(** ** Positional values of byte strings

    The two readings of a byte string as a number, and their inverses: the
    reference against which every [*korr]/[*store] of the source is proved. *)

Fixpoint le_combine (l : list Z) : Z :=
  match l with [] => 0 | b :: l => b + 256 * le_combine l end.

Fixpoint le_split (n : nat) (v : Z) : list Z :=
  match n with O => [] | S n => v mod 256 :: le_split n (v / 256) end.

Definition be_combine (l : list Z) : Z := foldl (λ a b, 256 * a + b) 0 l.
Definition be_split (n : nat) (v : Z) : list Z := reverse (le_split n v).

Lemma length_le_split n v : length (le_split n v) = n.
Proof. revert v. induction n; cbn; auto. Qed.

Lemma length_be_split n v : length (be_split n v) = n.
Proof. unfold be_split. by rewrite length_reverse, length_le_split. Qed.

Lemma le_split_bytes n v : bytes_ok (le_split n v).
Proof.
  revert v. induction n; cbn; constructor; auto.
  unfold is_byte. apply Z.mod_pos_bound. lia.
Qed.

Lemma be_split_bytes n v : bytes_ok (be_split n v).
Proof. apply Forall_reverse, le_split_bytes. Qed.

#[export] Hint Resolve le_split_bytes be_split_bytes : cint.

Lemma le_combine_split n v : le_combine (le_split n v) = v mod 256 ^ Z.of_nat n.
Proof.
  revert v. induction n as [|n IH]; intros v; cbn [le_split le_combine].
  - by rewrite Z.mod_1_r.
  - rewrite IH, Nat2Z.inj_succ, Z.pow_succ_r by lia.
    rewrite Z.rem_mul_r by lia. lia.
Qed.

Lemma be_combine_app l1 l2 :
  be_combine (l1 ++ l2) = 256 ^ Z.of_nat (length l2) * be_combine l1 + be_combine l2.
Proof.
  unfold be_combine. rewrite foldl_app. generalize (foldl (λ a b, 256 * a + b) 0 l1).
  induction l2 as [|b l2 IH] using rev_ind; intros a; [cbn; lia|].
  rewrite !foldl_snoc, IH, length_app, Nat2Z.inj_add, Z.pow_add_r by lia.
  change (256 ^ Z.of_nat (length [b])) with 256. lia.
Qed.

Lemma be_combine_reverse l : be_combine (reverse l) = le_combine l.
Proof.
  induction l as [|b l IH]; [done|].
  rewrite reverse_cons, be_combine_app, IH. cbn. lia.
Qed.

Lemma be_combine_split n v : be_combine (be_split n v) = v mod 256 ^ Z.of_nat n.
Proof. unfold be_split. by rewrite be_combine_reverse, le_combine_split. Qed.

Lemma le_combine_range l : bytes_ok l → 0 <= le_combine l < 256 ^ Z.of_nat (length l).
Proof.
  induction 1 as [|b l Hb Hl IH]; [cbn; lia|].
  cbn [le_combine length]. rewrite Nat2Z.inj_succ, Z.pow_succ_r by lia.
  unfold is_byte in Hb. lia.
Qed.

Lemma be_combine_range l : bytes_ok l → 0 <= be_combine l < 256 ^ Z.of_nat (length l).
Proof.
  intros H. rewrite <- (reverse_involutive l), be_combine_reverse, length_reverse.
  apply le_combine_range. by apply Forall_reverse.
Qed.

Lemma le_split_combine l : bytes_ok l → le_split (length l) (le_combine l) = l.
Proof.
  induction 1 as [|b l Hb Hl IH]; [done|]. cbn [length le_split le_combine].
  unfold is_byte in Hb. f_equal.
  - replace (b + 256 * le_combine l) with (b + le_combine l * 256) by lia.
    rewrite Z.mod_add by lia. by apply Z.mod_small.
  - etrans; [|exact IH]. f_equal.
    replace (b + 256 * le_combine l) with (b + le_combine l * 256) by lia.
    rewrite Z.div_add by lia. rewrite Z.div_small by lia. lia.
Qed.

Lemma be_split_combine l : bytes_ok l → be_split (length l) (be_combine l) = l.
Proof.
  intros H. unfold be_split.
  apply (inj reverse). rewrite reverse_involutive.
  rewrite <- (reverse_involutive l) at 2. rewrite be_combine_reverse.
  rewrite <- length_reverse. apply le_split_combine. by apply Forall_reverse.
Qed.

Lemma le_combine_app l1 l2 :
  le_combine (l1 ++ l2) = le_combine l1 + 256 ^ Z.of_nat (length l1) * le_combine l2.
Proof.
  induction l1 as [|b l1 IH]; [cbn [app le_combine length]; change (256 ^ Z.of_nat 0) with 1; lia|].
  cbn [app le_combine length]. rewrite IH, Nat2Z.inj_succ, Z.pow_succ_r by lia. lia.
Qed.

Lemma le_combine_take k l :
  bytes_ok l → le_combine (take k l) = le_combine l mod 256 ^ Z.of_nat k.
Proof.
  intros H. destruct (Nat.le_gt_cases k (length l)) as [Hk|Hk].
  - rewrite <- (take_drop k l) at 2. rewrite le_combine_app, length_take_le by done.
    rewrite (Z.mul_comm (256 ^ _)), Z.mod_add by (apply Z.pow_nonzero; lia).
    symmetry. apply Z.mod_small.
    pose proof (le_combine_range (take k l)) as R. rewrite length_take_le in R by done.
    apply R. by apply Forall_take.
  - rewrite take_ge by lia. symmetry. apply Z.mod_small.
    pose proof (le_combine_range l H).
    enough (256 ^ Z.of_nat (length l) <= 256 ^ Z.of_nat k) by lia.
    apply Z.pow_le_mono_r; lia.
Qed.

Lemma le_combine_drop k l :
  bytes_ok l → (k ≤ length l)%nat → le_combine (drop k l) = le_combine l / 256 ^ Z.of_nat k.
Proof.
  intros H Hk. rewrite <- (take_drop k l) at 2. rewrite le_combine_app, length_take_le by done.
  rewrite (Z.mul_comm (256 ^ _)), Z.div_add by (apply Z.pow_nonzero; lia).
  rewrite Z.div_small; [lia|].
  pose proof (le_combine_range (take k l)) as R. rewrite length_take_le in R by done.
  apply R. by apply Forall_take.
Qed.

Lemma lookup_nth {A} (l : list A) k d : (k < length l)%nat → l !! k = Some (nth k l d).
Proof. intros. destruct (nth_lookup_or_length l k d); [done|lia]. Qed.

Lemma Forall_nth_lt {A} (P : A → Prop) l k d : Forall P l → (k < length l)%nat → P (nth k l d).
Proof. intros H Hk. eapply Forall_lookup_1; [exact H|]. by apply lookup_nth. Qed.

(** ** Bitwise operations *)

(** The bits of a combined buffer are the bits of its bytes. *)
Lemma le_combine_testbit l i :
  bytes_ok l → 0 <= i →
  Z.testbit (le_combine l) i = Z.testbit (nth (Z.to_nat (i / 8)) l 0) (i mod 8).
Proof.
  intros H. revert i. induction H as [|b l Hb Hl IH]; intros i Hi.
  { cbn [le_combine]. rewrite Z.bits_0. destruct (Z.to_nat (i / 8)); cbn; by rewrite Z.bits_0. }
  cbn [le_combine]. unfold is_byte in Hb.
  destruct (Z.lt_ge_cases i 8) as [H8|H8].
  - rewrite Z.div_small, Z.mod_small by lia. cbn [nth Z.to_nat].
    rewrite <- (Z.mod_pow2_bits_low _ 8) by lia. change (2 ^ 8) with 256.
    rewrite (Z.mul_comm 256), Z.mod_add, Z.mod_small by lia. done.
  - replace i with ((i - 8) + 8) at 1 by lia. rewrite <- Z.div_pow2_bits by lia.
    change (2 ^ 8) with 256. rewrite (Z.mul_comm 256), Z.div_add, Z.div_small, Z.add_0_l by lia.
    rewrite IH by lia.
    replace (Z.to_nat (i / 8)) with (S (Z.to_nat ((i - 8) / 8))).
    2:{ replace (i / 8) with ((i - 8) / 8 + 1) by (rewrite <- Z.div_add by lia; f_equal; lia).
        pose proof (Z.div_pos (i - 8) 8). lia. }
    cbn [nth]. f_equal. replace i with (i - 8 + 1 * 8) at 2 by lia. symmetry. apply Z.mod_add. lia.
Qed.

(** A property of the integers of a range is decided by evaluating it. *)
Lemma forall_range (n : Z) (f : Z → bool) :
  forallb f (seqZ 0 n) = true → ∀ i, 0 <= i < n → f i = true.
Proof.
  intros H i Hi. rewrite forallb_forall in H. apply H.
  apply list_elem_of_In, elem_of_seqZ. lia.
Qed.

Lemma forall_byte (f : Z → bool) :
  forallb f (seqZ 0 256) = true → ∀ b, is_byte b → f b = true.
Proof. exact (forall_range 256 f). Qed.

Lemma lor_add n a b : 0 <= n → a mod 2 ^ n = 0 → 0 <= b < 2 ^ n → Z.lor a b = a + b.
Proof.
  intros Hn Ha Hb. pose proof (Z.add_lor_land a b) as E.
  enough (Z.land a b = 0) by lia.
  apply Z.bits_inj_0. intros i. rewrite Z.land_spec.
  destruct (Z.lt_ge_cases i 0) as [|Hi0]; [by rewrite !Z.testbit_neg_r|].
  destruct (Z.lt_ge_cases i n) as [Hi|Hi].
  - rewrite <- (Z.mod_pow2_bits_low a n i) by lia. by rewrite Ha, Z.bits_0.
  - rewrite <- (Z.mod_small b (2 ^ n)), Z.mod_pow2_bits_high, andb_false_r by lia. done.
Qed.

Lemma land_high_bit b : is_byte b → (Z.land b 128 =? 0) = (b <? 128).
Proof.
  intros H. apply eqb_prop.
  exact (forall_byte (λ b, eqb (Z.land b 128 =? 0) (b <? 128)) eq_refl b H).
Qed.

(** [blor]: rewrite an [or] of shifted bytes as the sum it is. *)
Ltac blor :=
  repeat match goal with
  | |- context [Z.lor ?a ?b] =>
      lazymatch a with context [Z.lor _ _] => fail | _ => idtac end;
      first
        [ rewrite (lor_add 24 a b) by (zpow; zdm)
        | rewrite (lor_add 16 a b) by (zpow; zdm)
        | rewrite (lor_add 8 a b) by (zpow; zdm) ]
  end.

(** Splitting a byte buffer that is long enough, keeping the bytes' ranges. *)
Ltac split_bytes H :=
  repeat match type of H with
  | bytes_ok (_ :: _) => apply Forall_cons in H as [? H]
  end.

(** ** Outcomes of loops

    A function whose loops are bounded by the data, not by the structure of a
    list, takes fuel: its result, undefined behaviour, or fuel exhausted. *)
Inductive run (A : Type) :=
  | Ret (a : A)
  | Undef
  | NoFuel.
Arguments Ret {A} a.
Arguments Undef {A}.
Arguments NoFuel {A}.

#[export] Instance run_ret : MRet run := @Ret.
#[export] Instance run_bind : MBind run := λ A B f m,
  match m with Ret a => f a | Undef => Undef | NoFuel => NoFuel end.

Definition of_option {A} (o : option A) : run A :=
  match o with Some a => Ret a | None => Undef end.

(** ** C strings *)

(** [strlen] reads up to the terminator; a buffer without one is overrun. *)
Fixpoint c_strlen (l : list Z) : option Z :=
  match l with
  | [] => None
  | b :: l => if b =? 0 then Some 0 else n ← c_strlen l; Some (1 + n)
  end.

(** The contents of a C string. *)
Definition c_string (l : list Z) : option (list Z) :=
  n ← c_strlen l; Some (take (Z.to_nat n) l).

Definition no_nul : list Z → Prop := Forall (λ b, b ≠ 0).

Lemma c_strlen_app s r : no_nul s → c_strlen (s ++ 0 :: r) = Some (Z.of_nat (length s)).
Proof.
  induction 1 as [|b s Hb Hs IH]; [done|]. cbn [app c_strlen].
  destruct (Z.eqb_spec b 0); [done|]. rewrite IH. cbn [mbind option_bind length]. f_equal. lia.
Qed.

Lemma c_string_app s r : no_nul s → c_string (s ++ 0 :: r) = Some s.
Proof.
  intros H. unfold c_string. rewrite c_strlen_app by done. cbn [mbind option_bind].
  by rewrite Nat2Z.id, take_app_length.
Qed.

(** ** Strings *)

Lemma app_assoc_s a b c : (a +:+ b) +:+ c = a +:+ (b +:+ c).
Proof. induction a as [|x a IH]; [done|]. exact (f_equal (String x) IH). Qed.

Lemma length_app_s a b : String.length (a +:+ b) = (String.length a + String.length b)%nat.
Proof. induction a as [|x a IH]; [done|]. exact (f_equal S IH). Qed.

Lemma app_nil_s a : a +:+ EmptyString = a.
Proof. induction a as [|x a IH]; [done|]. exact (f_equal (String x) IH). Qed.

Lemma substring_prefix a b : String.substring 0 (String.length a) (a +:+ b) = a.
Proof. induction a as [|x a IH]; [by destruct b|]. exact (f_equal (String x) IH). Qed.

(** The bytes of a string. *)
Definition string_bytes (s : string) : list Z :=
  map (λ c, Z.of_nat (Ascii.nat_of_ascii c)) (String.list_ascii_of_string s).

(** The string of some bytes. *)
Definition bytes_string (l : list Z) : string :=
  String.string_of_list_ascii (map (λ b, Ascii.ascii_of_nat (Z.to_nat b)) l).

Lemma bytes_string_bytes s : bytes_string (string_bytes s) = s.
Proof.
  unfold bytes_string, string_bytes. induction s as [|c s IH]; [done|]. cbn. rewrite Nat2Z.id, Ascii.ascii_nat_embedding.
  by rewrite IH.
Qed.

(** What a [char*] shows of a string: its characters up to the first terminator. *)
Fixpoint c_str (s : string) : string :=
  match s with
  | EmptyString => EmptyString
  | String c s => if Ascii.eqb c Ascii.zero then EmptyString else String c (c_str s)
  end.

Lemma c_str_app a b : c_str a = a → c_str (a +:+ b) = a +:+ c_str b.
Proof.
  induction a as [|c a IH]; [done|]. change (String c a +:+ b) with (String c (a +:+ b)).
  cbn [c_str]. destruct (Ascii.eqb c Ascii.zero); [done|]. intros [= E]. by rewrite IH.
Qed.

(** ** Fields of a buffer *)

Lemma drop_app_at {A} k (pre l : list A) : length pre = k → drop k (pre ++ l) = l.
Proof. intros. by apply drop_app_length'. Qed.
