(* ===== verification/ByteOrder.v ===== *)
(** Byte order: the little-endian readers and writers of
    [binlog/include/my_byteorder.h] in their x86 version
    ([byte_order_generic_x86.h], module [X86]) and portable version
    ([byte_order_generic.h], module [Portable]), and the big-endian macros of
    [binlog/include/myisampack.h].  A [const uchar *A] is the list of the bytes
    from the pointer to the end of its buffer; a read beyond the end, which C
    leaves undefined, is [None].  A store returns the bytes it writes at its
    pointer, in address order. *)
From S2P Require Import Prelude.

(** [memcpy] of [n] bytes out of a buffer. *)
Definition load (n : nat) (A : list Z) : option (list Z) :=
  if decide (n ≤ length A)%nat then Some (take n A) else None.

(** Shifts performed in a 32-bit or 64-bit unsigned type. *)
Definition shl32 (a n : Z) : Z := u32 (a .<< n).
Definition shl64 (a n : Z) : Z := u64 (a .<< n).

Module X86.
(** An unaligned integer access: the machine is little endian. *)
Definition sint2korr (A : list Z) : option Z :=
  b ← load 2 A; Some (s16 (le_combine b)).
Definition sint4korr (A : list Z) : option Z :=
  b ← load 4 A; Some (s32 (le_combine b)).
Definition uint2korr (A : list Z) : option Z :=
  b ← load 2 A; Some (u16 (le_combine b)).
Definition uint4korr (A : list Z) : option Z :=
  b ← load 4 A; Some (u32 (le_combine b)).
Definition uint8korr (A : list Z) : option Z :=
  b ← load 8 A; Some (u64 (le_combine b)).
Definition sint8korr (A : list Z) : option Z :=
  b ← load 8 A; Some (s64 (le_combine b)).
Definition int2store (A : Z) : list Z := le_split 2 (u16 A).
Definition int4store (A : Z) : list Z := le_split 4 (u32 A).
Definition int8store (A : Z) : list Z := le_split 8 (u64 A).
End X86.

Module Portable.
Definition sint2korr (A : list Z) : option Z :=
  a0 ← A !! 0%nat; a1 ← A !! 1%nat;
  Some (s16 (s16 a0 + (s16 a1 .<< 8))).
Definition sint4korr (A : list Z) : option Z :=
  a0 ← A !! 0%nat; a1 ← A !! 1%nat; a2 ← A !! 2%nat; a3 ← A !! 3%nat;
  Some (s32 (s32 a0 + (s32 a1 .<< 8) + (s32 a2 .<< 16) + s32 (s32 a3 .<< 24))).
Definition uint2korr (A : list Z) : option Z :=
  a0 ← A !! 0%nat; a1 ← A !! 1%nat;
  Some (u16 (u16 a0 + (u16 a1 .<< 8))).
Definition uint4korr (A : list Z) : option Z :=
  a0 ← A !! 0%nat; a1 ← A !! 1%nat; a2 ← A !! 2%nat; a3 ← A !! 3%nat;
  Some (u32 (u32 a0 + shl32 a1 8 + shl32 a2 16 + shl32 a3 24)).
Definition uint8korr (A : list Z) : option Z :=
  a0 ← A !! 0%nat; a1 ← A !! 1%nat; a2 ← A !! 2%nat; a3 ← A !! 3%nat;
  a4 ← A !! 4%nat; a5 ← A !! 5%nat; a6 ← A !! 6%nat; a7 ← A !! 7%nat;
  Some (u64 (u32 (u32 a0 + shl32 a1 8 + shl32 a2 16 + shl32 a3 24) +
             shl64 (u32 (u32 a4 + shl32 a5 8 + shl32 a6 16 + shl32 a7 24)) 32)).
Definition sint8korr (A : list Z) : option Z :=
  v ← uint8korr A; Some (s64 v).
Definition int2store (A : Z) : list Z :=
  let def_temp := u32 (u16 A) in [u8 def_temp; u8 (def_temp .>> 8)].
Definition int4store (A : Z) : list Z :=
  let A := u32 A in [u8 A; u8 (A .>> 8); u8 (A .>> 16); u8 (A .>> 24)].
Definition int8store (A : Z) : list Z :=
  let A := u64 A in
  let def_temp := u32 A in
  let def_temp2 := u32 (A .>> 32) in
  int4store def_temp ++ int4store def_temp2.
End Portable.

Export X86.

(** ** [my_byteorder.h]: the readers and writers common to both versions *)

Definition sint3korr (A : list Z) : option Z :=
  a0 ← A !! 0%nat; a1 ← A !! 1%nat; a2 ← A !! 2%nat;
  Some (s32 (if negb (a2 .& 128 =? 0)
             then shl32 255 24 .| shl32 a2 16 .| shl32 a1 8 .| u32 a0
             else shl32 a2 16 .| shl32 a1 8 .| u32 a0)).

Definition uint3korr (A : list Z) : option Z :=
  a0 ← A !! 0%nat; a1 ← A !! 1%nat; a2 ← A !! 2%nat;
  Some (u32 (u32 a0 + shl32 a1 8 + shl32 a2 16)).

Definition uint5korr (A : list Z) : option Z :=
  a0 ← A !! 0%nat; a1 ← A !! 1%nat; a2 ← A !! 2%nat; a3 ← A !! 3%nat;
  a4 ← A !! 4%nat;
  Some (u64 (u32 (u32 a0 + shl32 a1 8 + shl32 a2 16 + shl32 a3 24) + shl64 a4 32)).

Definition uint6korr (A : list Z) : option Z :=
  a0 ← A !! 0%nat; a1 ← A !! 1%nat; a2 ← A !! 2%nat; a3 ← A !! 3%nat;
  a4 ← A !! 4%nat; a5 ← A !! 5%nat;
  Some (u64 (u32 (u32 a0 + shl32 a1 8 + shl32 a2 16 + shl32 a3 24) +
             shl64 a4 32 + shl64 a5 40)).

Definition int3store (A : Z) : list Z :=
  let A := u32 A in [u8 A; u8 (A .>> 8); u8 (A .>> 16)].
Definition int5store (A : Z) : list Z :=
  let A := u64 A in
  [u8 A; u8 (A .>> 8); u8 (A .>> 16); u8 (A .>> 24); u8 (A .>> 32)].
Definition int6store (A : Z) : list Z :=
  let A := u64 A in
  [u8 A; u8 (A .>> 8); u8 (A .>> 16); u8 (A .>> 24); u8 (A .>> 32); u8 (A .>> 40)].

(** ** [byteorder.h]: conversions from file order to host order *)
Section HostOrder.
Variable IS_BIG_ENDIAN : bool.

Definition le16toh (x : Z) : Z :=
  if negb IS_BIG_ENDIAN then x else u16 ((x .>> 8) .| (x .<< 8)).
Definition le32toh (x : Z) : Z :=
  if negb IS_BIG_ENDIAN then x
  else ((x .>> 24) .& 0xff) .| (shl32 x 8 .& 0xff0000) .|
       ((x .>> 8) .& 0xff00) .| (shl32 x 24 .& 0xff000000).
Definition be32toh (x : Z) : Z :=
  if negb IS_BIG_ENDIAN
  then ((x .>> 24) .& 0xff) .| (shl32 x 8 .& 0xff0000) .|
       ((x .>> 8) .& 0xff00) .| (shl32 x 24 .& 0xff000000)
  else x.
Definition le64toh (x : Z) : Z :=
  if negb IS_BIG_ENDIAN then x
  else
    let x := (shl64 x 8 .& 0xff00ff00ff00ff00) .| ((x .>> 8) .& 0x00ff00ff00ff00ff) in
    let x := (shl64 x 16 .& 0xffff0000ffff0000) .| ((x .>> 16) .& 0x0000ffff0000ffff) in
    shl64 x 32 .| (x .>> 32).
End HostOrder.

(** ** [myisampack.h]: high byte first *)

Definition mi_sint1korr (A : list Z) : option Z := a0 ← A !! 0%nat; Some (s8 a0).
Definition mi_uint1korr (A : list Z) : option Z := a0 ← A !! 0%nat; Some (u8 a0).

Definition mi_sint2korr (A : list Z) : option Z :=
  a0 ← A !! 0%nat; a1 ← A !! 1%nat;
  Some (s16 (s16 a1 + (s16 (s8 a0) .<< 8))).

Definition mi_sint3korr (A : list Z) : option Z :=
  a0 ← A !! 0%nat; a1 ← A !! 1%nat; a2 ← A !! 2%nat;
  Some (s32 (if negb (a0 .& 128 =? 0)
             then shl32 255 24 .| shl32 a0 16 .| shl32 a1 8 .| u32 a2
             else shl32 a0 16 .| shl32 a1 8 .| u32 a2)).

Definition mi_sint4korr (A : list Z) : option Z :=
  a0 ← A !! 0%nat; a1 ← A !! 1%nat; a2 ← A !! 2%nat; a3 ← A !! 3%nat;
  Some (s32 (s32 a3 + (s32 a2 .<< 8) + (s32 a1 .<< 16) +
             s32 (s16 (s8 a0) .<< 24))).

Definition mi_uint2korr (A : list Z) : option Z :=
  a0 ← A !! 0%nat; a1 ← A !! 1%nat;
  Some (u16 (u16 a1 + (u16 a0 .<< 8))).

Definition mi_uint3korr (A : list Z) : option Z :=
  a0 ← A !! 0%nat; a1 ← A !! 1%nat; a2 ← A !! 2%nat;
  Some (u32 (u32 a2 + shl32 a1 8 + shl32 a0 16)).

Definition mi_uint4korr (A : list Z) : option Z :=
  a0 ← A !! 0%nat; a1 ← A !! 1%nat; a2 ← A !! 2%nat; a3 ← A !! 3%nat;
  Some (u32 (u32 a3 + shl32 a2 8 + shl32 a1 16 + shl32 a0 24)).

Definition mi_uint5korr (A : list Z) : option Z :=
  a0 ← A !! 0%nat; a1 ← A !! 1%nat; a2 ← A !! 2%nat; a3 ← A !! 3%nat;
  a4 ← A !! 4%nat;
  Some (u64 (u32 (u32 a4 + shl32 a3 8 + shl32 a2 16 + shl32 a1 24) + shl64 a0 32)).

Definition mi_uint6korr (A : list Z) : option Z :=
  a0 ← A !! 0%nat; a1 ← A !! 1%nat; a2 ← A !! 2%nat; a3 ← A !! 3%nat;
  a4 ← A !! 4%nat; a5 ← A !! 5%nat;
  Some (u64 (u32 (u32 a5 + shl32 a4 8 + shl32 a3 16 + shl32 a2 24) +
             shl64 (u32 (u32 a1 + shl32 a0 8)) 32)).

Definition mi_uint7korr (A : list Z) : option Z :=
  a0 ← A !! 0%nat; a1 ← A !! 1%nat; a2 ← A !! 2%nat; a3 ← A !! 3%nat;
  a4 ← A !! 4%nat; a5 ← A !! 5%nat; a6 ← A !! 6%nat;
  Some (u64 (u32 (u32 a6 + shl32 a5 8 + shl32 a4 16 + shl32 a3 24) +
             shl64 (u32 (u32 a2 + shl32 a1 8 + shl32 a0 16)) 32)).

Definition mi_uint8korr (A : list Z) : option Z :=
  a0 ← A !! 0%nat; a1 ← A !! 1%nat; a2 ← A !! 2%nat; a3 ← A !! 3%nat;
  a4 ← A !! 4%nat; a5 ← A !! 5%nat; a6 ← A !! 6%nat; a7 ← A !! 7%nat;
  Some (u64 (u32 (u32 a7 + shl32 a6 8 + shl32 a5 16 + shl32 a4 24) +
             shl64 (u32 (u32 a3 + shl32 a2 8 + shl32 a1 16 + shl32 a0 24)) 32)).

Definition mi_sint8korr (A : list Z) : option Z :=
  v ← mi_uint8korr A; Some (s64 v).

Definition mi_int1store (A : Z) : list Z := [u8 A].
Definition mi_int2store (A : Z) : list Z :=
  let def_temp := u32 A in [u8 (def_temp .>> 8); u8 def_temp].
Definition mi_int3store (A : Z) : list Z :=
  let def_temp := u32 A in
  [u8 (def_temp .>> 16); u8 (def_temp .>> 8); u8 def_temp].
Definition mi_int4store (A : Z) : list Z :=
  let def_temp := u32 A in
  [u8 (def_temp .>> 24); u8 (def_temp .>> 16); u8 (def_temp .>> 8); u8 def_temp].
Definition mi_int5store (A : Z) : list Z :=
  let def_temp := u32 A in
  let def_temp2 := u32 (A .>> 32) in
  [u8 def_temp2;
   u8 (def_temp .>> 24); u8 (def_temp .>> 16); u8 (def_temp .>> 8); u8 def_temp].
Definition mi_int6store (A : Z) : list Z :=
  let def_temp := u32 A in
  let def_temp2 := u32 (A .>> 32) in
  [u8 (def_temp2 .>> 8); u8 def_temp2;
   u8 (def_temp .>> 24); u8 (def_temp .>> 16); u8 (def_temp .>> 8); u8 def_temp].
Definition mi_int7store (A : Z) : list Z :=
  let def_temp := u32 A in
  let def_temp2 := u32 (A .>> 32) in
  [u8 (def_temp2 .>> 16); u8 (def_temp2 .>> 8); u8 def_temp2;
   u8 (def_temp .>> 24); u8 (def_temp .>> 16); u8 (def_temp .>> 8); u8 def_temp].
Definition mi_int8store (A : Z) : list Z :=
  let def_temp3 := u32 A in
  let def_temp4 := u32 (A .>> 32) in
  mi_int4store def_temp4 ++ mi_int4store def_temp3.

(** ** Every reader is the positional value of the bytes it reads *)

(** [chop A]: case analysis on the first bytes of [A], with their ranges. *)
Ltac chop1 A :=
  let a := fresh "a" in
  let A' := fresh "A" in
  destruct A as [|a A'];
  [cbn; done
  |match goal with H : bytes_ok (_ :: _) |- _ => apply Forall_cons in H as [? H] end].

Ltac chop n :=
  match n with
  | O => idtac
  | S ?m => match goal with H : bytes_ok ?A |- _ => chop1 A; [..|chop m] end
  end.

Create HintDb korr.
#[export] Hint Unfold sint2korr sint4korr uint2korr uint4korr uint8korr sint8korr
  Portable.sint2korr Portable.sint4korr Portable.uint2korr Portable.uint4korr
  Portable.uint8korr Portable.sint8korr
  sint3korr uint3korr uint5korr uint6korr
  mi_sint1korr mi_uint1korr mi_sint2korr mi_sint3korr mi_sint4korr
  mi_uint2korr mi_uint3korr mi_uint4korr mi_uint5korr mi_uint6korr mi_uint7korr
  mi_uint8korr mi_sint8korr : korr.

Lemma load_some n A : (n ≤ length A)%nat → load n A = Some (take n A).
Proof. intros. unfold load. by rewrite decide_True. Qed.

Lemma load_app n A B : length A = n → load n (A ++ B) = Some A.
Proof.
  intros. rewrite load_some by (rewrite length_app; lia). by rewrite take_app_length'.
Qed.

(** Reduce a reader to its arithmetic, then the sums of shifted bytes. *)
Ltac korr_arith :=
  unfold shl32, shl64; rewrite ?land_high_bit by done;
  try match goal with |- context [negb (?b <? 128)] => destruct (Z.ltb_spec b 128); cbn [negb] end;
  zshift; zmod_small; blor; zmod_small; zdm.

Ltac korr_solve :=
  autounfold with korr; rewrite ?load_some by (cbn; lia); cbn;
  rewrite ?take_0; cbn; f_equal; korr_arith.

(** The readers against the positional value: [load n] fails exactly when the
    buffer is too short. *)
Ltac korr n := intros; chop n; korr_solve.

Lemma uint2korr_le A : bytes_ok A → uint2korr A = le_combine <$> load 2 A.
Proof. korr 2%nat. Qed.
Lemma uint3korr_le A : bytes_ok A → uint3korr A = le_combine <$> load 3 A.
Proof. korr 3%nat. Qed.
Lemma uint4korr_le A : bytes_ok A → uint4korr A = le_combine <$> load 4 A.
Proof. korr 4%nat. Qed.
Lemma uint5korr_le A : bytes_ok A → uint5korr A = le_combine <$> load 5 A.
Proof. korr 5%nat. Qed.
Lemma uint6korr_le A : bytes_ok A → uint6korr A = le_combine <$> load 6 A.
Proof. korr 6%nat. Qed.
Lemma uint8korr_le A : bytes_ok A → uint8korr A = le_combine <$> load 8 A.
Proof. korr 8%nat. Qed.
Lemma sint2korr_le A : bytes_ok A → sint2korr A = (λ b, s16 (le_combine b)) <$> load 2 A.
Proof. korr 2%nat. Qed.
Lemma sint3korr_le A : bytes_ok A → sint3korr A = (λ b, swrap 24 (le_combine b)) <$> load 3 A.
Proof. korr 3%nat. Qed.
Lemma sint4korr_le A : bytes_ok A → sint4korr A = (λ b, s32 (le_combine b)) <$> load 4 A.
Proof. korr 4%nat. Qed.
Lemma sint8korr_le A : bytes_ok A → sint8korr A = (λ b, s64 (le_combine b)) <$> load 8 A.
Proof. korr 8%nat. Qed.

Lemma mi_uint2korr_be A : bytes_ok A → mi_uint2korr A = be_combine <$> load 2 A.
Proof. korr 2%nat. Qed.
Lemma mi_uint3korr_be A : bytes_ok A → mi_uint3korr A = be_combine <$> load 3 A.
Proof. korr 3%nat. Qed.
Lemma mi_uint4korr_be A : bytes_ok A → mi_uint4korr A = be_combine <$> load 4 A.
Proof. korr 4%nat. Qed.
Lemma mi_uint5korr_be A : bytes_ok A → mi_uint5korr A = be_combine <$> load 5 A.
Proof. korr 5%nat. Qed.
Lemma mi_uint6korr_be A : bytes_ok A → mi_uint6korr A = be_combine <$> load 6 A.
Proof. korr 6%nat. Qed.
Lemma mi_uint7korr_be A : bytes_ok A → mi_uint7korr A = be_combine <$> load 7 A.
Proof. korr 7%nat. Qed.
Lemma mi_uint8korr_be A : bytes_ok A → mi_uint8korr A = be_combine <$> load 8 A.
Proof. korr 8%nat. Qed.
Lemma mi_sint1korr_be A : bytes_ok A → mi_sint1korr A = (λ b, s8 (be_combine b)) <$> load 1 A.
Proof. korr 1%nat. Qed.
Lemma mi_sint2korr_be A : bytes_ok A → mi_sint2korr A = (λ b, s16 (be_combine b)) <$> load 2 A.
Proof. korr 2%nat. Qed.
Lemma mi_sint3korr_be A : bytes_ok A → mi_sint3korr A = (λ b, swrap 24 (be_combine b)) <$> load 3 A.
Proof. korr 3%nat. Qed.
Lemma mi_sint4korr_be A : bytes_ok A → mi_sint4korr A = (λ b, s32 (be_combine b)) <$> load 4 A.
Proof. korr 4%nat. Qed.
Lemma mi_sint8korr_be A : bytes_ok A → mi_sint8korr A = (λ b, s64 (be_combine b)) <$> load 8 A.
Proof.
  intros H. unfold mi_sint8korr. rewrite mi_uint8korr_be by done. by destruct (load 8 A).
Qed.

(** ** Every writer is the positional split of the value it stores *)

(** A stored byte, bit by bit: casts and shifts only move or drop bits. *)
Ltac byte_bits :=
  change 256 with (2 ^ 8); rewrite <- ?Z.shiftr_div_pow2 by lia; unfold wrap;
  apply Z.bits_inj'; intros i ?;
  destruct (Z.lt_ge_cases i 8);
  [ repeat first [rewrite Z.mod_pow2_bits_low by lia | rewrite Z.shiftr_spec by lia];
    f_equal; lia
  | by rewrite !(Z.mod_pow2_bits_high _ 8) by lia ].

Ltac store_solve :=
  intros; unfold be_split;
  cbv [int3store int5store int6store Portable.int2store Portable.int4store
       Portable.int8store int2store int4store int8store
       mi_int1store mi_int2store mi_int3store mi_int4store mi_int5store
       mi_int6store mi_int7store mi_int8store app
       le_split reverse rev_append];
  repeat (apply (f_equal2 cons); [byte_bits|]); reflexivity.

Lemma int3store_le v : int3store v = le_split 3 v.
Proof. store_solve. Qed.
Lemma int5store_le v : int5store v = le_split 5 v.
Proof. store_solve. Qed.
Lemma int6store_le v : int6store v = le_split 6 v.
Proof. store_solve. Qed.
Lemma int2store_le v : int2store v = le_split 2 v.
Proof. store_solve. Qed.
Lemma int4store_le v : int4store v = le_split 4 v.
Proof. store_solve. Qed.
Lemma int8store_le v : int8store v = le_split 8 v.
Proof. store_solve. Qed.

Lemma mi_int2store_be v : mi_int2store v = be_split 2 v.
Proof. store_solve. Qed.
Lemma mi_int3store_be v : mi_int3store v = be_split 3 v.
Proof. store_solve. Qed.
Lemma mi_int4store_be v : mi_int4store v = be_split 4 v.
Proof. store_solve. Qed.
Lemma mi_int5store_be v : mi_int5store v = be_split 5 v.
Proof. store_solve. Qed.
Lemma mi_int6store_be v : mi_int6store v = be_split 6 v.
Proof. store_solve. Qed.
Lemma mi_int7store_be v : mi_int7store v = be_split 7 v.
Proof. store_solve. Qed.
Lemma mi_int8store_be v : mi_int8store v = be_split 8 v.
Proof. store_solve. Qed.

(** ** Round trips *)

Lemma swrap_mod w v : 0 < w → swrap w (v mod 2 ^ w) = swrap w v.
Proof. intros. unfold swrap. by rewrite Zplus_mod_idemp_l. Qed.

Lemma split_app_bytes n v r : bytes_ok r → bytes_ok (be_split n v ++ r).
Proof. intros. apply Forall_app; auto with cint. Qed.
#[export] Hint Resolve split_app_bytes : cint.

Ltac mi_roundtrip v :=
  rewrite ?mi_int2store_be, ?mi_int3store_be, ?mi_int4store_be, ?mi_int5store_be,
    ?mi_int6store_be, ?mi_int7store_be, ?mi_int8store_be;
  rewrite ?mi_uint2korr_be, ?mi_uint3korr_be, ?mi_uint4korr_be, ?mi_uint5korr_be,
    ?mi_uint6korr_be, ?mi_uint7korr_be, ?mi_uint8korr_be,
    ?mi_sint2korr_be, ?mi_sint3korr_be, ?mi_sint4korr_be, ?mi_sint8korr_be
    by auto with cint;
  rewrite load_app by apply length_be_split;
  cbn [fmap option_fmap option_map]; f_equal;
  rewrite be_combine_split;
  first [done | by rewrite <- (swrap_mod _ v) by lia].

Lemma mi_uint2korr_store v r : bytes_ok r → mi_uint2korr (mi_int2store v ++ r) = Some (v mod 2 ^ 16).
Proof. intros. mi_roundtrip v. Qed.
Lemma mi_uint3korr_store v r : bytes_ok r → mi_uint3korr (mi_int3store v ++ r) = Some (v mod 2 ^ 24).
Proof. intros. mi_roundtrip v. Qed.
Lemma mi_uint4korr_store v r : bytes_ok r → mi_uint4korr (mi_int4store v ++ r) = Some (v mod 2 ^ 32).
Proof. intros. mi_roundtrip v. Qed.
Lemma mi_uint5korr_store v r : bytes_ok r → mi_uint5korr (mi_int5store v ++ r) = Some (v mod 2 ^ 40).
Proof. intros. mi_roundtrip v. Qed.
Lemma mi_uint6korr_store v r : bytes_ok r → mi_uint6korr (mi_int6store v ++ r) = Some (v mod 2 ^ 48).
Proof. intros. mi_roundtrip v. Qed.
Lemma mi_uint7korr_store v r : bytes_ok r → mi_uint7korr (mi_int7store v ++ r) = Some (v mod 2 ^ 56).
Proof. intros. mi_roundtrip v. Qed.
Lemma mi_uint8korr_store v r : bytes_ok r → mi_uint8korr (mi_int8store v ++ r) = Some (v mod 2 ^ 64).
Proof. intros. mi_roundtrip v. Qed.
Lemma mi_sint2korr_store v r : bytes_ok r → mi_sint2korr (mi_int2store v ++ r) = Some (s16 v).
Proof. intros. mi_roundtrip v. Qed.
Lemma mi_sint3korr_store v r : bytes_ok r → mi_sint3korr (mi_int3store v ++ r) = Some (swrap 24 v).
Proof. intros. mi_roundtrip v. Qed.
Lemma mi_sint4korr_store v r : bytes_ok r → mi_sint4korr (mi_int4store v ++ r) = Some (s32 v).
Proof. intros. mi_roundtrip v. Qed.
Lemma mi_sint8korr_store v r : bytes_ok r → mi_sint8korr (mi_int8store v ++ r) = Some (s64 v).
Proof. intros. mi_roundtrip v. Qed.

(** A stored value read back, for every width and both signednesses of the
    big-endian macros. *)
(** Storing any integer with a big-endian [mi_intNstore] macro and reading
    it back with [mi_uintNkorr] yields it modulo 2^8N, and with [mi_sintNkorr]
    its two's-complement reduction, whatever follows in the buffer. *)
Theorem mi_store_korr_roundtrip v r :
  bytes_ok r →
  (mi_uint2korr (mi_int2store v ++ r) = Some (v mod 2 ^ 16) ∧
   mi_uint3korr (mi_int3store v ++ r) = Some (v mod 2 ^ 24) ∧
   mi_uint4korr (mi_int4store v ++ r) = Some (v mod 2 ^ 32) ∧
   mi_uint5korr (mi_int5store v ++ r) = Some (v mod 2 ^ 40) ∧
   mi_uint6korr (mi_int6store v ++ r) = Some (v mod 2 ^ 48) ∧
   mi_uint7korr (mi_int7store v ++ r) = Some (v mod 2 ^ 56) ∧
   mi_uint8korr (mi_int8store v ++ r) = Some (v mod 2 ^ 64)) ∧
  (mi_sint2korr (mi_int2store v ++ r) = Some (s16 v) ∧
   mi_sint3korr (mi_int3store v ++ r) = Some (swrap 24 v) ∧
   mi_sint4korr (mi_int4store v ++ r) = Some (s32 v) ∧
   mi_sint8korr (mi_int8store v ++ r) = Some (s64 v)).
Proof.
  intros H. split_and!.
  - exact (mi_uint2korr_store v r H).
  - exact (mi_uint3korr_store v r H).
  - exact (mi_uint4korr_store v r H).
  - exact (mi_uint5korr_store v r H).
  - exact (mi_uint6korr_store v r H).
  - exact (mi_uint7korr_store v r H).
  - exact (mi_uint8korr_store v r H).
  - exact (mi_sint2korr_store v r H).
  - exact (mi_sint3korr_store v r H).
  - exact (mi_sint4korr_store v r H).
  - exact (mi_sint8korr_store v r H).
Qed.

Lemma mi_store_korr_roundtrip_witness :
  mi_sint3korr (mi_int3store (-2) ++ [7]) = Some (-2) ∧
  mi_uint3korr (mi_int3store (-2) ++ [7]) = Some 16777214.
Proof.
  assert (H : bytes_ok [7]) by (repeat constructor; unfold is_byte; lia).
  destruct (mi_store_korr_roundtrip (-2) [7] H) as [U S].
  split; [exact (proj1 (proj2 S)) | exact (proj1 (proj2 U))].
Defined.

(** The portable shift-and-add readers and byte-by-byte writers of
    [byte_order_generic.h] compute exactly what the x86 versions read and write
    with one unaligned memory access. *)
Theorem portable_eq_x86 A v :
  bytes_ok A →
  (Portable.sint2korr A = X86.sint2korr A ∧ Portable.sint4korr A = X86.sint4korr A ∧
   Portable.uint2korr A = X86.uint2korr A ∧ Portable.uint4korr A = X86.uint4korr A ∧
   Portable.uint8korr A = X86.uint8korr A ∧ Portable.sint8korr A = X86.sint8korr A) ∧
  (Portable.int2store v = X86.int2store v ∧ Portable.int4store v = X86.int4store v ∧
   Portable.int8store v = X86.int8store v).
Proof.
  intros H. split_and!.
  - rewrite sint2korr_le by done. revert H. revert A. korr 2%nat.
  - rewrite sint4korr_le by done. revert H. revert A. korr 4%nat.
  - rewrite uint2korr_le by done. revert H. revert A. korr 2%nat.
  - rewrite uint4korr_le by done. revert H. revert A. korr 4%nat.
  - rewrite uint8korr_le by done. revert H. revert A. korr 8%nat.
  - rewrite sint8korr_le by done. revert H. revert A. korr 8%nat.
  - rewrite int2store_le. store_solve.
  - rewrite int4store_le. store_solve.
  - rewrite int8store_le. store_solve.
Qed.

Lemma portable_eq_x86_witness :
  Portable.sint2korr [0xfe; 0xff; 3] = X86.sint2korr [0xfe; 0xff; 3] ∧
  X86.sint2korr [0xfe; 0xff; 3] = Some (-2).
Proof.
  assert (H : bytes_ok [0xfe; 0xff; 3]) by (repeat constructor; unfold is_byte; lia).
  split; [exact (proj1 (proj1 (portable_eq_x86 [0xfe; 0xff; 3] 0 H))) | reflexivity].
Defined.
