(* ===== verification/MyBit.v ===== *)
(** Bit functions of [binlog/include/my_bit.h]: population count by table
    lookup, logarithm, next power of two.  Reference: the bits of the value as
    [Z.testbit] sees them. *)
From S2P Require Import Prelude.

Definition _my_bits_nbits : list Z :=
  [0; 1; 1; 2; 1; 2; 2; 3; 1; 2; 2; 3; 2; 3; 3; 4;
   1; 2; 2; 3; 2; 3; 3; 4; 2; 3; 3; 4; 3; 4; 4; 5;
   1; 2; 2; 3; 2; 3; 3; 4; 2; 3; 3; 4; 3; 4; 4; 5;
   2; 3; 3; 4; 3; 4; 4; 5; 3; 4; 4; 5; 4; 5; 5; 6;
   1; 2; 2; 3; 2; 3; 3; 4; 2; 3; 3; 4; 3; 4; 4; 5;
   2; 3; 3; 4; 3; 4; 4; 5; 3; 4; 4; 5; 4; 5; 5; 6;
   2; 3; 3; 4; 3; 4; 4; 5; 3; 4; 4; 5; 4; 5; 5; 6;
   3; 4; 4; 5; 4; 5; 5; 6; 4; 5; 5; 6; 5; 6; 6; 7;
   1; 2; 2; 3; 2; 3; 3; 4; 2; 3; 3; 4; 3; 4; 4; 5;
   2; 3; 3; 4; 3; 4; 4; 5; 3; 4; 4; 5; 4; 5; 5; 6;
   2; 3; 3; 4; 3; 4; 4; 5; 3; 4; 4; 5; 4; 5; 5; 6;
   3; 4; 4; 5; 4; 5; 5; 6; 4; 5; 5; 6; 5; 6; 6; 7;
   2; 3; 3; 4; 3; 4; 4; 5; 3; 4; 4; 5; 4; 5; 5; 6;
   3; 4; 4; 5; 4; 5; 5; 6; 4; 5; 5; 6; 5; 6; 6; 7;
   3; 4; 4; 5; 4; 5; 5; 6; 4; 5; 5; 6; 5; 6; 6; 7;
   4; 5; 5; 6; 5; 6; 6; 7; 5; 6; 6; 7; 6; 7; 7; 8].

(** Array access; the index is a [uchar], so it is never out of range. *)
Definition nbits (c : Z) : Z := nth (Z.to_nat (u8 c)) _my_bits_nbits 0.

(** [for (bit=0 ; value > 1 ; value>>=1, bit++) ;] on a 32-bit value: 32
    iterations are enough. *)
Fixpoint my_bit_log2_loop (fuel : nat) (value bit : Z) : option Z :=
  match fuel with
  | O => None
  | S fuel =>
      if 1 <? value then my_bit_log2_loop fuel (value .>> 1) (u32 (bit + 1))
      else Some bit
  end.
Definition my_bit_log2 (value : Z) : option Z := my_bit_log2_loop 32 value 0.

(** Nothing in the tree defines the macro [SIZEOF_LONG_LONG] (an undefined
    macro is 0 in [#if]); the compiler may, so its value is a parameter.
    [ulong] has 32 bits on the platform of the binlog library. *)
Definition my_count_bits (SIZEOF_LONG_LONG : Z) (v : Z) : Z :=
  if 4 <? SIZEOF_LONG_LONG then
    let v2 := u32 (v .>> 32) in
    u32 (u8 (nbits v + nbits (v .>> 8) + nbits (v .>> 16) + nbits (v .>> 24) +
             nbits v2 + nbits (v2 .>> 8) + nbits (v2 .>> 16) + nbits (v2 .>> 24)))
  else
    u32 (u8 (nbits v + nbits (v .>> 8) + nbits (v .>> 16) + nbits (v .>> 24))).

Definition my_count_bits_uint32 (v : Z) : Z :=
  u32 (u8 (nbits v + nbits (v .>> 8) + nbits (v .>> 16) + nbits (v .>> 24))).

Definition my_round_up_to_next_power (v : Z) : Z :=
  let v := u32 (v - 1) in
  let v := v .| (v .>> 1) in
  let v := v .| (v .>> 2) in
  let v := v .| (v .>> 4) in
  let v := v .| (v .>> 8) in
  let v := v .| (v .>> 16) in
  u32 (v + 1).

Definition my_clear_highest_bit (v : Z) : Z :=
  let w := v .>> 1 in
  let w := w .| (w .>> 1) in
  let w := w .| (w .>> 2) in
  let w := w .| (w .>> 4) in
  let w := w .| (w .>> 8) in
  let w := w .| (w .>> 16) in
  v .& w.

(** ** Population count *)

(** The number of bits set among the [n] lowest. *)
Fixpoint popcount (n : nat) (v : Z) : Z :=
  match n with O => 0 | S n => Z.b2z (Z.odd v) + popcount n (Z.div2 v) end.

Lemma popcount_app m n v : popcount (m + n) v = popcount m v + popcount n (v .>> Z.of_nat m).
Proof.
  revert v. induction m as [|m IH]; intros v; cbn [popcount Nat.add].
  - by rewrite Z.shiftr_0_r.
  - rewrite IH, Z.div2_spec, Z.shiftr_shiftr by lia.
    replace (1 + Z.of_nat m) with (Z.of_nat (S m)) by lia. lia.
Qed.

Lemma popcount_mod n v : popcount n (v mod 2 ^ Z.of_nat n) = popcount n v.
Proof.
  revert v. induction n as [|n IH]; intros v; [done|]. cbn [popcount].
  assert (O : Z.odd (v mod 2 ^ Z.of_nat (S n)) = Z.odd v)
    by (rewrite <- !Z.bit0_odd; apply Z.mod_pow2_bits_low; lia).
  assert (D : Z.div2 (v mod 2 ^ Z.of_nat (S n)) = Z.div2 v mod 2 ^ Z.of_nat n).
  { rewrite !Z.div2_div, Nat2Z.inj_succ, Z.pow_succ_r by lia.
    rewrite Z.rem_mul_r by lia. rewrite (Z.mul_comm 2 (_ mod _)), Z.div_add by lia.
    rewrite (Z.div_small (v mod 2)) by (apply Z.mod_pos_bound; lia). lia. }
  by rewrite O, D, IH.
Qed.

Lemma popcount_range n v : 0 <= popcount n v <= Z.of_nat n.
Proof.
  revert v. induction n as [|n IH]; intros v; cbn [popcount]; [lia|].
  specialize (IH (Z.div2 v)). destruct (Z.odd v); cbn; lia.
Qed.

Lemma popcount_0 n : popcount n 0 = 0.
Proof. induction n; cbn; auto. Qed.

(** The count depends on the low bits only. *)
Lemma popcount_bits n v w :
  (∀ i, 0 <= i < Z.of_nat n → Z.testbit v i = Z.testbit w i) → popcount n v = popcount n w.
Proof.
  intros H. rewrite <- (popcount_mod n v), <- (popcount_mod n w). f_equal.
  apply Z.bits_inj'. intros i Hi. destruct (Z.lt_ge_cases i (Z.of_nat n)).
  - rewrite !Z.mod_pow2_bits_low by lia. apply H. lia.
  - rewrite !Z.mod_pow2_bits_high by lia. done.
Qed.

Lemma popcount_minus_1 n : popcount n (-1) = Z.of_nat n.
Proof. induction n as [|n IH]; [done|]. cbn [popcount]. change (Z.div2 (-1)) with (-1). rewrite IH. cbn. lia. Qed.

Lemma nbits_popcount c : nbits c = popcount 8 c.
Proof.
  rewrite <- (popcount_mod 8). change (Z.of_nat 8) with 8. fold (u8 c). unfold nbits.
  apply Z.eqb_eq.
  apply (forall_byte (λ b, nth (Z.to_nat b) _my_bits_nbits 0 =? popcount 8 b));
    [by vm_compute|apply u8_byte].
Qed.

Lemma popcount_bytes4 v :
  popcount 8 v + popcount 8 (v .>> 8) + popcount 8 (v .>> 16) + popcount 8 (v .>> 24) =
  popcount 32 v.
Proof.
  change 32%nat with (8 + (8 + (8 + 8)))%nat. rewrite !popcount_app.
  rewrite !Z.shiftr_shiftr by lia. change (Z.of_nat 8) with 8. change (8 + 8 + 8) with 24. change (8 + 8) with 16. lia.
Qed.

Lemma my_count_bits_uint32_popcount v : my_count_bits_uint32 v = popcount 32 v.
Proof.
  unfold my_count_bits_uint32. rewrite !nbits_popcount, popcount_bytes4.
  pose proof (popcount_range 32 v). rewrite !wrap_small by (rewrite ?wrap_small; lia). done.
Qed.

Lemma my_count_bits_popcount sz v :
  my_count_bits sz v = if 4 <? sz then popcount 64 v else popcount 32 v.
Proof.
  unfold my_count_bits. destruct (4 <? sz); [|apply my_count_bits_uint32_popcount]. rewrite !nbits_popcount. rewrite <- !Z.add_assoc.
  rewrite (Z.add_assoc (popcount 8 v)), (Z.add_assoc (_ + _)), (Z.add_assoc (_ + _ + _)).
  rewrite !Z.add_assoc.
  pose proof (popcount_bytes4 v) as L. pose proof (popcount_bytes4 (u32 (v .>> 32))) as R.
  pose proof (popcount_mod 32 (v .>> 32)) as M. pose proof (popcount_app 32 32 v) as E.
  pose proof (popcount_range 64 v). cbn [Nat.add] in E.
  change (Z.of_nat 32) with 32 in *. fold (u32 (v .>> 32)) in M.
  match goal with |- u32 (u8 ?s) = _ => replace s with (popcount 64 v) by lia end.
  rewrite !wrap_small by (rewrite ?wrap_small; lia). done.
Qed.

(** ** Logarithm *)

Lemma my_bit_log2_loop_spec fuel value bit :
  0 < value < 2 ^ Z.of_nat fuel → 0 <= bit → bit + Z.log2 value < 2 ^ 32 →
  my_bit_log2_loop fuel value bit = Some (bit + Z.log2 value).
Proof.
  revert value bit. induction fuel as [|fuel IH]; intros value bit Hv Hb Hl.
  { change (2 ^ Z.of_nat 0) with 1 in Hv. lia. }
  cbn [my_bit_log2_loop]. rewrite Nat2Z.inj_succ, Z.pow_succ_r in Hv by lia.
  destruct (Z.ltb_spec 1 value) as [H1|H1].
  - rewrite Z.shiftr_div_pow2 by lia. change (2 ^ 1) with 2.
    assert (E : Z.log2 (value / 2) = Z.log2 value - 1).
    { change 2 with (2 ^ 1) at 1. rewrite <- (Z.shiftr_div_pow2 value 1) by lia.
      rewrite Z.log2_shiftr by lia.
      pose proof (Z.log2_pos value). lia. }
    rewrite IH, E.
    + rewrite wrap_small; [f_equal; lia|]. pose proof (Z.log2_pos value). lia.
    + split; [apply Z.div_str_pos; lia|apply Z.div_lt_upper_bound; lia].
    + apply wrap_range. lia.
    + rewrite wrap_small; [lia|]. pose proof (Z.log2_pos value). lia.
  - replace value with 1 by lia. cbn. f_equal. lia.
Qed.

(** ** Smearing the highest bit downwards *)

Definition smear (v : Z) : Z :=
  let v := v .| (v .>> 1) in
  let v := v .| (v .>> 2) in
  let v := v .| (v .>> 4) in
  let v := v .| (v .>> 8) in
  v .| (v .>> 16).

(** [covers n v w]: bit [i] of [w] says whether [v] has a bit in [[i, i + n)]. *)
Definition covers (n v w : Z) : Prop :=
  ∀ i, 0 <= i → Z.testbit w i = true ↔ ∃ j, 0 <= j < n ∧ Z.testbit v (i + j) = true.

Lemma covers_double n v w : 0 < n → covers n v w → covers (2 * n) v (w .| (w .>> n)).
Proof.
  intros Hn H i Hi. rewrite Z.lor_spec, Z.shiftr_spec, orb_true_iff by lia.
  rewrite (H i), (H (i + n)) by lia. split.
  - intros [(j & ? & Hj)|(j & ? & Hj)].
    + exists j. split; [lia|done].
    + exists (n + j). split; [lia|]. by rewrite Z.add_assoc.
  - intros (j & ? & Hj). destruct (Z.lt_ge_cases j n).
    + left. exists j. split; [lia|done].
    + right. exists (j - n). split; [lia|]. by replace (i + n + (j - n)) with (i + j) by lia.
Qed.

Lemma smear_covers v : covers 32 v (smear v).
Proof.
  apply (covers_double 16); [lia|]. apply (covers_double 8); [lia|].
  apply (covers_double 4); [lia|]. apply (covers_double 2); [lia|].
  apply (covers_double 1); [lia|]. intros i Hi. split.
  - intros. exists 0. split; [lia|]. by rewrite Z.add_0_r.
  - intros (j & ? & Hj). by replace (i + j) with i in Hj by lia.
Qed.

Lemma testbit_above_log2 v i : 0 <= v → Z.log2 v < i → Z.testbit v i = false.
Proof. intros. by apply Z.bits_above_log2. Qed.

Lemma smear_ones v : 0 < v < 2 ^ 32 → smear v = Z.ones (Z.log2 v + 1).
Proof.
  intros Hv. pose proof (Z.log2_nonneg v).
  assert (Z.log2 v < 32) by (apply Z.log2_lt_pow2; lia).
  apply Z.bits_inj'. intros i Hi. apply eq_true_iff_eq.
  rewrite (smear_covers v i Hi), Z.ones_spec_iff by lia. split.
  - intros (j & ? & Hj). split; [done|]. destruct (Z.lt_ge_cases (Z.log2 v) (i + j)); [|lia].
    rewrite testbit_above_log2 in Hj by lia. done.
  - intros ?. exists (Z.log2 v - i). split; [lia|].
    replace (i + (Z.log2 v - i)) with (Z.log2 v) by lia. apply Z.bit_log2. lia.
Qed.

Lemma smear_0 : smear 0 = 0.
Proof. reflexivity. Qed.

(** ** The optimised bit functions against their reference *)

(** The table- and shift-based bit functions are the ones of arithmetic on
    32-bit values: [my_count_bits_uint32] and [my_count_bits] are the number of bits set;
    [my_bit_log2] always terminates and is the integer logarithm (0 at 0);
    [my_round_up_to_next_power] is the least power of two not below [v], with
    the wrap-around to 0 at 0 and above 2^31; [my_clear_highest_bit] removes
    exactly the leading bit. *)
Theorem my_bit_functions_spec v :
  0 <= v < 2 ^ 32 →
  my_count_bits_uint32 v = popcount 32 v ∧
  (∀ sz w, my_count_bits sz w = if 4 <? sz then popcount 64 w else popcount 32 w) ∧
  my_bit_log2 v = Some (Z.log2 v) ∧
  my_round_up_to_next_power v =
    (if (v =? 0) || (2 ^ 31 <? v) then 0 else 2 ^ Z.log2_up v) ∧
  my_clear_highest_bit v = (if v =? 0 then 0 else v - 2 ^ Z.log2 v).
Proof.
  intros Hv. split; [apply my_count_bits_uint32_popcount|].
  split; [apply my_count_bits_popcount|]. split; [|split].
  - destruct (Z.eq_dec v 0) as [->|]; [done|].
    assert (Z.log2 v < 32) by (apply Z.log2_lt_pow2; lia).
    unfold my_bit_log2. rewrite my_bit_log2_loop_spec; [f_equal; lia|..]; lia.
  - change (my_round_up_to_next_power v) with (u32 (smear (u32 (v - 1)) + 1)).
    destruct (Z.eqb_spec v 0) as [->|]; [done|]. cbn [orb].
    rewrite (wrap_small 32 (v - 1)) by lia.
    destruct (Z.eq_dec v 1) as [->|]; [done|].
    rewrite smear_ones, Z.ones_equiv by lia.
    rewrite Z.log2_up_eqn by lia. replace (Z.pred v) with (v - 1) by lia.
    replace (Z.pred (2 ^ (Z.log2 (v - 1) + 1)) + 1) with (2 ^ (Z.log2 (v - 1) + 1)) by lia.
    pose proof (Z.log2_nonneg (v - 1)).
    replace (Z.succ (Z.log2 (v - 1))) with (Z.log2 (v - 1) + 1) by lia.
    destruct (Z.ltb_spec (2 ^ 31) v).
    + replace (Z.log2 (v - 1)) with 31; [done|]. symmetry. apply Z.log2_unique; lia.
    + apply wrap_small. split; [apply Z.pow_nonneg; lia|].
      apply Z.pow_lt_mono_r; [lia..|].
      enough (Z.log2 (v - 1) < 31) by lia. apply Z.log2_lt_pow2; lia.
  - change (my_clear_highest_bit v) with (Z.land v (smear (v .>> 1))).
    destruct (Z.eqb_spec v 0) as [->|]; [done|].
    pose proof (Z.log2_spec v).
    destruct (Z.eq_dec v 1) as [->|]; [done|].
    assert (1 <= Z.log2 v) by (change 1 with (Z.log2 2) at 1; apply Z.log2_le_mono; lia).
    assert (0 < v .>> 1) by (rewrite Z.shiftr_div_pow2 by lia; zdm).
    assert (v .>> 1 < 2 ^ 32) by (rewrite Z.shiftr_div_pow2 by lia; zdm).
    rewrite smear_ones, Z.log2_shiftr by lia.
    replace (Z.max 0 (Z.log2 v - 1) + 1) with (Z.log2 v) by lia.
    rewrite Z.land_ones by lia.
    rewrite <- (Z.mod_small (v - 2 ^ Z.log2 v) (2 ^ Z.log2 v)).
    + replace v with (v - 2 ^ Z.log2 v + 1 * 2 ^ Z.log2 v) at 1 by lia.
      apply Z.mod_add. lia.
    + rewrite Z.pow_succ_r in * by lia. lia.
Qed.

Lemma my_bit_functions_spec_witness :
  my_round_up_to_next_power 1000 = 1024 ∧ my_bit_log2 1000 = Some 9.
Proof.
  destruct (my_bit_functions_spec 1000) as (_ & _ & L & P & _); [lia|].
  split; [rewrite P; reflexivity | rewrite L; reflexivity].
Defined.
