(* ===== verification/MyBitmap.v ===== *)
(** Bitmaps of [binlog/src/my_bitmap.cpp] and [binlog/include/my_bitmap.h]: the
    column sets of row events.  The buffer is a list of bytes read as 32-bit
    little-endian words where the code does so; the reference is the integer
    whose bits are the buffer's. *)
From S2P Require Import Prelude ByteOrder MyBit.

(** ** Data and operations *)

Definition MY_BIT_NONE : Z := u32 (Z.lnot 0).

(** [last_word_ptr] is a pointer into [bitmap], given by its word index;
    [bitmap] is [None] when the pointer is null. *)
Record MY_BITMAP := mk_bitmap {
  bitmap : option (list Z);
  n_bits : Z;
  last_word_mask : Z;
  last_word_ptr : Z;
}.

Definition bitmap_buffer_size (bits : Z) : Z := u32 (u32 (u32 (bits + 31) `div` 32) * 4).
Definition no_bytes_in_map (map : MY_BITMAP) : Z := u32 (n_bits map + 7) `div` 8.
Definition no_words_in_map (map : MY_BITMAP) : Z := u32 (n_bits map + 31) `div` 32.

(** [ptr[i]= b] where [ptr] is the mask seen as four bytes. *)
Definition mask_set_byte (mask : Z) (i : nat) (b : Z) : Z :=
  le_combine (<[i := b]> (le_split 4 mask)).

Definition create_last_word_mask (map : MY_BITMAP) : MY_BITMAP :=
  let used := u32 (1 + (u32 (n_bits map - 1) .& 7)) in
  let mask := u8 (Z.lnot ((1 .<< used) - 1) .& 255) in
  let ptr := if n_bits map =? 0 then 0 else no_words_in_map map - 1 in
  let m :=
    match no_bytes_in_map map .& 3 with
    | 1 => mask_set_byte (u32 (Z.lnot 0)) 0 mask
    | 2 => mask_set_byte (mask_set_byte (u32 (Z.lnot 0)) 0 0) 1 mask
    | 3 => mask_set_byte (mask_set_byte 0 2 mask) 3 0xFF
    | _ => mask_set_byte 0 3 mask
    end in
  mk_bitmap (bitmap map) (n_bits map) m ptr.

(** [*p] for a word pointer into the buffer. *)
Definition word_at (l : list Z) (i : Z) : option Z := uint4korr (drop (Z.to_nat (4 * i)) l).

(** [for (; data_ptr < end; data_ptr++) res+= my_count_bits_uint32( *data_ptr)]:
    [n] is the distance from [data_ptr] to [end]. *)
Fixpoint bitmap_bits_set_loop (n : nat) (l : list Z) (data_ptr res : Z) : option Z :=
  match n with
  | O => Some res
  | S n =>
      w ← word_at l data_ptr;
      bitmap_bits_set_loop n l (data_ptr + 1) (u32 (res + my_count_bits_uint32 w))
  end.

Definition bitmap_bits_set (map : MY_BITMAP) : option Z :=
  l ← bitmap map;
  res ← bitmap_bits_set_loop (Z.to_nat (last_word_ptr map)) l 0 0;
  w ← word_at l (last_word_ptr map);
  Some (u32 (res + my_count_bits_uint32 (w .& u32 (Z.lnot (last_word_mask map))))).

(** A read-modify-write of one byte of the buffer. *)
Definition bitmap_update (f : Z → Z) (map : MY_BITMAP) (i : Z) : option MY_BITMAP :=
  l ← bitmap map;
  b ← l !! Z.to_nat i;
  Some (mk_bitmap (Some (<[Z.to_nat i := u8 (f b)]> l)) (n_bits map)
          (last_word_mask map) (last_word_ptr map)).

Definition bitmap_set_bit (map : MY_BITMAP) (bit : Z) : option MY_BITMAP :=
  bitmap_update (λ b, b .| (1 .<< (bit .& 7))) map (bit `div` 8).
Definition bitmap_flip_bit (map : MY_BITMAP) (bit : Z) : option MY_BITMAP :=
  bitmap_update (λ b, b .^ (1 .<< (bit .& 7))) map (bit `div` 8).
Definition bitmap_clear_bit (map : MY_BITMAP) (bit : Z) : option MY_BITMAP :=
  bitmap_update (λ b, b .& Z.lnot (1 .<< (bit .& 7))) map (bit `div` 8).

(** The result is a [my_bool], a signed [char]: bit 7 gives -128. *)
Definition bitmap_is_set (map : MY_BITMAP) (bit : Z) : option Z :=
  l ← bitmap map;
  b ← l !! Z.to_nat (bit `div` 8);
  Some (s8 (b .& (1 .<< (bit .& 7)))).

Definition bitmap_cmp (map1 map2 : MY_BITMAP) : option bool :=
  l1 ← bitmap map1; l2 ← bitmap map2;
  let n := Z.to_nat (u32 (4 * (no_words_in_map map1 - 1))) in
  b1 ← load n l1; b2 ← load n l2;
  if negb (bool_decide (b1 = b2)) then Some false
  else
    w1 ← word_at l1 (last_word_ptr map1);
    w2 ← word_at l2 (last_word_ptr map2);
    Some (w1 .| last_word_mask map1 =? w2 .| last_word_mask map2).

(** [memset(map->bitmap, c, 4 * no_words_in_map(map))]. *)
Definition bitmap_memset (c : Z) (map : MY_BITMAP) : option MY_BITMAP :=
  l ← bitmap map;
  let n := Z.to_nat (4 * no_words_in_map map) in
  _ ← load n l;
  Some (mk_bitmap (Some (replicate n c ++ drop n l)) (n_bits map)
          (last_word_mask map) (last_word_ptr map)).
Definition bitmap_clear_all : MY_BITMAP → option MY_BITMAP := bitmap_memset 0.
Definition bitmap_set_all : MY_BITMAP → option MY_BITMAP := bitmap_memset 0xFF.

(** [malloc n] is the block [malloc] returns for a request of [n] bytes, with
    whatever contents it has.  The caller's [buf] is overwritten by it. *)
Definition bitmap_init (malloc : Z → option (list Z)) (nbits : Z) : option MY_BITMAP :=
  let size_in_bytes := s32 (bitmap_buffer_size nbits) in
  let map := mk_bitmap (malloc size_in_bytes) nbits 0 0 in
  bitmap_clear_all (create_last_word_mask map).

Definition bitmap_free (map : MY_BITMAP) : MY_BITMAP :=
  mk_bitmap None (n_bits map) (last_word_mask map) (last_word_ptr map).

(** ** The reference: a bitmap is an integer *)

(** The buffer's bits; [bits map] is meaningful below [n_bits]. *)
Definition bits (map : MY_BITMAP) : Z :=
  match bitmap map with Some l => le_combine l | None => 0 end.

(** What [bitmap_init] establishes and the other operations keep. *)
Record bitmap_wf (map : MY_BITMAP) (l : list Z) : Prop := {
  wf_buf : bitmap map = Some l;
  wf_bytes : bytes_ok l;
  wf_n_bits : 0 < n_bits map <= 2 ^ 32 - 32;
  wf_length : Z.of_nat (length l) = 4 * ((n_bits map + 31) / 32);
  wf_last : map = create_last_word_mask map;
}.

Lemma no_words_eq map : 0 <= n_bits map <= 2 ^ 32 - 32 → no_words_in_map map = (n_bits map + 31) / 32.
Proof. intros. unfold no_words_in_map. rewrite wrap_small; [done|lia]. Qed.

(** [create_last_word_mask] leaves ones exactly above the bits used in the last
    word.  The computation depends on [n_bits mod 32] only. *)
Lemma last_word_mask_eq map :
  0 < n_bits map <= 2 ^ 32 - 32 →
  last_word_mask (create_last_word_mask map) = 2 ^ 32 - 2 ^ ((n_bits map - 1) mod 32 + 1) ∧
  last_word_ptr (create_last_word_mask map) = (n_bits map - 1) / 32.
Proof.
  intros Hn. unfold create_last_word_mask. cbn [last_word_mask last_word_ptr].
  unfold no_bytes_in_map. rewrite no_words_eq, (wrap_small 32 (n_bits map - 1)),
    (wrap_small 32 (n_bits map + 7)) by lia.
  destruct (Z.eqb_spec (n_bits map) 0) as [|]; [lia|].
  set (m := n_bits map - 1). replace (n_bits map + 7) with (m + 8) by (unfold m; lia).
  replace (n_bits map + 31) with (m + 1 * 32) by (unfold m; lia).
  rewrite Z.div_add by lia. split; [|lia].
  assert (E7 : m .& 7 = (m mod 32) mod 8).
  { change 7 with (Z.ones 3). rewrite Z.land_ones by lia. change (2 ^ 3) with 8. zdm. }
  assert (E3 : (m + 8) / 8 .& 3 = ((m mod 32 + 8) / 8) mod 4).
  { change 3 with (Z.ones 2). rewrite Z.land_ones by lia. change (2 ^ 2) with 4. zdm. }
  rewrite E7, E3. clear E7 E3.
  assert (R : 0 <= m mod 32 < 32) by (apply Z.mod_pos_bound; lia).
  generalize dependent (m mod 32). intros s R. apply Z.eqb_eq. revert s R.
  apply (forall_range 32 (λ s, _ =? _)). vm_compute. reflexivity.
Qed.

Lemma wf_mask map l : bitmap_wf map l →
  last_word_mask map = 2 ^ 32 - 2 ^ ((n_bits map - 1) mod 32 + 1) ∧
  last_word_ptr map = (n_bits map - 1) / 32.
Proof. intros W. rewrite (wf_last _ _ W) at 1 3. apply last_word_mask_eq, W. Qed.

(** ** Words *)

Lemma word_at_eq l i :
  bytes_ok l → 0 <= i → 4 * i + 4 <= Z.of_nat (length l) →
  word_at l i = Some ((le_combine l .>> (32 * i)) mod 2 ^ 32).
Proof.
  intros H Hi Hl. unfold word_at. rewrite uint4korr_le by by apply Forall_drop.
  rewrite load_some by (rewrite length_drop; lia). cbn [fmap option_fmap option_map].
  rewrite le_combine_take by by apply Forall_drop.
  rewrite le_combine_drop by (done || lia). f_equal.
  rewrite Z.shiftr_div_pow2 by lia. f_equal. f_equal.
  rewrite Z2Nat.id by lia. change 256 with (2 ^ 8). rewrite <- Z.pow_mul_r by lia.
  f_equal. lia.
Qed.

Lemma bits_set_loop_eq l n i res :
  bytes_ok l → 0 <= i → 0 <= res → 4 * (i + Z.of_nat n) <= Z.of_nat (length l) →
  res + 32 * Z.of_nat n < 2 ^ 32 →
  bitmap_bits_set_loop n l i res =
    Some (res + popcount (32 * n) (le_combine l .>> (32 * i))).
Proof.
  intros H. revert i res. induction n as [|n IH]; intros i res Hi Hr Hl Hb.
  { cbn. f_equal. lia. }
  cbn [bitmap_bits_set_loop]. rewrite word_at_eq by (done || lia). cbn [mbind option_bind].
  rewrite my_count_bits_uint32_popcount.
  pose proof (popcount_mod 32 (le_combine l .>> (32 * i))) as M. change (Z.of_nat 32) with 32 in M.
  rewrite M. pose proof (popcount_range 32 (le_combine l .>> (32 * i))).
  rewrite wrap_small, IH by (rewrite ?wrap_small; lia). f_equal.
  replace (32 * S n)%nat with (32 + 32 * n)%nat by lia. rewrite popcount_app.
  rewrite Z.shiftr_shiftr by lia. replace (32 * i + Z.of_nat 32) with (32 * (i + 1)) by lia. lia.
Qed.

(** Masking the unused bits of the last word. *)
Lemma land_not_mask w r :
  0 <= w < 2 ^ 32 → 0 < r <= 32 → w .& u32 (Z.lnot (2 ^ 32 - 2 ^ r)) = w mod 2 ^ r.
Proof.
  intros Hw Hr. rewrite <- Z.land_ones by lia. f_equal.
  rewrite Z.ones_equiv. unfold Z.lnot, wrap.
  replace (Z.pred (- (2 ^ 32 - 2 ^ r))) with (Z.pred (2 ^ r) + -1 * 2 ^ 32) by lia.
  rewrite Z.mod_add by lia. apply Z.mod_small.
  pose proof (Z.pow_pos_nonneg 2 r). assert (2 ^ r <= 2 ^ 32) by (apply Z.pow_le_mono_r; lia). lia.
Qed.

Lemma bitmap_bits_set_popcount map l :
  bitmap_wf map l → bitmap_bits_set map = Some (popcount (Z.to_nat (n_bits map)) (bits map)).
Proof.
  intros W. pose proof (wf_mask _ _ W) as [Hm Hp]. destruct W as [B Hb Hn Hl _].
  unfold bitmap_bits_set, bits. rewrite B, Hp, Hm. cbn [mbind option_bind].
  set (q := (n_bits map - 1) / 32) in *. set (s := (n_bits map - 1) mod 32) in *.
  assert (E : n_bits map = 32 * q + (s + 1)) by (unfold q, s; zdm).
  assert (0 <= q ∧ 0 <= s < 32) as [Hq Hs] by (unfold q, s; zdm).
  assert (4 * q + 4 <= Z.of_nat (length l)) by (rewrite Hl; unfold q; zdm).
  rewrite bits_set_loop_eq by (done || lia). cbn [mbind option_bind].
  rewrite word_at_eq by (done || lia). cbn [mbind option_bind]. f_equal.
  rewrite land_not_mask by (try apply Z.mod_pos_bound; lia).
  rewrite my_count_bits_uint32_popcount, Z.mul_0_r, Z.shiftr_0_r.
  assert (P : ∀ w, popcount 32 ((w mod 2 ^ 32) mod 2 ^ (s + 1)) = popcount (Z.to_nat (s + 1)) w).
  { intros w. replace 32%nat with (Z.to_nat (s + 1) + (32 - Z.to_nat (s + 1)))%nat by lia.
    rewrite popcount_app, <- (popcount_mod (Z.to_nat (s + 1)) w).
    rewrite Z2Nat.id by lia. rewrite Z.shiftr_div_pow2 by lia.
    rewrite (Z.div_small (_ mod 2 ^ (s + 1))) by (apply Z.mod_pos_bound, Z.pow_pos_nonneg; lia).
    replace ((w mod 2 ^ 32) mod 2 ^ (s + 1)) with (w mod 2 ^ (s + 1)).
    2:{ apply Z.bits_inj'. intros i Hi. destruct (Z.lt_ge_cases i (s + 1)).
        - rewrite !Z.mod_pow2_bits_low by lia. done.
        - rewrite !Z.mod_pow2_bits_high by lia. done. }
    replace (popcount _ 0) with 0; [lia|]. induction (32 - _)%nat as [|k IH]; [done|]. cbn. exact IH. }
  rewrite P.
  replace (Z.to_nat (n_bits map)) with (32 * Z.to_nat q + Z.to_nat (s + 1))%nat by lia.
  rewrite popcount_app.
  replace (Z.of_nat (32 * Z.to_nat q)) with (32 * q) by lia.
  pose proof (popcount_range (32 * Z.to_nat q) (le_combine l)).
  pose proof (popcount_range (Z.to_nat (s + 1)) (le_combine l .>> (32 * q))).
  rewrite wrap_small by lia. lia.
Qed.

(** ** One bit *)

Lemma wf_index map l i :
  bitmap_wf map l → 0 <= i < n_bits map → (Z.to_nat (i / 8) < length l)%nat.
Proof. intros [_ _ _ Hl _] Hi. zdm. Qed.

Lemma land_7 i : 0 <= i → i .& 7 = i mod 8.
Proof. intros. change 7 with (Z.ones 3). by rewrite Z.land_ones. Qed.

Lemma testbit_byte b k : is_byte b → 8 <= k → Z.testbit b k = false.
Proof.
  intros Hb Hk. rewrite <- (Z.mod_small b (2 ^ 8)) by exact Hb.
  apply Z.mod_pow2_bits_high. lia.
Qed.

(** The mask and the last word depend on [n_bits] only. *)
Lemma with_buffer b map m p :
  create_last_word_mask (mk_bitmap b (n_bits map) m p) =
  mk_bitmap b (n_bits map) (last_word_mask (create_last_word_mask map))
    (last_word_ptr (create_last_word_mask map)).
Proof. reflexivity. Qed.

(** A byte update changes the bits of its byte and keeps the invariant. *)
Lemma bitmap_update_spec f map l i :
  bitmap_wf map l → 0 <= i < n_bits map →
  ∃ map' l', bitmap_update f map (i / 8) = Some map' ∧ bitmap_wf map' l' ∧
    n_bits map' = n_bits map ∧
    ∀ j, 0 <= j → Z.testbit (bits map') j =
      if j / 8 =? i / 8 then Z.testbit (f (nth (Z.to_nat (i / 8)) l 0)) (j mod 8)
      else Z.testbit (bits map) j.
Proof.
  intros W Hi. pose proof (wf_index _ _ _ W Hi) as Hk. destruct W as [B Hb Hn Hl Hc].
  set (k := Z.to_nat (i / 8)) in *. set (b := f (nth k l 0)).
  assert (L : l !! k = Some (nth k l 0)) by (by apply lookup_nth).
  exists (mk_bitmap (Some (<[k := u8 b]> l)) (n_bits map) (last_word_mask map) (last_word_ptr map)),
    (<[k := u8 b]> l).
  assert (Hb' : bytes_ok (<[k := u8 b]> l)) by (apply Forall_insert; auto with cint).
  split; [|split; [|split]].
  - unfold bitmap_update. rewrite B. cbn [mbind option_bind]. fold k. by rewrite L.
  - constructor; cbn [bitmap n_bits last_word_mask last_word_ptr]; [done..| |].
    + by rewrite length_insert.
    + symmetry. rewrite with_buffer. by rewrite <- Hc.
  - done.
  - intros j Hj. unfold bits at 1. cbn [bitmap]. rewrite le_combine_testbit by done.
    destruct (Z.eqb_spec (j / 8) (i / 8)) as [E|E].
    + rewrite E. fold k. rewrite (nth_lookup_Some _ _ _ (u8 b)) by (by apply list_lookup_insert_eq).
      unfold b, wrap. apply Z.mod_pow2_bits_low. apply Z.mod_pos_bound. lia.
    + unfold bits. rewrite B, le_combine_testbit by done. f_equal.
      rewrite !nth_lookup, list_lookup_insert_ne; [done|].
      unfold k. intros E'. apply E. apply Z2Nat.inj; [apply Z.div_pos; lia..|done].
Qed.

(** The three updates differ in the boolean operation at the addressed bit. *)
Lemma bitmap_op_spec (f : Z → Z → Z) (g : bool → bool → bool) map l i :
  (∀ a b k, 0 <= k < 8 → Z.testbit (f a b) k = g (Z.testbit a k) (Z.testbit b k)) →
  (∀ x, g x false = x) →
  bitmap_wf map l → 0 <= i < n_bits map →
  ∃ map' l', bitmap_update (λ b, f b (1 .<< (i .& 7))) map (i / 8) = Some map' ∧
    bitmap_wf map' l' ∧ n_bits map' = n_bits map ∧
    ∀ j, 0 <= j → Z.testbit (bits map') j = g (Z.testbit (bits map) j) (j =? i).
Proof.
  intros Hf Hg W Hi. pose proof (wf_buf _ _ W) as B. pose proof (wf_bytes _ _ W) as Hb.
  destruct (bitmap_update_spec (λ b, f b (1 .<< (i .& 7))) map l i W Hi)
    as (map' & l' & U & W' & N & T).
  exists map', l'. split; [done|]. split; [done|]. split; [done|]. intros j Hj. rewrite T by done.
  pose proof (Z.mod_pos_bound j 8). pose proof (Z.mod_pos_bound i 8).
  destruct (Z.eqb_spec (j / 8) (i / 8)) as [E|E].
  - rewrite Hf, land_7, Z.shiftl_1_l by lia. unfold bits. rewrite B, le_combine_testbit by done.
    rewrite <- E. f_equal. rewrite Z.pow2_bits_eqb by lia.
    apply Bool.eq_iff_eq_true. rewrite !Z.eqb_eq. zdm.
  - replace (j =? i) with false; [by rewrite Hg|]. symmetry. apply Z.eqb_neq. congruence.
Qed.

(** The [my_bool] of a one-bit mask is nonzero exactly when the bit is set, bit
    7 included, although it is negative there. *)
Lemma bit_test_char b k :
  is_byte b → 0 <= k < 8 → s8 (b .& (1 .<< k)) ≠ 0 ↔ Z.testbit b k = true.
Proof.
  intros Hb Hk. rewrite <- Z.eqb_neq.
  rewrite (eqb_prop (s8 (b .& (1 .<< k)) =? 0) (negb (Z.testbit b k))).
  { destruct (Z.testbit b k); cbn; intuition congruence. }
  revert b Hb. apply forall_byte. revert k Hk.
  refine (forall_range 8 (λ k, forallb _ _) _). vm_compute. reflexivity.
Qed.

Lemma bitmap_is_set_wf map l i :
  bitmap_wf map l → 0 <= i < n_bits map →
  ∃ r, bitmap_is_set map i = Some r ∧ (r ≠ 0 ↔ Z.testbit (bits map) i = true).
Proof.
  intros W Hi. pose proof (wf_index _ _ _ W Hi) as Hk. destruct W as [B Hb _ _ _].
  unfold bitmap_is_set, bits. rewrite B. cbn [mbind option_bind].
  rewrite (lookup_nth l _ 0) by done. cbn [mbind option_bind]. eexists. split; [done|].
  rewrite land_7, le_combine_testbit by (done || lia).
  set (b := nth _ l 0). assert (Hb' : is_byte b) by (by apply Forall_nth_lt).
  by apply bit_test_char; [|apply Z.mod_pos_bound].
Qed.

(** The single-bit operations act on the bitmap as on the integer of its
    bits.  On a bitmap that [bitmap_init] made, and for a bit below [n_bits],
    [bitmap_set_bit], [bitmap_clear_bit] and [bitmap_flip_bit] succeed, set,
    clear and flip that bit of the integer and no other, and keep the invariant;
    [bitmap_is_set] is nonzero exactly when the bit is set. *)
Theorem bitmap_bit_ops map l i :
  bitmap_wf map l → 0 <= i < n_bits map →
  (∃ map' l', bitmap_set_bit map i = Some map' ∧ bitmap_wf map' l' ∧
     n_bits map' = n_bits map ∧ bits map' = Z.setbit (bits map) i) ∧
  (∃ map' l', bitmap_clear_bit map i = Some map' ∧ bitmap_wf map' l' ∧
     n_bits map' = n_bits map ∧ bits map' = Z.clearbit (bits map) i) ∧
  (∃ map' l', bitmap_flip_bit map i = Some map' ∧ bitmap_wf map' l' ∧
     n_bits map' = n_bits map ∧ bits map' = Z.lxor (bits map) (2 ^ i)) ∧
  (∃ r, bitmap_is_set map i = Some r ∧ (r ≠ 0 ↔ Z.testbit (bits map) i = true)).
Proof.
  intros W Hi. split_and!.
  - destruct (bitmap_op_spec Z.lor orb map l i) as (m' & l' & U & W' & N & T); try done.
    { intros. by rewrite Z.lor_spec. } { intros []; done. }
    exists m', l'. split_and!; [done..|]. apply Z.bits_inj'. intros j Hj.
    rewrite T, Z.setbit_eqb by lia. rewrite (Z.eqb_sym i j). apply orb_comm.
  - destruct (bitmap_op_spec Z.ldiff (λ a b, a && negb b) map l i)
      as (m' & l' & U & W' & N & T); try done.
    { intros. by rewrite Z.ldiff_spec. } { intros []; done. }
    exists m', l'. split_and!; try done.
    + rewrite <- U. unfold bitmap_clear_bit, bitmap_update. destruct (bitmap map); [|done].
      cbn [mbind option_bind]. destruct (_ !! _); [|done]. cbn [mbind option_bind].
      by rewrite Z.ldiff_land.
    + apply Z.bits_inj'. intros j Hj. rewrite T, Z.clearbit_eqb by lia. by rewrite (Z.eqb_sym i j).
  - destruct (bitmap_op_spec Z.lxor xorb map l i) as (m' & l' & U & W' & N & T); try done.
    { intros. by rewrite Z.lxor_spec. } { intros []; done. }
    exists m', l'. split_and!; [done..|]. apply Z.bits_inj'. intros j Hj.
    rewrite T, Z.lxor_spec, Z.pow2_bits_eqb by lia. by rewrite (Z.eqb_sym i j).
  - by eapply bitmap_is_set_wf.
Qed.

Lemma bitmap_bit_ops_witness :
  ∃ map, bitmap_init (λ n, Some (replicate (Z.to_nat n) 170)) 11 = Some map ∧
    ∃ map', bitmap_set_bit map 9 = Some map' ∧ bits map' = 512.
Proof.
  exists (mk_bitmap (Some (replicate 4 0)) 11 (2 ^ 32 - 2 ^ 11) 0). split; [reflexivity|].
  destruct (bitmap_bit_ops (mk_bitmap (Some (replicate 4 0)) 11 (2 ^ 32 - 2 ^ 11) 0)
              (replicate 4 0) 9) as [(m' & l' & U & _ & _ & E) _].
  - constructor; [reflexivity| |cbn; lia|reflexivity|reflexivity].
    repeat constructor; unfold is_byte; lia.
  - cbn. lia.
  - exists m'. split; [exact U|]. rewrite E. reflexivity.
Defined.

(** ** Whole bitmaps *)

Lemma le_combine_replicate n c i :
  is_byte c → 0 <= i < 8 * Z.of_nat n →
  Z.testbit (le_combine (replicate n c)) i = Z.testbit c (i mod 8).
Proof.
  intros Hc Hi. rewrite le_combine_testbit by (lia || by apply Forall_replicate).
  rewrite (nth_lookup_Some _ _ _ c); [done|]. apply lookup_replicate_2. zdm.
Qed.

Lemma bitmap_memset_eq c map l :
  bitmap map = Some l → 0 < n_bits map <= 2 ^ 32 - 32 →
  Z.of_nat (length l) = 4 * ((n_bits map + 31) / 32) →
  bitmap_memset c map = Some (mk_bitmap (Some (replicate (length l) c)) (n_bits map)
                               (last_word_mask map) (last_word_ptr map)).
Proof.
  intros B Hn Hl. unfold bitmap_memset. rewrite B, no_words_eq by lia. cbn [mbind option_bind].
  replace (Z.to_nat _) with (length l) by lia. rewrite load_some by done. cbn [mbind option_bind].
  by rewrite drop_all, app_nil_r.
Qed.

Lemma bitmap_memset_spec c map l :
  is_byte c → bitmap_wf map l →
  ∃ map', bitmap_memset c map = Some map' ∧ bitmap_wf map' (replicate (length l) c) ∧
    n_bits map' = n_bits map.
Proof.
  intros Hc [B Hb Hn Hl Hm]. eexists. split; [by apply bitmap_memset_eq|]. split; [|done].
  constructor; cbn; [done|by apply Forall_replicate|done|by rewrite length_replicate|].
  symmetry. rewrite with_buffer. by rewrite <- Hm.
Qed.

Lemma wf_bits_low map l i :
  bitmap_wf map l → 0 <= i < n_bits map → i < 8 * Z.of_nat (length l).
Proof. intros [_ _ _ Hl _] Hi. rewrite Hl. zdm. Qed.

Lemma bitmap_init_wf malloc l0 n :
  malloc (s32 (bitmap_buffer_size n)) = Some l0 →
  Z.of_nat (length l0) = 4 * ((n + 31) / 32) →
  0 < n <= 2 ^ 32 - 32 →
  ∃ map0, bitmap_init malloc n = Some map0 ∧ bitmap_wf map0 (replicate (length l0) 0) ∧
     n_bits map0 = n ∧ bits map0 = 0.
Proof.
  intros M Hl Hn. unfold bitmap_init. rewrite M.
  eexists. split; [by apply bitmap_memset_eq|]. split; [|split; [done|]].
  - constructor; cbn; [done|by apply Forall_replicate|done|by rewrite length_replicate|done].
  - unfold bits. cbn [bitmap]. clear. induction (length l0); cbn [replicate le_combine]; lia.
Qed.

(** [bitmap_init] with the block [malloc] returns, whatever its contents,
    gives a well-formed empty bitmap; on a well-formed bitmap of at least one bit
    [bitmap_bits_set] is exactly the number of bits set below [n_bits], the
    unused bits of the last word never counting; after [bitmap_clear_all] it is
    0 and after [bitmap_set_all] it is [n_bits]. *)
Theorem bitmap_bits_set_spec malloc l0 n map l :
  malloc (s32 (bitmap_buffer_size n)) = Some l0 →
  Z.of_nat (length l0) = 4 * ((n + 31) / 32) →
  0 < n <= 2 ^ 32 - 32 →
  bitmap_wf map l →
  (∃ map0, bitmap_init malloc n = Some map0 ∧ bitmap_wf map0 (replicate (length l0) 0) ∧
     n_bits map0 = n ∧ bits map0 = 0) ∧
  bitmap_bits_set map = Some (popcount (Z.to_nat (n_bits map)) (bits map)) ∧
  (∃ map', bitmap_clear_all map = Some map' ∧ bitmap_bits_set map' = Some 0) ∧
  (∃ map', bitmap_set_all map = Some map' ∧ bitmap_bits_set map' = Some (n_bits map)).
Proof.
  intros M Hl Hn W. split; [|split; [by eapply bitmap_bits_set_popcount|split]].
  - by apply bitmap_init_wf.
  - destruct (bitmap_memset_spec 0 map l) as (m' & E & W' & N); [done..|].
    exists m'. split; [exact E|]. rewrite (bitmap_bits_set_popcount _ _ W'). f_equal.
    rewrite <- (popcount_0 (Z.to_nat (n_bits m'))). apply popcount_bits. intros i Hi.
    unfold bits. rewrite (wf_buf _ _ W').
    pose proof (wf_bits_low map l i W). rewrite le_combine_replicate by (done || lia).
    by rewrite !Z.bits_0.
  - destruct (bitmap_memset_spec 255 map l) as (m' & E & W' & N); [done..|].
    exists m'. split; [exact E|]. rewrite (bitmap_bits_set_popcount _ _ W'). f_equal.
    rewrite <- N. rewrite <- (Z2Nat.id (n_bits m')) at 2 by (destruct (wf_n_bits _ _ W'); lia).
    rewrite <- popcount_minus_1. apply popcount_bits. intros i Hi.
    unfold bits. rewrite (wf_buf _ _ W').
    pose proof (wf_bits_low map l i W). rewrite le_combine_replicate by (done || lia).
    rewrite Z.bits_m1 by lia. change 255 with (Z.ones 8). apply Z.ones_spec_low.
    apply Z.mod_pos_bound. lia.
Qed.

Lemma bitmap_bits_set_spec_witness :
  ∃ map, bitmap_init (λ n, Some (replicate (Z.to_nat n) 170)) 35 = Some map ∧
    ∃ map', bitmap_set_all map = Some map' ∧ bitmap_bits_set map' = Some 35.
Proof.
  exists (mk_bitmap (Some (replicate 8 0)) 35 (2 ^ 32 - 2 ^ 3) 1). split; [reflexivity|].
  refine (proj2 (proj2 (proj2 (bitmap_bits_set_spec (λ n, Some (replicate (Z.to_nat n) 170))
    (replicate 8 170) 35 _ (replicate 8 0) _ _ _ _)))); [reflexivity|reflexivity|lia|].
  constructor; [reflexivity|..].
  - repeat constructor; unfold is_byte; lia.
  - cbn; lia.
  - reflexivity.
  - reflexivity.
Defined.
