(* ===== verification/BinlogTypes.v ===== *)
(** Enumerations and constants of the binlog library:
    [binlog/include/binary_log_types.h] (column types),
    [binlog/include/binlog_event.h] (event types, header layout) and
    [binlog/include/log_event.h] (parser states).  The code keeps column and
    event types in [uchar]s and switches on them; [*_of_Z] is the enumerator a
    byte selects, [None] when only a [default] label applies. *)
From S2P Require Import Prelude.

(** ** Column types *)

Inductive enum_field_types :=
  | MYSQL_TYPE_DECIMAL | MYSQL_TYPE_TINY | MYSQL_TYPE_SHORT | MYSQL_TYPE_LONG
  | MYSQL_TYPE_FLOAT | MYSQL_TYPE_DOUBLE | MYSQL_TYPE_NULL | MYSQL_TYPE_TIMESTAMP
  | MYSQL_TYPE_LONGLONG | MYSQL_TYPE_INT24 | MYSQL_TYPE_DATE | MYSQL_TYPE_TIME
  | MYSQL_TYPE_DATETIME | MYSQL_TYPE_YEAR | MYSQL_TYPE_NEWDATE | MYSQL_TYPE_VARCHAR
  | MYSQL_TYPE_BIT | MYSQL_TYPE_TIMESTAMP2 | MYSQL_TYPE_DATETIME2
  | MYSQL_TYPE_TIME2 | MYSQL_TYPE_JSON | MYSQL_TYPE_NEWDECIMAL | MYSQL_TYPE_ENUM
  | MYSQL_TYPE_SET | MYSQL_TYPE_TINY_BLOB | MYSQL_TYPE_MEDIUM_BLOB
  | MYSQL_TYPE_LONG_BLOB | MYSQL_TYPE_BLOB | MYSQL_TYPE_VAR_STRING
  | MYSQL_TYPE_STRING | MYSQL_TYPE_GEOMETRY.

#[export] Instance enum_field_types_eq_dec : EqDecision enum_field_types.
Proof. solve_decision. Defined.

Definition field_type_to_Z (t : enum_field_types) : Z :=
  match t with
  | MYSQL_TYPE_DECIMAL => 0 | MYSQL_TYPE_TINY => 1 | MYSQL_TYPE_SHORT => 2
  | MYSQL_TYPE_LONG => 3 | MYSQL_TYPE_FLOAT => 4 | MYSQL_TYPE_DOUBLE => 5
  | MYSQL_TYPE_NULL => 6 | MYSQL_TYPE_TIMESTAMP => 7 | MYSQL_TYPE_LONGLONG => 8
  | MYSQL_TYPE_INT24 => 9 | MYSQL_TYPE_DATE => 10 | MYSQL_TYPE_TIME => 11
  | MYSQL_TYPE_DATETIME => 12 | MYSQL_TYPE_YEAR => 13 | MYSQL_TYPE_NEWDATE => 14
  | MYSQL_TYPE_VARCHAR => 15 | MYSQL_TYPE_BIT => 16 | MYSQL_TYPE_TIMESTAMP2 => 17
  | MYSQL_TYPE_DATETIME2 => 18 | MYSQL_TYPE_TIME2 => 19 | MYSQL_TYPE_JSON => 245
  | MYSQL_TYPE_NEWDECIMAL => 246 | MYSQL_TYPE_ENUM => 247 | MYSQL_TYPE_SET => 248
  | MYSQL_TYPE_TINY_BLOB => 249 | MYSQL_TYPE_MEDIUM_BLOB => 250
  | MYSQL_TYPE_LONG_BLOB => 251 | MYSQL_TYPE_BLOB => 252
  | MYSQL_TYPE_VAR_STRING => 253 | MYSQL_TYPE_STRING => 254
  | MYSQL_TYPE_GEOMETRY => 255
  end.

Definition field_type_of_Z (z : Z) : option enum_field_types :=
  match z with
  | 0 => Some MYSQL_TYPE_DECIMAL | 1 => Some MYSQL_TYPE_TINY
  | 2 => Some MYSQL_TYPE_SHORT | 3 => Some MYSQL_TYPE_LONG
  | 4 => Some MYSQL_TYPE_FLOAT | 5 => Some MYSQL_TYPE_DOUBLE
  | 6 => Some MYSQL_TYPE_NULL | 7 => Some MYSQL_TYPE_TIMESTAMP
  | 8 => Some MYSQL_TYPE_LONGLONG | 9 => Some MYSQL_TYPE_INT24
  | 10 => Some MYSQL_TYPE_DATE | 11 => Some MYSQL_TYPE_TIME
  | 12 => Some MYSQL_TYPE_DATETIME | 13 => Some MYSQL_TYPE_YEAR
  | 14 => Some MYSQL_TYPE_NEWDATE | 15 => Some MYSQL_TYPE_VARCHAR
  | 16 => Some MYSQL_TYPE_BIT | 17 => Some MYSQL_TYPE_TIMESTAMP2
  | 18 => Some MYSQL_TYPE_DATETIME2 | 19 => Some MYSQL_TYPE_TIME2
  | 245 => Some MYSQL_TYPE_JSON | 246 => Some MYSQL_TYPE_NEWDECIMAL
  | 247 => Some MYSQL_TYPE_ENUM | 248 => Some MYSQL_TYPE_SET
  | 249 => Some MYSQL_TYPE_TINY_BLOB | 250 => Some MYSQL_TYPE_MEDIUM_BLOB
  | 251 => Some MYSQL_TYPE_LONG_BLOB | 252 => Some MYSQL_TYPE_BLOB
  | 253 => Some MYSQL_TYPE_VAR_STRING | 254 => Some MYSQL_TYPE_STRING
  | 255 => Some MYSQL_TYPE_GEOMETRY
  | _ => None
  end.

Definition DATETIME_MAX_DECIMALS : Z := 6.

(** ** Event types *)

Inductive Log_event_type :=
  | UNKNOWN_EVENT | START_EVENT_V3 | QUERY_EVENT | STOP_EVENT | ROTATE_EVENT
  | INTVAR_EVENT | LOAD_EVENT | SLAVE_EVENT | CREATE_FILE_EVENT
  | APPEND_BLOCK_EVENT | EXEC_LOAD_EVENT | DELETE_FILE_EVENT | NEW_LOAD_EVENT
  | RAND_EVENT | USER_VAR_EVENT | FORMAT_DESCRIPTION_EVENT | XID_EVENT
  | BEGIN_LOAD_QUERY_EVENT | EXECUTE_LOAD_QUERY_EVENT | TABLE_MAP_EVENT
  | PRE_GA_WRITE_ROWS_EVENT | PRE_GA_UPDATE_ROWS_EVENT | PRE_GA_DELETE_ROWS_EVENT
  | WRITE_ROWS_EVENT_V1 | UPDATE_ROWS_EVENT_V1 | DELETE_ROWS_EVENT_V1
  | INCIDENT_EVENT | HEARTBEAT_LOG_EVENT | IGNORABLE_LOG_EVENT
  | ROWS_QUERY_LOG_EVENT | WRITE_ROWS_EVENT | UPDATE_ROWS_EVENT | DELETE_ROWS_EVENT
  | GTID_LOG_EVENT | ANONYMOUS_GTID_LOG_EVENT | PREVIOUS_GTIDS_LOG_EVENT
  | TRANSACTION_CONTEXT_EVENT | VIEW_CHANGE_EVENT | XA_PREPARE_LOG_EVENT
  | ENUM_END_EVENT.

#[export] Instance Log_event_type_eq_dec : EqDecision Log_event_type.
Proof. solve_decision. Defined.

Definition event_type_to_Z (t : Log_event_type) : Z :=
  match t with
  | UNKNOWN_EVENT => 0 | START_EVENT_V3 => 1 | QUERY_EVENT => 2 | STOP_EVENT => 3
  | ROTATE_EVENT => 4 | INTVAR_EVENT => 5 | LOAD_EVENT => 6 | SLAVE_EVENT => 7
  | CREATE_FILE_EVENT => 8 | APPEND_BLOCK_EVENT => 9 | EXEC_LOAD_EVENT => 10
  | DELETE_FILE_EVENT => 11 | NEW_LOAD_EVENT => 12 | RAND_EVENT => 13
  | USER_VAR_EVENT => 14 | FORMAT_DESCRIPTION_EVENT => 15 | XID_EVENT => 16
  | BEGIN_LOAD_QUERY_EVENT => 17 | EXECUTE_LOAD_QUERY_EVENT => 18
  | TABLE_MAP_EVENT => 19 | PRE_GA_WRITE_ROWS_EVENT => 20
  | PRE_GA_UPDATE_ROWS_EVENT => 21 | PRE_GA_DELETE_ROWS_EVENT => 22
  | WRITE_ROWS_EVENT_V1 => 23 | UPDATE_ROWS_EVENT_V1 => 24
  | DELETE_ROWS_EVENT_V1 => 25 | INCIDENT_EVENT => 26 | HEARTBEAT_LOG_EVENT => 27
  | IGNORABLE_LOG_EVENT => 28 | ROWS_QUERY_LOG_EVENT => 29 | WRITE_ROWS_EVENT => 30
  | UPDATE_ROWS_EVENT => 31 | DELETE_ROWS_EVENT => 32 | GTID_LOG_EVENT => 33
  | ANONYMOUS_GTID_LOG_EVENT => 34 | PREVIOUS_GTIDS_LOG_EVENT => 35
  | TRANSACTION_CONTEXT_EVENT => 36 | VIEW_CHANGE_EVENT => 37
  | XA_PREPARE_LOG_EVENT => 38 | ENUM_END_EVENT => 39
  end.

Definition event_type_of_Z (z : Z) : option Log_event_type :=
  match z with
  | 0 => Some UNKNOWN_EVENT | 1 => Some START_EVENT_V3 | 2 => Some QUERY_EVENT
  | 3 => Some STOP_EVENT | 4 => Some ROTATE_EVENT | 5 => Some INTVAR_EVENT
  | 6 => Some LOAD_EVENT | 7 => Some SLAVE_EVENT | 8 => Some CREATE_FILE_EVENT
  | 9 => Some APPEND_BLOCK_EVENT | 10 => Some EXEC_LOAD_EVENT
  | 11 => Some DELETE_FILE_EVENT | 12 => Some NEW_LOAD_EVENT
  | 13 => Some RAND_EVENT | 14 => Some USER_VAR_EVENT
  | 15 => Some FORMAT_DESCRIPTION_EVENT | 16 => Some XID_EVENT
  | 17 => Some BEGIN_LOAD_QUERY_EVENT | 18 => Some EXECUTE_LOAD_QUERY_EVENT
  | 19 => Some TABLE_MAP_EVENT | 20 => Some PRE_GA_WRITE_ROWS_EVENT
  | 21 => Some PRE_GA_UPDATE_ROWS_EVENT | 22 => Some PRE_GA_DELETE_ROWS_EVENT
  | 23 => Some WRITE_ROWS_EVENT_V1 | 24 => Some UPDATE_ROWS_EVENT_V1
  | 25 => Some DELETE_ROWS_EVENT_V1 | 26 => Some INCIDENT_EVENT
  | 27 => Some HEARTBEAT_LOG_EVENT | 28 => Some IGNORABLE_LOG_EVENT
  | 29 => Some ROWS_QUERY_LOG_EVENT | 30 => Some WRITE_ROWS_EVENT
  | 31 => Some UPDATE_ROWS_EVENT | 32 => Some DELETE_ROWS_EVENT
  | 33 => Some GTID_LOG_EVENT | 34 => Some ANONYMOUS_GTID_LOG_EVENT
  | 35 => Some PREVIOUS_GTIDS_LOG_EVENT | 36 => Some TRANSACTION_CONTEXT_EVENT
  | 37 => Some VIEW_CHANGE_EVENT | 38 => Some XA_PREPARE_LOG_EVENT
  | 39 => Some ENUM_END_EVENT
  | _ => None
  end.

Definition LOG_EVENT_TYPES : Z := event_type_to_Z ENUM_END_EVENT - 1.

(** ** The event header *)

Definition BIN_LOG_HEADER_SIZE : Z := 4.
Definition ST_SERVER_VER_LEN : Z := 50.
Definition LOG_EVENT_MINIMAL_HEADER_LEN : Z := 19.
Definition LOG_EVENT_HEADER_LEN : Z := 19.
Definition MAX_DBS_IN_EVENT_MTS : Z := 16.
Definition OVER_MAX_DBS_IN_EVENT_MTS : Z := 254.
Definition NAME_LEN : Z := 64 * 3.
Definition EVENT_TYPE_OFFSET : Z := 4.
Definition SERVER_ID_OFFSET : Z := 5.
Definition EVENT_LEN_OFFSET : Z := 9.
Definition LOG_POS_OFFSET : Z := 13.
Definition FLAGS_OFFSET : Z := 17.
Definition MAX_SIZE_LOG_EVENT_STATUS : Z :=
  (1 + 4) + (1 + 8) + (1 + 1 + 255) + (1 + 4) + (1 + 6) + (1 + 1 + 255) + (1 + 2) +
  (1 + 2) + (1 + 8) + (1 + 4) + (1 + MAX_DBS_IN_EVENT_MTS * (1 + NAME_LEN)) + 3 +
  1 + 32 * 3 + 1 + 60.

(** Post-header lengths the code names. *)
Definition QUERY_HEADER_MINIMAL_LEN : Z := 4 + 4 + 1 + 2.
Definition QUERY_HEADER_LEN : Z := QUERY_HEADER_MINIMAL_LEN + 2.
Definition START_V3_HEADER_LEN : Z := 2 + ST_SERVER_VER_LEN + 4.
Definition TABLE_MAP_HEADER_LEN : Z := 8.
Definition ROWS_HEADER_LEN_V1 : Z := 8.
Definition ROWS_HEADER_LEN_V2 : Z := 10.

(** ** Parser states *)

Inductive load_event_state :=
  | EVENT_SUCCESS | EVENT_STREAM_UNABLED | EVENT_HEADER_FAILED
  | EVENT_EVENT_LENGTH_TOO_SMALL | EVENT_MAP_HEADER_LEN_ERROR
  | EVENT_FIELD_META_SIZE_TOO_BIG | EVENT_EXTRA_HEADER_LEN_TOO_SMALL
  | EVENT_FIND_TABLEMAP_FAILED | EVENT_END.

#[export] Instance load_event_state_eq_dec : EqDecision load_event_state.
Proof. solve_decision. Defined.

(** [BINLOG_MAGIC]. *)
Definition BINLOG_MAGIC : list Z := [0xfe; 0x62; 0x69; 0x6e].

Lemma field_type_of_to_Z t : field_type_of_Z (field_type_to_Z t) = Some t.
Proof. by destruct t. Qed.

Lemma event_type_of_to_Z t : event_type_of_Z (event_type_to_Z t) = Some t.
Proof. by destruct t. Qed.

Lemma field_type_of_Z_Some z t : field_type_of_Z z = Some t → z = field_type_to_Z t.
Proof.
  intros H. destruct z as [|p|p]; [injection H as <-; done| |discriminate].
  do 8 (destruct p as [p|p|]; try discriminate H; try (injection H as <-; done)).
Qed.

Lemma event_type_of_Z_Some z t : event_type_of_Z z = Some t → z = event_type_to_Z t.
Proof.
  intros H. destruct z as [|p|p]; [injection H as <-; done| |discriminate].
  do 6 (destruct p as [p|p|]; try discriminate H; try (injection H as <-; done)).
Qed.
