(* ===== verification/BinlogFuncs.v ===== *)
(** Field lengths of the row format: [binlog/src/binary_log_funcs.cpp].  A
    result is [None] when the C code reads outside its buffer or its tables, or
    shifts by an amount the language leaves undefined. *)
From S2P Require Import Prelude ByteOrder BinlogTypes.

Definition IS_BIG_ENDIAN : bool := false.

Definition UINT_MAX : Z := 2 ^ 32 - 1.

Definition uint_max (bits : Z) : option Z :=
  if (1 <=? bits) && (bits <=? 32)
  then Some ((u32 (u32 ((1 .<< (bits - 1)) - 1) .<< 1)) .| 1)
  else None.

Definition my_time_binary_length (dec : Z) : Z := u32 (3 + u32 (dec + 1) / 2).
Definition my_datetime_binary_length (dec : Z) : Z := u32 (5 + u32 (dec + 1) / 2).
Definition my_timestamp_binary_length (dec : Z) : Z := u32 (4 + u32 (dec + 1) / 2).

Definition max_display_length_for_field (sql_type : enum_field_types) (metadata : Z) : option Z :=
  match sql_type with
  | MYSQL_TYPE_NEWDECIMAL => Some (metadata .>> 8)
  | MYSQL_TYPE_FLOAT => Some 12
  | MYSQL_TYPE_DOUBLE => Some 22
  | MYSQL_TYPE_SET | MYSQL_TYPE_ENUM => Some (metadata .& 0x00ff)
  | MYSQL_TYPE_STRING =>
      let type := u8 (metadata .>> 8) in
      if (type =? field_type_to_Z MYSQL_TYPE_SET) || (type =? field_type_to_Z MYSQL_TYPE_ENUM)
      then Some (metadata .& 0xff)
      else Some (u32 ((((metadata .>> 4) .& 0x300) .^ 0x300) + (metadata .& 0x00ff)))
  | MYSQL_TYPE_YEAR | MYSQL_TYPE_TINY => Some 4
  | MYSQL_TYPE_SHORT => Some 6
  | MYSQL_TYPE_INT24 => Some 9
  | MYSQL_TYPE_LONG => Some 11
  | MYSQL_TYPE_LONGLONG => Some 20
  | MYSQL_TYPE_NULL => Some 0
  | MYSQL_TYPE_NEWDATE => Some 3
  | MYSQL_TYPE_DATE | MYSQL_TYPE_TIME | MYSQL_TYPE_TIME2 => Some 3
  | MYSQL_TYPE_TIMESTAMP | MYSQL_TYPE_TIMESTAMP2 => Some 4
  | MYSQL_TYPE_DATETIME | MYSQL_TYPE_DATETIME2 => Some 8
  | MYSQL_TYPE_BIT => Some (u32 (u32 (8 * (metadata .>> 8)) + (metadata .& 0x00ff)))
  | MYSQL_TYPE_VAR_STRING | MYSQL_TYPE_VARCHAR => Some metadata
  | MYSQL_TYPE_TINY_BLOB => uint_max (1 * 8)
  | MYSQL_TYPE_MEDIUM_BLOB => uint_max (3 * 8)
  | MYSQL_TYPE_BLOB => uint_max (s32 (u32 (metadata * 8)))
  | MYSQL_TYPE_LONG_BLOB | MYSQL_TYPE_GEOMETRY | MYSQL_TYPE_JSON => uint_max (4 * 8)
  | _ => Some UINT_MAX
  end.

(** A table access with an [int] index: out of range is [None]. *)
Definition table_at (t : list Z) (i : Z) : option Z :=
  if i <? 0 then None else t !! Z.to_nat i.

Definition dig2bytes : list Z := [0; 1; 1; 2; 2; 3; 3; 4; 4; 4].

(** [int] division truncates towards zero. *)
Definition decimal_binary_size (precision scale : Z) : option Z :=
  let intg := precision - scale in
  let intg0 := intg ÷ 9 in
  let frac0 := scale ÷ 9 in
  let intg0x := intg - intg0 * 9 in
  let frac0x := scale - frac0 * 9 in
  d1 ← table_at dig2bytes intg0x;
  d2 ← table_at dig2bytes frac0x;
  Some (s32 (u32 (intg0 * 4 + d1 + frac0 * 4 + d2))).

(** [memcpy(&x, p, n)] into a zeroed [uint32] of a little-endian machine. *)
Definition memcpy_u32 (n : nat) (p : list Z) : option Z :=
  b ← load n p; Some (le32toh IS_BIG_ENDIAN (le_combine b)).

(** The length-prefixed strings: one byte of length, or two. *)
Definition prefixed_length (wide : bool) (master_data : list Z) : option Z :=
  if wide
  then temp ← memcpy_u32 2 master_data; Some (u32 (2 + temp))
  else b ← master_data !! 0%nat; Some (u32 (1 + b)).

(** The switch on [metadata], the width of a blob's length prefix. *)
Definition blob_length (metadata : Z) (master_data : list Z) : option Z :=
  length ←
    (match metadata with
     | 1 => master_data !! 0%nat
     | 2 => memcpy_u32 2 master_data
     | 3 => memcpy_u32 3 master_data
     | 4 => memcpy_u32 4 master_data
     | _ => Some 0
     end);
  Some (u32 (length + metadata)).

Definition calc_field_size (col : Z) (master_data : list Z) (metadata : Z) : option Z :=
  match field_type_of_Z col with
  | Some MYSQL_TYPE_NEWDECIMAL =>
      n ← decimal_binary_size (s32 (metadata .>> 8)) (metadata .& 0xff); Some (u32 n)
  | Some (MYSQL_TYPE_DECIMAL | MYSQL_TYPE_FLOAT | MYSQL_TYPE_DOUBLE) => Some metadata
  | Some (MYSQL_TYPE_SET | MYSQL_TYPE_ENUM | MYSQL_TYPE_STRING) =>
      let type := u8 (metadata .>> 8) in
      if (type =? field_type_to_Z MYSQL_TYPE_SET) || (type =? field_type_to_Z MYSQL_TYPE_ENUM)
      then Some (metadata .& 0x00ff)
      else
        m ← max_display_length_for_field MYSQL_TYPE_STRING metadata;
        prefixed_length (255 <? m) master_data
  | Some (MYSQL_TYPE_YEAR | MYSQL_TYPE_TINY) => Some 1
  | Some MYSQL_TYPE_SHORT => Some 2
  | Some MYSQL_TYPE_INT24 => Some 3
  | Some MYSQL_TYPE_LONG => Some 4
  | Some MYSQL_TYPE_LONGLONG => Some 8
  | Some MYSQL_TYPE_NULL => Some 0
  | Some MYSQL_TYPE_NEWDATE => Some 3
  | Some (MYSQL_TYPE_DATE | MYSQL_TYPE_TIME) => Some 3
  | Some MYSQL_TYPE_TIME2 => Some (my_time_binary_length metadata)
  | Some MYSQL_TYPE_TIMESTAMP => Some 4
  | Some MYSQL_TYPE_TIMESTAMP2 => Some (my_timestamp_binary_length metadata)
  | Some MYSQL_TYPE_DATETIME => Some 8
  | Some MYSQL_TYPE_DATETIME2 => Some (my_datetime_binary_length metadata)
  | Some MYSQL_TYPE_BIT =>
      let from_len := (metadata .>> 8) .& 0x00ff in
      let from_bit_len := metadata .& 0x00ff in
      Some (u32 (from_len + (if 0 <? from_bit_len then 1 else 0)))
  | Some MYSQL_TYPE_VARCHAR => prefixed_length (255 <? metadata) master_data
  | Some (MYSQL_TYPE_TINY_BLOB | MYSQL_TYPE_MEDIUM_BLOB | MYSQL_TYPE_LONG_BLOB |
          MYSQL_TYPE_BLOB | MYSQL_TYPE_GEOMETRY | MYSQL_TYPE_JSON) =>
      blob_length metadata master_data
  | _ => Some UINT_MAX
  end.

(** ** Reading little-endian prefixes *)

Lemma memcpy_u32_eq n p :
  (n ≤ length p)%nat → memcpy_u32 n p = Some (le_combine (take n p)).
Proof. intros. unfold memcpy_u32. by rewrite load_some. Qed.

Lemma memcpy_u32_split n v r :
  0 <= v < 256 ^ Z.of_nat n → memcpy_u32 n (le_split n v ++ r) = Some v.
Proof.
  intros Hv. rewrite memcpy_u32_eq by (rewrite length_app, length_le_split; lia).
  rewrite take_app_length' by by rewrite length_le_split. rewrite le_combine_split. by rewrite Z.mod_small.
Qed.
