(* ===== verification/TableDef.v ===== *)
(** Table definitions: [binlog/include/TableDef.h] and
    [binlog/src/TableDef.cpp].  A [CTableDef] is built from the payload of a
    table map event; row parsing asks it for the type and the metadata of each
    column.  Reading a vector out of range, undefined in C++, is [None]. *)
From S2P Require Import Prelude ByteOrder BinlogTypes BinlogFuncs.

Record CTableDef := mk_table_def {
  m_column_size : Z;
  m_field_metadata_size : Z;
  m_flags : Z;
  m_column_type : list Z;
  m_null_bits : list Z;
  m_field_metadata : list Z;
}.

(** One iteration of the constructor's loop: the metadata of a column of type
    [t], read at [index], and the index of the next column's. *)
Definition metadata_step (t : Z) (fieldMetadata : list Z) (index : nat) : option (Z * nat) :=
  match field_type_of_Z t with
  | Some (MYSQL_TYPE_TINY_BLOB | MYSQL_TYPE_BLOB | MYSQL_TYPE_MEDIUM_BLOB |
          MYSQL_TYPE_LONG_BLOB | MYSQL_TYPE_DOUBLE | MYSQL_TYPE_FLOAT |
          MYSQL_TYPE_GEOMETRY | MYSQL_TYPE_JSON) =>
      b ← fieldMetadata !! index; Some (b, S index)
  | Some (MYSQL_TYPE_SET | MYSQL_TYPE_ENUM | MYSQL_TYPE_STRING) =>
      b0 ← fieldMetadata !! index;
      b1 ← fieldMetadata !! S index;
      Some (u16 (u16 (b0 .<< 8) + b1), (index + 2)%nat)
  | Some MYSQL_TYPE_BIT =>
      b0 ← fieldMetadata !! index;
      b1 ← fieldMetadata !! S index;
      Some (u16 (b0 + (b1 .<< 8)), (index + 2)%nat)
  | Some MYSQL_TYPE_VARCHAR =>
      x ← uint2korr (drop index fieldMetadata); Some (x, (index + 2)%nat)
  | Some MYSQL_TYPE_NEWDECIMAL =>
      b0 ← fieldMetadata !! index;
      b1 ← fieldMetadata !! S index;
      Some (u16 (u16 (b0 .<< 8) + b1), (index + 2)%nat)
  | Some (MYSQL_TYPE_TIME2 | MYSQL_TYPE_DATETIME2 | MYSQL_TYPE_TIMESTAMP2) =>
      b ← fieldMetadata !! index; Some (b, S index)
  | _ => Some (0, index)
  end.

(** The loop over the columns [i], [i + 1], ..., [i + n - 1]; the pushed values
    are accumulated. *)
Fixpoint metadata_loop (n i : nat) (colType fieldMetadata : list Z) (index : nat)
    (acc : list Z) : option (list Z) :=
  match n with
  | O => Some acc
  | S n =>
      t ← colType !! i;
      p ← metadata_step t fieldMetadata index;
      metadata_loop n (S i) colType fieldMetadata (snd p) (acc ++ [fst p])
  end.

(** The constructor [CTableDef::CTableDef]. *)
Definition new_CTableDef (colType : list Z) (colSize : Z) (fieldMetadata : list Z)
    (metadataSize : Z) (nullBitmap : list Z) (flags : Z) : option CTableDef :=
  meta ←
    (if negb (colSize =? 0) && negb (metadataSize =? 0)
     then metadata_loop (Z.to_nat colSize) 0 colType fieldMetadata 0 []
     else Some []);
  Some (mk_table_def colSize metadataSize flags colType nullBitmap meta).

Definition size (td : CTableDef) : Z := m_column_size td.

Definition binlog_type (td : CTableDef) (index : Z) : option Z :=
  table_at (m_column_type td) index.

Definition type (td : CTableDef) (index : Z) : option Z :=
  source_type ← binlog_type td index;
  source_metadata ← table_at (m_field_metadata td) index;
  Some
    match field_type_of_Z source_type with
    | Some MYSQL_TYPE_STRING =>
        let real_type := source_metadata .>> 8 in
        if (real_type =? field_type_to_Z MYSQL_TYPE_ENUM) ||
           (real_type =? field_type_to_Z MYSQL_TYPE_SET)
        then real_type else source_type
    | Some MYSQL_TYPE_DATE => field_type_to_Z MYSQL_TYPE_NEWDATE
    | _ => source_type
    end.

Definition maybe_null (td : CTableDef) (index : Z) : option bool :=
  b ← table_at (m_null_bits td) (index / 8);
  Some (b .& (1 .<< (index mod 8)) =? 1 .<< (index mod 8)).

Definition field_metadata (td : CTableDef) (index : Z) : option Z :=
  if negb (m_field_metadata_size td =? 0)
  then table_at (m_field_metadata td) index
  else Some 0.

(** [CTableDef::calc_field_size]: the type is narrowed to a [uchar]. *)
Definition td_calc_field_size (td : CTableDef) (col : Z) (master_data : list Z) : option Z :=
  t ← type td col;
  m ← table_at (m_field_metadata td) col;
  calc_field_size (u8 t) master_data m.

(** ** The format of the metadata block

    The reference: how a column's metadata is laid out in a table map event, as
    the width of its entry and the order of its bytes. *)

Definition metadata_encode (t : enum_field_types) (m : Z) : list Z :=
  match t with
  | MYSQL_TYPE_TINY_BLOB | MYSQL_TYPE_BLOB | MYSQL_TYPE_MEDIUM_BLOB
  | MYSQL_TYPE_LONG_BLOB | MYSQL_TYPE_DOUBLE | MYSQL_TYPE_FLOAT
  | MYSQL_TYPE_GEOMETRY | MYSQL_TYPE_JSON
  | MYSQL_TYPE_TIME2 | MYSQL_TYPE_DATETIME2 | MYSQL_TYPE_TIMESTAMP2 => le_split 1 m
  | MYSQL_TYPE_SET | MYSQL_TYPE_ENUM | MYSQL_TYPE_STRING | MYSQL_TYPE_NEWDECIMAL => be_split 2 m
  | MYSQL_TYPE_BIT | MYSQL_TYPE_VARCHAR => le_split 2 m
  | _ => []
  end.

(** The metadata values a column of type [t] can have. *)
Definition metadata_ok (t : enum_field_types) (m : Z) : Prop :=
  0 <= m < 256 ^ Z.of_nat (length (metadata_encode t 0)).

Definition encode_columns (cols : list (enum_field_types * Z)) : list Z :=
  concat (map (λ c, metadata_encode (fst c) (snd c)) cols).

Lemma metadata_encode_length t m : length (metadata_encode t m) = length (metadata_encode t 0).
Proof. by destruct t. Qed.

Lemma metadata_encode_bytes t m : bytes_ok (metadata_encode t m).
Proof. destruct t; cbn [metadata_encode]; auto with cint. Qed.

Lemma encode_columns_bytes cols : bytes_ok (encode_columns cols).
Proof.
  unfold encode_columns. induction cols as [|c cols IH]; cbn; [constructor|].
  apply Forall_app. split; [apply metadata_encode_bytes|done].
Qed.

(** Reading one entry back, wherever it is in the block. *)
Lemma metadata_step_encode t m pre post :
  metadata_ok t m → bytes_ok post →
  metadata_step (field_type_to_Z t) (pre ++ metadata_encode t m ++ post) (length pre) =
    Some (m, (length pre + length (metadata_encode t m))%nat).
Proof.
  intros Hm Hp. unfold metadata_step. rewrite field_type_of_to_Z, drop_app_length.
  unfold metadata_ok in Hm.
  assert (B : ∀ k (l : list Z), (pre ++ l) !! (length pre + k)%nat = l !! k)
    by (intros; rewrite lookup_app_r by lia; f_equal; lia).
  pose proof (B 0%nat) as B0. rewrite Nat.add_0_r in B0.
  pose proof (B 1%nat) as B1. rewrite Nat.add_1_r in B1. clear B.
  destruct t; cbn [metadata_encode length le_split] in *;
    change (be_split 2 m) with [m / 256 mod 256; m mod 256] in *;
    rewrite ?B0, ?B1; cbn -[Z.shiftl Z.add Z.modulo Z.div uint2korr] in *;
    rewrite ?uint2korr_le by (repeat constructor; auto; unfold is_byte; zdm);
    rewrite ?load_some by (cbn; lia); cbn -[Z.shiftl Z.add Z.modulo Z.div] in *;
    rewrite ?take_0; cbn -[Z.shiftl Z.add Z.modulo Z.div] in *;
    try (by f_equal; f_equal; lia);
    do 2 f_equal; try lia; zsolve.
Qed.

Lemma metadata_loop_encode cols post ts i pre acc :
  Forall (λ c, metadata_ok (fst c) (snd c)) cols → bytes_ok post →
  drop i ts = map (λ c, field_type_to_Z (fst c)) cols →
  metadata_loop (length cols) i ts (pre ++ encode_columns cols ++ post) (length pre) acc =
    Some (acc ++ map snd cols).
Proof.
  intros H Hp. revert i pre acc.
  induction H as [|[t m] cols Ht Hc IH]; intros i pre acc Hts; cbn [length metadata_loop].
  { by rewrite app_nil_r. }
  assert (L : ts !! i = Some (field_type_to_Z t)).
  { rewrite <- (Nat.add_0_r i), <- lookup_drop, Hts. done. }
  rewrite L. cbn [mbind option_bind]. unfold encode_columns in *. cbn [map concat fst snd] in *.
  rewrite <- app_assoc, metadata_step_encode; [|done|].
  2:{ apply Forall_app. split; [apply encode_columns_bytes|done]. }
  cbn [mbind option_bind fst snd].
  specialize (IH (S i) (pre ++ metadata_encode t m) (acc ++ [m])).
  rewrite length_app, <- !app_assoc in IH. apply IH.
  rewrite <- Nat.add_1_r, <- drop_drop, Hts. done.
Qed.

(** The type a column really has. *)
Definition real_type (t : enum_field_types) (m : Z) : Z :=
  match t with
  | MYSQL_TYPE_STRING => if (m / 256 =? 247) || (m / 256 =? 248) then m / 256 else 254
  | MYSQL_TYPE_DATE => 14
  | _ => field_type_to_Z t
  end.

Lemma table_at_map {A} (f : A → Z) (l : list A) i x :
  l !! i = Some x → table_at (map f l) (Z.of_nat i) = Some (f x).
Proof.
  intros H. unfold table_at. destruct (Z.ltb_spec (Z.of_nat i) 0); [lia|].
  rewrite Nat2Z.id, list_lookup_fmap. by rewrite H.
Qed.

Lemma type_real td i t m :
  binlog_type td i = Some (field_type_to_Z t) → table_at (m_field_metadata td) i = Some m →
  0 <= m → type td i = Some (real_type t m).
Proof.
  intros Hb Hm H0. unfold type. rewrite Hb, Hm. cbn [mbind option_bind].
  rewrite field_type_of_to_Z. f_equal. destruct t; try done.
  cbn [real_type]. by rewrite Z.shiftr_div_pow2.
Qed.

Lemma decode_columns cols nulls flags :
  Forall (λ c, metadata_ok (fst c) (snd c)) cols →
  encode_columns cols ≠ [] →
  ∃ td, new_CTableDef (map (λ c, field_type_to_Z (fst c)) cols) (Z.of_nat (length cols))
          (encode_columns cols) (Z.of_nat (length (encode_columns cols))) nulls flags = Some td ∧
    size td = Z.of_nat (length cols) ∧
    ∀ i t m, cols !! i = Some (t, m) →
      binlog_type td (Z.of_nat i) = Some (field_type_to_Z t) ∧
      field_metadata td (Z.of_nat i) = Some m ∧
      type td (Z.of_nat i) = Some (real_type t m).
Proof.
  intros H Hne. unfold new_CTableDef.
  assert (length (encode_columns cols) ≠ O) by (by destruct (encode_columns cols)).
  destruct cols as [|c cols]; [done|]. set (l := c :: cols) in *.
  assert (length l ≠ O) by done.
  destruct (Z.eqb_spec (Z.of_nat (length l)) 0); [lia|].
  destruct (Z.eqb_spec (Z.of_nat (length (encode_columns l))) 0); [lia|]. cbn [negb andb].
  pose proof (metadata_loop_encode l [] (map (λ c, field_type_to_Z (fst c)) l) 0 [] []) as E.
  rewrite app_nil_r in E. cbn [app length] in E. rewrite Nat2Z.id, E by done.
  cbn [mbind option_bind]. eexists. split; [done|]. split; [done|]. intros i t m Hi.
  assert (B := table_at_map (λ c, field_type_to_Z (fst c)) l i (t, m) Hi).
  assert (M := table_at_map snd l i (t, m) Hi).
  split; [exact B|]. split.
  - unfold field_metadata. cbn [m_field_metadata_size m_field_metadata].
    destruct (Z.eqb_spec (Z.of_nat (length (encode_columns l))) 0); [lia|]. exact M.
  - eapply type_real; [exact B|exact M|].
    assert (K : metadata_ok t m) by (exact (Forall_lookup_1 _ _ _ _ H Hi)). apply K.
Qed.

(** A column whose type has no metadata bytes has the metadata 0. *)
Lemma encode_columns_nil cols i t m :
  Forall (λ c, metadata_ok (fst c) (snd c)) cols → encode_columns cols = [] → cols !! i = Some (t, m) → m = 0.
Proof.
  intros H E Hi. assert (K : metadata_ok t m) by (exact (Forall_lookup_1 _ _ _ _ H Hi)).
  apply list_elem_of_lookup_2 in Hi. apply list_elem_of_In, in_split in Hi as (l1 & l2 & ->).
  unfold encode_columns in E. rewrite map_app, concat_app in E. cbn [map concat fst snd] in E.
  apply app_eq_nil in E as [_ E]. apply app_eq_nil in E as [E _].
  unfold metadata_ok in K. rewrite <- (metadata_encode_length t m), E in K. cbn in K. lia.
Qed.

(** For any columns; [type] reads outside of a vector that is empty. *)
Lemma decode_all_columns cols nulls flags :
  Forall (λ c, metadata_ok (fst c) (snd c)) cols →
  ∃ td, new_CTableDef (map (λ c, field_type_to_Z (fst c)) cols) (Z.of_nat (length cols))
          (encode_columns cols) (Z.of_nat (length (encode_columns cols))) nulls flags = Some td ∧
    size td = Z.of_nat (length cols) ∧
    ∀ i t m, cols !! i = Some (t, m) →
      binlog_type td (Z.of_nat i) = Some (field_type_to_Z t) ∧
      field_metadata td (Z.of_nat i) = Some m ∧
      type td (Z.of_nat i) = (if decide (encode_columns cols = []) then None else Some (real_type t m)).
Proof.
  intros H. destruct (decide (encode_columns cols = [])) as [E|E]; [|by apply decode_columns].
  unfold new_CTableDef. rewrite E. cbn [length Z.of_nat]. rewrite andb_false_r. cbn [mbind option_bind].
  eexists. split; [done|]. split; [done|]. intros i t m Hi.
  pose proof (table_at_map (λ c, field_type_to_Z (fst c)) cols i (t, m) Hi) as B. cbn [fst] in B.
  split; [exact B|]. split; [by rewrite (encode_columns_nil cols i t m H E Hi)|].
  unfold type, binlog_type. cbn [m_column_type m_field_metadata]. rewrite B. cbn [mbind option_bind].
  unfold table_at. by destruct (Z.of_nat i <? 0).
Qed.

(** C40: the constructor of [CTableDef] decodes the metadata block of a table map
    event: for columns of any types with metadata values of the format's width,
    laid out one after the other as the format says, it succeeds and gives every
    column its type and its metadata, and if any column has metadata, the real type,
    that of an ENUM or SET stored as a string and NEWDATE for a DATE.  If none has,
    [type] reads an empty vector out of range for every column. *)
Theorem new_CTableDef_decodes cols nulls flags :
  Forall (λ c, metadata_ok (fst c) (snd c)) cols →
  ∃ td, new_CTableDef (map (λ c, field_type_to_Z (fst c)) cols) (Z.of_nat (length cols))
          (encode_columns cols) (Z.of_nat (length (encode_columns cols))) nulls flags = Some td ∧
    size td = Z.of_nat (length cols) ∧
    ∀ i t m, cols !! i = Some (t, m) →
      binlog_type td (Z.of_nat i) = Some (field_type_to_Z t) ∧
      field_metadata td (Z.of_nat i) = Some m ∧
      type td (Z.of_nat i) = (if decide (encode_columns cols = []) then None else Some (real_type t m)).
Proof. apply decode_all_columns. Qed.

Lemma new_CTableDef_decodes_witness :
  ∃ td, new_CTableDef [3; 254; 246] 3 [247; 1; 10; 2] 4 [7] 1 = Some td ∧
    type td 1 = Some 247 ∧ field_metadata td 2 = Some 2562.
Proof.
  destruct (new_CTableDef_decodes
    [(MYSQL_TYPE_LONG, 0); (MYSQL_TYPE_STRING, 63233); (MYSQL_TYPE_NEWDECIMAL, 2562)] [7] 1)
    as (td & E & _ & C).
  - repeat constructor; cbn; lia.
  - exists td. split; [exact E|]. split.
    + destruct (C 1%nat MYSQL_TYPE_STRING 63233 eq_refl) as (_ & _ & T). exact T.
    + destruct (C 2%nat MYSQL_TYPE_NEWDECIMAL 2562 eq_refl) as (_ & M & _). exact M.
Defined.

(** When no column of the table has metadata the block is empty, and then
    the two accessors disagree: [field_metadata] guards against it and answers
    0, while [type] reads the empty metadata vector out of range at every
    column. *)
Theorem type_without_metadata colType colSize fm nulls flags i :
  ∃ td, new_CTableDef colType colSize fm 0 nulls flags = Some td ∧
    field_metadata td i = Some 0 ∧ type td i = None.
Proof.
  unfold new_CTableDef. rewrite andb_false_r. cbn [mbind option_bind].
  eexists. split; [done|]. split; [done|]. unfold type. destruct (binlog_type _ i); [|done].
  cbn [mbind option_bind m_field_metadata]. unfold table_at. by destruct (i <? 0).
Qed.
