(* ===== verification/BinDecimal.v ===== *)
(** Fixed-point numbers: [binlog/src/decimal.cpp], [binlog/include/decimal.h]
    and the wrapper [binary2my_decimal] of [binlog/include/my_decimal.h].  A
    decimal is an array of base-10^9 digits; the binary form is what row events
    carry, the text form is what the parser hands on. *)
From S2P Require Import Prelude ByteOrder BinlogFuncs.

(** ** Data *)

Definition DIG_PER_DEC1 : Z := 9.
Definition DIG_MASK : Z := 100000000.
Definition DIG_BASE : Z := 1000000000.
Definition DIG_MAX : Z := DIG_BASE - 1.
Definition ROUND_UP (x : Z) : Z := (x + DIG_PER_DEC1 - 1) ÷ DIG_PER_DEC1.
Definition powers10 : list Z :=
  [1; 10; 100; 1000; 10000; 100000; 1000000; 10000000; 100000000; 1000000000].

Definition E_DEC_OK : Z := 0.
Definition E_DEC_TRUNCATED : Z := 1.
Definition E_DEC_OVERFLOW : Z := 2.
Definition E_DEC_DIV_ZERO : Z := 4.
Definition E_DEC_BAD_NUM : Z := 8.
Definition E_DEC_OOM : Z := 16.
Definition E_DEC_FATAL_ERROR : Z := 30.

Record decimal_t := mk_decimal {
  intg : Z;
  frac : Z;
  len : Z;
  sign : Z;
  buf : list Z;
}.

Definition DECIMAL_BUFF_LENGTH : Z := 9.
Definition DECIMAL_MAX_POSSIBLE_PRECISION : Z := DECIMAL_BUFF_LENGTH * 9.
Definition DECIMAL_MAX_STR_LENGTH : Z := DECIMAL_MAX_POSSIBLE_PRECISION + 2.

Definition decimal_bin_size (precision scale : Z) : option Z :=
  let intg := precision - scale in
  let intg0 := intg ÷ DIG_PER_DEC1 in
  let frac0 := scale ÷ DIG_PER_DEC1 in
  let intg0x := intg - intg0 * DIG_PER_DEC1 in
  let frac0x := scale - frac0 * DIG_PER_DEC1 in
  d1 ← table_at dig2bytes intg0x;
  d2 ← table_at dig2bytes frac0x;
  Some (s32 (u32 (intg0 * 4 + d1 + frac0 * 4 + d2))).

(** The macro [FIX_INTG_FRAC_ERROR]: what fits in [len] digits. *)
Definition FIX_INTG_FRAC_ERROR (len intg1 frac1 : Z) : Z * Z * Z :=
  if len <? intg1 + frac1 then
    if len <? intg1 then (len, 0, E_DEC_OVERFLOW)
    else (intg1, len - intg1, E_DEC_TRUNCATED)
  else (intg1, frac1, E_DEC_OK).

(** ** From binary *)

(** A statement of [bin2decimal] completes, jumps to the label [err] with the
    digits written so far, or has no defined behaviour. *)
Inductive outcome (A : Type) :=
  | Done (a : A)
  | Goto_err (b : list Z)
  | Undefined.
Arguments Done {A} a.
Arguments Goto_err {A} b.
Arguments Undefined {A}.

Definition bind_outcome {A B} (m : outcome A) (f : A → outcome B) : outcome B :=
  match m with Done a => f a | Goto_err b => Goto_err b | Undefined => Undefined end.
Notation "x '<~' m ; k" := (bind_outcome m (λ x, k))
  (at level 20, m at level 100, k at level 200, right associativity).

Definition defined {A} (o : option A) : outcome A :=
  match o with Some a => Done a | None => Undefined end.

(** The variables of the decoder: the input pointer, the output pointer as an
    index into the digit buffer, the buffer, and [to->intg]. *)
Record cursor := mk_cursor { c_from : list Z; c_pos : nat; c_buf : list Z; c_intg : Z }.

(** The [switch] on the byte count of a partial group. *)
Definition read_group (i : Z) (from : list Z) : option Z :=
  match i with
  | 1 => mi_sint1korr from
  | 2 => mi_sint2korr from
  | 3 => mi_sint3korr from
  | 4 => mi_sint4korr from
  | _ => Some 0
  end.

(** [*buf= v], then the range check. *)
Definition put_digit (c : cursor) (v : Z) (bad : bool) : outcome (list Z) :=
  if decide (c_pos c < length (c_buf c))%nat
  then let b := <[c_pos c := v]> (c_buf c) in if bad then Goto_err b else Done b
  else Undefined.

(** The pointer advances unless the digit is a leading zero. *)
Definition skip_zero (c : cursor) (b : list Z) (v digits : Z) (from : list Z) : cursor :=
  if (0 <? Z.of_nat (c_pos c)) || negb (v =? 0)
  then mk_cursor from (S (c_pos c)) b (c_intg c)
  else mk_cursor from (c_pos c) b (c_intg c - digits).

(** [if (intg0x) { ... }]. *)
Definition read_intg0x (mask intg0x : Z) (c : cursor) : outcome cursor :=
  if intg0x =? 0 then Done c
  else
    i <~ defined (table_at dig2bytes intg0x);
    x <~ defined (read_group i (c_from c));
    let from := drop (Z.to_nat i) (c_from c) in
    let v := x .^ mask in
    p <~ defined (table_at powers10 (intg0x + 1));
    b <~ put_digit c v (p <=? u64 v);
    Done (skip_zero c b v intg0x from).

(** The loop over [intg0] full integer digits. *)
Fixpoint read_intg0 (mask : Z) (n : nat) (c : cursor) : outcome cursor :=
  match n with
  | O => Done c
  | S n =>
      x <~ defined (mi_sint4korr (c_from c));
      let v := x .^ mask in
      b <~ put_digit c v (DIG_MAX <? u32 v);
      read_intg0 mask n (skip_zero c b v DIG_PER_DEC1 (drop 4 (c_from c)))
  end.

(** The loop over [frac0] full fractional digits. *)
Fixpoint read_frac0 (mask : Z) (n : nat) (c : cursor) : outcome cursor :=
  match n with
  | O => Done c
  | S n =>
      x <~ defined (mi_sint4korr (c_from c));
      let v := x .^ mask in
      b <~ put_digit c v (DIG_MAX <? u32 v);
      read_frac0 mask n (mk_cursor (drop 4 (c_from c)) (S (c_pos c)) b (c_intg c))
  end.

(** [if (frac0x) { ... }]. *)
Definition read_frac0x (mask frac0x : Z) (c : cursor) : outcome cursor :=
  if frac0x =? 0 then Done c
  else
    i <~ defined (table_at dig2bytes frac0x);
    x <~ defined (read_group i (c_from c));
    p <~ defined (table_at powers10 (DIG_PER_DEC1 - frac0x));
    let v := s32 ((x .^ mask) * p) in
    b <~ put_digit c v (DIG_MAX <? u32 v);
    Done (mk_cursor (c_from c) (S (c_pos c)) b (c_intg c)).

Definition decimal_make_zero (d : decimal_t) : decimal_t :=
  mk_decimal 1 0 (len d) 0 (<[0%nat := 0]> (buf d)).

(** [d_copy= memcpy(alloca(bin_size), from, bin_size); d_copy[0]^= 0x80]. *)
Definition copy_flipped (from : list Z) (bin_size : Z) : option (list Z) :=
  d ← load (Z.to_nat bin_size) from;
  match d with
  | [] => None
  | b :: d => Some (u8 (b .^ 0x80) :: d)
  end.

Definition bin2decimal (from : list Z) (to : decimal_t) (precision scale : Z)
    : option (Z * decimal_t) :=
  let intg := precision - scale in
  let intg0 := intg ÷ DIG_PER_DEC1 in
  let frac0 := scale ÷ DIG_PER_DEC1 in
  let intg0x := intg - intg0 * DIG_PER_DEC1 in
  let frac0x := scale - frac0 * DIG_PER_DEC1 in
  let intg1 := intg0 + (if 0 <? intg0x then 1 else 0) in
  let frac1 := frac0 + (if 0 <? frac0x then 1 else 0) in
  b0 ← from !! 0%nat;
  let mask := if negb (b0 .& 0x80 =? 0) then 0 else -1 in
  bin_size ← decimal_bin_size precision scale;
  from ← copy_flipped from bin_size;
  let '(intg1', frac1', error) := FIX_INTG_FRAC_ERROR (len to) intg1 frac1 in
  skip ← table_at dig2bytes intg0x;
  let '(from, intg0, intg0x, frac0, frac0x) :=
    if error =? E_DEC_OK then (from, intg0, intg0x, frac0, frac0x)
    else if intg1' <? intg1
    then (drop (Z.to_nat (skip + 4 * (intg0 - intg1'))) from, intg1', 0, 0, 0)
    else (from, intg0, intg0x, frac1', 0) in
  let sign := if mask =? 0 then 0 else 1 in
  let tfrac := frac0 * DIG_PER_DEC1 + frac0x in
  let c := mk_cursor from 0 (buf to) (intg0 * DIG_PER_DEC1 + intg0x) in
  match
    c <~ read_intg0x mask intg0x c;
    c <~ read_intg0 mask (Z.to_nat intg0) c;
    c <~ read_frac0 mask (Z.to_nat frac0) c;
    read_frac0x mask frac0x c
  with
  | Done c =>
      let d := mk_decimal (c_intg c) tfrac (len to) sign (c_buf c) in
      Some (error, if (c_intg c =? 0) && (tfrac =? 0) then decimal_make_zero d else d)
  | Goto_err b => Some (E_DEC_BAD_NUM, decimal_make_zero (mk_decimal 0 0 (len to) sign b))
  | Undefined => None
  end.

(** A fresh [my_decimal]: its buffer holds whatever memory held. *)
Definition new_my_decimal (garbage : list Z) : decimal_t :=
  mk_decimal 0 0 DECIMAL_BUFF_LENGTH 0 garbage.

(** [check_result] only formats a warning into a local buffer and returns the
    result it was given. *)
Definition check_result (mask result : Z) : Z := result.

Definition binary2my_decimal (mask : Z) (bin : list Z) (d : decimal_t) (prec scale : Z)
    : option (Z * decimal_t) :=
  r ← bin2decimal bin d prec scale;
  Some (check_result mask (fst r), snd r).

(** ** To text *)

(** [switch (i)] with its cases falling through from [i] down to 0. *)
Fixpoint count_leading_zeroes_from (i : nat) (val : Z) : Z :=
  if 10 ^ Z.of_nat i <=? val then 0
  else match i with O => 1 | S i => 1 + count_leading_zeroes_from i val end.
Definition count_leading_zeroes (i val : Z) : Z :=
  if (0 <=? i) && (i <=? 9) then count_leading_zeroes_from (Z.to_nat i) val else 0.

(** [while (intg > 0 && *buf0 == 0)], on the digits from [buf0] on. *)
Fixpoint skip_zero_digits (buf0 : list Z) (intg i : Z) : option (list Z * Z) :=
  if 0 <? intg then
    match buf0 with
    | [] => None
    | d :: rest =>
        if d =? 0 then skip_zero_digits rest (intg - i) DIG_PER_DEC1 else Some (buf0, intg)
    end
  else Some (buf0, intg).

Definition remove_leading_zeroes (from : decimal_t) : option (list Z * Z) :=
  let i := Z.rem (intg from - 1) DIG_PER_DEC1 + 1 in
  r ← skip_zero_digits (buf from) (intg from) i;
  let '(buf0, intg) := r in
  if 0 <? intg then
    d ← buf0 !! 0%nat;
    Some (buf0, intg - count_leading_zeroes (Z.rem (intg - 1) DIG_PER_DEC1) d)
  else Some (buf0, 0).

(** Consecutive character stores at [pos]. *)
Definition put_chars (s : list Z) (pos : Z) (cs : list Z) : option (list Z) :=
  match cs with
  | [] => Some s
  | _ =>
      if (0 <=? pos) && (pos + Z.of_nat (length cs) <=? Z.of_nat (length s))
      then Some (take (Z.to_nat pos) s ++ cs ++ drop (Z.to_nat pos + length cs) s)
      else None
  end.

(** The inner loop of the fraction: [i] characters from the top of [x]. *)
Fixpoint frac_digits (i : nat) (x : Z) : list Z :=
  match i with
  | O => []
  | S i =>
      let y := x ÷ DIG_MASK in
      u8 (48 + u8 y) :: frac_digits i ((x - y * DIG_MASK) * 10)
  end.

(** [for (; frac>0; frac-=DIG_PER_DEC1)]. *)
Fixpoint frac_chars (n : nat) (buf : list Z) (frac : Z) : option (list Z) :=
  match n with
  | O => Some []
  | S n =>
      match buf with
      | [] => None
      | x :: buf =>
          r ← frac_chars n buf (frac - DIG_PER_DEC1);
          Some (frac_digits (Z.to_nat (Z.min frac DIG_PER_DEC1)) x ++ r)
      end
  end.

(** The inner loop of the integer part writes backwards from the bottom of
    [x]: the characters in address order. *)
Fixpoint intg_digits (i : nat) (x : Z) : list Z :=
  match i with
  | O => []
  | S i =>
      let y := x ÷ 10 in
      intg_digits i y ++ [u8 (48 + u8 (x - y * 10))]
  end.

(** [for (buf=buf0+ROUND_UP(intg); intg>0; intg-=DIG_PER_DEC1)], [n] digits. *)
Fixpoint intg_chars (n : nat) (buf0 : list Z) (intg : Z) : option (list Z) :=
  match n with
  | O => Some []
  | S n =>
      x ← buf0 !! n;
      r ← intg_chars n buf0 (intg - DIG_PER_DEC1);
      Some (r ++ intg_digits (Z.to_nat (Z.min intg DIG_PER_DEC1)) x)
  end.

Definition MY_TEST (a : Z) : Z := if a =? 0 then 0 else 1.

(** The lengths: what is printed of each part, and what the code calls it.
    [to_len] is decremented only on the path without a fixed precision. *)
Record layout := mk_layout {
  l_error : Z; l_intg : Z; l_frac : Z; l_intg_len : Z; l_frac_len : Z; l_len : Z }.

Definition decimal2string_layout (sign intg frac to_len fixed_precision fixed_decimals : Z)
    : layout :=
  let fixed_intg := if fixed_precision =? 0 then 0 else fixed_precision - fixed_decimals in
  let intg_len0 := if fixed_precision =? 0 then intg else fixed_intg in
  let intg_len := if intg_len0 =? 0 then 1 else intg_len0 in
  let frac_len := if fixed_precision =? 0 then frac else fixed_decimals in
  let len := sign + intg_len + MY_TEST frac + frac_len in
  if negb (fixed_precision =? 0) then
    let '(error, frac) :=
      if fixed_decimals <? frac then (E_DEC_TRUNCATED, fixed_decimals) else (E_DEC_OK, frac) in
    let '(error, intg) :=
      if fixed_intg <? intg then (E_DEC_OVERFLOW, fixed_intg) else (error, intg) in
    mk_layout error intg frac intg_len frac_len len
  else if to_len - 1 <? len then
    let j := len - (to_len - 1) in
    let error :=
      if negb (frac =? 0) && (j <=? frac + 1) then E_DEC_TRUNCATED else E_DEC_OVERFLOW in
    let j := if negb (frac =? 0) && (frac + 1 <=? j) then j - 1 else j in
    let '(intg, intg_len, frac) :=
      if frac <? j then (intg - (j - frac), intg - (j - frac), 0)
      else (intg, intg_len, frac - j) in
    mk_layout error intg frac intg_len frac (sign + intg_len + MY_TEST frac + frac)
  else mk_layout E_DEC_OK intg frac intg_len frac_len len.

(** [to] is the character buffer; the result is the status, the new [*to_len]
    and the buffer. *)
Definition decimal2string (from : decimal_t) (to : list Z) (to_len fixed_precision
    fixed_decimals filler : Z) : option (Z * Z * list Z) :=
  r ← remove_leading_zeroes from;
  let '(buf0, intg) := r in
  let '(buf0, intg) := if intg + frac from =? 0 then ([0], 1) else (buf0, intg) in
  let L := decimal2string_layout (sign from) intg (frac from) to_len fixed_precision
             fixed_decimals in
  s ← put_chars to (l_len L) [0];
  s ← put_chars s 0 (if sign from =? 0 then [] else [45]);
  let p := if sign from =? 0 then 0 else 1 in
  s ←
    (if l_frac L =? 0 then Some s
     else
       fs ← frac_chars (Z.to_nat (ROUND_UP (l_frac L)))
              (drop (Z.to_nat (ROUND_UP (l_intg L))) buf0) (l_frac L);
       put_chars s (p + l_intg_len L)
         (46 :: fs ++ replicate (Z.to_nat (l_frac_len L - l_frac L)) (u8 filler)));
  let fill := l_intg_len L - l_intg L - (if l_intg L =? 0 then 1 else 0) in
  s ← put_chars s p (replicate (Z.to_nat fill) (u8 filler));
  let p := p + Z.max 0 fill in
  s ←
    (if l_intg L =? 0 then put_chars s p [48]
     else
       cs ← intg_chars (Z.to_nat (ROUND_UP (l_intg L))) buf0 (l_intg L);
       put_chars s p cs);
  Some (l_error L, l_len L, s).

(** ** The reference: what a decimal means and how it is encoded *)

(** The value of base-10^9 digits, most significant first. *)
Definition dec_combine (l : list Z) : Z := foldl (λ a d, DIG_BASE * a + d) 0 l.

Definition is_digit (d : Z) : Prop := 0 <= d < DIG_BASE.

(** [represents d neg I F]: the digits of [d] spell [I], the decimals [F] of
    [frac d] places, and the sign. *)
Record represents (d : decimal_t) (neg : bool) (I F : Z) : Prop := {
  rep_intg : 0 <= intg d;
  rep_frac : 0 <= frac d;
  rep_sign : sign d = if neg then 1 else 0;
  rep_digits : Forall is_digit (take (Z.to_nat (ROUND_UP (intg d) + ROUND_UP (frac d))) (buf d));
  rep_room : ROUND_UP (intg d) + ROUND_UP (frac d) <= Z.of_nat (length (buf d));
  rep_I : dec_combine (take (Z.to_nat (ROUND_UP (intg d))) (buf d)) = I;
  rep_I_small : I < 10 ^ intg d;
  rep_F : dec_combine (take (Z.to_nat (ROUND_UP (frac d))) (drop (Z.to_nat (ROUND_UP (intg d))) (buf d)))
          = F * 10 ^ (9 * ROUND_UP (frac d) - frac d);
}.

(** [n] base-10^9 digits of [v]. *)
Fixpoint dec_split (n : nat) (v : Z) : list Z :=
  match n with O => [] | S n => dec_split n (v / DIG_BASE) ++ [v mod DIG_BASE] end.

Definition mask_of (neg : bool) : Z := if neg then -1 else 0.

(** A group of [k] bytes, complemented in a negative number. *)
Definition group_bytes (neg : bool) (k : nat) (v : Z) : list Z := be_split k (v .^ mask_of neg).

Definition partial_group (neg : bool) (digits v : Z) : list Z :=
  if digits =? 0 then []
  else group_bytes neg (Z.to_nat (nth (Z.to_nat digits) dig2bytes 0)) v.

Definition words_bytes (neg : bool) (ws : list Z) : list Z := concat (map (group_bytes neg 4) ws).

(** The groups of a [DECIMAL(precision, scale)] value, before the bit of the
    sign is inverted. *)
Definition decimal_groups (neg : bool) (precision scale I F : Z) : list Z :=
  let i0 := (precision - scale) / 9 in
  let ix := (precision - scale) mod 9 in
  let f0 := scale / 9 in
  let fx := scale mod 9 in
  partial_group neg ix (I / 10 ^ (9 * i0)) ++
  words_bytes neg (dec_split (Z.to_nat i0) I) ++
  words_bytes neg (dec_split (Z.to_nat f0) (F / 10 ^ fx)) ++
  partial_group neg fx (F mod 10 ^ fx).

Definition flip_first (l : list Z) : list Z :=
  match l with [] => [] | b :: l => u8 (b .^ 0x80) :: l end.

Definition decimal_encode (neg : bool) (precision scale I F : Z) : list Z :=
  flip_first (decimal_groups neg precision scale I F).

(** ** Digits *)

Lemma dec_combine_app l1 l2 :
  dec_combine (l1 ++ l2) = DIG_BASE ^ Z.of_nat (length l2) * dec_combine l1 + dec_combine l2.
Proof.
  unfold dec_combine. rewrite foldl_app. generalize (foldl (λ a d, DIG_BASE * a + d) 0 l1).
  induction l2 as [|b l2 IH] using rev_ind; intros a; [cbn; lia|].
  rewrite !foldl_snoc, IH, length_app, Nat2Z.inj_add, Z.pow_add_r by lia.
  change (DIG_BASE ^ Z.of_nat (length [b])) with DIG_BASE. lia.
Qed.

Lemma dec_combine_snoc l d : dec_combine (l ++ [d]) = DIG_BASE * dec_combine l + d.
Proof. unfold dec_combine. by rewrite foldl_snoc. Qed.

Lemma dec_combine_range l : Forall is_digit l → 0 <= dec_combine l < DIG_BASE ^ Z.of_nat (length l).
Proof.
  induction l as [|d l IH] using rev_ind; intros H; [cbn; lia|].
  apply Forall_app in H as [H D]. apply Forall_cons in D as [D _]. specialize (IH H).
  rewrite dec_combine_snoc, length_app, Nat2Z.inj_add, Z.pow_add_r by lia.
  change (DIG_BASE ^ Z.of_nat (length [d])) with DIG_BASE. unfold is_digit, DIG_BASE in *. lia.
Qed.

Lemma length_dec_split n v : length (dec_split n v) = n.
Proof. revert v. induction n; intros; cbn [dec_split]; [done|]. rewrite length_app, IHn. cbn. lia. Qed.

Lemma dec_split_digits n v : Forall is_digit (dec_split n v).
Proof.
  revert v. induction n; intros; cbn [dec_split]; [constructor|]. apply Forall_app. split; [done|].
  constructor; [|constructor]. apply Z.mod_pos_bound. done.
Qed.

Lemma dec_combine_split n v : dec_combine (dec_split n v) = v mod DIG_BASE ^ Z.of_nat n.
Proof.
  revert v. induction n as [|n IH]; intros v; cbn [dec_split]; [by rewrite Z.mod_1_r|].
  rewrite dec_combine_snoc, IH, Nat2Z.inj_succ, Z.pow_succ_r by lia.
  rewrite Z.rem_mul_r by (unfold DIG_BASE; lia). lia.
Qed.

Lemma DIG_BASE_pow n : 0 <= n → DIG_BASE ^ n = 10 ^ (9 * n).
Proof. intros. unfold DIG_BASE. change 1000000000 with (10 ^ 9). by rewrite <- Z.pow_mul_r by lia. Qed.

Lemma ROUND_UP_eq x : 0 <= x → ROUND_UP x = (x + 8) / 9.
Proof. intros. unfold ROUND_UP, DIG_PER_DEC1. rewrite Z.quot_div_nonneg by lia. f_equal. lia. Qed.

(** ** Groups *)

Lemma lxor_mask neg v : v .^ mask_of neg = if neg then - v - 1 else v.
Proof.
  destruct neg; cbn [mask_of]; [|apply Z.lxor_0_r].
  rewrite Z.lxor_m1_r. unfold Z.lnot. lia.
Qed.

Lemma lxor_mask_twice neg v : (v .^ mask_of neg) .^ mask_of neg = v.
Proof. rewrite !lxor_mask. destruct neg; lia. Qed.

Lemma group_bytes_ok neg k v : bytes_ok (group_bytes neg k v).
Proof. apply be_split_bytes. Qed.

Lemma partial_group_ok neg d v : bytes_ok (partial_group neg d v).
Proof. unfold partial_group. destruct (d =? 0); [constructor|apply group_bytes_ok]. Qed.

Lemma words_bytes_ok neg ws : bytes_ok (words_bytes neg ws).
Proof.
  unfold words_bytes. induction ws; cbn [map concat]; [constructor|].
  apply Forall_app. split; [apply group_bytes_ok|done].
Qed.

Lemma words_bytes_cons neg v ws r :
  words_bytes neg (v :: ws) ++ r = group_bytes neg 4 v ++ words_bytes neg ws ++ r.
Proof. unfold words_bytes. cbn [map concat]. by rewrite <- app_assoc. Qed.

Lemma words_bytes_app_ok neg ws r : bytes_ok r → bytes_ok (words_bytes neg ws ++ r).
Proof. intros. apply Forall_app. split; [apply words_bytes_ok|done]. Qed.

(** Reading a group of one to four bytes gives back its value. *)
Lemma read_group_bytes neg k v r :
  (1 ≤ k ≤ 4)%nat → 0 <= v < 2 ^ (8 * Z.of_nat k - 1) → bytes_ok r →
  read_group (Z.of_nat k) (group_bytes neg k v ++ r) = Some (v .^ mask_of neg).
Proof.
  intros Hk Hv Hr. unfold group_bytes.
  assert (W : swrap (8 * Z.of_nat k) (v .^ mask_of neg) = v .^ mask_of neg).
  { apply swrap_small; [lia|]. rewrite lxor_mask. destruct neg; lia. }
  assert (K : k = 1%nat ∨ k = 2%nat ∨ k = 3%nat ∨ k = 4%nat) by lia.
  destruct K as [->|[->|[->| ->]]]; cbn [read_group Z.of_nat Pos.of_succ_nat Pos.succ] in *;
    rewrite ?mi_sint1korr_be, ?mi_sint2korr_be, ?mi_sint3korr_be, ?mi_sint4korr_be
      by (by apply split_app_bytes);
    rewrite load_app by apply length_be_split; cbn [fmap option_fmap option_map];
    rewrite be_combine_split; f_equal; rewrite <- W at 2.
  - exact (swrap_mod 8 _ ltac:(lia)).
  - exact (swrap_mod 16 _ ltac:(lia)).
  - exact (swrap_mod 24 _ ltac:(lia)).
  - exact (swrap_mod 32 _ ltac:(lia)).
Qed.

Lemma read_word neg v r :
  is_digit v → bytes_ok r →
  mi_sint4korr (group_bytes neg 4 v ++ r) = Some (v .^ mask_of neg).
Proof.
  intros Hv Hr. unfold is_digit, DIG_BASE in Hv.
  apply (read_group_bytes neg 4 v r); [lia|cbn; lia|done].
Qed.

(** The byte count of a partial group is enough for its digits. *)
Lemma dig2bytes_enough d v :
  0 < d < 9 → 0 <= v < 10 ^ d →
  ∃ k, table_at dig2bytes d = Some (Z.of_nat k) ∧ nth (Z.to_nat d) dig2bytes 0 = Z.of_nat k ∧
    (1 ≤ k ≤ 4)%nat ∧ v < 2 ^ (8 * Z.of_nat k - 1).
Proof.
  intros Hd Hv.
  set (f := λ d, (d =? 0) || (1 <=? nth (Z.to_nat d) dig2bytes 0) &&
    (nth (Z.to_nat d) dig2bytes 0 <=? 4) &&
    (10 ^ d <=? 2 ^ (8 * nth (Z.to_nat d) dig2bytes 0 - 1))).
  assert (F : f d = true) by (revert d Hd Hv; intros d Hd _;
    apply (forall_range 9 f); [vm_compute; reflexivity|lia]).
  unfold f in F. destruct (Z.eqb_spec d 0); [lia|]. cbn [orb] in F.
  apply andb_prop in F as [F P]. apply andb_prop in F as [F1 F2].
  apply Z.leb_le in F1, F2, P.
  exists (Z.to_nat (nth (Z.to_nat d) dig2bytes 0)).
  rewrite Z2Nat.id by lia. split_and!; [|done|lia|lia|lia].
  unfold table_at. destruct (Z.ltb_spec d 0); [lia|]. apply lookup_nth. cbn. lia.
Qed.

(** ** The decoder's state *)

(** The digits written so far are [o], the integer digits counted [i], the
    input left [r]. *)
Record dec_state (L : nat) (c : cursor) (o : list Z) (i : Z) (r : list Z) : Prop := {
  ds_len : length (c_buf c) = L;
  ds_pos : c_pos c = length o;
  ds_out : take (length o) (c_buf c) = o;
  ds_digits : Forall is_digit o;
  ds_intg : c_intg c = i;
  ds_from : c_from c = r;
}.

(** [o] are the digits of the integer [v], counted as [j] decimal places. *)
Record int_rel (o : list Z) (j v : Z) : Prop := {
  ir_places : 0 <= j;
  ir_words : ROUND_UP j = Z.of_nat (length o);
  ir_value : dec_combine o = v;
  ir_small : v < 10 ^ j;
}.

Lemma put_digit_ok L c o i r v :
  dec_state L c o i r → is_digit v → (length o < L)%nat →
  ∃ b, put_digit c v false = Done b ∧
    ∀ r' i', dec_state L (mk_cursor r' (S (c_pos c)) b i') (o ++ [v]) i' r' ∧
             (o = [] → dec_state L (mk_cursor r' (c_pos c) b i') [] i' r').
Proof.
  intros [Hl Hp Ho Hd Hi Hf] Hv Hlt. unfold put_digit. rewrite Hp, decide_True by lia.
  eexists. split; [done|]. intros r' i'.
  split; [|intros ->]; constructor; cbn [c_buf c_pos c_from c_intg]; try done.
  - by rewrite length_insert.
  - rewrite length_app. cbn. lia.
  - rewrite length_app, Nat.add_1_r. erewrite take_S_r by (apply list_lookup_insert_eq; lia).
    by rewrite take_insert_ge, Ho by lia.
  - apply Forall_app. auto.
  - by rewrite length_insert.
Qed.

(** One integer digit: stored, or skipped as a leading zero. *)
Lemma skip_zero_ok L c o i r v b digits r' j w :
  dec_state L c o i r →
  (∀ r' i', dec_state L (mk_cursor r' (S (c_pos c)) b i') (o ++ [v]) i' r' ∧
            (o = [] → dec_state L (mk_cursor r' (c_pos c) b i') [] i' r')) →
  int_rel o j w → is_digit v → 0 < digits <= 9 → v < 10 ^ digits →
  (j = 0 ∨ digits = 9) →
  ∃ o' i', dec_state L (skip_zero c b v digits r') o' i' r' ∧
    int_rel o' (j + digits - (i - i')) (10 ^ digits * w + v) ∧ (length o' ≤ S (length o))%nat.
Proof.
  intros S B R Hv Hd Hs Hj. destruct R as [Rp Rw Rv Rs]. unfold skip_zero. rewrite (ds_pos _ _ _ _ _ S).
  rewrite (ds_pos _ _ _ _ _ S) in B. rewrite ROUND_UP_eq in Rw by done. rewrite (ds_intg _ _ _ _ _ S).
  destruct ((0 <? Z.of_nat (length o)) || negb (v =? 0)) eqn:E.
  - exists (o ++ [v]), i. split; [apply B|]. rewrite length_app. cbn [length].
    split; [|lia]. constructor.
    + lia.
    + rewrite ROUND_UP_eq, length_app by lia. cbn [length]. destruct Hj as [-> | ->]; zdm.
    + rewrite dec_combine_snoc, Rv. f_equal. destruct Hj as [-> | ->]; [|done].
      cbn in Rs. assert (0 <= w) by (rewrite <- Rv; apply dec_combine_range, (ds_digits _ _ _ _ _ S)).
      replace w with 0 by lia. lia.
    + replace (j + digits - (i - i)) with (digits + j) by lia.
      rewrite Z.pow_add_r by lia. pose proof (Z.pow_pos_nonneg 10 digits). nia.
  - apply orb_false_elim in E as [E1 E2]. apply Z.ltb_ge in E1. apply negb_false_iff, Z.eqb_eq in E2.
    assert (o = []) as -> by (destruct o; [done|cbn in E1; lia]).
    exists [], (i - digits). split; [by apply B|]. split; [|cbn; lia]. cbn in Rv, Rw. subst w v.
    constructor.
    + lia.
    + rewrite ROUND_UP_eq by lia. cbn [length]. replace (j + digits - _) with j by lia. lia.
    + cbn. lia.
    + replace (j + digits - _) with j by lia. lia.
Qed.

Lemma nil_int_rel : int_rel [] 0 0.
Proof. constructor; [lia|done|done|done]. Qed.

Lemma powers10_at d : 0 <= d < 10 → table_at powers10 d = Some (10 ^ d).
Proof.
  intros Hd. apply (bool_decide_unpack _), Is_true_eq_left. revert d Hd.
  apply (forall_range 10 (λ d, bool_decide (table_at powers10 d = Some (10 ^ d)))).
  vm_compute. reflexivity.
Qed.

Section Decoder.
Context (neg : bool) (L : nat).

Lemma read_intg0x_ok c ix i0 lead r :
  dec_state L c [] (9 * i0 + ix) (partial_group neg ix lead ++ r) →
  bytes_ok r → 0 <= ix < 9 → 0 <= lead < 10 ^ ix → (ix ≠ 0 → (0 < L)%nat) →
  ∃ c' o i, read_intg0x (mask_of neg) ix c = Done c' ∧ dec_state L c' o i r ∧
    int_rel o (i - 9 * i0) lead ∧ Z.of_nat (length o) <= (if 0 <? ix then 1 else 0).
Proof.
  intros S Hr Hx Hl HL. unfold read_intg0x, partial_group in *.
  destruct (Z.eqb_spec ix 0) as [->|Hne].
  { exists c, [], (9 * i0 + 0). split; [done|]. split; [done|]. split; [|done].
    cbn in Hl. replace lead with 0 by lia. replace (9 * i0 + 0 - 9 * i0) with 0 by lia. apply nil_int_rel. }
  destruct (dig2bytes_enough ix lead) as (k & T & N & Hk & Hv); [lia|done|].
  rewrite T. rewrite N, Nat2Z.id in S. cbn [defined bind_outcome]. rewrite (ds_from _ _ _ _ _ S).
  rewrite read_group_bytes by (done || lia). cbn [defined bind_outcome].
  rewrite lxor_mask_twice, Nat2Z.id, powers10_at by lia. cbn [defined bind_outcome].
  assert (D : is_digit lead).
  { unfold is_digit, DIG_BASE. assert (10 ^ ix <= 10 ^ 9) by (apply Z.pow_le_mono_r; lia). lia. }
  assert (10 ^ (ix + 1) = 10 * 10 ^ ix) as -> by (rewrite Z.pow_add_r by lia; lia).
  rewrite wrap_small by (unfold is_digit, DIG_BASE in D; lia).
  replace (10 * 10 ^ ix <=? lead) with false by (symmetry; apply Z.leb_gt; lia).
  destruct (put_digit_ok L c [] _ _ lead S D) as (b & -> & B); [cbn; lia|].
  cbn [bind_outcome]. rewrite drop_app_length' by (symmetry; apply length_be_split).
  destruct (skip_zero_ok L c [] _ _ lead b ix r 0 0 S B nil_int_rel D) as (o & i & S' & R & Hlen);
    [lia|lia|by left|].
  eexists _, o, i. split; [done|]. split; [exact S'|].
  destruct (Z.ltb_spec 0 ix); [|lia]. split; [|cbn in Hlen; lia].
  replace (i - 9 * i0) with (0 + ix - (9 * i0 + ix - i)) by lia.
  by replace lead with (10 ^ ix * 0 + lead) by lia.
Qed.

Lemma read_intg0_ok ws c o i r w :
  dec_state L c o i (words_bytes neg ws ++ r) → bytes_ok r → Forall is_digit ws →
  int_rel o (i - 9 * Z.of_nat (length ws)) w → (length o + length ws ≤ L)%nat →
  ∃ c' o' i', read_intg0 (mask_of neg) (length ws) c = Done c' ∧ dec_state L c' o' i' r ∧
    int_rel o' i' (w * DIG_BASE ^ Z.of_nat (length ws) + dec_combine ws) ∧
    (length o' ≤ length o + length ws)%nat.
Proof.
  intros S Hr D. revert c o i w S. induction D as [|v ws Hv D IH]; intros c o i w S R Hlen.
  { exists c, o, i. split; [done|]. split; [done|]. cbn [length] in *. split; [|lia].
    replace (w * DIG_BASE ^ Z.of_nat 0 + dec_combine []) with w by (cbn; lia).
    by replace (i - 9 * Z.of_nat 0) with i in R by lia. }
  cbn [length read_intg0] in *. rewrite words_bytes_cons in S.
  rewrite (ds_from _ _ _ _ _ S), read_word by
    (done || by apply words_bytes_app_ok).
  cbn [defined bind_outcome]. rewrite lxor_mask_twice.
  assert (W : u32 v = v) by (apply wrap_small; unfold is_digit, DIG_BASE in Hv; lia).
  rewrite W. replace (DIG_MAX <? v) with false
    by (symmetry; apply Z.ltb_ge; unfold is_digit, DIG_MAX in *; lia).
  destruct (put_digit_ok L c o _ _ v S Hv) as (b & -> & B); [lia|]. cbn [bind_outcome].
  change (drop 4 (group_bytes neg 4 v ++ words_bytes neg ws ++ r)) with (words_bytes neg ws ++ r).
  destruct (skip_zero_ok L c o i _ v b DIG_PER_DEC1 (words_bytes neg ws ++ r) _ w S B R Hv)
    as (o' & i' & S' & R' & Hlen'); [unfold DIG_PER_DEC1; lia|exact (proj2 Hv)|by right|].
  destruct (IH _ o' i' (10 ^ DIG_PER_DEC1 * w + v) S') as (c'' & o'' & i'' & E & S'' & R'' & H'').
  { replace (i' - 9 * Z.of_nat (length ws))
      with (i - 9 * Z.of_nat (Datatypes.S (length ws)) + DIG_PER_DEC1 - (i - i'))
      by (unfold DIG_PER_DEC1; lia). exact R'. }
  { lia. }
  exists c'', o'', i''. split; [exact E|]. split; [done|]. split; [|lia].
  rewrite <- (app_nil_l (v :: ws)), cons_middle, app_assoc, (dec_combine_app ([] ++ [v])).
  rewrite Nat2Z.inj_succ, Z.pow_succ_r by lia.
  replace (w * (DIG_BASE * DIG_BASE ^ Z.of_nat (length ws)) +
     (DIG_BASE ^ Z.of_nat (length ws) * dec_combine ([] ++ [v]) + dec_combine ws))
    with ((10 ^ DIG_PER_DEC1 * w + v) * DIG_BASE ^ Z.of_nat (length ws) + dec_combine ws); [done|].
  change (10 ^ DIG_PER_DEC1) with DIG_BASE. change (dec_combine ([] ++ [v])) with (DIG_BASE * 0 + v). lia.
Qed.

Lemma read_frac0_ok ws c o i r :
  dec_state L c o i (words_bytes neg ws ++ r) → bytes_ok r → Forall is_digit ws →
  (length o + length ws ≤ L)%nat →
  ∃ c', read_frac0 (mask_of neg) (length ws) c = Done c' ∧ dec_state L c' (o ++ ws) i r.
Proof.
  intros S Hr D. revert c o S. induction D as [|v ws Hv D IH]; intros c o S Hlen.
  { exists c. split; [done|]. by rewrite app_nil_r. }
  cbn [length read_frac0] in *. rewrite words_bytes_cons in S.
  rewrite (ds_from _ _ _ _ _ S), read_word by
    (done || by apply words_bytes_app_ok).
  cbn [defined bind_outcome]. rewrite lxor_mask_twice.
  assert (W : u32 v = v) by (apply wrap_small; unfold is_digit, DIG_BASE in Hv; lia).
  rewrite W. replace (DIG_MAX <? v) with false
    by (symmetry; apply Z.ltb_ge; unfold is_digit, DIG_MAX in *; lia).
  destruct (put_digit_ok L c o _ _ v S Hv) as (b & -> & B); [lia|]. cbn [bind_outcome].
  change (drop 4 (group_bytes neg 4 v ++ words_bytes neg ws ++ r)) with (words_bytes neg ws ++ r).
  rewrite (ds_intg _ _ _ _ _ S).
  destruct (B (words_bytes neg ws ++ r) i) as [S' _].
  destruct (IH _ _ S') as (c' & E & S''); [rewrite length_app; cbn; lia|].
  exists c'. split; [exact E|]. by rewrite <- app_assoc in S''.
Qed.

Lemma read_frac0x_ok c o i fx v r :
  dec_state L c o i (partial_group neg fx v ++ r) → bytes_ok r → 0 <= fx < 9 → 0 <= v < 10 ^ fx →
  (fx ≠ 0 → (length o < L)%nat) →
  ∃ c' r', read_frac0x (mask_of neg) fx c = Done c' ∧
    dec_state L c' (o ++ if fx =? 0 then [] else [v * 10 ^ (9 - fx)]) i r'.
Proof.
  intros S Hr Hx Hv HL. unfold read_frac0x, partial_group in *.
  destruct (Z.eqb_spec fx 0) as [->|Hne].
  { exists c. eexists. split; [done|]. rewrite app_nil_r. exact S. }
  destruct (dig2bytes_enough fx v) as (k & T & N & Hk & Hb); [lia|done|].
  rewrite T. rewrite N, Nat2Z.id in S. cbn [defined bind_outcome]. rewrite (ds_from _ _ _ _ _ S).
  rewrite read_group_bytes by (done || lia). cbn [defined bind_outcome].
  rewrite lxor_mask_twice, powers10_at by (unfold DIG_PER_DEC1; lia). cbn [defined bind_outcome].
  change (DIG_PER_DEC1 - fx) with (9 - fx).
  assert (D : is_digit (v * 10 ^ (9 - fx))).
  { unfold is_digit. change DIG_BASE with (10 ^ 9).
    assert (E : 10 ^ 9 = 10 ^ fx * 10 ^ (9 - fx)) by (rewrite <- Z.pow_add_r by lia; f_equal; lia).
    rewrite E. pose proof (Z.pow_pos_nonneg 10 (9 - fx)). nia. }
  pose proof D as D'. unfold is_digit, DIG_BASE in D'.
  rewrite swrap_small, wrap_small by lia.
  replace (DIG_MAX <? v * 10 ^ (9 - fx)) with false
    by (symmetry; apply Z.ltb_ge; unfold is_digit, DIG_MAX in *; lia).
  destruct (put_digit_ok L c o _ _ _ S D) as (b & -> & B); [lia|]. cbn [bind_outcome].
  rewrite (ds_intg _ _ _ _ _ S). eexists _, _. split; [done|]. apply B.
Qed.
End Decoder.

(** ** The sign bit *)

Lemma group_bytes_head neg k v :
  (1 ≤ k ≤ 4)%nat → 0 <= v < 2 ^ (8 * Z.of_nat k - 1) →
  ∃ h t, group_bytes neg k v = h :: t ∧ is_byte h ∧ (128 <= h ↔ neg = true).
Proof.
  intros Hk Hv. unfold group_bytes. rewrite lxor_mask. unfold is_byte.
  assert (K : k = 1%nat ∨ k = 2%nat ∨ k = 3%nat ∨ k = 4%nat) by lia.
  destruct K as [->|[->|[->| ->]]]; eexists _, _; (split; [reflexivity|]);
    cbn in Hv; destruct neg; split_and!; try done; zdm.
Qed.

Lemma sign_byte h : is_byte h →
  u8 (u8 (h .^ 0x80) .^ 0x80) = h ∧ (u8 (h .^ 0x80) .& 0x80 =? 0) = (128 <=? h).
Proof.
  intros Hh.
  enough (E : (u8 (u8 (h .^ 0x80) .^ 0x80) =? h) &&
              Bool.eqb (u8 (h .^ 0x80) .& 0x80 =? 0) (128 <=? h) = true).
  { apply andb_prop in E as [E1 E2]. apply Z.eqb_eq in E1. apply Bool.eqb_prop in E2. auto. }
  revert h Hh. apply forall_byte. vm_compute. reflexivity.
Qed.

(** The parameters of a column the decoder has room for. *)
Record decimal_params (precision scale I F : Z) (room : nat) : Prop := {
  dp_scale : 0 <= scale <= precision;
  dp_precision : 0 < precision <= 81;
  dp_I : 0 <= I < 10 ^ (precision - scale);
  dp_F : 0 <= F < 10 ^ scale;
  dp_room : ROUND_UP (precision - scale) + ROUND_UP scale <= Z.of_nat room;
}.

Section Encoding.
Context (neg : bool) (precision scale I F : Z) (room : nat).
Context (P : decimal_params precision scale I F room).
Local Abbreviation i0 := ((precision - scale) / 9).
Local Abbreviation ix := ((precision - scale) mod 9).
Local Abbreviation f0 := (scale / 9).
Local Abbreviation fx := (scale mod 9).

Lemma params_bounds : 0 <= i0 ∧ 0 <= ix < 9 ∧ 0 <= f0 ∧ 0 <= fx < 9 ∧
  precision - scale = 9 * i0 + ix ∧ scale = 9 * f0 + fx.
Proof. destruct P as [? ? _ _ _]. zdm. Qed.

Lemma lead_small : 0 <= I / 10 ^ (9 * i0) < 10 ^ ix.
Proof.
  destruct params_bounds as (? & ? & ? & ? & E & _). destruct P as [_ _ HI _ _].
  split; [apply Z.div_pos; [lia|apply Z.pow_pos_nonneg; lia]|].
  apply Z.div_lt_upper_bound; [apply Z.pow_pos_nonneg; lia|].
  rewrite <- Z.pow_add_r, <- E by lia. lia.
Qed.

Lemma last_small : 0 <= F mod 10 ^ fx < 10 ^ fx.
Proof. apply Z.mod_pos_bound, Z.pow_pos_nonneg; [lia|]. apply params_bounds. Qed.

Lemma partial_group_head d v rest :
  0 < d < 9 → 0 <= v < 10 ^ d →
  ∃ h t, partial_group neg d v ++ rest = h :: t ∧ is_byte h ∧ (128 <= h ↔ neg = true).
Proof.
  intros Hd Hv. unfold partial_group. destruct (Z.eqb_spec d 0); [lia|].
  destruct (dig2bytes_enough d v) as (k & _ & N & Hk & Hb); [done..|]. rewrite N, Nat2Z.id.
  destruct (group_bytes_head neg k v) as (h & t & -> & ?); [done|lia|]. by eexists _, _.
Qed.

Lemma words_bytes_head n v rest :
  (0 < n)%nat →
  ∃ h t, words_bytes neg (dec_split n v) ++ rest = h :: t ∧ is_byte h ∧ (128 <= h ↔ neg = true).
Proof.
  intros Hn. pose proof (dec_split_digits n v) as D. pose proof (length_dec_split n v) as L.
  destruct (dec_split n v) as [|w ws]; [cbn in L; lia|]. rewrite words_bytes_cons.
  apply Forall_cons in D as [D _].
  destruct (group_bytes_head neg 4 w) as (h & t & -> & ?); [lia| |by eexists _, _].
  unfold is_digit, DIG_BASE in D. cbn. lia.
Qed.

Lemma decimal_groups_head :
  ∃ h t, decimal_groups neg precision scale I F = h :: t ∧ is_byte h ∧ (128 <= h ↔ neg = true).
Proof.
  destruct params_bounds as (Hi0 & Hix & Hf0 & Hfx & E1 & E2).
  pose proof lead_small. pose proof last_small. pose proof (dp_precision _ _ _ _ _ P).
  unfold decimal_groups. cbv zeta. destruct (Z.eq_dec ix 0) as [X|X].
  2:{ apply partial_group_head; lia. }
  assert (partial_group neg ix (I / 10 ^ (9 * i0)) = []) as -> by (by rewrite X).
  destruct (Z.eq_dec i0 0) as [Y|Y].
  2:{ apply words_bytes_head. lia. }
  assert (words_bytes neg (dec_split (Z.to_nat i0) I) = []) as -> by (by rewrite Y).
  destruct (Z.eq_dec f0 0) as [W|W].
  2:{ apply words_bytes_head. lia. }
  assert (words_bytes neg (dec_split (Z.to_nat f0) (F / 10 ^ fx)) = []) as -> by (by rewrite W).
  cbn [app]. rewrite <- (app_nil_r (partial_group _ _ _)). apply partial_group_head; lia.
Qed.

Lemma length_partial_group d v : 0 <= d < 9 →
  table_at dig2bytes d = Some (Z.of_nat (length (partial_group neg d v))).
Proof.
  intros Hd. unfold partial_group. destruct (Z.eqb_spec d 0) as [->|]; [done|].
  destruct (dig2bytes_enough d 0) as (k & T & N & _); [lia| |].
  { split; [done|]. apply Z.pow_pos_nonneg; lia. }
  rewrite T, N, Nat2Z.id. unfold group_bytes. by rewrite length_be_split.
Qed.

Lemma length_words_bytes ws : length (words_bytes neg ws) = (4 * length ws)%nat.
Proof.
  rewrite <- (app_nil_r (words_bytes _ _)).
  induction ws as [|w ws IH]; [done|]. rewrite words_bytes_cons, length_app, IH.
  unfold group_bytes. rewrite length_be_split. cbn [length]. lia.
Qed.

Lemma decimal_bin_size_groups :
  decimal_bin_size precision scale =
    Some (Z.of_nat (length (decimal_groups neg precision scale I F))).
Proof.
  destruct params_bounds as (Hi0 & Hix & Hf0 & Hfx & E1 & E2). destruct P as [Hs Hp _ _ _].
  unfold decimal_bin_size, DIG_PER_DEC1. rewrite !Z.quot_div_nonneg by lia.
  replace (precision - scale - i0 * 9) with ix by lia. replace (scale - f0 * 9) with fx by lia.
  rewrite (length_partial_group ix (I / 10 ^ (9 * i0))), (length_partial_group fx (F mod 10 ^ fx)) by lia.
  cbn [mbind option_bind]. f_equal. unfold decimal_groups. cbv zeta.
  rewrite !length_app, !length_words_bytes, !length_dec_split.
  assert (B : ∀ d v, 0 <= d < 9 → Z.of_nat (length (partial_group neg d v)) <= 4).
  { intros d v Hd. pose proof (length_partial_group d v Hd) as T. unfold table_at in T.
    destruct (d <? 0); [done|]. apply list_elem_of_lookup_2 in T.
    assert (F4 : Forall (λ x, x <= 4) dig2bytes) by (repeat constructor; lia).
    rewrite Forall_forall in F4. by apply F4. }
  pose proof (B ix (I / 10 ^ (9 * i0)) Hix). pose proof (B fx (F mod 10 ^ fx) Hfx).
  rewrite swrap_small, wrap_small; [lia| |lia|rewrite wrap_small]; lia.
Qed.

Lemma copy_flipped_encode rest :
  copy_flipped (decimal_encode neg precision scale I F ++ rest)
    (Z.of_nat (length (decimal_groups neg precision scale I F))) =
  Some (decimal_groups neg precision scale I F).
Proof.
  unfold decimal_encode, copy_flipped. destruct decimal_groups_head as (h & t & -> & Hh & _).
  cbn [flip_first app length]. rewrite Nat2Z.id, load_some by (cbn; rewrite length_app; lia).
  cbn [take mbind option_bind]. rewrite take_app_length.
  by rewrite (proj1 (sign_byte h Hh)).
Qed.

Lemma encode_mask rest :
  ∃ b0, (decimal_encode neg precision scale I F ++ rest) !! 0%nat = Some b0 ∧
    (if negb (b0 .& 0x80 =? 0) then 0 else -1) = mask_of neg.
Proof.
  unfold decimal_encode. destruct decimal_groups_head as (h & t & -> & Hh & S).
  exists (u8 (h .^ 0x80)). split; [done|]. rewrite (proj2 (sign_byte h Hh)).
  destruct neg; cbn [mask_of]; destruct (Z.leb_spec 128 h); cbn [negb]; try done; exfalso; intuition (lia || done).
Qed.

(** The fractional digits spell [F], scaled to full words. *)
Definition frac_words : list Z :=
  dec_split (Z.to_nat f0) (F / 10 ^ fx) ++ if fx =? 0 then [] else [F mod 10 ^ fx * 10 ^ (9 - fx)].

Lemma length_frac_words : Z.of_nat (length frac_words) = ROUND_UP scale.
Proof.
  destruct params_bounds as (Hi0 & Hix & Hf0 & Hfx & E1 & E2).
  rewrite ROUND_UP_eq by (destruct P; lia). unfold frac_words.
  rewrite length_app, length_dec_split. destruct (Z.eqb_spec fx 0); cbn [length]; zdm.
Qed.

Lemma frac_words_value : dec_combine frac_words = F * 10 ^ (9 * ROUND_UP scale - scale).
Proof.
  destruct params_bounds as (Hi0 & Hix & Hf0 & Hfx & E1 & E2).
  rewrite ROUND_UP_eq by (destruct P; lia). unfold frac_words.
  assert (Q : dec_combine (dec_split (Z.to_nat f0) (F / 10 ^ fx)) = F / 10 ^ fx).
  { rewrite dec_combine_split, Z2Nat.id, DIG_BASE_pow by lia. apply Z.mod_small.
    destruct P as [_ _ _ HF _]. pose proof (Z.pow_pos_nonneg 10 fx).
    split; [apply Z.div_pos; lia|]. apply Z.div_lt_upper_bound; [lia|].
    rewrite <- Z.pow_add_r by lia. replace (fx + 9 * f0) with scale by lia. lia. }
  destruct (Z.eqb_spec fx 0) as [Z0|].
  - rewrite app_nil_r, Q, Z0, Z.pow_0_r, Z.div_1_r.
    replace (9 * ((scale + 8) / 9) - scale) with 0 by zdm. lia.
  - rewrite dec_combine_snoc, Q. replace (9 * ((scale + 8) / 9) - scale) with (9 - fx) by zdm.
    assert (E : DIG_BASE = 10 ^ fx * 10 ^ (9 - fx)).
    { unfold DIG_BASE. rewrite <- Z.pow_add_r by lia. by replace (fx + (9 - fx)) with 9 by lia. }
    rewrite E. pose proof (Z.div_mod F (10 ^ fx)) as DM. pose proof (Z.pow_pos_nonneg 10 fx).
    rewrite DM at 3 by lia. ring.
Qed.
End Encoding.

(** The decoder's final state is the decimal it returns. *)
Lemma represents_state neg L c o ow i j sc r (I F : Z) :
  dec_state L c (o ++ ow) i r → int_rel o i I → Z.of_nat (length ow) = ROUND_UP sc → 0 <= sc →
  dec_combine ow = F * 10 ^ (9 * ROUND_UP sc - sc) →
  j = Z.of_nat L →
  represents (mk_decimal i sc j (if mask_of neg =? 0 then 0 else 1) (c_buf c)) neg I F.
Proof.
  intros [Hl Hp Ho Hd Hi Hf] [Rp Rw Rv Rs] Hw Hs HF ->.
  assert (T : ∀ n, (n ≤ length (o ++ ow))%nat → take n (c_buf c) = take n (o ++ ow)).
  { intros n Hn. rewrite <- Ho, take_take. f_equal. lia. }
  assert (Hlen : (length (o ++ ow) ≤ L)%nat).
  { rewrite <- Ho, length_take, Hl. lia. }
  rewrite length_app in Ho, Hlen.
  assert (A2 : take (length ow) (drop (length o) (c_buf c)) = ow).
  { by rewrite take_drop_commute, Ho, drop_app_length. }
  assert (A1 : take (length o) (c_buf c) = o).
  { rewrite T, take_app_length by (rewrite length_app; lia). done. }
  constructor; cbn [intg frac sign buf]; rewrite ?Rw, <- ?Hw;
    rewrite ?Z2Nat.inj_add, ?Nat2Z.id, ?Ho, ?A1, ?A2 by lia; try done.
  - by destruct neg.
  - lia.
  - rewrite Hw. done.
Qed.

Lemma represents_zero l t :
  (0 < length t)%nat → represents (decimal_make_zero (mk_decimal 0 0 l 0 t)) false 0 0.
Proof.
  intros Ht. destruct t as [|x t]; [cbn in Ht; lia|].
  constructor; cbn [decimal_make_zero intg frac sign buf]; try done.
  - repeat constructor. done.
  - change (ROUND_UP 1 + ROUND_UP 0) with 1. rewrite length_insert. cbn [length]. lia.
Qed.

(** The four stages of the decoder on the groups of a value. *)
Lemma decode_stages neg precision scale I F b :
  decimal_params precision scale I F (length b) →
  let i0 := (precision - scale) / 9 in
  let ix := (precision - scale) mod 9 in
  let f0 := scale / 9 in
  let fx := scale mod 9 in
  ∃ c o r,
    (c <~ read_intg0x (mask_of neg) ix
            (mk_cursor (decimal_groups neg precision scale I F) 0 b (i0 * 9 + ix));
     c <~ read_intg0 (mask_of neg) (Z.to_nat i0) c;
     c <~ read_frac0 (mask_of neg) (Z.to_nat f0) c;
     read_frac0x (mask_of neg) fx c) = Done c ∧
    dec_state (length b) c (o ++ frac_words scale F) (c_intg c) r ∧ int_rel o (c_intg c) I.
Proof.
  intros P. cbv zeta. set (L := length b) in *.
  pose proof (params_bounds precision scale I F L P) as (Hi0 & Hix & Hf0 & Hfx & E1 & E2).
  pose proof (dp_room _ _ _ _ _ P) as Room. rewrite !ROUND_UP_eq in Room by (destruct P; lia).
  pose proof (lead_small precision scale I F L P) as Lead.
  pose proof (last_small precision scale I F L P) as Last.
  unfold decimal_groups. cbv zeta.
  set (i0 := (precision - scale) / 9) in *. set (ix := (precision - scale) mod 9) in *.
  set (f0 := scale / 9) in *. set (fx := scale mod 9) in *.
  assert (I1 : i0 + (if 0 <? ix then 1 else 0) + (f0 + (if 0 <? fx then 1 else 0)) <= Z.of_nat L)
    by (destruct (Z.ltb_spec 0 ix), (Z.ltb_spec 0 fx); zdm).
  set (r0 := words_bytes neg (dec_split (Z.to_nat i0) I) ++ _).
  destruct (read_intg0x_ok neg L (mk_cursor (partial_group neg ix (I / 10 ^ (9 * i0)) ++ r0) 0 b
              (i0 * 9 + ix)) ix i0 (I / 10 ^ (9 * i0)) r0)
    as (c1 & o1 & j1 & -> & S1 & R1 & L1);
    [constructor; cbn; try done; lia|repeat apply words_bytes_app_ok; apply partial_group_ok|lia|done| |].
  { intros. destruct (Z.ltb_spec 0 ix), (Z.ltb_spec 0 fx); lia. }
  cbn [bind_outcome].
  destruct (read_intg0_ok neg L (dec_split (Z.to_nat i0) I) c1 o1 j1 _ (I / 10 ^ (9 * i0)) S1)
    as (c2 & o2 & j2 & E & S2 & R2 & L2); rewrite ?length_dec_split in *.
  { apply words_bytes_app_ok, partial_group_ok. } { apply dec_split_digits. }
  { by rewrite Z2Nat.id by lia. }
  { destruct (Z.ltb_spec 0 ix), (Z.ltb_spec 0 fx); lia. }
  rewrite E. cbn [bind_outcome]. clear E.
  rewrite dec_combine_split, Z2Nat.id, DIG_BASE_pow in R2 by lia.
  rewrite (Z.mul_comm (I / _)), <- Z.div_mod in R2 by (apply Z.pow_nonzero; lia).
  destruct (read_frac0_ok neg L (dec_split (Z.to_nat f0) (F / 10 ^ fx)) c2 o2 j2 _ S2)
    as (c3 & E & S3); rewrite ?length_dec_split in *.
  { apply partial_group_ok. } { apply dec_split_digits. }
  { destruct (Z.ltb_spec 0 ix), (Z.ltb_spec 0 fx); lia. }
  rewrite E. cbn [bind_outcome]. clear E. rewrite <- (app_nil_r (partial_group neg fx _)) in S3.
  destruct (read_frac0x_ok neg L c3 _ j2 fx _ [] S3) as (c4 & r4 & -> & S4); [constructor|lia|done| |].
  { intros. rewrite length_app, length_dec_split. destruct (Z.ltb_spec 0 ix), (Z.ltb_spec 0 fx); lia. }
  rewrite <- app_assoc in S4. pose proof (ds_intg _ _ _ _ _ S4) as J. rewrite <- J in S4, R2.
  exists c4, o2, r4. auto.
Qed.

Lemma bin2decimal_ok neg precision scale I F to rest :
  decimal_params precision scale I F (length (buf to)) →
  len to = Z.of_nat (length (buf to)) →
  (neg = true → I ≠ 0 ∨ F ≠ 0) →
  ∃ d, bin2decimal (decimal_encode neg precision scale I F ++ rest) to precision scale =
         Some (E_DEC_OK, d) ∧ represents d neg I F ∧ frac d = scale.
Proof.
  intros P Hlen Hneg. set (L := length (buf to)) in *.
  pose proof (params_bounds precision scale I F L P) as (Hi0 & Hix & Hf0 & Hfx & E1 & E2).
  pose proof (dp_scale _ _ _ _ _ P). pose proof (dp_room _ _ _ _ _ P) as Room.
  rewrite !ROUND_UP_eq in Room by lia.
  destruct (encode_mask neg precision scale I F L P rest) as (b0 & Hb0 & Hmask).
  unfold bin2decimal. rewrite Hb0. cbn [mbind option_bind].
  rewrite (decimal_bin_size_groups neg precision scale I F L P). cbn [mbind option_bind].
  rewrite (copy_flipped_encode neg precision scale I F L P). cbn [mbind option_bind].
  rewrite Hmask. unfold DIG_PER_DEC1. rewrite !Z.quot_div_nonneg by lia.
  replace (precision - scale - (precision - scale) / 9 * 9) with ((precision - scale) mod 9) by lia.
  replace (scale - scale / 9 * 9) with (scale mod 9) by lia.
  unfold FIX_INTG_FRAC_ERROR. rewrite Hlen.
  destruct (Z.ltb_spec (Z.of_nat L) ((precision - scale) / 9 + (if 0 <? (precision - scale) mod 9
    then 1 else 0) + (scale / 9 + (if 0 <? scale mod 9 then 1 else 0)))) as [Hbad|_].
  { destruct (Z.ltb_spec 0 ((precision - scale) mod 9)), (Z.ltb_spec 0 (scale mod 9)); zdm. }
  rewrite (length_partial_group neg _ 0) by lia. cbn [mbind option_bind Z.eqb E_DEC_OK].
  destruct (decode_stages neg precision scale I F (buf to) P) as (c & o & r & -> & S & R).
  replace (scale / 9 * 9 + scale mod 9) with scale by lia.
  assert (Rep := represents_state neg L c o (frac_words scale F) _ (Z.of_nat L) scale r I F S R
    (length_frac_words precision scale I F L P) ltac:(lia) (frac_words_value precision scale I F L P) eq_refl).
  destruct (Z.eqb_spec (c_intg c) 0) as [J|J], (Z.eqb_spec scale 0) as [Sc|Sc]; cbn [andb];
    eexists; (split; [reflexivity|]); try (split; [exact Rep|done]).
  subst scale. destruct R as [_ _ _ R]. rewrite J in R. cbn in R.
  pose proof (dp_I _ _ _ _ _ P) as HI. pose proof (dp_F _ _ _ _ _ P) as HF. cbn in HF.
  assert (I = 0 ∧ F = 0) as [-> ->] by lia.
  assert (neg = false) as -> by (destruct neg; [destruct Hneg; done|done]). split; [|done].
  apply (represents_zero (Z.of_nat L) (c_buf c)). rewrite (ds_len _ _ _ _ _ S).
  pose proof (dp_precision _ _ _ _ _ P). zdm.
Qed.

(** [bin2decimal] decodes the binary format.  For a DECIMAL(precision,
    scale) column whose groups fit in the digit buffer, and any value with an
    integer part of at most [precision - scale] digits and [scale] decimals that
    is not a negative zero, decoding the value's encoding succeeds with
    [E_DEC_OK], whatever follows it in the row and whatever the buffer held, and
    the result has the value's sign, integer part and decimals. *)
Theorem bin2decimal_decodes neg precision scale I F to rest :
  decimal_params precision scale I F (length (buf to)) →
  len to = Z.of_nat (length (buf to)) →
  (neg = true → I ≠ 0 ∨ F ≠ 0) →
  ∃ d, bin2decimal (decimal_encode neg precision scale I F ++ rest) to precision scale =
         Some (E_DEC_OK, d) ∧ represents d neg I F ∧ frac d = scale.
Proof. apply bin2decimal_ok. Qed.

Lemma bin2decimal_decodes_witness :
  ∃ d, bin2decimal ([0x7E; 0xF2; 0x04; 0xC7; 0x2D; 0xFB; 0x2D] ++ [1; 2]) (new_my_decimal (replicate 9 7)) 14 4 =
         Some (E_DEC_OK, d) ∧ sign d = 1 ∧ frac d = 4.
Proof.
  destruct (bin2decimal_decodes true 14 4 1234567890 1234 (new_my_decimal (replicate 9 7)) [1; 2])
    as (d & E & R & S).
  - constructor; [lia|lia|lia|lia|]. vm_compute. discriminate.
  - reflexivity.
  - left. discriminate.
  - exists d. split; [exact E|]. split; [exact (rep_sign _ _ _ _ R)|exact S].
Defined.

(** ** The text of a decimal *)

(** [n] decimal digits of [v] as characters. *)
Fixpoint digits (n : nat) (v : Z) : list Z :=
  match n with O => [] | S n => digits n (v / 10) ++ [48 + v mod 10] end.

Definition decimal_text (neg : bool) (n : nat) (I : Z) (scale F : Z) : list Z :=
  (if neg then [45] else []) ++ digits n I ++
  (if scale =? 0 then [] else 46 :: digits (Z.to_nat scale) F).

(** [n] digits write [v] without a superfluous leading zero. *)
Definition canonical (n : nat) (v : Z) : Prop :=
  (0 < n)%nat ∧ 0 <= v < 10 ^ Z.of_nat n ∧ (n = 1%nat ∨ 10 ^ (Z.of_nat n - 1) <= v).

Lemma length_digits n v : length (digits n v) = n.
Proof. revert v. induction n; intros; cbn [digits]; [done|]. rewrite length_app, IHn. cbn. lia. Qed.

Lemma digits_add m n v : digits (m + n) v = digits m (v / 10 ^ Z.of_nat n) ++ digits n v.
Proof.
  revert v. induction n as [|n IH]; intros v.
  { by rewrite Nat.add_0_r, Z.pow_0_r, Z.div_1_r, app_nil_r. }
  rewrite Nat.add_succ_r. cbn [digits]. rewrite IH, <- app_assoc. do 2 f_equal.
  rewrite Z.div_div, Nat2Z.inj_succ, Z.pow_succ_r by (try apply Z.pow_pos_nonneg; lia). done.
Qed.

Lemma digits_shift n v k : 0 <= k → digits n (v + k * 10 ^ Z.of_nat n) = digits n v.
Proof.
  intros Hk. revert v. induction n as [|n IH]; intros v; [done|]. cbn [digits].
  rewrite Nat2Z.inj_succ, Z.pow_succ_r by lia.
  replace (v + k * (10 * 10 ^ Z.of_nat n)) with (v + (k * 10 ^ Z.of_nat n) * 10) by lia.
  by rewrite Z.div_add, Z.mod_add, IH by lia.
Qed.

Lemma intg_digits_eq n x : 0 <= x → intg_digits n x = digits n x.
Proof.
  revert x. induction n as [|n IH]; intros x Hx; [done|]. cbn [intg_digits digits].
  rewrite Z.quot_div_nonneg, IH by (try apply Z.div_pos; lia). do 2 f_equal.
  rewrite (Z.mod_eq x 10) by lia. rewrite !wrap_small by (rewrite ?wrap_small; zdm). lia.
Qed.

Lemma frac_digits_eq n x :
  (n ≤ 9)%nat → is_digit x → frac_digits n x = digits n (x / 10 ^ (9 - Z.of_nat n)).
Proof.
  unfold is_digit, DIG_BASE. revert x. induction n as [|n IH]; intros x Hn Hx; [done|].
  cbn [frac_digits]. rewrite Z.quot_div_nonneg by (unfold DIG_MASK; lia).
  replace (x - x / DIG_MASK * DIG_MASK) with (x mod DIG_MASK) by (unfold DIG_MASK; zdm).
  assert (0 <= x mod DIG_MASK < DIG_MASK) by (apply Z.mod_pos_bound; done).
  assert (0 <= x / DIG_MASK < 10) by (unfold DIG_MASK; zdm).
  rewrite IH by (unfold DIG_MASK in *; lia).
  rewrite !wrap_small by (rewrite ?wrap_small; lia).
  change (S n) with (1 + n)%nat. rewrite digits_add. cbn [digits app].
  replace (9 - Z.of_nat (1 + n)) with (8 - Z.of_nat n) by lia.
  rewrite Z.div_div, <- Z.pow_add_r by (try apply Z.pow_nonzero; try apply Z.pow_pos_nonneg; lia).
  replace (8 - Z.of_nat n + Z.of_nat n) with 8 by lia. change (10 ^ 8) with DIG_MASK.
  rewrite (Z.mod_small (x / DIG_MASK)) by lia. f_equal.
  assert (E : x / 10 ^ (8 - Z.of_nat n) =
              x mod DIG_MASK / 10 ^ (8 - Z.of_nat n) + x / DIG_MASK * 10 ^ Z.of_nat n).
  { rewrite <- Z.div_add by (apply Z.pow_nonzero; lia). f_equal.
    rewrite <- Z.mul_assoc, <- Z.pow_add_r by lia.
    replace (Z.of_nat n + (8 - Z.of_nat n)) with 8 by lia. change (10 ^ 8) with DIG_MASK.
    rewrite (Z.div_mod x DIG_MASK) at 1 by done. lia. }
  rewrite E, digits_shift by lia. f_equal.
  replace (9 - Z.of_nat n) with (1 + (8 - Z.of_nat n)) by lia.
  rewrite Z.pow_add_r, Z.mul_comm by lia.
  rewrite <- Z.div_div, Z.mul_comm, Z.div_mul by (try apply Z.pow_pos_nonneg; lia). done.
Qed.

Lemma frac_chars_eq ws rest fr F :
  0 <= fr → ROUND_UP fr = Z.of_nat (length ws) → Forall is_digit ws →
  dec_combine ws = F * 10 ^ (9 * ROUND_UP fr - fr) → 0 <= F →
  frac_chars (length ws) (ws ++ rest) fr = Some (digits (Z.to_nat fr) F).
Proof.
  intros Hfr HL D. revert fr F Hfr HL.
  induction D as [|w ws Hw D IH]; intros fr F Hfr HL HC HF; rewrite ROUND_UP_eq in * by done.
  { cbn [length] in HL. assert (fr = 0) as -> by zdm. done. }
  cbn [length frac_chars app] in *. unfold DIG_PER_DEC1.
  pose proof (dec_combine_range ws D) as R. rewrite DIG_BASE_pow in R by lia.
  rewrite <- (app_nil_l (w :: ws)), cons_middle, app_assoc, dec_combine_app in HC.
  change (dec_combine ([] ++ [w])) with (DIG_BASE * 0 + w) in HC. rewrite DIG_BASE_pow in HC by lia.
  set (m := Z.of_nat (length ws)) in *. rewrite HL in HC.
  destruct (Z.le_gt_cases fr 9) as [H9|H9].
  - assert (m = 0) by zdm. assert (ws = []) as -> by (destruct ws; [done|cbn in *; lia]).
    cbn [length frac_chars]. cbn [mbind option_bind]. rewrite app_nil_r, Z.min_l by lia. f_equal.
    rewrite frac_digits_eq by (done || lia). f_equal. rewrite Z2Nat.id by lia.
    replace (9 * Z.of_nat (S (length [])) - fr) with (9 - fr) in HC by (cbn; lia).
    assert (E : w = F * 10 ^ (9 - fr)) by (clear - HC; change (10 ^ (9 * m)) with 1 in HC; cbn in HC; lia).
    rewrite E. apply Z.div_mul, Z.pow_nonzero; lia.
  - assert (M : ROUND_UP (fr - 9) = m) by (rewrite ROUND_UP_eq by lia; zdm).
    set (e := 9 * (m + 1) - fr) in *. assert (0 <= e <= 8) by (unfold e; zdm).
    replace (9 * Z.of_nat (S (length ws)) - fr) with e in HC by (unfold e, m; lia).
    assert (EP : 10 ^ (9 * m) = 10 ^ (fr - 9) * 10 ^ e).
    { rewrite <- Z.pow_add_r by lia. f_equal. unfold e. lia. }
    pose proof (Z.pow_pos_nonneg 10 (fr - 9)). pose proof (Z.pow_pos_nonneg 10 e).
    set (F' := F - w * 10 ^ (fr - 9)).
    assert (HC' : dec_combine ws = F' * 10 ^ e) by (unfold F'; nia).
    assert (0 <= F') by nia.
    rewrite (IH (fr - 9) F'); [|lia|done| |done].
    2:{ rewrite M, HC'. f_equal. f_equal. unfold e. lia. }
    cbn [mbind option_bind]. rewrite Z.min_r, frac_digits_eq by (done || lia).
    change (10 ^ (9 - Z.of_nat (Z.to_nat 9))) with 1. rewrite Z.div_1_r.
    replace (Z.to_nat fr) with (9 + Z.to_nat (fr - 9))%nat by lia.
    rewrite digits_add, Z2Nat.id by lia. change (Z.to_nat 9) with 9%nat.
    assert (F' < 10 ^ (fr - 9)) by nia.
    do 2 f_equal.
    + f_equal. replace F with (F' + w * 10 ^ (fr - 9)) by (unfold F'; lia).
      rewrite Z.div_add, Z.div_small by lia. lia.
    + replace F with (F' + w * 10 ^ Z.of_nat (Z.to_nat (fr - 9))) by (rewrite Z2Nat.id by lia; unfold F'; lia).
      symmetry. apply digits_shift. unfold is_digit in Hw. lia.
Qed.

Lemma intg_chars_eq n l j :
  0 < j → ROUND_UP j = Z.of_nat n → (n ≤ length l)%nat → Forall is_digit (take n l) →
  intg_chars n l j = Some (digits (Z.to_nat j) (dec_combine (take n l))).
Proof.
  revert j. induction n as [|n IH]; intros j Hj HR Hn D; rewrite ROUND_UP_eq in HR by lia; [zdm|].
  cbn [intg_chars]. rewrite (lookup_nth l n 0) by lia. cbn [mbind option_bind].
  rewrite (take_S_r l n (nth n l 0)) in D |- * by (apply lookup_nth; lia).
  apply Forall_app in D as [D Dx]. apply Forall_cons in Dx as [Dx _].
  rewrite dec_combine_snoc. set (x := nth n l 0) in *. unfold DIG_PER_DEC1.
  pose proof (dec_combine_range _ D) as R. unfold is_digit in Dx.
  destruct (Nat.eq_dec n 0%nat) as [->|Hn0].
  - cbn [intg_chars mbind option_bind]. rewrite Z.min_l by zdm. cbn [app].
    by rewrite intg_digits_eq by lia.
  - rewrite IH; [|zdm|rewrite ROUND_UP_eq by zdm; zdm|lia|done]. cbn [mbind option_bind].
    rewrite Z.min_r by zdm. f_equal. rewrite intg_digits_eq by lia.
    replace (Z.to_nat j) with (Z.to_nat (j - 9) + Z.to_nat 9)%nat by zdm.
    rewrite digits_add. change (10 ^ Z.of_nat (Z.to_nat 9)) with DIG_BASE. f_equal.
    + f_equal. rewrite (Z.mul_comm DIG_BASE), Z.add_comm, Z.div_add by done.
      rewrite Z.div_small by lia. lia.
    + rewrite (Z.add_comm (DIG_BASE * _)), (Z.mul_comm DIG_BASE).
      change DIG_BASE with (10 ^ Z.of_nat (Z.to_nat 9)). symmetry. apply digits_shift. lia.
Qed.

(** ** Leading zeros *)

Lemma dec_combine_cons d l : dec_combine (d :: l) = DIG_BASE ^ Z.of_nat (length l) * d + dec_combine l.
Proof. change (d :: l) with ([d] ++ l). rewrite dec_combine_app. cbn [dec_combine foldl]. lia. Qed.

Lemma skip_zero_digits_ok l j i I :
  0 <= j → ROUND_UP j <= Z.of_nat (length l) →
  Forall is_digit (take (Z.to_nat (ROUND_UP j)) l) →
  dec_combine (take (Z.to_nat (ROUND_UP j)) l) = I → I < 10 ^ j →
  (0 < j → i = (j - 1) mod 9 + 1) →
  ∃ k j', skip_zero_digits l j i = Some (drop k l, j') ∧ 0 <= j' ∧
    ROUND_UP j' + Z.of_nat k = ROUND_UP j ∧
    dec_combine (take (Z.to_nat (ROUND_UP j')) (drop k l)) = I ∧ I < 10 ^ j' ∧
    (j' = 0 ∨ ∃ d, l !! k = Some d ∧ d ≠ 0).
Proof.
  revert j i. induction l as [|d l IH]; intros j i Hj Hl D HI Hs Hi.
  { rewrite ROUND_UP_eq in Hl by done. cbn [length] in Hl. assert (j = 0) as -> by zdm.
    exists 0%nat, 0. cbn in *. split_and!; try done. by left. }
  cbn [skip_zero_digits]. destruct (Z.ltb_spec 0 j) as [H0|H0].
  2:{ assert (j = 0) as -> by lia. exists 0%nat, 0. cbn in *. split_and!; try done. by left. }
  destruct (Z.eqb_spec d 0) as [->|Hd].
  2:{ exists 0%nat, j. split_and!; try done; [lia|]. right. by exists d. }
  rewrite (Hi H0) in *. set (i' := (j - 1) mod 9 + 1) in *. rewrite ROUND_UP_eq in Hl by done.
  assert (E : j - i' = 9 * ((j + 8) / 9 - 1)) by (unfold i'; zdm).
  assert (Hn : Z.to_nat (ROUND_UP j) = S (Z.to_nat (ROUND_UP (j - i')))).
  { rewrite !ROUND_UP_eq by (rewrite ?E; zdm). rewrite E. zdm. }
  rewrite Hn in D, HI. cbn [take] in D, HI. apply Forall_cons in D as [_ D].
  rewrite dec_combine_cons, Z.mul_0_r, Z.add_0_l in HI.
  assert (Hl' : ROUND_UP (j - i') <= Z.of_nat (length l)).
  { cbn [length] in Hl. rewrite !ROUND_UP_eq by (rewrite E; zdm). zdm. }
  destruct (IH (j - i') DIG_PER_DEC1) as (k & j' & -> & H1 & H2 & H3 & H4 & H5); try done.
  - rewrite E. zdm.
  - rewrite <- HI. pose proof (dec_combine_range _ D) as R. rewrite length_take, Nat.min_l in R by lia.
    rewrite DIG_BASE_pow, Z2Nat.id in R by (rewrite ?ROUND_UP_eq; rewrite ?E; zdm).
    replace (9 * ROUND_UP (j - i')) with (j - i') in R by (rewrite ROUND_UP_eq; rewrite E; zdm). lia.
  - intros _. rewrite E. unfold DIG_PER_DEC1. zdm.
  - exists (S k), j'. cbn [drop]. split_and!; try done.
    rewrite !ROUND_UP_eq in H2 |- * by (rewrite ?E; zdm). rewrite E in H2. zdm.
Qed.

Lemma count_leading_zeroes_from_ok i d :
  1 <= d < 10 ^ (Z.of_nat i + 1) →
  0 <= count_leading_zeroes_from i d <= Z.of_nat i ∧
  10 ^ (Z.of_nat i - count_leading_zeroes_from i d) <= d <
  10 ^ (Z.of_nat i - count_leading_zeroes_from i d + 1).
Proof.
  induction i as [|i IH]; intros Hd; cbn [count_leading_zeroes_from].
  - destruct (Z.leb_spec (10 ^ Z.of_nat 0) d); [cbn in *; lia|cbn in *; lia].
  - destruct (Z.leb_spec (10 ^ Z.of_nat (S i)) d) as [H|H].
    + rewrite Z.sub_0_r. lia.
    + replace (Z.of_nat (S i)) with (Z.of_nat i + 1) in * by lia. destruct IH as [I1 I2]; [lia|].
      replace (Z.of_nat i + 1 - (1 + count_leading_zeroes_from i d))
        with (Z.of_nat i - count_leading_zeroes_from i d) by lia. lia.
Qed.

(** The leading digit [h] over [m] full ones fixes the number of places. *)
Lemma leading_digit h m e r :
  0 <= e <= 9 → 1 <= h < 10 ^ (e + 1) → 0 <= r < 10 ^ (9 * m) → 0 <= m →
  let c := count_leading_zeroes e h in
  0 <= c <= e ∧
  10 ^ (9 * m + (e + 1) - c - 1) <= 10 ^ (9 * m) * h + r < 10 ^ (9 * m + (e + 1) - c).
Proof.
  intros He Hh Hr Hm. cbv zeta. unfold count_leading_zeroes.
  destruct (Z.leb_spec 0 e), (Z.leb_spec e 9); cbn [andb]; try lia.
  destruct (count_leading_zeroes_from_ok (Z.to_nat e) h) as [C1 C2]; [by rewrite Z2Nat.id by lia|].
  rewrite Z2Nat.id in * by lia. set (c := count_leading_zeroes_from (Z.to_nat e) h) in *.
  split; [lia|].
  replace (9 * m + (e + 1) - c - 1) with (9 * m + (e - c)) by lia.
  replace (9 * m + (e + 1) - c) with (9 * m + (e - c + 1)) by lia.
  rewrite !Z.pow_add_r by lia. rewrite Z.pow_add_r in C2 by lia.
  pose proof (Z.pow_pos_nonneg 10 (9 * m)). nia.
Qed.

Lemma represents_intg_digits d neg I F :
  represents d neg I F → Forall is_digit (take (Z.to_nat (ROUND_UP (intg d))) (buf d)).
Proof.
  intros [Hj Hf _ D _ _ _ _].
  replace (take _ (buf d)) with (take (Z.to_nat (ROUND_UP (intg d)))
    (take (Z.to_nat (ROUND_UP (intg d) + ROUND_UP (frac d))) (buf d))).
  { by apply Forall_take. }
  rewrite take_take. f_equal. rewrite !ROUND_UP_eq by done. zdm.
Qed.

Lemma remove_leading_zeroes_ok d neg I F :
  represents d neg I F →
  ∃ k j, remove_leading_zeroes d = Some (drop k (buf d), j) ∧ 0 <= j ∧
    ROUND_UP j + Z.of_nat k = ROUND_UP (intg d) ∧
    dec_combine (take (Z.to_nat (ROUND_UP j)) (drop k (buf d))) = I ∧ I < 10 ^ j ∧
    (j = 0 ∨ 10 ^ (j - 1) <= I).
Proof.
  intros Rep. pose proof (represents_intg_digits _ _ _ _ Rep) as DI.
  destruct Rep as [Hj Hf _ _ Hr HI HS _].
  assert (RF : 0 <= ROUND_UP (frac d)) by (rewrite ROUND_UP_eq by done; zdm).
  unfold remove_leading_zeroes.
  destruct (skip_zero_digits_ok (buf d) (intg d) (Z.rem (intg d - 1) DIG_PER_DEC1 + 1) I)
    as (k & j & -> & H1 & H2 & H3 & H4 & H5); [done|lia|done..| |].
  { intros. by rewrite Z.rem_mod_nonneg by (unfold DIG_PER_DEC1; lia). }
  cbn [mbind option_bind]. destruct (Z.ltb_spec 0 j) as [H0|H0].
  2:{ exists k, 0. assert (j = 0) as -> by lia. split_and!; try done. by left. }
  destruct H5 as [->|(h & Hh & Hne)]; [lia|].
  rewrite lookup_drop, Nat.add_0_r, Hh. cbn [mbind option_bind].
  rewrite Z.rem_mod_nonneg by (unfold DIG_PER_DEC1; lia). unfold DIG_PER_DEC1.
  set (e := (j - 1) mod 9). set (m := (j - 1) / 9).
  assert (Em : j = 9 * m + (e + 1) ∧ 0 <= e < 9 ∧ 0 <= m) by (unfold m, e; zdm).
  destruct Em as (Ej & He & Hm).
  assert (RU : ∀ c, 0 <= c <= e → ROUND_UP (j - c) = m + 1)
    by (intros; rewrite ROUND_UP_eq by lia; zdm).
  assert (Rj : ROUND_UP j = m + 1) by (rewrite <- (RU 0) by lia; f_equal; lia).
  rewrite Rj in *. replace (Z.to_nat (m + 1)) with (S (Z.to_nat m)) in H3 by lia.
  rewrite (drop_S _ _ _ Hh) in H3. cbn [take] in H3. rewrite dec_combine_cons in H3.
  assert (Dt : Forall is_digit (h :: take (Z.to_nat m) (drop (S k) (buf d)))).
  { change (h :: take _ _) with (take (S (Z.to_nat m)) (h :: drop (S k) (buf d))).
    rewrite <- (drop_S _ _ _ Hh), take_drop_commute. apply Forall_drop.
    by replace (k + S (Z.to_nat m))%nat with (Z.to_nat (ROUND_UP (intg d))) by lia. }
  apply Forall_cons in Dt as [Dh Dt]. pose proof (dec_combine_range _ Dt) as R.
  rewrite length_take, length_drop, Nat.min_l, DIG_BASE_pow, Z2Nat.id in * by lia.
  unfold is_digit in Dh. pose proof (Z.pow_pos_nonneg 10 (9 * m)).
  destruct (leading_digit h m e (dec_combine (take (Z.to_nat m) (drop (S k) (buf d))))) as [C1 C2];
    [lia| |lia|done|].
  { rewrite Ej, Z.pow_add_r in H4 by lia. nia. }
  set (c := count_leading_zeroes e h) in *. rewrite H3, <- Ej in C2.
  exists k, (j - c). rewrite (RU c C1). split; [done|]. split; [lia|]. split; [lia|].
  split; [|split; [apply C2|right; apply C2]].
  replace (Z.to_nat (m + 1)) with (S (Z.to_nat m)) by lia. rewrite (drop_S _ _ _ Hh). cbn [take].
  rewrite dec_combine_cons, length_take, length_drop, Nat.min_l, DIG_BASE_pow, Z2Nat.id by lia. done.
Qed.

(** ** Assembling the text *)

Lemma put_chars_mid a b b' c p :
  p = Z.of_nat (length a) → length b' = length b → put_chars (a ++ b ++ c) p b' = Some (a ++ b' ++ c).
Proof.
  intros -> L. destruct b' as [|x b'].
  { destruct b; [done|cbn in L; lia]. }
  unfold put_chars. set (w := x :: b') in *.
  destruct (Z.leb_spec 0 (Z.of_nat (length a))); [|lia].
  destruct (Z.leb_spec (Z.of_nat (length a) + Z.of_nat (length w)) (Z.of_nat (length (a ++ b ++ c))))
    as [|Hn]; [|rewrite !length_app in Hn; lia].
  cbn [andb]. rewrite Nat2Z.id, take_app_length.
  replace (drop (length a + length w) (a ++ b ++ c)) with c; [done|].
  by rewrite L, app_assoc, <- length_app, drop_app_length.
Qed.

Lemma split_three {A} a b c (l : list A) :
  (a + b + c < length l)%nat →
  ∃ l1 l2 l3 x r, l = l1 ++ l2 ++ l3 ++ x :: r ∧ length l1 = a ∧ length l2 = b ∧ length l3 = c ∧
    drop (S (a + b + c)) l = r.
Proof.
  intros H. destruct (lookup_lt_is_Some_2 l (a + b + c) H) as [x Hx].
  exists (take a l), (take b (drop a l)), (take c (drop (a + b) l)), x, (drop (S (a + b + c)) l).
  rewrite !length_take, !length_drop. split_and!; try lia; [|done].
  rewrite <- (drop_S _ _ _ Hx), <- !drop_drop. by rewrite !take_drop.
Qed.

Lemma canonical_places n I j :
  canonical n I → 0 <= j → I < 10 ^ j → (j = 0 ∨ 10 ^ (j - 1) <= I) →
  Z.of_nat n = Z.max j 1 ∧ (j = 0 → I = 0).
Proof.
  intros (H0 & HI & Hn) Hj Hs Hc.
  destruct Hc as [->|Hc]; [cbn in Hs|].
  - assert (I = 0) as -> by lia. split; [|done]. destruct Hn as [->|Hn]; [done|].
    pose proof (Z.pow_pos_nonneg 10 (Z.of_nat n - 1)). lia.
  - destruct (Z.eq_dec j 0) as [->|Hj0]; [cbn in *; lia|]. split; [|lia].
    assert (j - 1 < Z.of_nat n) by (apply (Z.pow_lt_mono_r_iff 10); lia).
    destruct Hn as [->|Hn]; [lia|].
    assert (Z.of_nat n - 1 < j) by (apply (Z.pow_lt_mono_r_iff 10); lia). lia.
Qed.

(** The integer part printed, the case of an empty one included: [buf1] and
    [jj] are [buf0] and [intg] after the test for zero. *)
Lemma intg_part_ok d neg I F n :
  represents d neg I F → canonical n I →
  ∃ r buf1 jj, remove_leading_zeroes d = Some r ∧
    (let '(buf0, j) := r in if j + frac d =? 0 then ([0], 1) else (buf0, j)) = (buf1, jj) ∧
    0 <= jj ∧ Z.of_nat n = Z.max 1 jj ∧
    (if jj =? 0 then Some [48] else intg_chars (Z.to_nat (ROUND_UP jj)) buf1 jj) = Some (digits n I) ∧
    (frac d ≠ 0 →
     drop (Z.to_nat (ROUND_UP jj)) buf1 = drop (Z.to_nat (ROUND_UP (intg d))) (buf d)).
Proof.
  intros Rep C. pose proof (represents_intg_digits _ _ _ _ Rep) as DI.
  destruct (remove_leading_zeroes_ok _ _ _ _ Rep) as (k & j & E & Hj & Hk & HI & Hs & Hc).
  destruct (canonical_places n I j C Hj Hs Hc) as [Hn H0].
  destruct Rep as [Hd Hf _ _ Hr _ _ _].
  assert (RF : 0 <= ROUND_UP (frac d)) by (rewrite ROUND_UP_eq by done; zdm).
  assert (RJ : 0 <= ROUND_UP j) by (rewrite ROUND_UP_eq by done; zdm).
  exists (drop k (buf d), j). destruct (Z.eqb_spec (j + frac d) 0) as [Z0|Z0].
  - exists [0], 1. assert (j = 0) as -> by lia. rewrite (H0 eq_refl).
    assert (n = 1%nat) as -> by lia. by split_and!; try done.
  - exists (drop k (buf d)), j. split_and!; try done; [lia| |].
    + destruct (Z.eqb_spec j 0) as [->|].
      { rewrite (H0 eq_refl). by assert (n = 1%nat) as -> by lia. }
      rewrite (intg_chars_eq _ _ j) by
        (try lia; rewrite ?length_drop; try lia; rewrite take_drop_commute; apply Forall_drop;
         by replace (k + Z.to_nat (ROUND_UP j))%nat with (Z.to_nat (ROUND_UP (intg d))) by lia).
      rewrite HI. by replace (Z.to_nat j) with n by lia.
    + intros _. rewrite drop_drop. f_equal. lia.
Qed.

Lemma frac_part_ok d neg I F rest :
  represents d neg I F → 0 <= F →
  rest = drop (Z.to_nat (ROUND_UP (intg d))) (buf d) →
  frac_chars (Z.to_nat (ROUND_UP (frac d))) rest (frac d) = Some (digits (Z.to_nat (frac d)) F).
Proof.
  intros [Hd Hf _ D Hr _ _ HF] HF0 ->.
  assert (RF : 0 <= ROUND_UP (frac d)) by (rewrite ROUND_UP_eq by done; zdm).
  assert (RI : 0 <= ROUND_UP (intg d)) by (rewrite ROUND_UP_eq by done; zdm).
  set (fn := Z.to_nat (ROUND_UP (frac d))) in *. set (r := drop _ (buf d)) in *.
  assert (L : length (take fn r) = fn)
    by (rewrite length_take; apply Nat.min_l; unfold r; rewrite length_drop; lia).
  rewrite <- L at 1. rewrite <- (take_drop fn r) at 2.
  apply frac_chars_eq; [done|lia| |done|done].
  unfold r. rewrite take_drop_commute. apply Forall_drop.
  by replace (_ + fn)%nat with (Z.to_nat (ROUND_UP (intg d) + ROUND_UP (frac d))) by lia.
Qed.

Lemma layout_ok sg jj sc to_len :
  sg + Z.max 1 jj + MY_TEST sc + sc <= to_len - 1 → 0 <= jj →
  decimal2string_layout sg jj sc to_len 0 0 =
    mk_layout E_DEC_OK jj sc (Z.max 1 jj) sc (sg + Z.max 1 jj + MY_TEST sc + sc).
Proof.
  intros H Hj. unfold decimal2string_layout. cbn [Z.eqb negb].
  assert (E : (if jj =? 0 then 1 else jj) = Z.max 1 jj) by (destruct (Z.eqb_spec jj 0); lia).
  rewrite E. by destruct (Z.ltb_spec (to_len - 1) (sg + Z.max 1 jj + MY_TEST sc + sc)); [lia|].
Qed.

Lemma decimal2string_ok d neg I F n to to_len filler :
  represents d neg I F → 0 <= F → canonical n I →
  let text := decimal_text neg n I (frac d) F in
  Z.of_nat (length text) <= to_len - 1 → (length text < length to)%nat →
  decimal2string d to to_len 0 0 filler =
    Some (E_DEC_OK, Z.of_nat (length text), text ++ 0 :: drop (S (length text)) to).
Proof.
  intros Rep HF C text Hlen Hroom.
  destruct (intg_part_ok _ _ _ _ n Rep C) as (r0 & buf1 & jj & E & E1 & Hj & Hn & Hi & Hd).
  pose proof (rep_frac _ _ _ _ Rep) as Hfr. pose proof (rep_sign _ _ _ _ Rep) as Hsg.
  unfold decimal2string. rewrite E. cbn [mbind option_bind]. destruct r0 as [buf0 j]. rewrite E1.
  set (sg := if neg then [45] else []). set (sc := frac d) in *.
  set (fs := if sc =? 0 then [] else 46 :: digits (Z.to_nat sc) F).
  assert (Esg : (if sign d =? 0 then [] else [45]) = sg ∧ sign d = Z.of_nat (length sg) ∧
                (if sign d =? 0 then 0 else 1) = Z.of_nat (length sg))
    by (rewrite Hsg; unfold sg; by destruct neg).
  destruct Esg as (Esg & Es & Ep).
  assert (Lf : Z.of_nat (length fs) = MY_TEST sc + sc).
  { unfold fs, MY_TEST. destruct (Z.eqb_spec sc 0); cbn [length]; rewrite ?length_digits; lia. }
  assert (Ln : length text = (length sg + n + length fs)%nat).
  { unfold text, decimal_text. fold sc sg fs. rewrite !length_app, length_digits. lia. }
  rewrite Ln in *. rewrite layout_ok by lia.
  cbn [l_error l_intg l_frac l_intg_len l_frac_len l_len].
  destruct (split_three _ _ _ to Hroom) as (l1 & l2 & l3 & x & r & -> & L1 & L2 & L3 & ->).
  rewrite Esg, Ep, <- Hn.
  replace (l1 ++ l2 ++ l3 ++ x :: r) with ((l1 ++ l2 ++ l3) ++ [x] ++ r) by (by rewrite <- !app_assoc).
  rewrite put_chars_mid by (rewrite ?length_app; lia || done). cbn [mbind option_bind].
  rewrite <- !app_assoc. cbn [app].
  pose proof (put_chars_mid [] l1 sg (l2 ++ l3 ++ 0 :: r) 0 eq_refl (eq_sym L1)) as P0.
  cbn [app] in P0. rewrite P0. cbn [mbind option_bind].
  assert (HFr : (if sc =? 0 then Some (sg ++ l2 ++ l3 ++ 0 :: r) else
    fs ← frac_chars (Z.to_nat (ROUND_UP sc)) (drop (Z.to_nat (ROUND_UP jj)) buf1) sc;
    put_chars (sg ++ l2 ++ l3 ++ 0 :: r) (Z.of_nat (length sg) + Z.of_nat n)
      (46 :: fs ++ replicate (Z.to_nat (sc - sc)) (u8 filler))) = Some (sg ++ l2 ++ fs ++ 0 :: r)).
  { unfold fs in L3 |- *. destruct (Z.eqb_spec sc 0) as [|Hne]; [by destruct l3|].
    pose proof (frac_part_ok d neg I F _ Rep HF (Hd Hne)) as HFr. fold sc in HFr.
    rewrite HFr. cbn [mbind option_bind].
    rewrite Z.sub_diag, app_nil_r, app_assoc.
    rewrite (put_chars_mid (sg ++ l2) l3) by (rewrite ?length_app; lia || done).
    by rewrite <- app_assoc. }
  rewrite HFr. cbn [mbind option_bind]. rewrite Hn.
  assert (LD : length (digits n I) = length l2) by (rewrite length_digits; done).
  destruct (Z.eqb_spec jj 0) as [->|Hjj];
    [injection Hi as Hi; change (Z.max 1 0 - 0 - 1) with 0|replace (Z.max 1 jj - jj - 0) with 0 by lia]; rewrite Hi;
    change (Z.to_nat 0) with 0%nat; change (Z.max 0 0) with 0;
    cbn [replicate put_chars mbind option_bind]; rewrite Z.add_0_r, (put_chars_mid sg l2 (digits n I) (fs ++ 0 :: r) _ eq_refl LD);
    cbn [mbind option_bind]; do 2 f_equal; try (f_equal; lia); unfold text, decimal_text; fold sc sg fs; by rewrite <- !app_assoc.
Qed.

(** [decimal2string] without a fixed precision prints a decimal exactly:
    given a buffer and a [*to_len] with room for the text, it returns
    [E_DEC_OK] and the length, and the buffer holds the sign, the integer part
    without superfluous zeros, the point and all the decimals, and the
    terminating zero, with the bytes after it unchanged. *)
Theorem decimal2string_prints d neg I F n to to_len filler :
  represents d neg I F → 0 <= F → canonical n I →
  let text := decimal_text neg n I (frac d) F in
  Z.of_nat (length text) <= to_len - 1 → (length text < length to)%nat →
  decimal2string d to to_len 0 0 filler =
    Some (E_DEC_OK, Z.of_nat (length text), text ++ 0 :: drop (S (length text)) to).
Proof. apply decimal2string_ok. Qed.

Lemma decimal2string_prints_witness :
  decimal2string (mk_decimal 10 4 9 1 [1; 234567890; 123400000; 7; 7; 7; 7; 7; 7]) (replicate 20 0) 19 0 0 0 =
    Some (0, 16, [45; 49; 50; 51; 52; 53; 54; 55; 56; 57; 48; 46; 49; 50; 51; 52; 0; 0; 0; 0]).
Proof.
  assert (R : represents (mk_decimal 10 4 9 1 [1; 234567890; 123400000; 7; 7; 7; 7; 7; 7]) true 1234567890 1234).
  { constructor; try done. repeat constructor; done. }
  assert (C : canonical 10 1234567890) by (split_and!; [lia|lia|lia|right; lia]).
  exact (decimal2string_prints _ true 1234567890 1234 10 (replicate 20 0) 19 0 R ltac:(lia) C
           ltac:(vm_compute; discriminate) ltac:(vm_compute; lia)).
Defined.

(** ** Texts and encodings as bytes *)

Lemma digits_no_nul n v : no_nul (digits n v) ∧ bytes_ok (digits n v).
Proof.
  revert v. induction n as [|n IH]; intros v; cbn [digits]; [split; constructor|].
  destruct (IH (v / 10)) as [A B]. split; (apply Forall_app; split; [done|]);
    apply Forall_singleton; unfold is_byte; zdm.
Qed.

Lemma decimal_text_no_nul neg n I scale F : no_nul (decimal_text neg n I scale F).
Proof.
  unfold decimal_text. repeat (apply Forall_app; split).
  - destruct neg; repeat constructor. done.
  - apply digits_no_nul.
  - destruct (scale =? 0); constructor; [done|apply digits_no_nul].
Qed.

Lemma length_decimal_text neg n I scale F :
  (length (decimal_text neg n I scale F) ≤ 2 + n + Z.to_nat scale)%nat.
Proof.
  unfold decimal_text. rewrite !length_app, length_digits. destruct neg, (scale =? 0);
    cbn [length]; rewrite ?length_digits; lia.
Qed.

Lemma decimal_encode_ok neg precision scale I F :
  bytes_ok (decimal_encode neg precision scale I F) ∧
  length (decimal_encode neg precision scale I F) = length (decimal_groups neg precision scale I F).
Proof.
  assert (G : bytes_ok (decimal_groups neg precision scale I F)).
  { unfold decimal_groups. rewrite !Forall_app.
    auto using partial_group_ok, words_bytes_ok. }
  unfold decimal_encode, flip_first. destruct (decimal_groups _ _ _ _ _) as [|b l]; [by split|].
  apply Forall_cons in G as [_ G]. split; [|done]. apply Forall_cons. auto with cint.
Qed.
