(* ===== verification/MyTime.v ===== *)
(** Dates and times: [binlog/src/my_time.cpp], [binlog/include/my_time.h] and
    [binlog/include/mysql_time.h].  [int], [uint], [long] and [unsigned long]
    have 32 bits on the platform of the binlog library.  Out parameters are
    results; a read outside a table or a buffer is [None]. *)
From S2P Require Import Prelude ByteOrder BinlogTypes BinlogFuncs.

(** ** Data *)

Inductive enum_mysql_timestamp_type :=
  | MYSQL_TIMESTAMP_NONE | MYSQL_TIMESTAMP_ERROR | MYSQL_TIMESTAMP_DATE
  | MYSQL_TIMESTAMP_DATETIME | MYSQL_TIMESTAMP_TIME.

#[export] Instance enum_mysql_timestamp_type_eq_dec : EqDecision enum_mysql_timestamp_type.
Proof. solve_decision. Defined.

Record MYSQL_TIME := mk_time {
  year : Z; month : Z; day : Z; hour : Z; minute : Z; second : Z;
  second_part : Z;
  neg : bool;
  time_type : enum_mysql_timestamp_type;
}.

Record timeval := mk_timeval { tv_sec : Z; tv_usec : Z }.

Definition log_10_int : list Z :=
  [1; 10; 100; 1000; 10000; 100000; 1000000; 10000000; 100000000; 1000000000;
   10000000000; 100000000000; 1000000000000; 10000000000000; 100000000000000;
   1000000000000000; 10000000000000000; 100000000000000000;
   1000000000000000000; 10000000000000000000].

Definition days_at_timestart : Z := 719528.
Definition days_in_month : list Z := [31; 28; 31; 30; 31; 30; 31; 31; 30; 31; 30; 31; 0].

Definition TIMESTAMP_MAX_YEAR : Z := 2038.
Definition YY_PART_YEAR : Z := 70.
Definition TIMESTAMP_MIN_YEAR : Z := 1900 + YY_PART_YEAR - 1.
Definition TIMESTAMP_MAX_VALUE : Z := 2 ^ 31 - 1.
Definition TIMESTAMP_MIN_VALUE : Z := 1.

Definition TIME_FUZZY_DATE : Z := 1.
Definition TIME_DATETIME_ONLY : Z := 2.
Definition TIME_NO_NSEC_ROUNDING : Z := 4.
Definition TIME_NO_DATE_FRAC_WARN : Z := 8.
Definition TIME_NO_ZERO_IN_DATE : Z := 16.
Definition TIME_NO_ZERO_DATE : Z := 32.
Definition TIME_INVALID_DATES : Z := 64.

Definition MYSQL_TIME_WARN_TRUNCATED : Z := 1.
Definition MYSQL_TIME_WARN_OUT_OF_RANGE : Z := 2.
Definition MYSQL_TIME_WARN_INVALID_TIMESTAMP : Z := 4.
Definition MYSQL_TIME_WARN_ZERO_DATE : Z := 8.
Definition MYSQL_TIME_NOTE_TRUNCATED : Z := 16.
Definition MYSQL_TIME_WARN_ZERO_IN_DATE : Z := 32.

Definition SECONDS_IN_24H : Z := 86400.
Definition TIME_MAX_HOUR : Z := 838.
Definition TIME_MAX_MINUTE : Z := 59.
Definition TIME_MAX_SECOND : Z := 59.
Definition TIME_MAX_VALUE : Z := TIME_MAX_HOUR * 10000 + TIME_MAX_MINUTE * 100 + TIME_MAX_SECOND.

(** A flag test [flags & f]. *)
Definition flag (flags f : Z) : bool := negb (flags .& f =? 0).

(** ** Validation *)

Definition calc_days_in_year (year : Z) : Z :=
  if (year .& 3 =? 0) && (negb (year mod 100 =? 0) || ((year mod 400 =? 0) && negb (year =? 0)))
  then 366 else 365.

Definition set_zero_time (time_type : enum_mysql_timestamp_type) : MYSQL_TIME :=
  mk_time 0 0 0 0 0 0 0 false time_type.

Definition set_max_hhmmss (tm : MYSQL_TIME) : MYSQL_TIME :=
  mk_time (year tm) (month tm) (day tm) TIME_MAX_HOUR TIME_MAX_MINUTE TIME_MAX_SECOND
    (second_part tm) (neg tm) (time_type tm).

Definition set_max_time (neg : bool) : MYSQL_TIME :=
  mk_time 0 0 0 TIME_MAX_HOUR TIME_MAX_MINUTE TIME_MAX_SECOND 0 neg MYSQL_TIMESTAMP_TIME.

(** The result and [*was_cut]. *)
Definition check_date (ltime : MYSQL_TIME) (not_zero_date : bool) (flags was_cut : Z)
    : option (bool * Z) :=
  if not_zero_date then
    if (flag flags TIME_NO_ZERO_IN_DATE || negb (flag flags TIME_FUZZY_DATE)) &&
       ((month ltime =? 0) || (day ltime =? 0))
    then Some (true, MYSQL_TIME_WARN_ZERO_IN_DATE)
    else if negb (flag flags TIME_INVALID_DATES) && negb (month ltime =? 0) then
      dim ← table_at days_in_month (month ltime - 1);
      if (dim <? day ltime) &&
         (negb (month ltime =? 2) || negb (calc_days_in_year (year ltime) =? 366) ||
          negb (day ltime =? 29))
      then Some (true, MYSQL_TIME_WARN_OUT_OF_RANGE)
      else Some (false, was_cut)
    else Some (false, was_cut)
  else if flag flags TIME_NO_ZERO_DATE then Some (true, MYSQL_TIME_WARN_ZERO_DATE)
  else Some (false, was_cut).

Definition check_time_mmssff_range (ltime : MYSQL_TIME) : bool :=
  (60 <=? minute ltime) || (60 <=? second ltime) || (999999 <? second_part ltime).

Definition check_time_range_quick (ltime : MYSQL_TIME) : bool :=
  let h := hour ltime + 24 * day ltime in
  negb ((h <=? TIME_MAX_HOUR) &&
        (negb (h =? TIME_MAX_HOUR) || negb (minute ltime =? TIME_MAX_MINUTE) ||
         negb (second ltime =? TIME_MAX_SECOND) || (second_part ltime =? 0))).

Definition check_datetime_range (ltime : MYSQL_TIME) : bool :=
  (9999 <? year ltime) || (12 <? month ltime) || (31 <? day ltime) ||
  (59 <? minute ltime) || (59 <? second ltime) || (999999 <? second_part ltime) ||
  ((if decide (time_type ltime = MYSQL_TIMESTAMP_TIME) then TIME_MAX_HOUR else 23) <? hour ltime).

Definition adjust_time_range (my_time : MYSQL_TIME) (warning : Z) : MYSQL_TIME * Z :=
  if check_time_range_quick my_time then
    (set_max_hhmmss (mk_time (year my_time) (month my_time) 0 (hour my_time) (minute my_time)
       (second my_time) 0 (neg my_time) (time_type my_time)),
     warning .| MYSQL_TIME_WARN_OUT_OF_RANGE)
  else (my_time, warning).

Definition validate_timestamp_range (t : MYSQL_TIME) : bool :=
  negb ((TIMESTAMP_MAX_YEAR <? year t) || (year t <? TIMESTAMP_MIN_YEAR) ||
        ((year t =? TIMESTAMP_MAX_YEAR) && ((1 <? month t) || (19 <? day t))) ||
        ((year t =? TIMESTAMP_MIN_YEAR) && ((month t <? 12) || (day t <? 31)))).

(** ** Numbers *)

Definition TIME_set_yymmdd (ltime : MYSQL_TIME) (yymmdd : Z) : MYSQL_TIME :=
  mk_time (yymmdd / 10000) (yymmdd / 100 mod 100) (yymmdd mod 100)
    (hour ltime) (minute ltime) (second ltime) (second_part ltime) (neg ltime) (time_type ltime).

Definition TIME_set_hhmmss (ltime : MYSQL_TIME) (hhmmss : Z) : MYSQL_TIME :=
  mk_time (year ltime) (month ltime) (day ltime)
    (hhmmss / 10000) (hhmmss / 100 mod 100) (hhmmss mod 100)
    (second_part ltime) (neg ltime) (time_type ltime).

Definition TIME_to_ulonglong_date (my_time : MYSQL_TIME) : Z :=
  u32 (u32 (year my_time * 10000) + u32 (month my_time * 100) + day my_time).

Definition TIME_to_ulonglong_time (my_time : MYSQL_TIME) : Z :=
  u32 (u32 (hour my_time * 10000) + u32 (minute my_time * 100) + second my_time).

Definition TIME_to_ulonglong_datetime (my_time : MYSQL_TIME) : Z :=
  u64 (u64 (TIME_to_ulonglong_date my_time * 1000000) + TIME_to_ulonglong_time my_time).

Definition TIME_to_ulonglong (my_time : MYSQL_TIME) : Z :=
  match time_type my_time with
  | MYSQL_TIMESTAMP_DATETIME => TIME_to_ulonglong_datetime my_time
  | MYSQL_TIMESTAMP_DATE => TIME_to_ulonglong_date my_time
  | MYSQL_TIMESTAMP_TIME => TIME_to_ulonglong_time my_time
  | MYSQL_TIMESTAMP_NONE | MYSQL_TIMESTAMP_ERROR => 0
  end.

(** The label [ok] of [number_to_datetime]; [err] is the failure at the end. *)
Definition number_to_datetime_ok (nr flags : Z) (type : enum_mysql_timestamp_type)
    : option (Z * MYSQL_TIME * Z) :=
  let part1 := s32 (nr ÷ 1000000) in
  let part2 := s32 (nr - part1 * 1000000) in
  let y := u32 (part1 ÷ 10000) in
  let part1 := Z.rem part1 10000 in
  let h := u32 (part2 ÷ 10000) in
  let part2 := Z.rem part2 10000 in
  let t := mk_time y (u32 (part1 ÷ 100)) (u32 (Z.rem part1 100))
             h (u32 (part2 ÷ 100)) (u32 (Z.rem part2 100)) 0 false type in
  if check_datetime_range t then
    if (nr =? 0) && flag flags TIME_NO_ZERO_DATE then Some (-1, t, 0)
    else Some (-1, t, MYSQL_TIME_WARN_TRUNCATED)
  else
    c ← check_date t (negb (nr =? 0)) flags 0;
    let '(bad, was_cut) := c in
    if negb bad then Some (nr, t, was_cut)
    else if (nr =? 0) && flag flags TIME_NO_ZERO_DATE then Some (-1, t, was_cut)
    else Some (-1, t, MYSQL_TIME_WARN_TRUNCATED).

(** The result, [*time_res] and [*was_cut]. *)
Definition number_to_datetime (nr flags : Z) : option (Z * MYSQL_TIME * Z) :=
  let err type := Some (-1, set_zero_time type, MYSQL_TIME_WARN_TRUNCATED) in
  let DATE := MYSQL_TIMESTAMP_DATE in
  let DATETIME := MYSQL_TIMESTAMP_DATETIME in
  if (nr =? 0) || (10000101000000 <=? nr) then
    if 99999999999999 <? nr then Some (-1, set_zero_time DATETIME, MYSQL_TIME_WARN_OUT_OF_RANGE)
    else number_to_datetime_ok nr flags DATETIME
  else if nr <? 101 then err DATE
  else if nr <=? (YY_PART_YEAR - 1) * 10000 + 1231 then
    number_to_datetime_ok ((nr + 20000000) * 1000000) flags DATE
  else if nr <? YY_PART_YEAR * 10000 + 101 then err DATE
  else if nr <=? 991231 then number_to_datetime_ok ((nr + 19000000) * 1000000) flags DATE
  else if (nr <? 10000101) && negb (flag flags TIME_FUZZY_DATE) then err DATE
  else if nr <=? 99991231 then number_to_datetime_ok (nr * 1000000) flags DATE
  else if nr <? 101000000 then err DATE
  else if nr <=? (YY_PART_YEAR - 1) * 10000000000 + 1231235959 then
    number_to_datetime_ok (nr + 20000000000000) flags DATETIME
  else if nr <? YY_PART_YEAR * 10000000000 + 101000000 then err DATETIME
  else if nr <=? 991231235959 then
    number_to_datetime_ok (nr + 19000000000000) flags DATETIME
  else number_to_datetime_ok nr flags DATETIME.

(** The result (true on failure), [*ltime] and [*warnings]. *)
Definition number_to_time (nr warnings : Z) (ltime : MYSQL_TIME) : option (bool * MYSQL_TIME * Z) :=
  let max n := Some (true, set_max_time n, warnings .| MYSQL_TIME_WARN_OUT_OF_RANGE) in
  if TIME_MAX_VALUE <? nr then
    if 10000000000 <=? nr then
      r ← number_to_datetime nr 0;
      let '(res, t, w) := r in
      if negb (res =? -1) then Some (false, t, w) else max false
    else max false
  else if nr <? - TIME_MAX_VALUE then max true
  else
    let n := nr <? 0 in
    let nr := if n then - nr else nr in
    if (60 <=? Z.rem nr 100) || (60 <=? Z.rem (nr ÷ 100) 100) then
      Some (true, set_zero_time MYSQL_TIMESTAMP_TIME, warnings .| MYSQL_TIME_WARN_OUT_OF_RANGE)
    else
      Some (false, TIME_set_hhmmss (mk_time 0 0 0 (hour ltime) (minute ltime) (second ltime) 0 n
              MYSQL_TIMESTAMP_TIME) (u32 nr), warnings).

(** ** The calendar *)

Definition year_2000_handling (year : Z) : Z :=
  let year := u32 (year + 1900) in
  if year <? 1900 + YY_PART_YEAR then u32 (year + 100) else year.

Definition calc_daynr (year month day : Z) : Z :=
  let y := s32 year in
  if (y =? 0) && (month =? 0) then 0
  else
    let delsum := s32 (365 * y + 31 * (s32 month - 1) + s32 day) in
    let '(y, delsum) :=
      if month <=? 2 then (y - 1, delsum) else (y, delsum - (s32 month * 4 + 23) ÷ 10) in
    let temp := ((y ÷ 100 + 1) * 3) ÷ 4 in
    s32 (delsum + y ÷ 4 - temp).

(** ** Packed values *)

Definition MY_PACKED_TIME_GET_INT_PART (x : Z) : Z := x .>> 24.
Definition MY_PACKED_TIME_GET_FRAC_PART (x : Z) : Z := Z.rem x (1 .<< 24).
Definition MY_PACKED_TIME_MAKE (i f : Z) : Z := s64 (s64 (i .<< 24) + f).
Definition MY_PACKED_TIME_MAKE_INT (i : Z) : Z := s64 (i .<< 24).

Definition TIME_to_longlong_time_packed (ltime : MYSQL_TIME) : Z :=
  let days := if negb (month ltime =? 0) then 0 else u32 (day ltime * 24) in
  let hms := s32 (u32 (u32 (days + hour ltime) .<< 12) .| u32 (minute ltime .<< 6) .| second ltime) in
  let tmp := MY_PACKED_TIME_MAKE hms (second_part ltime) in
  if neg ltime then s64 (- tmp) else tmp.

Definition TIME_from_longlong_time_packed (tmp : Z) : MYSQL_TIME :=
  let n := tmp <? 0 in
  let tmp := if n then s64 (- tmp) else tmp in
  let hms := MY_PACKED_TIME_GET_INT_PART tmp in
  mk_time 0 0 0 (u32 (hms .>> 12) mod (1 .<< 10)) (u32 (hms .>> 6) mod (1 .<< 6))
    (u32 hms mod (1 .<< 6)) (u32 (MY_PACKED_TIME_GET_FRAC_PART tmp)) n MYSQL_TIMESTAMP_TIME.

Definition TIME_to_longlong_datetime_packed (ltime : MYSQL_TIME) : Z :=
  let ymd := u32 (u32 (u32 (year ltime * 13) + month ltime) .<< 5) .| day ltime in
  let hms := u32 (hour ltime .<< 12) .| u32 (minute ltime .<< 6) .| second ltime in
  let tmp := MY_PACKED_TIME_MAKE ((ymd .<< 17) .| hms) (second_part ltime) in
  if neg ltime then s64 (- tmp) else tmp.

Definition TIME_to_longlong_date_packed (ltime : MYSQL_TIME) : Z :=
  let ymd := u32 (u32 (u32 (year ltime * 13) + month ltime) .<< 5) .| day ltime in
  MY_PACKED_TIME_MAKE_INT (ymd .<< 17).

Definition year_to_longlong_datetime_packed (year : Z) : Z :=
  let ymd := s32 (s32 (year * 13) .<< 5) in
  MY_PACKED_TIME_MAKE_INT (s64 (ymd .<< 17)).

Definition TIME_from_longlong_datetime_packed (tmp : Z) : MYSQL_TIME :=
  let n := tmp <? 0 in
  let tmp := if n then s64 (- tmp) else tmp in
  let ymdhms := MY_PACKED_TIME_GET_INT_PART tmp in
  let ymd := ymdhms .>> 17 in
  let ym := ymd .>> 5 in
  let hms := Z.rem ymdhms (1 .<< 17) in
  mk_time (u32 (ym ÷ 13)) (u32 (Z.rem ym 13)) (u32 (Z.rem ymd (1 .<< 5)))
    (u32 (hms .>> 12)) (u32 (Z.rem (hms .>> 6) (1 .<< 6))) (u32 (Z.rem hms (1 .<< 6)))
    (u32 (MY_PACKED_TIME_GET_FRAC_PART tmp)) n MYSQL_TIMESTAMP_DATETIME.

Definition TIME_from_longlong_date_packed (tmp : Z) : MYSQL_TIME :=
  let t := TIME_from_longlong_datetime_packed tmp in
  mk_time (year t) (month t) (day t) (hour t) (minute t) (second t) (second_part t) (neg t)
    MYSQL_TIMESTAMP_DATE.

Definition TIME_to_longlong_packed (ltime : MYSQL_TIME) : Z :=
  match time_type ltime with
  | MYSQL_TIMESTAMP_DATE => TIME_to_longlong_date_packed ltime
  | MYSQL_TIMESTAMP_DATETIME => TIME_to_longlong_datetime_packed ltime
  | MYSQL_TIMESTAMP_TIME => TIME_to_longlong_time_packed ltime
  | MYSQL_TIMESTAMP_NONE | MYSQL_TIMESTAMP_ERROR => 0
  end.

(** ** Binary forms: a writer returns the bytes it stores, in order *)

Definition TIMEF_OFS : Z := 0x800000000000.
Definition TIMEF_INT_OFS : Z := 0x800000.
Definition DATETIMEF_INT_OFS : Z := 0x8000000000.

Definition my_time_packed_to_binary (nr dec : Z) : list Z :=
  let i := mi_int3store (TIMEF_INT_OFS + MY_PACKED_TIME_GET_INT_PART nr) in
  match dec with
  | 1 | 2 => i ++ [u8 (s8 (MY_PACKED_TIME_GET_FRAC_PART nr ÷ 10000))]
  | 3 | 4 => i ++ mi_int2store (MY_PACKED_TIME_GET_FRAC_PART nr ÷ 100)
  | 5 | 6 => mi_int6store (s64 (nr + TIMEF_OFS))
  | _ => i
  end.

Definition my_time_packed_from_binary (ptr : list Z) (dec : Z) : option Z :=
  match dec with
  | 1 | 2 =>
      i ← mi_uint3korr ptr;
      let intpart := s64 (i - TIMEF_INT_OFS) in
      frac ← ptr !! 3%nat;
      let '(intpart, frac) :=
        if (intpart <? 0) && negb (frac =? 0) then (intpart + 1, frac - 0x100)
        else (intpart, frac) in
      Some (MY_PACKED_TIME_MAKE intpart (frac * 10000))
  | 3 | 4 =>
      i ← mi_uint3korr ptr;
      let intpart := s64 (i - TIMEF_INT_OFS) in
      frac ← mi_uint2korr (drop 3 ptr);
      let '(intpart, frac) :=
        if (intpart <? 0) && negb (frac =? 0) then (intpart + 1, frac - 0x10000)
        else (intpart, frac) in
      Some (MY_PACKED_TIME_MAKE intpart (frac * 100))
  | 5 | 6 => i ← mi_uint6korr ptr; Some (s64 (s64 i - TIMEF_OFS))
  | _ => i ← mi_uint3korr ptr; Some (MY_PACKED_TIME_MAKE_INT (s64 (i - TIMEF_INT_OFS)))
  end.

Definition my_datetime_packed_to_binary (nr dec : Z) : list Z :=
  let i := mi_int5store (s64 (MY_PACKED_TIME_GET_INT_PART nr + DATETIMEF_INT_OFS)) in
  match dec with
  | 1 | 2 => i ++ [u8 (s8 (MY_PACKED_TIME_GET_FRAC_PART nr ÷ 10000))]
  | 3 | 4 => i ++ mi_int2store (MY_PACKED_TIME_GET_FRAC_PART nr ÷ 100)
  | 5 | 6 => i ++ mi_int3store (MY_PACKED_TIME_GET_FRAC_PART nr)
  | _ => i
  end.

Definition my_datetime_packed_from_binary (ptr : list Z) (dec : Z) : option Z :=
  i ← mi_uint5korr ptr;
  let intpart := s64 (i - DATETIMEF_INT_OFS) in
  match dec with
  | 1 | 2 => b ← ptr !! 5%nat; Some (MY_PACKED_TIME_MAKE intpart (s8 b * 10000))
  | 3 | 4 => f ← mi_sint2korr (drop 5 ptr); Some (MY_PACKED_TIME_MAKE intpart (f * 100))
  | 5 | 6 => f ← mi_sint3korr (drop 5 ptr); Some (MY_PACKED_TIME_MAKE intpart f)
  | _ => Some (MY_PACKED_TIME_MAKE_INT intpart)
  end.

Definition my_timestamp_from_binary (ptr : list Z) (dec : Z) : option timeval :=
  s ← mi_uint4korr ptr;
  let sec := s32 s in
  match dec with
  | 1 | 2 => b ← ptr !! 4%nat; Some (mk_timeval sec (b * 10000))
  | 3 | 4 => f ← mi_sint2korr (drop 4 ptr); Some (mk_timeval sec (f * 100))
  | 5 | 6 => f ← mi_sint3korr (drop 4 ptr); Some (mk_timeval sec f)
  | _ => Some (mk_timeval sec 0)
  end.

Definition my_timestamp_to_binary (tm : timeval) (dec : Z) : list Z :=
  let s := mi_int4store (tv_sec tm) in
  match dec with
  | 1 | 2 => s ++ [u8 (s8 (tv_usec tm ÷ 10000))]
  | 3 | 4 => s ++ mi_int2store (tv_usec tm ÷ 100)
  | 5 | 6 => s ++ mi_int3store (tv_usec tm)
  | _ => s
  end.

(** ** Text *)

(** The decimal digits of a number, without leading zeros: [%u] of the C
    library; 20 digits are enough for 64 bits. *)
Fixpoint show_uint_fuel (fuel : nat) (v : Z) : list Z :=
  match fuel with
  | O => []
  | S fuel => (if v <? 10 then [] else show_uint_fuel fuel (v / 10)) ++ [48 + v mod 10]
  end.
Definition show_uint (v : Z) : list Z := show_uint_fuel 20 v.

(** [%0wu]. *)
Definition show_padded (w : nat) (v : Z) : list Z :=
  let s := show_uint v in replicate (w - length s) 48 ++ s.

(** [%d]. *)
Definition show_int (v : Z) : list Z := if v <? 0 then 45 :: show_uint (- v) else show_uint v.

(** The text written; the returned length is its length. *)
Definition my_useconds_to_str (useconds dec : Z) : option (list Z) :=
  d ← table_at log_10_int (s32 (DATETIME_MAX_DECIMALS - dec));
  Some (46 :: show_padded (Z.to_nat dec) (useconds / u32 d)).

Definition with_useconds (s : list Z) (useconds dec : Z) : option (list Z) :=
  if dec =? 0 then Some s else f ← my_useconds_to_str useconds dec; Some (s ++ f).

Definition my_time_to_str (l_time : MYSQL_TIME) (dec : Z) : option (list Z) :=
  let extra_hours := 0 in
  with_useconds ((if neg l_time then [45] else []) ++
    show_padded 2 (u32 (extra_hours + hour l_time)) ++ [58] ++
    show_padded 2 (minute l_time) ++ [58] ++ show_padded 2 (second l_time))
    (second_part l_time) dec.

Definition my_date_to_str (l_time : MYSQL_TIME) : list Z :=
  show_padded 4 (year l_time) ++ [45] ++ show_padded 2 (month l_time) ++ [45] ++
  show_padded 2 (day l_time).

(** One two-digit group of [TIME_to_datetime_str]. *)
Definition two_digits (temp : Z) : list Z :=
  let temp2 := temp / 10 in
  let temp := temp - temp2 * 10 in
  [u8 (48 + s8 temp2); u8 (48 + s8 temp)].

Definition TIME_to_datetime_str (ltime : MYSQL_TIME) : list Z :=
  let temp := year ltime / 100 in
  let temp' := year ltime mod 100 in
  [u8 (48 + temp / 10); u8 (48 + temp mod 10); u8 (48 + temp' / 10); u8 (48 + temp' mod 10); 45] ++
  two_digits (month ltime) ++ [45] ++ two_digits (day ltime) ++ [32] ++
  two_digits (hour ltime) ++ [58] ++ two_digits (minute ltime) ++ [58] ++ two_digits (second ltime).

Definition my_datetime_to_str (l_time : MYSQL_TIME) (dec : Z) : option (list Z) :=
  with_useconds (TIME_to_datetime_str l_time) (second_part l_time) dec.

Definition my_TIME_to_str (l_time : MYSQL_TIME) (dec : Z) : option (list Z) :=
  match time_type l_time with
  | MYSQL_TIMESTAMP_DATETIME => my_datetime_to_str l_time dec
  | MYSQL_TIMESTAMP_DATE => Some (my_date_to_str l_time)
  | MYSQL_TIMESTAMP_TIME => my_time_to_str l_time dec
  | MYSQL_TIMESTAMP_NONE | MYSQL_TIMESTAMP_ERROR => Some []
  end.

Definition my_timeval_to_str (tm : timeval) (dec : Z) : option (list Z) :=
  with_useconds (show_int (tv_sec tm)) (u32 (tv_usec tm)) dec.

(** ** Local time to seconds *)

(** The fields of the C library's [struct tm] the code reads. *)
Record tm_fields := mk_tm { tm_mday : Z; tm_hour : Z; tm_min : Z; tm_sec : Z }.

(** [localtime_r] of this file has an empty body and returns the [struct tm] it
    was given, whatever that contains. *)
Definition localtime_r (timep : Z) (tmp : tm_fields) : tm_fields := tmp.

Definition day_difference (t_day mday : Z) : Z :=
  let days := s32 (t_day - mday) in
  if days <? -1 then 1 else if 1 <? days then -1 else days.

Definition tm_diff (t : MYSQL_TIME) (l_time : tm_fields) : Z :=
  let days := day_difference (day t) (tm_mday l_time) in
  s32 (3600 * (days * 24 + (s32 (hour t) - tm_hour l_time)) +
       60 * (s32 (minute t) - tm_min l_time) + (s32 (second t) - tm_sec l_time)).

(** [for (loop=0; loop < 2 && ...; loop++)], from [loop] on. *)
Fixpoint gmt_loop (fuel : nat) (loop : Z) (t : MYSQL_TIME) (l_time : tm_fields)
    (tmp current_timezone : Z) : option (Z * Z * Z * tm_fields) :=
  match fuel with
  | O => None
  | S fuel =>
      if (loop <? 2) && (negb (hour t =? u32 (tm_hour l_time)) ||
           negb (minute t =? u32 (tm_min l_time)) || negb (second t =? u32 (tm_sec l_time)))
      then
        let diff := tm_diff t l_time in
        let tmp := tmp + diff in
        gmt_loop fuel (loop + 1) t (localtime_r tmp l_time) tmp
          (s32 (current_timezone + diff + 3600))
      else Some (loop, tmp, current_timezone, l_time)
  end.

(** [SIZEOF_TIME_T] is not defined by the tree: undefined macros are 0. *)
Definition IS_TIME_T_VALID_FOR_TIMESTAMP (SIZEOF_TIME_T x : Z) : bool :=
  if 4 <? SIZEOF_TIME_T then (x <=? TIMESTAMP_MAX_VALUE) && (TIMESTAMP_MIN_VALUE <=? x)
  else TIMESTAMP_MIN_VALUE <=? x.

(** The result, [*my_timezone] and [*in_dst_time_gap] where they are assigned.
    [tm_tmp] is the contents of the uninitialised local variable. *)
Definition my_system_gmt_sec (SIZEOF_TIME_T my_time_zone : Z) (tm_tmp : tm_fields)
    (t : MYSQL_TIME) : option (Z * option Z * option bool) :=
  if negb (validate_timestamp_range t) then Some (0, None, None)
  else
    let '(t, shift) :=
      if (year t =? TIMESTAMP_MAX_YEAR) && (month t =? 1) && (4 <? day t)
      then (mk_time (year t) (month t) (day t - 2) (hour t) (minute t) (second t)
              (second_part t) (neg t) (time_type t), 2)
      else (t, 0) in
    let tmp :=
      s32 (s32 ((calc_daynr (year t) (month t) (day t) - days_at_timestart) * SECONDS_IN_24H +
                hour t * 3600 + s32 (minute t * 60 + second t))) + my_time_zone - 3600 in
    r ← gmt_loop 3 0 t (localtime_r tmp tm_tmp) tmp my_time_zone;
    let '(loop, tmp, current_timezone, l_time) := r in
    let '(tmp, gap) :=
      if (loop =? 2) && negb (hour t =? u32 (tm_hour l_time)) then
        let diff := tm_diff t l_time in
        (if diff =? 3600 then tmp + (3600 - minute t * 60 - second t)
         else if diff =? -3600 then tmp - (minute t * 60 + second t)
         else tmp, Some true)
      else (tmp, None) in
    let tmp := tmp + shift * SECONDS_IN_24H in
    Some (if IS_TIME_T_VALID_FOR_TIMESTAMP SIZEOF_TIME_T tmp then s32 tmp else 0,
          Some current_timezone, gap).

(** ** Packing and unpacking *)

Lemma div_add_small a b k : 0 <= b < k → (a * k + b) / k = a.
Proof. intros. rewrite Z.div_add_l, Z.div_small by lia. lia. Qed.

Lemma mod_add_small a b k : 0 <= b < k → (a * k + b) mod k = b.
Proof. intros. rewrite Z.add_comm, Z.mod_add, Z.mod_small by lia. done. Qed.

(** A value whose fields fit in the bits the packed format gives them. *)
Record time_fields_ok (t : MYSQL_TIME) : Prop := {
  tf_year : 0 <= year t <= 9999;
  tf_month : 0 <= month t <= 12;
  tf_day : 0 <= day t <= 31;
  tf_hour : 0 <= hour t < 32;
  tf_minute : 0 <= minute t < 64;
  tf_second : 0 <= second t < 64;
  tf_part : 0 <= second_part t < 2 ^ 24;
}.

(** The number a date and time pack to, before the sign. *)
Definition datetime_number (t : MYSQL_TIME) : Z :=
  ((((year t * 13 + month t) * 32 + day t) * 32 + hour t) * 64 + minute t) * 64 + second t.

Lemma or_shift a n b : 0 <= n → 0 <= b < 2 ^ n → (a .<< n) .| b = a * 2 ^ n + b.
Proof.
  intros Hn Hb. rewrite <- (Z.shiftl_mul_pow2 a n) by done. apply (lor_add n); [done| |done].
  rewrite Z.shiftl_mul_pow2 by done. apply Z.mod_mul. apply Z.pow_nonzero; lia.
Qed.

Lemma u32_shift a n : 0 <= n → 0 <= a * 2 ^ n < 2 ^ 32 → u32 (a .<< n) = a .<< n.
Proof. intros. apply wrap_small. by rewrite Z.shiftl_mul_pow2. Qed.

Lemma hms_number h m s :
  0 <= h < 2 ^ 19 → 0 <= m < 64 → 0 <= s < 64 →
  u32 (h .<< 12) .| u32 (m .<< 6) .| s = (h * 64 + m) * 64 + s.
Proof.
  intros Hh Hm Hs. rewrite !u32_shift by lia. rewrite <- Z.lor_assoc.
  rewrite (or_shift m) by lia. rewrite or_shift by lia. lia.
Qed.

Lemma datetime_packed_number t :
  time_fields_ok t →
  TIME_to_longlong_datetime_packed t =
    (if neg t then -1 else 1) * (datetime_number t * 2 ^ 24 + second_part t) ∧
  0 <= datetime_number t < 2 ^ 39.
Proof.
  intros [? ? ? ? ? ? ?]. unfold TIME_to_longlong_datetime_packed, datetime_number.
  rewrite (wrap_small 32 (year t * 13)), (wrap_small 32 (_ + month t)) by lia.
  rewrite u32_shift, hms_number, or_shift, or_shift by lia.
  replace (((year t * 13 + month t) * 2 ^ 5 + day t) * 2 ^ 17 +
           ((hour t * 64 + minute t) * 64 + second t))
    with (((((year t * 13 + month t) * 32 + day t) * 32 + hour t) * 64 + minute t) * 64 + second t) by lia.
  set (N := _ * 64 + second t). assert (0 <= N < 2 ^ 39) by (unfold N; lia).
  split; [|done]. unfold MY_PACKED_TIME_MAKE. rewrite Z.shiftl_mul_pow2 by lia.
  rewrite (swrap_small 64 (_ * _)), (swrap_small 64 (_ + _)) by lia.
  destruct (neg t); rewrite ?swrap_small by lia; lia.
Qed.

Lemma time_packed_number t :
  month t = 0 → day t = 0 → 0 <= hour t < 1024 → 0 <= minute t < 64 → 0 <= second t < 64 →
  0 <= second_part t < 2 ^ 24 →
  TIME_to_longlong_time_packed t =
    (if neg t then -1 else 1) *
    (((hour t * 64 + minute t) * 64 + second t) * 2 ^ 24 + second_part t).
Proof.
  intros M D ? ? ? ?. unfold TIME_to_longlong_time_packed. rewrite M, D. cbn [Z.eqb negb].
  change (u32 (0 * 24)) with 0. rewrite Z.add_0_l, (wrap_small 32 (hour t)), hms_number by lia.
  rewrite (swrap_small 32) by lia.
  unfold MY_PACKED_TIME_MAKE. rewrite Z.shiftl_mul_pow2 by lia.
  rewrite (swrap_small 64 (_ * _)), (swrap_small 64 (_ + _)) by lia.
  destruct (neg t); rewrite ?swrap_small by lia; lia.
Qed.

(** The sign and the magnitude of a packed value. *)
Lemma packed_sign (n : bool) v :
  0 <= v < 2 ^ 63 → (n = true → v ≠ 0) →
  ((if n then -1 else 1) * v <? 0) = n ∧
  (if n then s64 (- ((if n then -1 else 1) * v)) else (if n then -1 else 1) * v) = v.
Proof.
  intros Hv Hn. destruct n.
  - specialize (Hn eq_refl). split; [apply Z.ltb_lt; lia|]. rewrite swrap_small by lia. lia.
  - split; [apply Z.ltb_ge; lia|lia].
Qed.

Lemma datetime_pack_unpack t :
  time_fields_ok t → time_type t = MYSQL_TIMESTAMP_DATETIME →
  (neg t = true → datetime_number t ≠ 0 ∨ second_part t ≠ 0) →
  TIME_from_longlong_datetime_packed (TIME_to_longlong_datetime_packed t) = t.
Proof.
  intros H T Hn. destruct (datetime_packed_number t H) as [-> B].
  unfold TIME_from_longlong_datetime_packed.
  destruct (packed_sign (neg t) (datetime_number t * 2 ^ 24 + second_part t)) as [E1 E2].
  { destruct H. lia. } { destruct H. intros E. specialize (Hn E). lia. }
  rewrite E1, E2. unfold MY_PACKED_TIME_GET_INT_PART, MY_PACKED_TIME_GET_FRAC_PART.
  destruct H as [? ? ? ? ? ? Hp]. rewrite !Z.shiftl_mul_pow2, !Z.mul_1_l by lia.
  rewrite !Z.shiftr_div_pow2 by lia.
  rewrite (Z.rem_mod_nonneg (_ + _)), mod_add_small, (div_add_small _ _ (2 ^ 24)) by lia.
  unfold datetime_number in *.
  rewrite !Z.rem_mod_nonneg, !Z.quot_div_nonneg by zdm. zpow.
  destruct t as [y mo d h mi s sp n ty]. cbn in *. subst ty.
  f_equal; rewrite wrap_small; zdm.
Qed.

Lemma time_pack_unpack t :
  year t = 0 → month t = 0 → day t = 0 → 0 <= hour t < 1024 → 0 <= minute t < 64 →
  0 <= second t < 64 → 0 <= second_part t < 2 ^ 24 → time_type t = MYSQL_TIMESTAMP_TIME →
  (neg t = true → hour t ≠ 0 ∨ minute t ≠ 0 ∨ second t ≠ 0 ∨ second_part t ≠ 0) →
  TIME_from_longlong_time_packed (TIME_to_longlong_time_packed t) = t.
Proof.
  intros Hy M D ? ? ? ? T Hn. rewrite time_packed_number by done.
  unfold TIME_from_longlong_time_packed.
  destruct (packed_sign (neg t)
    (((hour t * 64 + minute t) * 64 + second t) * 2 ^ 24 + second_part t)) as [E1 E2].
  { lia. } { intros E. specialize (Hn E). lia. }
  rewrite E1, E2. unfold MY_PACKED_TIME_GET_INT_PART, MY_PACKED_TIME_GET_FRAC_PART.
  rewrite !Z.shiftl_mul_pow2, !Z.mul_1_l by lia.
  rewrite !Z.shiftr_div_pow2 by lia.
  rewrite (Z.rem_mod_nonneg (_ + _)), mod_add_small, (div_add_small _ _ (2 ^ 24)) by lia.
  zpow. destruct t as [y mo d h mi s sp n ty]. cbn in *. subst.
  f_equal; rewrite wrap_small; zdm.
Qed.

(** Packing a date and time, or a time, into a 64-bit integer and unpacking
    it gives it back, for every value whose fields fit in their bits and which
    is not a negative zero, whose sign the format cannot express. *)
Theorem packed_time_roundtrip t :
  (time_fields_ok t → time_type t = MYSQL_TIMESTAMP_DATETIME →
   (neg t = true → datetime_number t ≠ 0 ∨ second_part t ≠ 0) →
   TIME_from_longlong_datetime_packed (TIME_to_longlong_datetime_packed t) = t) ∧
  (year t = 0 → month t = 0 → day t = 0 → 0 <= hour t < 1024 → 0 <= minute t < 64 →
   0 <= second t < 64 → 0 <= second_part t < 2 ^ 24 → time_type t = MYSQL_TIMESTAMP_TIME →
   (neg t = true → hour t ≠ 0 ∨ minute t ≠ 0 ∨ second t ≠ 0 ∨ second_part t ≠ 0) →
   TIME_from_longlong_time_packed (TIME_to_longlong_time_packed t) = t).
Proof. split; [apply datetime_pack_unpack|apply time_pack_unpack]. Qed.

Lemma packed_time_roundtrip_witness :
  TIME_from_longlong_datetime_packed
    (TIME_to_longlong_datetime_packed (mk_time 2024 2 29 23 59 58 999999 false MYSQL_TIMESTAMP_DATETIME)) =
  mk_time 2024 2 29 23 59 58 999999 false MYSQL_TIMESTAMP_DATETIME.
Proof.
  apply packed_time_roundtrip; [constructor; cbn; lia|reflexivity|discriminate].
Defined.

(** ** Binary forms *)

(** A packed value as the C division and remainder see it. *)
Lemma packed_parts nr :
  nr = (nr ÷ 2 ^ 24) * 2 ^ 24 + Z.rem nr (2 ^ 24) ∧
  - 2 ^ 24 < Z.rem nr (2 ^ 24) < 2 ^ 24 ∧
  (Z.rem nr (2 ^ 24) < 0 → nr ÷ 2 ^ 24 <= 0) ∧ (0 < Z.rem nr (2 ^ 24) → 0 <= nr ÷ 2 ^ 24).
Proof. zpow. Z.quot_rem_to_equations. lia. Qed.

(** A value the binary form of [dec] decimals can hold: its integer part fits
    in [bits] bits and its fraction was rounded to [dec] decimals. *)
Record packed_ok (bits dec nr : Z) : Prop := {
  pk_dec : 0 <= dec <= 6;
  pk_int : - 2 ^ (bits - 1) <= nr / 2 ^ 24 < 2 ^ (bits - 1);
  pk_frac : - 1000000 < Z.rem nr (2 ^ 24) < 1000000;
  pk_rounded : Z.rem (Z.rem nr (2 ^ 24)) (10 ^ (6 - dec)) = 0;
}.

(** The fraction a binary form of [dec] decimals stores, in its own unit. *)
Lemma packed_unit bits dec nr unit :
  packed_ok bits dec nr → 0 < unit → (unit | 10 ^ (6 - dec)) →
  Z.rem nr (2 ^ 24) = unit * (Z.rem nr (2 ^ 24) ÷ unit).
Proof.
  intros P Hu Hd. pose proof (pk_rounded _ _ _ P) as R. destruct P as [Hdec _ _ _].
  apply Z.rem_divide in R; [|apply Z.pow_nonzero; lia].
  destruct (Z.divide_trans _ _ _ Hd R) as [m ->]. rewrite Z.quot_mul by lia. lia.
Qed.

(** Undoing the reversed order of the fraction of a negative time. *)
Lemma reversed_fraction nr W unit k :
  0 < unit → W * unit <= 2 ^ 24 → - W / 2 < k < W / 2 → 0 < W → W mod 2 = 0 →
  Z.rem nr (2 ^ 24) = unit * k →
  (if (nr / 2 ^ 24 <? 0) && negb (k mod W =? 0) then (nr / 2 ^ 24 + 1, k mod W - W)
   else (nr / 2 ^ 24, k mod W)) = (nr ÷ 2 ^ 24, k).
Proof.
  intros Hu HW Hk W0 W2 E. destruct (packed_parts nr) as (P & B & N1 & N2). rewrite E in *.
  set (q := nr ÷ 2 ^ 24) in *.
  assert (D : nr / 2 ^ 24 = if k <? 0 then q - 1 else q).
  { symmetry. destruct (Z.ltb_spec k 0).
    - apply (Z.div_unique _ _ _ (2 ^ 24 + unit * k)); [left|]; nia.
    - apply (Z.div_unique _ _ _ (unit * k)); [left|]; nia. }
  rewrite D. destruct (Z.ltb_spec k 0) as [Hk0|Hk0].
  - assert (q <= 0) by nia. rewrite <- (Z.mod_unique k W (-1) (k + W)) by (left || idtac; zdm).
    destruct (Z.ltb_spec (q - 1) 0), (Z.eqb_spec (k + W) 0); cbn [andb negb]; try zdm. f_equal; lia.
  - rewrite Z.mod_small by zdm. destruct (Z.eqb_spec k 0) as [->|].
    { by rewrite andb_false_r. }
    assert (0 <= q) by nia. destruct (Z.ltb_spec q 0); [lia|]. done.
Qed.

Lemma u8_s8 k : u8 (s8 k) = u8 k.
Proof. unfold swrap, wrap. rewrite Zminus_mod_idemp_l. f_equal. lia. Qed.

Lemma app_byte_ok v r : bytes_ok r → bytes_ok (u8 v :: r).
Proof. intros. constructor; auto with cint. Qed.

Lemma nth_byte_after n v b r : (be_split n v ++ b :: r) !! n = Some b.
Proof. rewrite lookup_app_r; rewrite length_be_split; [|lia]. by rewrite Nat.sub_diag. Qed.

Lemma drop_after n v r : drop n (be_split n v ++ r) = r.
Proof. apply drop_app_length'. by rewrite length_be_split. Qed.

Lemma make_parts nr : - 2 ^ 63 <= nr < 2 ^ 63 →
  MY_PACKED_TIME_MAKE (nr ÷ 2 ^ 24) (Z.rem nr (2 ^ 24)) = nr.
Proof.
  intros H. destruct (packed_parts nr) as (P & B & N1 & N2). unfold MY_PACKED_TIME_MAKE.
  rewrite Z.shiftl_mul_pow2 by lia. rewrite (swrap_small 64 (_ * _)) by lia. rewrite <- P.
  by rewrite swrap_small by lia.
Qed.

Lemma packed_int_range bits dec nr : packed_ok bits dec nr → bits <= 40 → 1 <= bits →
  - 2 ^ 63 <= nr < 2 ^ 63.
Proof.
  intros [_ Hi _ _] Hb Hb1. assert (2 ^ (bits - 1) <= 2 ^ 39) by (apply Z.pow_le_mono_r; lia).
  assert (- 2 ^ 39 <= nr / 2 ^ 24 < 2 ^ 39) by lia. zdm.
Qed.

(** Cases on the number of decimals. *)
Ltac dec_cases dec Hd :=
  let C := fresh in
  assert (C : dec = 0 ∨ dec = 1 ∨ dec = 2 ∨ dec = 3 ∨ dec = 4 ∨ dec = 5 ∨ dec = 6) by lia;
  destruct C as [->|[->|[->|[->|[->|[->| ->]]]]]].

Lemma rounded_unit bits dec nr :
  packed_ok bits dec nr →
  (dec = 0 → Z.rem nr (2 ^ 24) = 0) ∧
  (dec <= 2 → Z.rem nr (2 ^ 24) = 10000 * (Z.rem nr (2 ^ 24) ÷ 10000)) ∧
  (dec <= 4 → Z.rem nr (2 ^ 24) = 100 * (Z.rem nr (2 ^ 24) ÷ 100)).
Proof.
  intros P. pose proof (pk_dec _ _ _ P) as Hd.
  assert (D : ∀ k, 0 <= k <= 6 - dec → (10 ^ k | 10 ^ (6 - dec))).
  { intros k Hk. exists (10 ^ (6 - dec - k)). rewrite <- Z.pow_add_r by lia. f_equal. lia. }
  split_and!; intros H.
  - pose proof (packed_unit _ _ _ (10 ^ 6) P ltac:(lia) (D 6 ltac:(lia))) as U.
    pose proof (pk_frac _ _ _ P). change (10 ^ 6) with 1000000 in U. lia.
  - exact (packed_unit _ _ _ (10 ^ 4) P ltac:(lia) (D 4 ltac:(lia))).
  - exact (packed_unit _ _ _ (10 ^ 2) P ltac:(lia) (D 2 ltac:(lia))).
Qed.

(** Reading back the integer part and a fraction of the unit [unit] stored
    modulo [W]. *)
Lemma reversed_done nr W unit :
  0 < unit → W * unit <= 2 ^ 24 → 1000000 <= unit * (W / 2) → 0 < W → W mod 2 = 0 →
  - 1000000 < Z.rem nr (2 ^ 24) < 1000000 → - 2 ^ 63 <= nr < 2 ^ 63 →
  let k := Z.rem nr (2 ^ 24) ÷ unit in
  Z.rem nr (2 ^ 24) = unit * k →
  (let '(i, f) := if (nr / 2 ^ 24 <? 0) && negb (k mod W =? 0) then (nr / 2 ^ 24 + 1, k mod W - W)
                  else (nr / 2 ^ 24, k mod W) in
   Some (MY_PACKED_TIME_MAKE i (f * unit))) = Some nr.
Proof.
  intros Hu HW Hh W0 W2 Hf Hn k E.
  assert (Hk : - W / 2 < k < W / 2).
  { rewrite E in Hf. assert (unit * - (W / 2) < unit * k < unit * (W / 2)) as [K1 K2] by lia.
    apply Z.mul_lt_mono_pos_l in K1, K2; zdm. }
  rewrite (reversed_fraction nr W unit k) by done. f_equal.
  rewrite (Z.mul_comm k), <- E. by apply make_parts.
Qed.

(** Values rounded to [dec] decimals pack to what the binary forms hold. *)
Lemma datetime_packed_ok t dec :
  time_fields_ok t → neg t = false → 0 <= dec <= 6 → second_part t < 1000000 →
  second_part t mod 10 ^ (6 - dec) = 0 →
  packed_ok 40 dec (TIME_to_longlong_datetime_packed t) ∧ 0 <= TIME_to_longlong_datetime_packed t.
Proof.
  intros H Hn Hd Hp Hm. pose proof H as [? ? ? ? ? ? ?].
  destruct (datetime_packed_number t H) as [-> B]. rewrite Hn, Z.mul_1_l.
  assert (0 <= datetime_number t < 2 ^ 39).
  { unfold datetime_number in *. lia. }
  split; [|lia].
  assert (R : Z.rem (datetime_number t * 2 ^ 24 + second_part t) (2 ^ 24) = second_part t)
    by (rewrite Z.rem_mod_nonneg, mod_add_small by lia; done).
  split; [done| |rewrite R; lia|].
  - rewrite div_add_small by lia. lia.
  - rewrite R, Z.rem_mod_nonneg; [done|lia|]. apply Z.pow_pos_nonneg; lia.
Qed.

Lemma time_packed_ok t dec :
  month t = 0 → day t = 0 → 0 <= hour t <= 838 → 0 <= minute t < 60 →
  0 <= second t < 60 → 0 <= dec <= 6 → 0 <= second_part t < 1000000 →
  second_part t mod 10 ^ (6 - dec) = 0 →
  packed_ok 24 dec (TIME_to_longlong_time_packed t).
Proof.
  intros M D ? ? ? Hd Hp Hm. rewrite time_packed_number by (done || lia).
  set (x := (hour t * 64 + minute t) * 64 + second t). assert (0 <= x < 2 ^ 23 - 1) by (unfold x; lia).
  assert (R : Z.rem (x * 2 ^ 24 + second_part t) (2 ^ 24) = second_part t)
    by (rewrite Z.rem_mod_nonneg, mod_add_small by lia; done).
  assert (P10 : 0 < 10 ^ (6 - dec)) by (apply Z.pow_pos_nonneg; lia).
  destruct (neg t).
  - replace (-1 * (x * 2 ^ 24 + second_part t)) with (- (x * 2 ^ 24 + second_part t)) by lia.
    assert (R' : Z.rem (- (x * 2 ^ 24 + second_part t)) (2 ^ 24) = - second_part t) by (rewrite Z.rem_opp_l, R by lia; done).
    split; [done|zdm|rewrite R'; lia|].
    rewrite R', Z.rem_opp_l, Z.rem_mod_nonneg, Hm by lia. done.
  - rewrite Z.mul_1_l. split; [done| |rewrite R; lia|].
    + rewrite div_add_small by lia. lia.
    + rewrite R, Z.rem_mod_nonneg; [done|lia|lia].
Qed.

Section Binary.
Context (nr dec : Z) (r : list Z) (Hr : bytes_ok r).

Lemma time_binary_roundtrip :
  packed_ok 24 dec nr →
  my_time_packed_from_binary (my_time_packed_to_binary nr dec ++ r) dec = Some nr.
Proof using Hr.
  intros P. pose proof (pk_dec _ _ _ P) as Hd. pose proof (pk_int _ _ _ P) as Hi.
  pose proof (pk_frac _ _ _ P) as Hf. pose proof (packed_int_range _ _ _ P ltac:(lia) ltac:(lia)) as Hn.
  destruct (rounded_unit _ _ _ P) as (U0 & U2 & U4). pose proof (packed_parts nr) as (PP & _).
  assert (S : s64 (TIMEF_INT_OFS + nr / 2 ^ 24 - TIMEF_INT_OFS) = nr / 2 ^ 24)
    by (rewrite swrap_small; unfold TIMEF_INT_OFS; lia).
  unfold my_time_packed_from_binary, my_time_packed_to_binary, MY_PACKED_TIME_GET_INT_PART,
    MY_PACKED_TIME_GET_FRAC_PART. rewrite Z.shiftr_div_pow2, Z.shiftl_1_l by lia.
  assert (I2 : ∀ l, bytes_ok l → mi_uint3korr (mi_int3store (TIMEF_INT_OFS + nr / 2 ^ 24) ++ l) =
    Some (TIMEF_INT_OFS + nr / 2 ^ 24)).
  { intros. rewrite mi_uint3korr_store by done. f_equal. apply Z.mod_small.
    unfold TIMEF_INT_OFS. lia. }
  dec_cases dec Hd; rewrite <- ?app_assoc; cbn [app].
  - rewrite I2 by done. cbn [mbind option_bind]. rewrite S. rewrite U0 in PP by done.
    unfold MY_PACKED_TIME_MAKE_INT. rewrite Z.shiftl_mul_pow2, swrap_small by zdm. f_equal. zdm.
  - rewrite I2 by (apply app_byte_ok; done). cbn [mbind option_bind]. rewrite S, mi_int3store_be.
    rewrite nth_byte_after. cbn [mbind option_bind]. rewrite u8_s8.
    apply (reversed_done nr 256 10000); try done; try lia; apply U2; lia.
  - rewrite I2 by (apply app_byte_ok; done). cbn [mbind option_bind]. rewrite S, mi_int3store_be.
    rewrite nth_byte_after. cbn [mbind option_bind]. rewrite u8_s8.
    apply (reversed_done nr 256 10000); try done; try lia; apply U2; lia.
  - rewrite I2 by (rewrite mi_int2store_be; auto with cint). cbn [mbind option_bind].
    rewrite S, mi_int3store_be, drop_after, mi_uint2korr_store by done. cbn [mbind option_bind].
    apply (reversed_done nr (2 ^ 16) 100); try done; try lia; apply U4; lia.
  - rewrite I2 by (rewrite mi_int2store_be; auto with cint). cbn [mbind option_bind].
    rewrite S, mi_int3store_be, drop_after, mi_uint2korr_store by done. cbn [mbind option_bind].
    apply (reversed_done nr (2 ^ 16) 100); try done; try lia; apply U4; lia.
  - rewrite mi_uint6korr_store by done. cbn [mbind option_bind]. f_equal.
    assert (- 2 ^ 47 <= nr < 2 ^ 47) by zdm. unfold TIMEF_OFS.
    rewrite (swrap_small 64 (nr + _)), Z.mod_small by lia.
    rewrite (swrap_small 64 (nr + _)), swrap_small by lia. lia.
  - rewrite mi_uint6korr_store by done. cbn [mbind option_bind]. f_equal.
    assert (- 2 ^ 47 <= nr < 2 ^ 47) by zdm. unfold TIMEF_OFS.
    rewrite (swrap_small 64 (nr + _)), Z.mod_small by lia.
    rewrite (swrap_small 64 (nr + _)), swrap_small by lia. lia.
Qed.

(** A date and time is never negative in the format: its fraction is not
    reversed. *)
Lemma datetime_binary_roundtrip :
  packed_ok 40 dec nr → 0 <= nr →
  my_datetime_packed_from_binary (my_datetime_packed_to_binary nr dec ++ r) dec = Some nr.
Proof using Hr.
  intros P H0. pose proof (pk_dec _ _ _ P) as Hd. pose proof (pk_int _ _ _ P) as Hi.
  pose proof (pk_frac _ _ _ P) as Hf. pose proof (packed_int_range _ _ _ P ltac:(lia) ltac:(lia)) as Hn.
  destruct (rounded_unit _ _ _ P) as (U0 & U2 & U4). pose proof (packed_parts nr) as (PP & _).
  pose proof (make_parts nr Hn) as MP.
  assert (Q : nr / 2 ^ 24 = nr ÷ 2 ^ 24) by (symmetry; apply Z.quot_div_nonneg; lia).
  assert (F0 : 0 <= Z.rem nr (2 ^ 24)) by (apply Z.rem_nonneg; lia).
  unfold my_datetime_packed_from_binary, my_datetime_packed_to_binary, MY_PACKED_TIME_GET_INT_PART,
    MY_PACKED_TIME_GET_FRAC_PART. rewrite Z.shiftr_div_pow2, Z.shiftl_1_l, Q in * by lia.
  set (q := nr ÷ 2 ^ 24) in *. set (f := Z.rem nr (2 ^ 24)) in *.
  assert (S : s64 (s64 (q + DATETIMEF_INT_OFS) mod 2 ^ 40 - DATETIMEF_INT_OFS) = q).
  { unfold DATETIMEF_INT_OFS. rewrite (swrap_small 64 (q + _)), Z.mod_small, swrap_small by lia. lia. }
  dec_cases dec Hd; rewrite <- ?app_assoc; cbn [app]; rewrite mi_uint5korr_store by
      (rewrite ?mi_int2store_be, ?mi_int3store_be; auto using app_byte_ok with cint);
    cbn [mbind option_bind]; rewrite S.
  - unfold MY_PACKED_TIME_MAKE_INT. rewrite Z.shiftl_mul_pow2, swrap_small by lia. f_equal.
    specialize (U0 eq_refl). lia.
  - rewrite mi_int5store_be, nth_byte_after. cbn [mbind option_bind].
    specialize (U2 ltac:(lia)). rewrite (swrap_small 8 (f ÷ 10000)), (wrap_small 8), (swrap_small 8) by lia.
    rewrite Z.mul_comm, <- U2. by rewrite MP.
  - rewrite mi_int5store_be, nth_byte_after. cbn [mbind option_bind].
    specialize (U2 ltac:(lia)). rewrite (swrap_small 8 (f ÷ 10000)), (wrap_small 8), (swrap_small 8) by lia.
    rewrite Z.mul_comm, <- U2. by rewrite MP.
  - rewrite mi_int5store_be, drop_after, mi_sint2korr_store by done. cbn [mbind option_bind].
    specialize (U4 ltac:(lia)). rewrite (swrap_small 16) by lia.
    rewrite Z.mul_comm, <- U4. by rewrite MP.
  - rewrite mi_int5store_be, drop_after, mi_sint2korr_store by done. cbn [mbind option_bind].
    specialize (U4 ltac:(lia)). rewrite (swrap_small 16) by lia.
    rewrite Z.mul_comm, <- U4. by rewrite MP.
  - rewrite mi_int5store_be, drop_after, mi_sint3korr_store by done. cbn [mbind option_bind].
    rewrite (swrap_small 24) by lia. by rewrite MP.
  - rewrite mi_int5store_be, drop_after, mi_sint3korr_store by done. cbn [mbind option_bind].
    rewrite (swrap_small 24) by lia. by rewrite MP.
Qed.
End Binary.

Lemma timestamp_binary_roundtrip tm dec r :
  bytes_ok r → 0 <= dec <= 6 → - 2 ^ 31 <= tv_sec tm < 2 ^ 31 → 0 <= tv_usec tm < 1000000 →
  tv_usec tm mod 10 ^ (6 - dec) = 0 →
  my_timestamp_from_binary (my_timestamp_to_binary tm dec ++ r) dec = Some tm.
Proof.
  intros Hr Hd Hs Hu Hm. destruct tm as [sec us]; cbn [tv_sec tv_usec] in *.
  unfold my_timestamp_from_binary, my_timestamp_to_binary; cbn [tv_sec tv_usec].
  assert (S : s32 (sec mod 2 ^ 32) = sec).
  { rewrite <- (swrap_small 32 sec) at 2 by lia. unfold swrap. by rewrite Zplus_mod_idemp_l. }
  rewrite !Z.quot_div_nonneg by lia.
  dec_cases dec Hd; rewrite <- ?app_assoc; cbn [app]; rewrite mi_uint4korr_store by
      (rewrite ?mi_int2store_be, ?mi_int3store_be; auto using app_byte_ok with cint);
    cbn [mbind option_bind]; rewrite S.
  - change (10 ^ (6 - 0)) with 1000000 in Hm. do 2 f_equal. zdm.
  - change (10 ^ (6 - 1)) with 100000 in Hm. rewrite mi_int4store_be, nth_byte_after.
    cbn [mbind option_bind]. rewrite u8_s8, wrap_small by zdm. do 2 f_equal. zdm.
  - change (10 ^ (6 - 2)) with 10000 in Hm. rewrite mi_int4store_be, nth_byte_after.
    cbn [mbind option_bind]. rewrite u8_s8, wrap_small by zdm. do 2 f_equal. zdm.
  - change (10 ^ (6 - 3)) with 1000 in Hm. rewrite mi_int4store_be, drop_after, mi_sint2korr_store by done.
    cbn [mbind option_bind]. rewrite swrap_small by (zpow; zdm). do 2 f_equal. zdm.
  - change (10 ^ (6 - 4)) with 100 in Hm. rewrite mi_int4store_be, drop_after, mi_sint2korr_store by done.
    cbn [mbind option_bind]. rewrite swrap_small by (zpow; zdm). do 2 f_equal. zdm.
  - rewrite mi_int4store_be, drop_after, mi_sint3korr_store by done.
    cbn [mbind option_bind]. by rewrite swrap_small by (zpow; zdm).
  - rewrite mi_int4store_be, drop_after, mi_sint3korr_store by done.
    cbn [mbind option_bind]. by rewrite swrap_small by (zpow; zdm).
Qed.

(** What the writers of the three temporal formats store, the readers give
    back, for every number of decimals: a signed time, whose fraction is stored
    in reversed order when it is negative, a date and time, and a timestamp. *)
Theorem temporal_binary_roundtrip nr dec tm r :
  bytes_ok r →
  (packed_ok 24 dec nr →
   my_time_packed_from_binary (my_time_packed_to_binary nr dec ++ r) dec = Some nr) ∧
  (packed_ok 40 dec nr → 0 <= nr →
   my_datetime_packed_from_binary (my_datetime_packed_to_binary nr dec ++ r) dec = Some nr) ∧
  (0 <= dec <= 6 → - 2 ^ 31 <= tv_sec tm < 2 ^ 31 → 0 <= tv_usec tm < 1000000 →
   tv_usec tm mod 10 ^ (6 - dec) = 0 →
   my_timestamp_from_binary (my_timestamp_to_binary tm dec ++ r) dec = Some tm).
Proof.
  intros Hr. split_and!.
  - by apply time_binary_roundtrip.
  - by apply datetime_binary_roundtrip.
  - by apply timestamp_binary_roundtrip.
Qed.

(** The time -00:00:01.100000 with two decimals. *)
Lemma temporal_binary_roundtrip_witness :
  my_time_packed_from_binary
    (my_time_packed_to_binary (- (2 ^ 24 + 100000)) 2 ++ [7]) 2 = Some (- (2 ^ 24 + 100000)).
Proof.
  apply (temporal_binary_roundtrip (- (2 ^ 24 + 100000)) 2 (mk_timeval 0 0) [7]).
  - repeat constructor; cbn; lia.
  - constructor; [lia| | |]; vm_compute; try done; split; done.
Defined.

(** ** The calendar *)

(** Days of a month, as the code counts them. *)
Definition month_length (y m : Z) : Z :=
  if m =? 2 then (if calc_days_in_year y =? 366 then 29 else 28)
  else nth (Z.to_nat (m - 1)) days_in_month 0.

Definition next_day (d : Z * Z * Z) : Z * Z * Z :=
  let '(y, m, d) := d in
  if d <? month_length y m then (y, m, d + 1)
  else if m <? 12 then (y, m + 1, 1) else (y + 1, 1, 1).

Lemma land_3 y : y .& 3 = y mod 4.
Proof. exact (Z.land_ones y 2 ltac:(lia)). Qed.

Lemma leap_year y :
  (y mod 4 = 0 ∧ (y mod 100 ≠ 0 ∨ (y mod 400 = 0 ∧ y ≠ 0)) ∧ calc_days_in_year y = 366) ∨
  ((y mod 4 ≠ 0 ∨ (y mod 100 = 0 ∧ (y mod 400 ≠ 0 ∨ y = 0))) ∧ calc_days_in_year y = 365).
Proof.
  unfold calc_days_in_year. rewrite land_3.
  destruct (Z.eqb_spec (y mod 4) 0), (Z.eqb_spec (y mod 100) 0), (Z.eqb_spec (y mod 400) 0),
    (Z.eqb_spec y 0); cbn [andb orb negb]; lia.
Qed.

(** The leap days up to the end of a year. *)
Definition leap_days (y : Z) : Z := y ÷ 4 - ((y ÷ 100 + 1) * 3) ÷ 4.

Lemma leap_days_step y : 0 <= y → leap_days y = leap_days (y - 1) + calc_days_in_year y - 365.
Proof.
  intros Hy. unfold leap_days. destruct (Z.eq_dec y 0) as [->|]; [reflexivity|].
  destruct (leap_year y) as [(? & ? & ->)|(? & ->)]; Z.quot_rem_to_equations;
    Z.div_mod_to_equations; lia.
Qed.

Lemma leap_days_bound y : -1 <= y <= 9999 → 0 <= leap_days y <= 9999.
Proof. intros. unfold leap_days. Z.quot_rem_to_equations. lia. Qed.

(** [calc_daynr] on the dates it is used for, without the conversions. *)
Lemma calc_daynr_small y m d :
  0 <= y <= 9999 → 1 <= m <= 12 → 0 <= d <= 31 →
  calc_daynr y m d =
    365 * y + 31 * (m - 1) + d +
    (if m <=? 2 then leap_days (y - 1) else leap_days y - (m * 4 + 23) ÷ 10).
Proof.
  intros Hy Hm Hd. unfold calc_daynr. rewrite !(swrap_small 32 y), !(swrap_small 32 m),
    (swrap_small 32 d) by lia.
  destruct (Z.eqb_spec m 0); [lia|]. rewrite andb_false_r.
  rewrite (swrap_small 32 (_ + d)) by lia.
  pose proof (leap_days_bound y ltac:(lia)). pose proof (leap_days_bound (y - 1) ltac:(lia)).
  assert (0 <= (m * 4 + 23) ÷ 10 <= 7) by (Z.quot_rem_to_equations; lia).
  destruct (Z.leb_spec m 2); unfold leap_days in *; rewrite swrap_small; lia.
Qed.

Lemma month_length_cases y m :
  1 <= m <= 12 →
  (m = 2 ∧ month_length y m = calc_days_in_year y - 337) ∨
  ((m = 4 ∨ m = 6 ∨ m = 9 ∨ m = 11) ∧ month_length y m = 30) ∨
  ((m = 1 ∨ m = 3 ∨ m = 5 ∨ m = 7 ∨ m = 8 ∨ m = 10 ∨ m = 12) ∧ month_length y m = 31).
Proof.
  intros Hm.
  assert (C : m = 1 ∨ m = 2 ∨ m = 3 ∨ m = 4 ∨ m = 5 ∨ m = 6 ∨ m = 7 ∨ m = 8 ∨ m = 9 ∨ m = 10 ∨
    m = 11 ∨ m = 12) by lia.
  repeat destruct C as [->|C]; [..|subst m]; unfold month_length; simpl; try lia.
  destruct (leap_year y) as [(? & ? & ->)|(? & ->)]; simpl; lia.
Qed.

(** Evaluate the quotients of numerals. *)
Ltac eval_quot :=
  repeat match goal with
  | |- context [?a ÷ 10] =>
      let v := eval vm_compute in (a ÷ 10) in
      lazymatch v with Zpos _ => change (a ÷ 10) with v end
  end.

(** [calc_daynr] numbers the days of the calendar of years 0 to 9999
    consecutively, across the ends of months, years, leap years and centuries,
    and 1970-01-01 has the number the code calls [days_at_timestart]. *)
Theorem calc_daynr_consecutive y m d :
  0 <= y <= 9998 → 1 <= m <= 12 → 1 <= d <= month_length y m →
  (let '(y', m', d') := next_day (y, m, d) in calc_daynr y' m' d') = calc_daynr y m d + 1 ∧
  calc_daynr 1970 1 1 = days_at_timestart.
Proof.
  intros Hy Hm Hd. split; [|reflexivity].
  pose proof (leap_days_step y ltac:(lia)) as LS.
  assert (LY : calc_days_in_year y = 365 ∨ calc_days_in_year y = 366) by (destruct (leap_year y); lia).
  pose proof (month_length_cases y m Hm) as MC.
  unfold next_day. destruct (Z.ltb_spec d (month_length y m)) as [Hl|Hl].
  { rewrite !calc_daynr_small by lia. lia. }
  replace d with (month_length y m) by lia.
  destruct (Z.ltb_spec m 12); rewrite !calc_daynr_small by lia.
  - destruct MC as [(-> & ->)|[(C & ->)|(C & ->)]];
      repeat destruct C as [->|C]; try subst m; try lia; simpl; eval_quot; lia.
  - replace m with 12 in * by lia. replace (y + 1 - 1) with y by lia. simpl. eval_quot. lia.
Qed.

Lemma calc_daynr_consecutive_witness :
  calc_daynr 2024 3 1 = calc_daynr 2024 2 29 + 1 ∧ calc_daynr 1970 1 1 = days_at_timestart.
Proof. apply (calc_daynr_consecutive 2024 2 29); [lia|lia|vm_compute; split; discriminate]. Defined.

(** ** Numbers and text *)

(** The number a date and time is written as: YYYYMMDDhhmmss. *)
Definition datetime_decimal (t : MYSQL_TIME) : Z :=
  ((((year t * 100 + month t) * 100 + day t) * 100 + hour t) * 100 + minute t) * 100 + second t.

(** The fields a date and time number is built from. *)
Record datetime_fields (t : MYSQL_TIME) : Prop := {
  df_year : 0 <= year t <= 9999;
  df_month : 0 <= month t <= 99;
  df_day : 0 <= day t <= 99;
  df_hour : 0 <= hour t <= 99;
  df_minute : 0 <= minute t <= 99;
  df_second : 0 <= second t <= 99;
}.

Lemma TIME_to_ulonglong_datetime_decimal t :
  datetime_fields t → TIME_to_ulonglong_datetime t = datetime_decimal t.
Proof.
  intros []. unfold TIME_to_ulonglong_datetime, TIME_to_ulonglong_date, TIME_to_ulonglong_time,
    datetime_decimal. rewrite !(wrap_small 32 (_ * _)) by lia. rewrite !(wrap_small 32 (_ + _)) by lia.
  rewrite (wrap_small 64 (_ * _)), wrap_small by lia. lia.
Qed.

(** What the part after the label [ok] unpacks. *)
Lemma number_to_datetime_ok_inv nr flags type r t w :
  0 <= nr <= 99999999999999 →
  number_to_datetime_ok nr flags type = Some (r, t, w) →
  datetime_fields t ∧ datetime_decimal t = nr ∧ time_type t = type ∧ second_part t = 0 ∧
  neg t = false ∧ (r = nr ∨ r = -1) ∧
  (r ≠ -1 → check_datetime_range t = false ∧
     ∃ w0, check_date t (negb (nr =? 0)) flags 0 = Some (false, w0)).
Proof.
  intros Hn. unfold number_to_datetime_ok.
  rewrite (Z.quot_div_nonneg nr) by lia.
  rewrite (swrap_small 32 (nr / 1000000)) by zdm.
  rewrite (swrap_small 32 (nr - _)) by zdm.
  set (p1 := nr / 1000000). set (p2 := nr - p1 * 1000000).
  assert (0 <= p1 < 100000000) by (unfold p1; zdm). assert (0 <= p2 < 1000000) by (unfold p2, p1; zdm).
  assert (nr = p1 * 1000000 + p2) as E by lia.
  clearbody p1 p2.
  rewrite !Z.rem_mod_nonneg, !Z.quot_div_nonneg by zdm.
  rewrite !wrap_small by zdm.
  set (t0 := mk_time _ _ _ _ _ _ _ _ _).
  assert (F : datetime_fields t0 ∧ datetime_decimal t0 = nr ∧ time_type t0 = type ∧
    second_part t0 = 0 ∧ neg t0 = false).
  { unfold t0, datetime_decimal. split_and!; [split| | | |]; cbn; try done; zdm. }
  destruct F as (F1 & F2 & F3 & F4 & F5).
  destruct (check_datetime_range t0) eqn:R.
  { case_match; intros [= <- <- <-]; split_and!; auto; done. }
  destruct (check_date t0 _ flags 0) as [[bad w0]|] eqn:D; cbn [mbind option_bind]; [|discriminate].
  destruct bad; cbn [negb].
  { case_match; intros [= <- <- <-]; split_and!; auto; done. }
  intros [= <- <- <-]. split_and!; eauto.
Qed.

(** The date and time number that [nr] abbreviates: a date alone stands for its
    midnight, and a year of two digits for one of 1970 to 2069. *)
Definition expands (nr r : Z) : Prop :=
  (r = nr ∧ (nr = 0 ∨ 991231235959 < nr <= 99999999999999)) ∨
  (∃ century, r = (nr + century * 1000000) * 1000000 ∧
     (century = 0 ∧ 991231 < nr <= 99991231 ∨ century = 20 ∧ 101 <= nr <= 691231 ∨
      century = 19 ∧ 700101 <= nr <= 991231)) ∨
  (∃ century, r = nr + century * 1000000000000 ∧
     (century = 20 ∧ 101000000 <= nr <= 691231235959 ∨
      century = 19 ∧ 700101000000 <= nr <= 991231235959)).

Lemma number_to_datetime_ok_expands nr nr' flags type r t w :
  0 <= nr' <= 99999999999999 → expands nr nr' →
  number_to_datetime_ok nr' flags type = Some (r, t, w) → r ≠ -1 →
  expands nr r ∧ TIME_to_ulonglong_datetime t = r ∧ check_datetime_range t = false ∧
  (∃ w0, check_date t (negb (r =? 0)) flags 0 = Some (false, w0)) ∧ time_type t = type.
Proof.
  intros Hn He H Hr.
  destruct (number_to_datetime_ok_inv _ _ _ _ _ _ Hn H) as (F & D & T & _ & _ & R & C).
  destruct R as [->|]; [|done]. destruct (C Hr) as (C1 & C2).
  split_and!; try done. by rewrite TIME_to_ulonglong_datetime_decimal.
Qed.

(** When [number_to_datetime] accepts a number it returns the date and time
    number it abbreviates (two-digit years, dates without a time), and the
    fields it stores are the digits of that number, within their ranges and a
    date of the calendar; and it gives back every date and time of the years
    100 to 9999 from its number. *)
Theorem number_to_datetime_canonical :
  (∀ nr flags r t w, number_to_datetime nr flags = Some (r, t, w) → r ≠ -1 →
     expands nr r ∧ TIME_to_ulonglong_datetime t = r ∧ check_datetime_range t = false ∧
     ∃ w0, check_date t (negb (r =? 0)) flags 0 = Some (false, w0)) ∧
  (∀ t flags w, datetime_fields t → 100 <= year t → second_part t = 0 → neg t = false →
     time_type t = MYSQL_TIMESTAMP_DATETIME → check_datetime_range t = false →
     check_date t true flags 0 = Some (false, w) →
     number_to_datetime (TIME_to_ulonglong_datetime t) flags =
       Some (TIME_to_ulonglong_datetime t, t, w)).
Proof.
  split.
  - intros nr flags r t w H Hr. unfold number_to_datetime, YY_PART_YEAR in H. cbn zeta in H.
    repeat match type of H with
    | (if ?c then _ else _) = _ => destruct c eqn:?
    end; try (injection H as <- <- <-; done); try (exfalso; lia);
    (eapply number_to_datetime_ok_expands in H as (? & ? & ? & ? & ?);
      [by eauto|lia| |done]); unfold expands.
    all: try (left; lia).
    all: right; first [left; first [exists 20; lia|exists 19; lia|exists 0; lia]
                      |right; first [exists 20; lia|exists 19; lia]].
  - intros t flags w F Hy Hp Hn Ht R D.
    rewrite TIME_to_ulonglong_datetime_decimal by done. set (nr := datetime_decimal t).
    assert (B : 1000000000000 <= nr <= 99999999999999).
    { destruct F. unfold nr, datetime_decimal. lia. }
    assert (E : number_to_datetime_ok nr flags MYSQL_TIMESTAMP_DATETIME = Some (nr, t, w)).
    { unfold number_to_datetime_ok.
      rewrite (Z.quot_div_nonneg nr) by lia.
      rewrite (swrap_small 32 (nr / 1000000)), (swrap_small 32 (nr - _)) by zdm.
      rewrite !Z.rem_mod_nonneg, !Z.quot_div_nonneg by zdm. rewrite !wrap_small by zdm.
      match goal with |- context [mk_time ?a ?b ?c ?d ?e ?f ?g ?h ?i] =>
        assert (mk_time a b c d e f g h i = t) as -> end.
      { destruct F. unfold nr, datetime_decimal in *. destruct t; cbn in *. subst. f_equal; zdm. }
      rewrite R. replace (negb (nr =? 0)) with true by (symmetry; apply negb_true_iff; lia).
      by rewrite D. }
    unfold number_to_datetime, YY_PART_YEAR. cbn zeta. rewrite E.
    repeat match goal with
    | |- (if ?c then _ else _) = _ => destruct c eqn:?
    end; first [done|exfalso; lia].
Qed.

Lemma number_to_datetime_canonical_witness :
  number_to_datetime 20240229235958 0 =
    Some (20240229235958, mk_time 2024 2 29 23 59 58 0 false MYSQL_TIMESTAMP_DATETIME, 0).
Proof.
  apply (proj2 number_to_datetime_canonical (mk_time 2024 2 29 23 59 58 0 false MYSQL_TIMESTAMP_DATETIME));
    [constructor; cbn; lia|cbn; lia|reflexivity..].
Defined.

(** ** The text of a date and time *)

Lemma two_digits_padded v : 0 <= v < 100 → two_digits v = show_padded 2 v.
Proof.
  intros Hv. pose proof (forall_range 100 (λ v, bool_decide (two_digits v = show_padded 2 v))) as H.
  specialize (H ltac:(vm_compute; reflexivity) v Hv). by apply bool_decide_eq_true_1 in H.
Qed.

Lemma four_digits_padded v :
  0 <= v < 10000 →
  [u8 (48 + v / 100 / 10); u8 (48 + (v / 100) mod 10); u8 (48 + (v mod 100) / 10);
   u8 (48 + (v mod 100) mod 10)] = show_padded 4 v.
Proof.
  intros Hv. pose proof (forall_range 10000 (λ v, bool_decide
    ([u8 (48 + v / 100 / 10); u8 (48 + (v / 100) mod 10); u8 (48 + (v mod 100) / 10);
      u8 (48 + (v mod 100) mod 10)] = show_padded 4 v))) as H.
  specialize (H ltac:(vm_compute; reflexivity) v Hv). by apply bool_decide_eq_true_1 in H.
Qed.

(** The digit arithmetic of [TIME_to_datetime_str] writes what the format
    [%04u-%02u-%02u %02u:%02u:%02u] writes, for every date and time whose
    fields have the digits. *)
Theorem TIME_to_datetime_str_format t :
  datetime_fields t →
  TIME_to_datetime_str t =
    my_date_to_str t ++ [32] ++ show_padded 2 (hour t) ++ [58] ++ show_padded 2 (minute t) ++ [58] ++
    show_padded 2 (second t).
Proof.
  intros []. unfold TIME_to_datetime_str, my_date_to_str. rewrite !two_digits_padded by lia.
  rewrite <- (four_digits_padded (year t)) by lia. by rewrite <- ?app_assoc.
Qed.

Lemma TIME_to_datetime_str_format_witness :
  TIME_to_datetime_str (mk_time 2024 2 29 23 5 58 0 false MYSQL_TIMESTAMP_DATETIME) =
  [50; 48; 50; 52; 45; 48; 50; 45; 50; 57; 32; 50; 51; 58; 48; 53; 58; 53; 56].
Proof.
  rewrite (TIME_to_datetime_str_format _); [vm_compute; reflexivity|constructor; cbn; lia].
Defined.

(** ** The lengths of the binary forms *)

Lemma time_binary_bytes nr dec : bytes_ok (my_time_packed_to_binary nr dec).
Proof.
  unfold my_time_packed_to_binary. rewrite mi_int3store_be, mi_int2store_be, mi_int6store_be.
  repeat case_match; rewrite ?Forall_app, ?Forall_singleton; auto with cint.
Qed.

Lemma datetime_binary_bytes nr dec : bytes_ok (my_datetime_packed_to_binary nr dec).
Proof.
  unfold my_datetime_packed_to_binary. rewrite mi_int5store_be, mi_int3store_be, mi_int2store_be.
  repeat case_match; rewrite ?Forall_app, ?Forall_singleton; auto with cint.
Qed.

Lemma time_binary_length nr dec :
  0 <= dec <= 6 → my_time_binary_length dec = Z.of_nat (length (my_time_packed_to_binary nr dec)).
Proof.
  intros Hd. unfold my_time_packed_to_binary. rewrite mi_int3store_be, mi_int2store_be, mi_int6store_be.
  dec_cases dec Hd; rewrite ?length_app, !length_be_split; reflexivity.
Qed.

Lemma datetime_binary_length nr dec :
  0 <= dec <= 6 → my_datetime_binary_length dec = Z.of_nat (length (my_datetime_packed_to_binary nr dec)).
Proof.
  intros Hd. unfold my_datetime_packed_to_binary. rewrite mi_int5store_be, mi_int3store_be, mi_int2store_be.
  dec_cases dec Hd; rewrite ?length_app, !length_be_split; reflexivity.
Qed.

Lemma with_useconds_defined s us dec : 0 <= dec <= 6 → ∃ r, with_useconds s us dec = Some r.
Proof.
  intros Hd. unfold with_useconds, my_useconds_to_str, DATETIME_MAX_DECIMALS.
  dec_cases dec Hd; cbn; eauto.
Qed.

Lemma my_time_to_str_defined t dec : 0 <= dec <= 6 → ∃ s, my_time_to_str t dec = Some s.
Proof. intros. by apply with_useconds_defined. Qed.

Lemma my_timeval_to_str_defined tm dec : 0 <= dec <= 6 → ∃ s, my_timeval_to_str tm dec = Some s.
Proof. intros. by apply with_useconds_defined. Qed.
