(* ===== verification/RowValue.v ===== *)
(** Row values: [include/binlog/tx_rowvalue.h] and
    [binlog/src/tx_rowvalue.cpp].  The union is an inductive type; a
    [char_value_] is the heap block it points to, terminator excluded.  The
    members [table_name_] and [timescamp_] are never assigned and are left out. *)
From S2P Require Import Prelude ByteOrder BinlogTypes BinlogFuncs MyTime.

(** ** Data *)

Record ROW_VALUE_TIME := mk_rv_time {
  year_ : Z; month_ : Z; day_ : Z; hour_ : Z; min_ : Z; sec_ : Z; usec_ : Z;
}.

(** [value_]; doubles by their bit pattern, [rv_none] before any assignment. *)
Inductive row_value_group :=
  | rv_none
  | rv_long (v : Z)
  | rv_char (p : option (list Z))
  | rv_double (bits : Z)
  | rv_time (t : ROW_VALUE_TIME).

(** [type_]: the five tags, and 0 of a value that was never set. *)
Inductive row_value_tag :=
  | VALUE_TYPE_UNSET | VALUE_TYPE_CHAR | VALUE_TYPE_LONGLONG | VALUE_TYPE_NULL
  | VALUE_TYPE_DOUBLE | VALUE_TYPE_TIME.

#[export] Instance row_value_tag_eq_dec : EqDecision row_value_tag.
Proof. solve_decision. Defined.

Record ROW_VALUE := mk_row_value {
  type_ : row_value_tag;
  mysql_type_ : Z;
  value_ : row_value_group;
}.

(** ** Operations *)

Definition row_value_init (mysqlType : Z) : ROW_VALUE :=
  mk_row_value VALUE_TYPE_UNSET (u16 mysqlType) rv_none.

(** [row_set_value(rowValue, szBuf, nLen)] for a buffer [szBuf] that is not
    null: the copy of the first [nLen] bytes. *)
Definition row_set_value_char (v : ROW_VALUE) (szBuf : list Z) (nLen : Z) : option ROW_VALUE :=
  szTmp ← load (Z.to_nat nLen) szBuf;
  Some (mk_row_value VALUE_TYPE_CHAR (mysql_type_ v) (rv_char (Some szTmp))).

Definition row_set_value_long (v : ROW_VALUE) (value : Z) : ROW_VALUE :=
  mk_row_value VALUE_TYPE_LONGLONG (mysql_type_ v) (rv_long value).

Definition row_set_value_double (v : ROW_VALUE) (value : Z) : ROW_VALUE :=
  mk_row_value VALUE_TYPE_DOUBLE (mysql_type_ v) (rv_double value).

Definition row_set_value_time (v : ROW_VALUE) (value : ROW_VALUE_TIME) : ROW_VALUE :=
  mk_row_value VALUE_TYPE_TIME (mysql_type_ v) (rv_time value).

Definition row_set_value_null (v : ROW_VALUE) : ROW_VALUE :=
  mk_row_value VALUE_TYPE_NULL (mysql_type_ v) (value_ v).

Definition row_value_free (v : ROW_VALUE) : ROW_VALUE :=
  match type_ v, value_ v with
  | VALUE_TYPE_CHAR, rv_char (Some _) => mk_row_value (type_ v) (mysql_type_ v) (rv_char None)
  | _, _ => v
  end.

(** The copy constructor: [strlen] bounds the copy, so the text ends at its
    first NUL; the null pointer is dereferenced. *)
Definition row_value_copy (v : ROW_VALUE) : option ROW_VALUE :=
  match type_ v, value_ v with
  | VALUE_TYPE_CHAR, rv_char p =>
      s ← p; t ← c_string (s ++ [0]);
      Some (mk_row_value (type_ v) (mysql_type_ v) (rv_char (Some t)))
  | VALUE_TYPE_CHAR, _ => None
  | _, _ => Some v
  end.

Definition time_init (year month day hour min sec usec : Z) : ROW_VALUE_TIME :=
  mk_rv_time year month day hour min sec usec.

(** [%0wd] of an unsigned argument, which the format reads as signed. *)
Definition show_padded_int (w : nat) (v : Z) : list Z :=
  let v := s32 v in
  if v <? 0 then 45 :: show_padded (w - 1) (- v) else show_padded w v.

(** [szTmp] is uninitialised for the types the switch does not list, and
    [sprintf_s] aborts when the text does not fit. *)
Definition time_struct_to_string (t : ROW_VALUE_TIME) (mysqlType : Z) (szSplit1 szSplit2 : list Z)
    : option (list Z) :=
  let date := show_padded_int 4 (year_ t) ++ szSplit1 ++ show_padded_int 2 (month_ t) ++ szSplit1 ++
              show_padded_int 2 (day_ t) in
  let time := show_padded_int 2 (hour_ t) ++ szSplit2 ++ show_padded_int 2 (min_ t) ++ szSplit2 ++
              show_padded_int 2 (sec_ t) in
  s ← (match field_type_of_Z mysqlType with
       | Some (MYSQL_TYPE_DATETIME | MYSQL_TYPE_DATETIME2) => Some (date ++ [32] ++ time)
       | Some (MYSQL_TYPE_DATE | MYSQL_TYPE_NEWDATE) => Some date
       | Some (MYSQL_TYPE_TIME | MYSQL_TYPE_TIME2) => Some time
       | _ => None
       end);
  if decide (length s < 255)%nat then Some s else None.

(** ** What a rows event becomes: [include/binlog/CRowData.h] *)

Module RowData.
Record CRowData := mk_row_data {
  m_column_count : Z;
  m_thread_id : Z;
  m_event_type : Z;
  m_timestamp : Z;
  m_event_type_str : string;
  m_table_name : list Z;
  m_db_name : list Z;
  m_row_before_values : list (list ROW_VALUE);
  m_row_after_values : list (list ROW_VALUE);
}.
End RowData.

(** ** Copies *)

(** The bytes before the first NUL. *)
Fixpoint up_to_nul (s : list Z) : list Z :=
  match s with [] => [] | b :: s => if b =? 0 then [] else b :: up_to_nul s end.

Lemma c_string_up_to_nul s : c_string (s ++ [0]) = Some (up_to_nul s).
Proof.
  unfold c_string. induction s as [|b s IH]; [done|]. cbn [app c_strlen up_to_nul].
  destruct (b =? 0); [done|].
  destruct (c_strlen (s ++ [0])) as [n|] eqn:E; cbn [mbind option_bind] in *; [|done].
  injection IH as <-.
  assert (0 <= n).
  { clear -E. revert n E. induction (s ++ [0]) as [|c l IHl]; [done|]. cbn [c_strlen]. intros n.
    destruct (c =? 0); [intros [= <-]; lia|]. destruct (c_strlen l) eqn:F; [|done].
    cbn [mbind option_bind]. intros [= <-]. specialize (IHl _ eq_refl). lia. }
  f_equal. replace (Z.to_nat (1 + n)) with (S (Z.to_nat n)) by lia. done.
Qed.

Lemma up_to_nul_no_nul s : no_nul s → up_to_nul s = s.
Proof. induction 1 as [|b s H _ IH]; [done|]. cbn. destruct (Z.eqb_spec b 0); [done|]. by rewrite IH. Qed.

Lemma no_nul_up_to_nul s : no_nul (up_to_nul s).
Proof. induction s as [|b s IH]; cbn; [constructor|]. destruct (Z.eqb_spec b 0); constructor; auto. Qed.

(** What a value is after being copied: its text, cut at the first NUL. *)
Definition cut_value (v : ROW_VALUE) : ROW_VALUE :=
  match value_ v with
  | rv_char (Some s) =>
      if decide (type_ v = VALUE_TYPE_CHAR)
      then mk_row_value (type_ v) (mysql_type_ v) (rv_char (Some (up_to_nul s))) else v
  | _ => v
  end.

(** A value as the setters leave it. *)
Definition value_wf (v : ROW_VALUE) : Prop :=
  type_ v = VALUE_TYPE_CHAR → ∃ s, value_ v = rv_char (Some s).

Lemma row_value_copy_wf v : value_wf v → row_value_copy v = Some (cut_value v) ∧ value_wf (cut_value v).
Proof.
  destruct v as [t m x]. unfold value_wf, row_value_copy, cut_value. cbn. intros H.
  destruct t; try (by destruct x as [| |[]| |]).
  destruct H as [s ->]; [done|]. cbn. rewrite c_string_up_to_nul. cbn. eauto.
Qed.

Lemma cut_value_idem v : cut_value (cut_value v) = cut_value v.
Proof.
  unfold cut_value. destruct v as [t m x]. cbn. destruct x as [| |[s|]| |]; try done.
  destruct (decide _) as [E|E]; cbn; [|by rewrite decide_False].
  rewrite decide_True by done. by rewrite (up_to_nul_no_nul (up_to_nul s)) by apply no_nul_up_to_nul.
Qed.

(** ** Properties *)

(** Copying a row value never fails on a value a setter produced; the copy
    equals it exactly when its text has no NUL byte, and otherwise the text is
    cut at the first one; further copies change nothing more. *)
Theorem row_value_copy_spec v :
  value_wf v →
  row_value_copy v = Some (cut_value v) ∧
  row_value_copy (cut_value v) = Some (cut_value v) ∧
  (cut_value v = v ↔ ∀ s, type_ v = VALUE_TYPE_CHAR → value_ v = rv_char (Some s) → no_nul s).
Proof.
  intros W. destruct (row_value_copy_wf v W) as [E W']. split; [done|].
  destruct (row_value_copy_wf _ W') as [E' _]. split; [by rewrite E', cut_value_idem|].
  destruct v as [t m x]. unfold value_wf, cut_value in *. cbn in *. split.
  - intros H s -> ->. rewrite decide_True in H by done. injection H as H. rewrite <- H.
    apply no_nul_up_to_nul.
  - intros H. destruct x as [| |[s|]| |]; try done. destruct (decide _) as [->|]; [|done].
    by rewrite up_to_nul_no_nul by eauto.
Qed.

Lemma row_value_copy_spec_witness :
  row_value_copy (mk_row_value VALUE_TYPE_CHAR 15 (rv_char (Some [65; 0; 66]))) =
  Some (mk_row_value VALUE_TYPE_CHAR 15 (rv_char (Some [65]))).
Proof. apply row_value_copy_spec. intros _. by exists [65; 0; 66]. Defined.
