(* ===== verification/LogEvent.v ===== *)
(** Events of a binary log: the header, format description, query and table
    map events of [binlog/src/LogEvent.cpp] and [binlog/include/LogEvent.h].

    [m_ucStream] is the list of the bytes from the pointer to the end of its
    allocation, [None] for the null pointer; a pointer into it is an offset.  A
    read outside it is undefined ([None] or [Undef]); forming a pointer outside
    it is not checked.  [loadEvent] takes the object with the values its
    members have before the call and gives the state and the object after. *)
From S2P Require Import Prelude ByteOrder BinlogTypes BinlogFuncs TableDef.

(** ** The common header *)

Record CLogEvent := mk_log_event {
  m_timestamp : Z;
  m_event_type : Z;
  m_server_id : Z;
  m_event_size : Z;
  m_next_event_pos : Z;
  m_event_pos : Z;
  m_comm_flags : Z;
  m_common_header_length : Z;
  m_ucStream : option (list Z);
}.

(** The value and the number of bytes the packet pointer advances; [~0] stands
    for NULL. *)
Definition get_field_length (packet : list Z) : option (Z * Z) :=
  pos ← packet !! 0%nat;
  if pos <? 251 then Some (pos, 1)
  else if pos =? 251 then Some (u32 (Z.lnot 0), 1)
  else if pos =? 252 then temp ← memcpy_u32 2 (packet @+ 1); Some (temp, 3)
  else if pos =? 253 then temp ← memcpy_u32 3 (packet @+ 1); Some (temp, 4)
  else temp ← memcpy_u32 4 (packet @+ 1); Some (temp, 9).

Definition parseHeader (ev : CLogEvent) : option (load_event_state * CLogEvent) :=
  match m_ucStream ev with
  | None => Some (EVENT_STREAM_UNABLED, ev)
  | Some s =>
      timestamp ← uint4korr s;
      event_type ← s !! 4%nat;
      server_id ← uint4korr (s @+ 5);
      event_size ← uint4korr (s @+ 9);
      next_event_pos ← uint4korr (s @+ 13);
      comm_flags ← uint2korr (s @+ 17);
      Some (EVENT_SUCCESS,
            mk_log_event timestamp event_type server_id event_size next_event_pos (m_event_pos ev)
              comm_flags (m_common_header_length ev) (m_ucStream ev))
  end.

(** ** The format description event *)

(** [CHeaderEvent].  The write of a terminator at [m_binlog_szversion[50]] is
    one past the end of the array and of the object; it is left out. *)
Record CHeaderEvent := mk_header_event {
  h_log : CLogEvent;
  m_post_header_len : list Z;
  m_create_timestamp : Z;
  m_binlog_version : Z;
  m_binlog_szversion : list Z;
}.

(** [global_description_event] has static storage: its members start as 0. *)
Definition new_CHeaderEvent : CHeaderEvent :=
  mk_header_event (mk_log_event 0 0 0 0 0 0 0 0 None) [] 0 0 (replicate 50 0).

Definition setStream (ev : CHeaderEvent) (ucStream : list Z) : CHeaderEvent :=
  let l := h_log ev in
  mk_header_event (mk_log_event (m_timestamp l) (m_event_type l) (m_server_id l) (m_event_size l)
      (m_next_event_pos l) (m_event_pos l) (m_comm_flags l) (m_common_header_length l) (Some ucStream))
    (m_post_header_len ev) (m_create_timestamp ev) (m_binlog_version ev) (m_binlog_szversion ev).

Definition getEventHeaderLength (ev : CHeaderEvent) : Z := m_common_header_length (h_log ev).

(** [CLogEvent(eventPos, ucStream)]: [garbage] has the members the constructor
    does not initialise. *)
Definition new_CLogEvent (desc : CHeaderEvent) (garbage : CLogEvent) (eventPos : Z) (ucStream : list Z)
    : CLogEvent :=
  mk_log_event (m_timestamp garbage) (m_event_type garbage) (m_server_id garbage)
    (m_event_size garbage) (m_next_event_pos garbage) eventPos (m_comm_flags garbage)
    (getEventHeaderLength desc) (Some ucStream).

Definition CHeaderEvent_loadEvent (ev : CHeaderEvent) : option (load_event_state * CHeaderEvent) :=
  r ← parseHeader (h_log ev);
  let '(state, l) := r in
  let with_log l := mk_header_event l (m_post_header_len ev) (m_create_timestamp ev)
                      (m_binlog_version ev) (m_binlog_szversion ev) in
  if negb (bool_decide (state = EVENT_SUCCESS)) then Some (state, with_log l)
  else
    s ← m_ucStream l;
    let tmpoffset := LOG_EVENT_HEADER_LEN in
    version ← uint2korr (s @+ tmpoffset);
    szversion ← load (Z.to_nat ST_SERVER_VER_LEN) (s @+ (tmpoffset + 2));
    created ← uint4korr (s @+ (tmpoffset + 2 + ST_SERVER_VER_LEN));
    common ← table_at s (tmpoffset + 2 + ST_SERVER_VER_LEN + 4);
    let tmpoffset := tmpoffset + (2 + ST_SERVER_VER_LEN + 4 + 1) in
    let eventTypeIndexLen :=
      Z.min (u32 (m_event_size l - tmpoffset)) (event_type_to_Z ENUM_END_EVENT - 1) in
    lens ← load (Z.to_nat eventTypeIndexLen) (s @+ tmpoffset);
    Some (EVENT_SUCCESS,
          mk_header_event
            (mk_log_event (m_timestamp l) (m_event_type l) (m_server_id l) (m_event_size l)
               (m_next_event_pos l) (m_event_pos l) (m_comm_flags l) common (m_ucStream l))
            (m_post_header_len ev ++ lens) created version szversion).

(** The post-header length of the event, and the check every event starts with. *)
Definition post_header_len (desc : CHeaderEvent) (l : CLogEvent) : option Z :=
  table_at (m_post_header_len desc) (m_event_type l - 1).

Definition too_small (l : CLogEvent) (postHeaderLen : Z) : bool :=
  m_event_size l <? u32 (m_common_header_length l + postHeaderLen).

(** ** The query event *)

Record CQueryEvent := mk_query_event {
  q_log : CLogEvent;
  m_thread_id : Z;
  m_exec_time : Z;
  m_schema_length : Z;
  m_error_code : Z;
  m_statusvars_length : Z;
  m_schema_name : list Z;
}.

Definition Q_THREAD_ID_OFFSET : Z := 0.
Definition Q_EXEC_TIME_OFFSET : Z := 4.
Definition Q_DB_LEN_OFFSET : Z := 8.
Definition Q_ERR_CODE_OFFSET : Z := 9.
Definition Q_STATUS_VARS_LEN_OFFSET : Z := 11.

Inductive Query_event_status_vars :=
  | Q_FLAGS2_CODE | Q_SQL_MODE_CODE | Q_CATALOG_CODE | Q_AUTO_INCREMENT | Q_CHARSET_CODE
  | Q_TIME_ZONE_CODE | Q_CATALOG_NZ_CODE | Q_LC_TIME_NAMES_CODE | Q_CHARSET_DATABASE_CODE
  | Q_TABLE_MAP_FOR_UPDATE_CODE | Q_MASTER_DATA_WRITTEN_CODE | Q_INVOKER | Q_UPDATED_DB_NAMES
  | Q_MICROSECONDS | Q_COMMIT_TS | Q_COMMIT_TS2 | Q_EXPLICIT_DEFAULTS_FOR_TIMESTAMP.

Definition status_var_to_Z (c : Query_event_status_vars) : Z :=
  match c with
  | Q_FLAGS2_CODE => 0 | Q_SQL_MODE_CODE => 1 | Q_CATALOG_CODE => 2 | Q_AUTO_INCREMENT => 3
  | Q_CHARSET_CODE => 4 | Q_TIME_ZONE_CODE => 5 | Q_CATALOG_NZ_CODE => 6
  | Q_LC_TIME_NAMES_CODE => 7 | Q_CHARSET_DATABASE_CODE => 8 | Q_TABLE_MAP_FOR_UPDATE_CODE => 9
  | Q_MASTER_DATA_WRITTEN_CODE => 10 | Q_INVOKER => 11 | Q_UPDATED_DB_NAMES => 12
  | Q_MICROSECONDS => 13 | Q_COMMIT_TS => 14 | Q_COMMIT_TS2 => 15
  | Q_EXPLICIT_DEFAULTS_FOR_TIMESTAMP => 16
  end.

Definition status_var_of_Z (z : Z) : option Query_event_status_vars :=
  match z with
  | 0 => Some Q_FLAGS2_CODE | 1 => Some Q_SQL_MODE_CODE | 2 => Some Q_CATALOG_CODE
  | 3 => Some Q_AUTO_INCREMENT | 4 => Some Q_CHARSET_CODE | 5 => Some Q_TIME_ZONE_CODE
  | 6 => Some Q_CATALOG_NZ_CODE | 7 => Some Q_LC_TIME_NAMES_CODE
  | 8 => Some Q_CHARSET_DATABASE_CODE | 9 => Some Q_TABLE_MAP_FOR_UPDATE_CODE
  | 10 => Some Q_MASTER_DATA_WRITTEN_CODE | 11 => Some Q_INVOKER | 12 => Some Q_UPDATED_DB_NAMES
  | 13 => Some Q_MICROSECONDS | 14 => Some Q_COMMIT_TS | 15 => Some Q_COMMIT_TS2
  | 16 => Some Q_EXPLICIT_DEFAULTS_FOR_TIMESTAMP
  | _ => None
  end.

(** The loop of [Q_UPDATED_DB_NAMES]: [n] names are left; [strncpy] stops where
    [strlen] does. *)
Fixpoint skip_db_names (n : nat) (buf : list Z) (len pos : Z) : option Z :=
  match n with
  | O => Some pos
  | S n =>
      if pos <? len
      then k ← c_strlen (buf @+ pos); skip_db_names n buf len (pos + (1 + k))
      else Some pos
  end.

(** A length byte, then that many bytes. *)
Definition skip_counted (buf : list Z) (pos : Z) : option Z :=
  n ← table_at buf pos; Some (pos + 1 + n).

(** The [switch] of the loop over the status variables: [pos] is after the code
    byte, the result is [pos] after the value. *)
Definition status_var (code : Z) (buf : list Z) (len pos : Z) : option Z :=
  match status_var_of_Z code with
  | Some Q_FLAGS2_CODE => Some (pos + 4)
  | Some Q_SQL_MODE_CODE => _ ← uint8korr (buf @+ pos); Some (pos + 8)
  | Some Q_CATALOG_NZ_CODE => skip_counted buf pos
  | Some Q_AUTO_INCREMENT =>
      _ ← uint2korr (buf @+ pos); _ ← uint2korr (buf @+ (pos + 2)); Some (pos + 4)
  | Some Q_CHARSET_CODE => _ ← load 6 (buf @+ pos); Some (pos + 6)
  | Some Q_TIME_ZONE_CODE => skip_counted buf pos
  | Some Q_CATALOG_CODE => p ← skip_counted buf pos; Some (p + 1)
  | Some Q_LC_TIME_NAMES_CODE => _ ← uint2korr (buf @+ pos); Some (pos + 2)
  | Some Q_CHARSET_DATABASE_CODE => _ ← uint2korr (buf @+ pos); Some (pos + 2)
  | Some Q_TABLE_MAP_FOR_UPDATE_CODE => _ ← uint8korr (buf @+ pos); Some (pos + 8)
  | Some Q_MASTER_DATA_WRITTEN_CODE => _ ← uint4korr (buf @+ pos); Some (pos + 4)
  | Some Q_MICROSECONDS => _ ← load 3 (buf @+ pos); Some (pos + 3)
  | Some Q_INVOKER => p ← skip_counted buf pos; skip_counted buf p
  | Some Q_UPDATED_DB_NAMES =>
      mts_accessed_dbs ← table_at buf pos;
      let pos := pos + 1 in
      if MAX_DBS_IN_EVENT_MTS <? mts_accessed_dbs then Some pos
      else skip_db_names (Z.to_nat mts_accessed_dbs) buf len pos
  | Some Q_EXPLICIT_DEFAULTS_FOR_TIMESTAMP => Some (pos + 1)
  | Some Q_COMMIT_TS | Some Q_COMMIT_TS2 | None => Some pos
  end.

(** [for (pos = payloadBuf; pos < payloadEnd;)], [len] being the distance from
    [payloadBuf] to [payloadEnd]. *)
Fixpoint status_vars (fuel : nat) (buf : list Z) (len pos : Z) : run Z :=
  if pos <? len then
    match fuel with
    | O => NoFuel
    | S fuel =>
        code ← of_option (table_at buf pos);
        pos ← of_option (status_var code buf len (pos + 1));
        status_vars fuel buf len pos
    end
  else Ret pos.

Definition new_CQueryEvent (desc : CHeaderEvent) (garbage : CQueryEvent) (eventPos : Z)
    (ucStream : list Z) : CQueryEvent :=
  mk_query_event (new_CLogEvent desc (q_log garbage) eventPos ucStream) (m_thread_id garbage)
    (m_exec_time garbage) (m_schema_length garbage) (m_error_code garbage) 0 [].

Definition CQueryEvent_loadEvent (fuel : nat) (desc : CHeaderEvent) (ev : CQueryEvent)
    : run (load_event_state * CQueryEvent) :=
  r ← of_option (parseHeader (q_log ev));
  let '(state, l) := r in
  let failed st :=
    Ret (st, mk_query_event l (m_thread_id ev) (m_exec_time ev) (m_schema_length ev)
               (m_error_code ev) (m_statusvars_length ev) (m_schema_name ev)) in
  if negb (bool_decide (state = EVENT_SUCCESS)) then failed state
  else
    s ← of_option (m_ucStream l);
    postHeaderLen ← of_option (post_header_len desc l);
    if too_small l postHeaderLen then failed EVENT_EVENT_LENGTH_TOO_SMALL
    else
      let dataLen := u32 (m_event_size l - m_common_header_length l - postHeaderLen) in
      let dataBuf := s @+ LOG_EVENT_HEADER_LEN in
      thread_id ← of_option (uint4korr (dataBuf @+ Q_THREAD_ID_OFFSET));
      exec_time ← of_option (uint4korr (dataBuf @+ Q_EXEC_TIME_OFFSET));
      schema_length ← of_option (table_at dataBuf Q_DB_LEN_OFFSET);
      error ← of_option (uint2korr (dataBuf @+ Q_ERR_CODE_OFFSET));
      statusvars_length ← of_option
        (if negb (postHeaderLen - QUERY_HEADER_MINIMAL_LEN =? 0)
         then memcpy_u32 2 (dataBuf @+ Q_STATUS_VARS_LEN_OFFSET)
         else Some 0);
      let ev' name := mk_query_event l thread_id exec_time schema_length (s16 error)
                        statusvars_length name in
      if Z.min dataLen MAX_SIZE_LOG_EVENT_STATUS <? statusvars_length
      then Ret (EVENT_EVENT_LENGTH_TOO_SMALL, ev' (m_schema_name ev))
      else
        let payloadBuf := dataBuf @+ postHeaderLen in
        _ ← status_vars fuel payloadBuf statusvars_length 0;
        name ← of_option (c_string (payloadBuf @+ statusvars_length));
        Ret (EVENT_SUCCESS, ev' name).

Definition getThreadId (ev : CQueryEvent) : Z := m_thread_id ev.
Definition getErrorCode (ev : CQueryEvent) : Z := m_error_code ev.

(** ** The table map event *)

Module TableMap.
Record CTableMapEvent := mk_table_map {
  t_log : CLogEvent;
  m_table_id : Z;
  m_table_flags : Z;
  m_db_length : Z;
  m_table_length : Z;
  m_column_count : Z;
  m_field_metadata_size : Z;
  m_column_type : list Z;
  m_field_metadata : list Z;
  m_null_bits : list Z;
  m_db_name : list Z;
  m_table_name : list Z;
}.

(** [m_table_id] has 32 bits.  A copy of six bytes into it also writes the two
    bytes of [m_table_flags] behind it, which are assigned next. *)
Definition read_table_id (postHeaderLen : Z) (p : list Z) : option Z :=
  if postHeaderLen =? 6 then uint4korr p
  else b ← load 6 p; Some (le_combine (take 4 b)).

Definition new_CTableMapEvent (desc : CHeaderEvent) (g : CTableMapEvent) (eventPos : Z)
    (ucStream : list Z) : CTableMapEvent :=
  mk_table_map (new_CLogEvent desc (t_log g) eventPos ucStream) (m_table_id g) (m_table_flags g)
    (m_db_length g) (m_table_length g) (m_column_count g) (m_field_metadata_size g) [] [] [] [] [].

(** The part after the column types, from the offset [pos] on: the metadata
    block and the null bits, when the event has them. *)
Definition load_metadata (s : list Z) (pos : Z) (ev : CTableMapEvent)
    : option (load_event_state * CTableMapEvent) :=
  let with_meta size meta nulls :=
    mk_table_map (t_log ev) (m_table_id ev) (m_table_flags ev) (m_db_length ev) (m_table_length ev)
      (m_column_count ev) size (m_column_type ev) meta nulls (m_db_name ev) (m_table_name ev) in
  if pos <? m_event_size (t_log ev) then
    r ← get_field_length (s @+ pos);
    let '(size, n) := r in
    if u32 (m_column_count ev * 2) <? size
    then Some (EVENT_FIELD_META_SIZE_TOO_BIG, with_meta size (m_field_metadata ev) (m_null_bits ev))
    else
      let num_null_bytes := u32 (m_column_count ev + 7) / 8 in
      meta ← load (Z.to_nat size) (s @+ (pos + n));
      nulls ← load (Z.to_nat num_null_bytes) (s @+ (pos + n + size));
      Some (EVENT_SUCCESS, with_meta size meta nulls)
  else Some (EVENT_SUCCESS, ev).

Definition loadEvent (desc : CHeaderEvent) (ev : CTableMapEvent)
    : option (load_event_state * CTableMapEvent) :=
  r ← parseHeader (t_log ev);
  let '(state, l) := r in
  let failed st :=
    Some (st, mk_table_map l (m_table_id ev) (m_table_flags ev) (m_db_length ev) (m_table_length ev)
                (m_column_count ev) (m_field_metadata_size ev) (m_column_type ev)
                (m_field_metadata ev) (m_null_bits ev) (m_db_name ev) (m_table_name ev)) in
  if negb (bool_decide (state = EVENT_SUCCESS)) then failed state
  else
    s ← m_ucStream l;
    postHeaderLen ← post_header_len desc l;
    if too_small l postHeaderLen then failed EVENT_EVENT_LENGTH_TOO_SMALL
    else if negb (postHeaderLen =? 6) && negb (postHeaderLen =? TABLE_MAP_HEADER_LEN)
    then failed EVENT_MAP_HEADER_LEN_ERROR
    else
      let postHeaderStart := LOG_EVENT_HEADER_LEN in
      table_id ← read_table_id postHeaderLen (s @+ postHeaderStart);
      flags ← uint2korr (s @+ (postHeaderStart + (if postHeaderLen =? 6 then 4 else 6)));
      let payloadStart := m_common_header_length l + postHeaderLen in
      db_length ← table_at s payloadStart;
      table_length ← table_at s (payloadStart + db_length + 2);
      db_name ← load (Z.to_nat db_length) (s @+ (payloadStart + 1));
      table_name ← load (Z.to_nat table_length) (s @+ (payloadStart + db_length + 3));
      let ptr_colcnt := payloadStart + db_length + table_length + 4 in
      c ← get_field_length (s @+ ptr_colcnt);
      let '(column_count, n) := c in
      column_type ← load (Z.to_nat column_count) (s @+ (ptr_colcnt + n));
      load_metadata s (ptr_colcnt + n + column_count)
        (mk_table_map l table_id flags db_length table_length column_count
           (m_field_metadata_size ev) column_type (m_field_metadata ev) (m_null_bits ev)
           db_name table_name).

Definition createTableDef (ev : CTableMapEvent) : option CTableDef :=
  new_CTableDef (m_column_type ev) (m_column_count ev) (m_field_metadata ev)
    (m_field_metadata_size ev) (m_null_bits ev) (m_table_flags ev).

Definition getTableName (ev : CTableMapEvent) : list Z := m_table_name ev.
Definition getDbName (ev : CTableMapEvent) : list Z := m_db_name ev.
Definition getTableId (ev : CTableMapEvent) : Z := m_table_id ev.
End TableMap.

(** ** The formats *)

(** The length-encoded integers of the protocol. *)
Definition lenenc (v : Z) : list Z :=
  if v <? 251 then [v]
  else if v <? 2 ^ 16 then 252 :: le_split 2 v
  else if v <? 2 ^ 24 then 253 :: le_split 3 v
  else 254 :: le_split 8 v.

(** The common header of an event of [size] bytes. *)
Record header_fields := mk_header_fields {
  hf_timestamp : Z; hf_type : Z; hf_server : Z; hf_next : Z; hf_flags : Z;
}.

Definition header_ok (h : header_fields) (size : Z) : Prop :=
  0 <= hf_timestamp h < 2 ^ 32 ∧ is_byte (hf_type h) ∧ 0 <= hf_server h < 2 ^ 32 ∧
  0 <= size < 2 ^ 32 ∧ 0 <= hf_next h < 2 ^ 32 ∧ 0 <= hf_flags h < 2 ^ 16.

Definition header_bytes (h : header_fields) (size : Z) : list Z :=
  le_split 4 (hf_timestamp h) ++ [hf_type h] ++ le_split 4 (hf_server h) ++ le_split 4 size ++
  le_split 4 (hf_next h) ++ le_split 2 (hf_flags h).

Lemma korr_split4 v r : bytes_ok r → uint4korr (le_split 4 v ++ r) = Some (v mod 2 ^ 32).
Proof.
  intros. rewrite uint4korr_le by (apply Forall_app; auto with cint).
  rewrite load_app by apply length_le_split. cbn [fmap option_fmap option_map].
  by rewrite le_combine_split.
Qed.

Lemma korr_split2 v r : bytes_ok r → uint2korr (le_split 2 v ++ r) = Some (v mod 2 ^ 16).
Proof.
  intros. rewrite uint2korr_le by (apply Forall_app; auto with cint).
  rewrite load_app by apply length_le_split. cbn [fmap option_fmap option_map].
  by rewrite le_combine_split.
Qed.

Lemma drop_app_add {A} k n (pre l : list A) : length pre = k → drop (k + n) (pre ++ l) = drop n l.
Proof. intros H. rewrite <- drop_drop. by rewrite (drop_app_at k). Qed.

Lemma length_header h size : length (header_bytes h size) = 19%nat.
Proof. done. Qed.

Lemma header_bytes_ok h size : is_byte (hf_type h) → bytes_ok (header_bytes h size).
Proof.
  intros. unfold header_bytes. repeat apply Forall_app_2; auto with cint.
Qed.

(** What the object's header members are after [parseHeader]. *)
Definition parsed_header (h : header_fields) (size : Z) (l : CLogEvent) (s : list Z) : CLogEvent :=
  mk_log_event (hf_timestamp h) (hf_type h) (hf_server h) size (hf_next h) (m_event_pos l)
    (hf_flags h) (m_common_header_length l) (Some s).

Lemma parseHeader_bytes h size l body :
  header_ok h size → bytes_ok body → m_ucStream l = Some (header_bytes h size ++ body) →
  parseHeader l = Some (EVENT_SUCCESS, parsed_header h size l (header_bytes h size ++ body)).
Proof.
  intros (Ht & Hy & Hs & Hz & Hn & Hf) Hb E. unfold parseHeader. rewrite E.
  unfold header_bytes. rewrite <- !app_assoc.
  rewrite korr_split4 by (repeat apply Forall_app_2; auto with cint).
  change (Z.to_nat 5) with (4 + (1 + 0))%nat. change (Z.to_nat 9) with (4 + (1 + (4 + 0)))%nat.
  change (Z.to_nat 13) with (4 + (1 + (4 + (4 + 0))))%nat.
  change (Z.to_nat 17) with (4 + (1 + (4 + (4 + (4 + 0)))))%nat.
  rewrite lookup_app_r by (rewrite length_le_split; lia). rewrite length_le_split.
  rewrite !(drop_app_add 4) by apply length_le_split.
  rewrite !(drop_app_add 1) by done. rewrite !(drop_app_add 4) by apply length_le_split.
  rewrite !drop_0. cbn [Nat.sub app lookup list_lookup mbind option_bind].
  rewrite !korr_split4, korr_split2 by (repeat apply Forall_app_2; auto with cint).
  cbn [mbind option_bind]. by rewrite !Z.mod_small by lia.
Qed.

Lemma lenenc_bytes v : 0 <= v → bytes_ok (lenenc v).
Proof.
  intros. unfold lenenc. destruct (Z.ltb_spec v 251).
  { apply Forall_singleton. unfold is_byte. lia. }
  destruct (v <? 2 ^ 16); [|destruct (v <? 2 ^ 24)];
    (apply Forall_cons; split; [unfold is_byte; lia|auto with cint]).
Qed.

Lemma memcpy_u32_prefix (k n : nat) v r :
  (k ≤ n)%nat → memcpy_u32 k (le_split n v ++ r) = Some (le_combine (take k (le_split n v))).
Proof.
  intros. unfold memcpy_u32. rewrite load_some by (rewrite length_app, length_le_split; lia).
  cbn [mbind option_bind]. rewrite take_app_le by (rewrite length_le_split; lia). done.
Qed.

Lemma get_field_length_enc v r :
  0 <= v < 2 ^ 64 →
  get_field_length (lenenc v ++ r) = Some (u32 v, Z.of_nat (length (lenenc v))).
Proof.
  intros Hv. unfold lenenc, get_field_length.
  destruct (Z.ltb_spec v 251).
  { cbn. destruct (Z.ltb_spec v 251); [|lia]. by rewrite wrap_small by lia. }
  destruct (Z.ltb_spec v (2 ^ 16)); [|destruct (Z.ltb_spec v (2 ^ 24))].
  - change (Z.to_nat 1) with 1%nat. cbn -[le_split memcpy_u32].
    rewrite drop_0, memcpy_u32_prefix by lia. cbn -[le_split le_combine take].
    rewrite take_ge by done. rewrite le_combine_split, Z.mod_small by lia.
    by rewrite wrap_small by lia.
  - change (Z.to_nat 1) with 1%nat. cbn -[le_split memcpy_u32].
    rewrite drop_0, memcpy_u32_prefix by lia. cbn -[le_split le_combine take].
    rewrite take_ge by done. rewrite le_combine_split, Z.mod_small by lia.
    by rewrite wrap_small by lia.
  - change (Z.to_nat 1) with 1%nat. cbn -[le_split memcpy_u32].
    rewrite drop_0, memcpy_u32_prefix by lia. cbn -[le_split le_combine take].
    rewrite le_combine_take, le_combine_split by auto with cint.
    change (256 ^ Z.of_nat 8) with (2 ^ 64). change (256 ^ Z.of_nat 4) with (2 ^ 32).
    by rewrite (Z.mod_small v (2 ^ 64)) by lia.
Qed.

(** [get_field_length] reads every length the protocol encodes and advances
    by the bytes of its encoding; of a length over 32 bits it gives the low 32,
    and the NULL marker gives [~0]. *)
Theorem get_field_length_lenenc v r :
  0 <= v < 2 ^ 64 →
  get_field_length (lenenc v ++ r) = Some (u32 v, Z.of_nat (length (lenenc v))) ∧
  get_field_length (251 :: r) = Some (2 ^ 32 - 1, 1).
Proof. intros Hv. split; [by apply get_field_length_enc|reflexivity]. Qed.

Lemma get_field_length_lenenc_witness :
  get_field_length (lenenc 70000 ++ [7]) = Some (70000, 4).
Proof. apply (get_field_length_lenenc 70000 [7]). lia. Defined.

Lemma seek {A} (pre l s : list A) z : s = pre ++ l → z = Z.of_nat (length pre) → s @+ z = l.
Proof. intros -> ->. rewrite Nat2Z.id. apply drop_app_length. Qed.

Lemma table_at_seek (pre l s : list Z) z b :
  s = pre ++ b :: l → z = Z.of_nat (length pre) → table_at s z = Some b.
Proof.
  intros -> ->. unfold table_at. destruct (Z.ltb_spec (Z.of_nat (length pre)) 0); [lia|].
  rewrite Nat2Z.id. rewrite lookup_app_r, Nat.sub_diag by lia. done.
Qed.

(** ** Loading a table map event *)

Record table_map_fields := mk_table_map_fields {
  tm_id : Z; tm_flags : Z; tm_db : list Z; tm_table : list Z;
  tm_cols : list (enum_field_types * Z); tm_nulls : list Z;
}.

Definition tm_types (tm : table_map_fields) : list Z := map (λ c, field_type_to_Z (fst c)) (tm_cols tm).
Definition tm_meta (tm : table_map_fields) : list Z := encode_columns (tm_cols tm).

(** The body of the event as a server writes it. *)
Definition table_map_body (tm : table_map_fields) : list Z :=
  le_split 6 (tm_id tm) ++ le_split 2 (tm_flags tm) ++
  Z.of_nat (length (tm_db tm)) :: tm_db tm ++ 0 ::
  Z.of_nat (length (tm_table tm)) :: tm_table tm ++ 0 ::
  lenenc (Z.of_nat (length (tm_cols tm))) ++ tm_types tm ++
  lenenc (Z.of_nat (length (tm_meta tm))) ++ tm_meta tm ++ tm_nulls tm.

Record table_map_ok (tm : table_map_fields) : Prop := {
  ok_id : 0 <= tm_id tm < 2 ^ 48;
  ok_flags : 0 <= tm_flags tm < 2 ^ 16;
  ok_db : bytes_ok (tm_db tm) ∧ (length (tm_db tm) < 256)%nat;
  ok_table : bytes_ok (tm_table tm) ∧ (length (tm_table tm) < 256)%nat;
  ok_cols : Forall (λ c, metadata_ok (fst c) (snd c)) (tm_cols tm) ∧
            Z.of_nat (length (tm_cols tm)) < 2 ^ 31;
  ok_nulls : bytes_ok (tm_nulls tm) ∧
             Z.of_nat (length (tm_nulls tm)) = (Z.of_nat (length (tm_cols tm)) + 7) / 8;
}.

Lemma encode_columns_short cols : (length (encode_columns cols) ≤ 2 * length cols)%nat.
Proof.
  unfold encode_columns. induction cols as [|[t m] cols IH]; [done|]. cbn [map concat fst snd length].
  rewrite length_app, metadata_encode_length. destruct t; cbn; lia.
Qed.

Lemma field_type_byte t : is_byte (field_type_to_Z t).
Proof. unfold is_byte. destruct t; cbn; lia. Qed.

Lemma tm_types_bytes tm : bytes_ok (tm_types tm).
Proof. unfold tm_types. apply Forall_map, Forall_true. intros [t m]. apply field_type_byte. Qed.

#[export] Hint Resolve tm_types_bytes encode_columns_bytes : cint.

(** The members [loadEvent] stores. *)
Definition loaded_table_map (tm : table_map_fields) (l : CLogEvent) : TableMap.CTableMapEvent :=
  TableMap.mk_table_map l (tm_id tm mod 2 ^ 32) (tm_flags tm) (Z.of_nat (length (tm_db tm)))
    (Z.of_nat (length (tm_table tm))) (Z.of_nat (length (tm_cols tm)))
    (Z.of_nat (length (tm_meta tm))) (tm_types tm) (tm_meta tm) (tm_nulls tm) (tm_db tm)
    (tm_table tm).

(** The object a format description event with the usual layout leaves. *)
Record standard_format (desc : CHeaderEvent) : Prop := {
  sf_common : getEventHeaderLength desc = 19;
  sf_query : table_at (m_post_header_len desc) (event_type_to_Z QUERY_EVENT - 1) = Some 13;
  sf_table_map : table_at (m_post_header_len desc) (event_type_to_Z TABLE_MAP_EVENT - 1) = Some 8;
  sf_rows_v1 : ∀ t, t = WRITE_ROWS_EVENT_V1 ∨ t = UPDATE_ROWS_EVENT_V1 ∨ t = DELETE_ROWS_EVENT_V1 →
     table_at (m_post_header_len desc) (event_type_to_Z t - 1) = Some 8;
  sf_rows_v2 : ∀ t, t = WRITE_ROWS_EVENT ∨ t = UPDATE_ROWS_EVENT ∨ t = DELETE_ROWS_EVENT →
     table_at (m_post_header_len desc) (event_type_to_Z t - 1) = Some 10;
}.

(** A whole event: header, body and what follows it (the checksum). *)
Definition event_bytes (h : header_fields) (body trailer : list Z) : list Z :=
  header_bytes h (19 + Z.of_nat (length body + length trailer)) ++ body ++ trailer.

(** The buffer an event is read into has a 0 behind it. *)
Definition event_buffer (h : header_fields) (body trailer : list Z) : list Z :=
  event_bytes h body trailer ++ [0].

Lemma event_buffer_eq h body trailer :
  event_buffer h body trailer =
  header_bytes h (19 + Z.of_nat (length body + length trailer)) ++ body ++ (trailer ++ [0]).
Proof. unfold event_buffer, event_bytes. by rewrite <- !app_assoc. Qed.

Lemma trailer_ok trailer : bytes_ok trailer → bytes_ok (trailer ++ [0]).
Proof. intros. apply Forall_app. split; [done|]. constructor; [unfold is_byte; lia|constructor]. Qed.

(** The offset of a field is the length of what precedes it. *)
Ltac seek_eq :=
  first [reflexivity
        |rewrite ?length_app, ?length_header, ?length_le_split; cbn [length];
         rewrite ?length_app, ?length_le_split; lia].

(** Find the pointer that is after [pre], and the buffer it points to. *)
Ltac seek_to pre rest :=
  match goal with
  | |- context [drop (Z.to_nat ?z) ?s] =>
      rewrite (seek pre rest s z) by (rewrite <- ?app_assoc; seek_eq)
  end.

Lemma load_metadata_body tm l pre trailer (ev := loaded_table_map tm l) old_meta old_nulls old_size :
  table_map_ok tm → bytes_ok trailer →
  Z.of_nat (length pre) < m_event_size l →
  TableMap.load_metadata
    (pre ++ lenenc (Z.of_nat (length (tm_meta tm))) ++ tm_meta tm ++ tm_nulls tm ++ trailer)
    (Z.of_nat (length pre))
    (TableMap.mk_table_map l (tm_id tm mod 2 ^ 32) (tm_flags tm) (Z.of_nat (length (tm_db tm)))
       (Z.of_nat (length (tm_table tm))) (Z.of_nat (length (tm_cols tm))) old_size (tm_types tm)
       old_meta old_nulls (tm_db tm) (tm_table tm)) =
  Some (EVENT_SUCCESS, ev).
Proof.
  intros [_ _ _ _ [Hc Hl] [Hn Hnl]] Ht Hs. unfold TableMap.load_metadata. cbn [TableMap.t_log TableMap.m_column_count].
  destruct (Z.ltb_spec (Z.of_nat (length pre)) (m_event_size l)); [|lia].
  pose proof (encode_columns_short (tm_cols tm)) as Hm.
  seek_to pre (lenenc (Z.of_nat (length (tm_meta tm))) ++ tm_meta tm ++ tm_nulls tm ++ trailer).
  rewrite get_field_length_enc by (unfold tm_meta; lia). cbn [mbind option_bind].
  rewrite !(wrap_small 32) by (unfold tm_meta; lia).
  destruct (Z.ltb_spec (Z.of_nat (length (tm_cols tm)) * 2) (Z.of_nat (length (tm_meta tm))));
    [unfold tm_meta in *; lia|].
  seek_to (pre ++ lenenc (Z.of_nat (length (tm_meta tm)))) (tm_meta tm ++ tm_nulls tm ++ trailer).
  seek_to (pre ++ lenenc (Z.of_nat (length (tm_meta tm))) ++ tm_meta tm) (tm_nulls tm ++ trailer).
  rewrite load_app by lia. cbn [mbind option_bind]. rewrite load_app by lia. done.
Qed.

Lemma length_event_bytes h body trailer :
  length (event_bytes h body trailer) = (19 + length body + length trailer)%nat.
Proof. unfold event_bytes. rewrite !length_app, length_header. lia. Qed.

Lemma table_map_body_bytes tm : table_map_ok tm → bytes_ok (table_map_body tm).
Proof.
  intros [_ _ [Hd Hdl] [Ht Htl] [_ _] [Hn _]]. unfold table_map_body, tm_meta.
  assert (∀ n, (n < 256)%nat → is_byte (Z.of_nat n)) by (unfold is_byte; lia).
  assert (is_byte 0) by (unfold is_byte; lia).
  repeat first [apply Forall_cons; split; [by auto|] | apply Forall_app_2];
    auto with cint; try (apply lenenc_bytes; lia).
Qed.

(** The reads of [loadEvent], one by one. *)
Lemma table_map_reads hd tm trailer s :
  table_map_ok tm → bytes_ok trailer → bytes_ok hd → length hd = 19%nat →
  s = hd ++ table_map_body tm ++ trailer →
  let d := Z.of_nat (length (tm_db tm)) in
  let t := Z.of_nat (length (tm_table tm)) in
  let c := Z.of_nat (length (tm_cols tm)) in
  TableMap.read_table_id 8 (s @+ 19) = Some (tm_id tm mod 2 ^ 32) ∧
  uint2korr (s @+ (19 + 6)) = Some (tm_flags tm) ∧
  table_at s (19 + 8) = Some d ∧ table_at s (19 + 8 + d + 2) = Some t ∧
  load (Z.to_nat d) (s @+ (19 + 8 + 1)) = Some (tm_db tm) ∧
  load (Z.to_nat t) (s @+ (19 + 8 + d + 3)) = Some (tm_table tm) ∧
  get_field_length (s @+ (19 + 8 + d + t + 4)) = Some (c, Z.of_nat (length (lenenc c))) ∧
  load (Z.to_nat c) (s @+ (19 + 8 + d + t + 4 + Z.of_nat (length (lenenc c)))) = Some (tm_types tm).
Proof.
  intros Hok Htr Hhd H19 ->. cbn zeta. pose proof (table_map_body_bytes tm Hok) as Hbody.
  destruct Hok as [Hi Hf [Hd Hdl] [Ht Htl] [_ Hcl] _].
  remember (Z.of_nat (length (tm_db tm))) as d eqn:Ed.
  remember (Z.of_nat (length (tm_table tm))) as t eqn:Et.
  remember (Z.of_nat (length (tm_cols tm))) as c eqn:Ec.
  set (tail := tm_types tm ++ lenenc (Z.of_nat (length (tm_meta tm))) ++ tm_meta tm ++ tm_nulls tm ++ trailer).
  set (r4 := lenenc c ++ tail).
  set (r3 := t :: tm_table tm ++ 0 :: r4).
  set (r2 := d :: tm_db tm ++ 0 :: r3).
  assert (Es : table_map_body tm ++ trailer = le_split 6 (tm_id tm) ++ le_split 2 (tm_flags tm) ++ r2).
  { unfold table_map_body, r2, r3, r4, tail. rewrite <- Ed, <- Et, <- Ec. repeat (cbn [app]; rewrite <- ?app_assoc). done. }
  assert (B : bytes_ok (table_map_body tm ++ trailer)) by (by apply Forall_app).
  rewrite Es in *. clear Es. apply Forall_app in B as [_ B]. apply Forall_app in B as [_ B].
  pose proof (length_le_split 6 (tm_id tm)) as L6. pose proof (length_le_split 2 (tm_flags tm)) as L2.
  split_and!.
  - seek_to hd (le_split 6 (tm_id tm) ++ le_split 2 (tm_flags tm) ++ r2).
    unfold TableMap.read_table_id. cbn [Z.eqb Pos.eqb]. rewrite load_app by done.
    cbn [mbind option_bind]. rewrite le_combine_take, le_combine_split by auto with cint.
    f_equal. change (256 ^ Z.of_nat 6) with (2 ^ 48). change (256 ^ Z.of_nat 4) with (2 ^ 32).
    by rewrite (Z.mod_small _ (2 ^ 48)) by lia.
  - seek_to (hd ++ le_split 6 (tm_id tm)) (le_split 2 (tm_flags tm) ++ r2).
    rewrite korr_split2 by done. by rewrite Z.mod_small by lia.
  - apply (table_at_seek (hd ++ le_split 6 (tm_id tm) ++ le_split 2 (tm_flags tm)) (tm_db tm ++ 0 :: r3));
      [by rewrite <- ?app_assoc|seek_eq].
  - apply (table_at_seek (hd ++ le_split 6 (tm_id tm) ++ le_split 2 (tm_flags tm) ++ [d] ++ tm_db tm ++ [0])
      (tm_table tm ++ 0 :: r4)); [by rewrite <- ?app_assoc|seek_eq].
  - seek_to (hd ++ le_split 6 (tm_id tm) ++ le_split 2 (tm_flags tm) ++ [d]) (tm_db tm ++ 0 :: r3).
    by rewrite load_app by lia.
  - seek_to (hd ++ le_split 6 (tm_id tm) ++ le_split 2 (tm_flags tm) ++ [d] ++ tm_db tm ++ [0] ++ [t])
      (tm_table tm ++ 0 :: r4). by rewrite load_app by lia.
  - seek_to (hd ++ le_split 6 (tm_id tm) ++ le_split 2 (tm_flags tm) ++ [d] ++ tm_db tm ++ [0] ++ [t] ++
      tm_table tm ++ [0]) r4.
    unfold r4. rewrite get_field_length_enc by lia. by rewrite wrap_small by lia.
  - seek_to (hd ++ le_split 6 (tm_id tm) ++ le_split 2 (tm_flags tm) ++ [d] ++ tm_db tm ++ [0] ++ [t] ++
      tm_table tm ++ [0] ++ lenenc c) tail.
    unfold tail. apply load_app. unfold tm_types. rewrite length_map. lia.
Qed.
(** The size of a whole event. *)
Definition event_size (body trailer : list Z) : Z := 19 + Z.of_nat (length body + length trailer).

(** What every [loadEvent] starts with, on a whole event. *)
Record loaded_header (h : header_fields) (body trailer : list Z) (pos : Z) (l : CLogEvent) : Prop := {
  lh_timestamp : m_timestamp l = hf_timestamp h;
  lh_type : m_event_type l = hf_type h;
  lh_size : m_event_size l = event_size body trailer;
  lh_pos : m_event_pos l = pos;
  lh_next : m_next_event_pos l = hf_next h;
  lh_common : m_common_header_length l = 19;
  lh_stream : m_ucStream l = Some (event_buffer h body trailer);
}.

Lemma event_prologue desc h body trailer g pos :
  standard_format desc → bytes_ok body → bytes_ok trailer → header_ok h (event_size body trailer) →
  ∃ l, parseHeader (new_CLogEvent desc g pos (event_buffer h body trailer)) = Some (EVENT_SUCCESS, l) ∧
    loaded_header h body trailer pos l.
Proof.
  intros D Hb Ht Hh. eexists. split.
  - apply (parseHeader_bytes h (event_size body trailer) _ (body ++ trailer ++ [0])); [done| |].
    + apply Forall_app. split; [done|by apply trailer_ok].
    + cbn [m_ucStream new_CLogEvent]. by rewrite event_buffer_eq.
  - split; try reflexivity; [apply D|]. by rewrite event_buffer_eq.
Qed.

Lemma load_table_map_event desc h tm trailer g pos :
  standard_format desc → table_map_ok tm → bytes_ok trailer →
  hf_type h = event_type_to_Z TABLE_MAP_EVENT →
  header_ok h (event_size (table_map_body tm) trailer) →
  ∃ l, loaded_header h (table_map_body tm) trailer pos l ∧
    TableMap.loadEvent desc
      (TableMap.new_CTableMapEvent desc g pos (event_buffer h (table_map_body tm) trailer)) =
      Some (EVENT_SUCCESS, loaded_table_map tm l).
Proof.
  intros D Hok Htr Hty Hh. pose proof (table_map_body_bytes tm Hok) as Hbody.
  destruct (event_prologue desc h (table_map_body tm) trailer (TableMap.t_log g) pos D Hbody Htr Hh)
    as (l & HP & L). exists l. split; [done|].
  unfold TableMap.loadEvent, TableMap.new_CTableMapEvent. cbn [TableMap.t_log]. rewrite HP.
  cbn [mbind option_bind]. rewrite bool_decide_eq_true_2 by done. cbn [negb].
  rewrite (lh_stream _ _ _ _ _ L). cbn [mbind option_bind].
  replace (post_header_len desc l) with (Some 8).
  2:{ unfold post_header_len. rewrite (lh_type _ _ _ _ _ L), Hty. symmetry. apply D. }
  cbn [mbind option_bind]. unfold too_small. rewrite (lh_common _ _ _ _ _ L), (lh_size _ _ _ _ _ L).
  assert (Hsize := lh_size _ _ _ _ _ L). set (size := event_size (table_map_body tm) trailer) in *.
  assert (Hlen : 27 < size) by (unfold size, event_size, table_map_body; rewrite !length_app; cbn; lia).
  rewrite (wrap_small 32 (19 + 8)) by lia. destruct (Z.ltb_spec size (19 + 8)); [lia|].
  cbn [Z.eqb Pos.eqb TABLE_MAP_HEADER_LEN negb andb].
  destruct (table_map_reads (header_bytes h size) tm (trailer ++ [0])
    (event_buffer h (table_map_body tm) trailer) Hok (trailer_ok _ Htr)) as (R1 & R2 & R3 & R4 & R5 & R6 & R7 & R8);
    [apply header_bytes_ok; by destruct Hh as (_ & ? & _)|done|by rewrite event_buffer_eq|].
  unfold LOG_EVENT_HEADER_LEN. rewrite R1; cbn [mbind option_bind].
  rewrite R2; cbn [mbind option_bind]. rewrite R3; cbn [mbind option_bind].
  rewrite R4; cbn [mbind option_bind]. rewrite R5; cbn [mbind option_bind].
  rewrite R6; cbn [mbind option_bind]. rewrite R7; cbn [mbind option_bind].
  rewrite R8; cbn [mbind option_bind].
  set (pre := header_bytes h size ++ le_split 6 (tm_id tm) ++ le_split 2 (tm_flags tm) ++
    [Z.of_nat (length (tm_db tm))] ++ tm_db tm ++ [0] ++ [Z.of_nat (length (tm_table tm))] ++
    tm_table tm ++ [0] ++ lenenc (Z.of_nat (length (tm_cols tm))) ++ tm_types tm).
  pose proof (load_metadata_body tm l pre (trailer ++ [0]) [] []
    (TableMap.m_field_metadata_size g) Hok (trailer_ok _ Htr)) as LM.
  assert (Lp : Z.of_nat (length pre) = 19 + 8 + Z.of_nat (length (tm_db tm)) +
    Z.of_nat (length (tm_table tm)) + 4 + Z.of_nat (length (lenenc (Z.of_nat (length (tm_cols tm))))) +
    Z.of_nat (length (tm_cols tm))).
  { unfold pre, tm_types. rewrite !length_app, !length_le_split, length_map, length_header. cbn [length]. lia. }
  rewrite Lp, Hsize in LM. rewrite <- LM.
  - f_equal. rewrite event_buffer_eq. unfold pre. rewrite <- ?app_assoc. f_equal.
    unfold table_map_body. by repeat (cbn [app]; rewrite <- ?app_assoc).
  - unfold size, event_size, table_map_body. do 4 (rewrite ?length_app, ?length_le_split; cbn [length]).
    unfold tm_types. rewrite length_map.
    assert (0 < length (lenenc (Z.of_nat (length (tm_meta tm)))))%nat by (unfold lenenc; repeat case_match; cbn; lia).
    lia.
Qed.

(** C7: a table map event of the format servers write, for any columns and
    metadata, is loaded with every member as written, except that of the
    48-bit table id the low 32 bits are kept; and the table definition made
    from it gives every column its metadata, and its type if any column of the table
    has metadata: if none has, asking for a type reads outside of a vector. *)
Theorem table_map_loads desc h tm trailer g pos :
  standard_format desc → table_map_ok tm → bytes_ok trailer →
  hf_type h = event_type_to_Z TABLE_MAP_EVENT →
  header_ok h (event_size (table_map_body tm) trailer) →
  ∃ l td, loaded_header h (table_map_body tm) trailer pos l ∧
    TableMap.loadEvent desc
      (TableMap.new_CTableMapEvent desc g pos (event_buffer h (table_map_body tm) trailer)) =
      Some (EVENT_SUCCESS, loaded_table_map tm l) ∧
    TableMap.createTableDef (loaded_table_map tm l) = Some td ∧
    ∀ i t m, tm_cols tm !! i = Some (t, m) →
      field_metadata td (Z.of_nat i) = Some m ∧
      type td (Z.of_nat i) = (if decide (tm_meta tm = []) then None else Some (real_type t m)).
Proof.
  intros D Hok Htr Hty Hh. destruct (load_table_map_event desc h tm trailer g pos) as (l & L & E); [done..|].
  destruct Hok as [_ _ _ _ [Hc _] _].
  destruct (decode_all_columns (tm_cols tm) (tm_nulls tm) (tm_flags tm) Hc) as (td & E1 & _ & C).
  exists l, td. split_and!; [done|done|exact E1|]. intros i t m Hi'. by destruct (C i t m Hi') as (_ & C1 & C2).
Qed.

Definition sample_format : CHeaderEvent :=
  mk_header_event (mk_log_event 0 15 1 120 120 4 0 19 None)
    [56; 13; 0; 8; 0; 18; 0; 4; 4; 4; 4; 18; 0; 0; 95; 0; 4; 26; 8; 0; 0; 0; 8; 8; 8; 2; 0; 0; 0;
     10; 10; 10; 42; 42; 0; 18; 52; 0] 0 4 [].

Lemma sample_format_standard : standard_format sample_format.
Proof.
  split; try reflexivity; intros t [->|[->| ->]]; reflexivity.
Qed.

Definition sample_table_map : table_map_fields :=
  mk_table_map_fields 70 1 [100; 98] [116] [(MYSQL_TYPE_LONG, 0); (MYSQL_TYPE_VARCHAR, 40)] [2].

Definition sample_garbage : CLogEvent := mk_log_event 0 0 0 0 0 0 0 0 None.

Lemma table_map_loads_witness :
  ∃ l td, TableMap.loadEvent sample_format
    (TableMap.new_CTableMapEvent sample_format
       (TableMap.mk_table_map sample_garbage 0 0 0 0 0 0 [] [] [] [] []) 100
       (event_buffer (mk_header_fields 5 19 1 200 0) (table_map_body sample_table_map) [9; 9; 9; 9])) =
    Some (EVENT_SUCCESS, loaded_table_map sample_table_map l)
  ∧ TableMap.createTableDef (loaded_table_map sample_table_map l) = Some td ∧ type td 1 = Some 15.
Proof.
  destruct (table_map_loads sample_format (mk_header_fields 5 19 1 200 0) sample_table_map [9; 9; 9; 9]
    (TableMap.mk_table_map sample_garbage 0 0 0 0 0 0 [] [] [] [] []) 100) as (l & td & _ & E & T & C);
    [exact sample_format_standard| | |reflexivity| |].
  - repeat constructor; cbn; lia.
  - repeat constructor; unfold is_byte; lia.
  - repeat split; vm_compute; congruence.
  - exists l, td. split; [exact E|]. split; [exact T|]. exact (proj2 (C 1%nat MYSQL_TYPE_VARCHAR 40 eq_refl)).
Defined.

(** ** The status variables of a query event *)

Lemma table_at_byte l i b : bytes_ok l → table_at l i = Some b → is_byte b.
Proof.
  unfold table_at. intros H. destruct (i <? 0); [done|]. intros E.
  exact (Forall_lookup_1 _ _ _ _ H E).
Qed.

Lemma c_strlen_nonneg l n : c_strlen l = Some n → 0 <= n.
Proof.
  revert n. induction l as [|b l IH]; intros n; cbn [c_strlen]; [done|].
  destruct (b =? 0); [intros [= <-]; lia|]. destruct (c_strlen l); [|done]. cbn.
  intros [= <-]. specialize (IH _ eq_refl). lia.
Qed.

Lemma skip_counted_ge buf pos p : bytes_ok buf → skip_counted buf pos = Some p → pos < p.
Proof.
  intros H. unfold skip_counted. destruct (table_at buf pos) as [n|] eqn:E; [|done]. cbn.
  apply table_at_byte in E; [|done]. unfold is_byte in E. intros [= <-]. lia.
Qed.

Lemma skip_db_names_ge n buf len pos p : skip_db_names n buf len pos = Some p → pos <= p.
Proof.
  revert pos. induction n as [|n IH]; intros pos; cbn [skip_db_names]; [intros [= <-]; lia|].
  destruct (pos <? len); [|intros [= <-]; lia].
  destruct (c_strlen _) as [k|] eqn:E; [|done]. cbn. apply c_strlen_nonneg in E.
  intros H. specialize (IH _ H). lia.
Qed.

(** Every case of the switch leaves the pointer where it was or further. *)
Lemma status_var_ge code buf len pos p :
  bytes_ok buf → status_var code buf len pos = Some p → pos <= p.
Proof.
  intros H. unfold status_var. destruct (status_var_of_Z code) as [c|]; [|intros [= <-]; lia].
  destruct c; intros E; invert_bind E; try (injection E as <-);
    try (match goal with
         | F : skip_counted buf pos = Some _ |- _ => apply skip_counted_ge in F; [|done]
         end);
    try (apply skip_counted_ge in E; [|done]); try lia.
  destruct (MAX_DBS_IN_EVENT_MTS <? z); [injection E as <-; lia|].
  apply skip_db_names_ge in E. lia.
Qed.

Lemma status_vars_fuel fuel buf len pos :
  bytes_ok buf → (Z.to_nat (len - pos) ≤ fuel)%nat → status_vars fuel buf len pos ≠ NoFuel.
Proof.
  intros H. revert pos. induction fuel as [|fuel IH]; intros pos Hf; cbn [status_vars];
    destruct (Z.ltb_spec pos len); try done; [lia|].
  destruct (table_at buf pos) as [code|]; [|done]. cbn [of_option mbind run_bind].
  destruct (status_var code buf len (pos + 1)) as [p|] eqn:E; [|done]. cbn [of_option mbind run_bind].
  apply status_var_ge in E; [|done]. apply IH. lia.
Qed.

(** Past a defined read of a [run]. *)
Ltac run_step :=
  lazymatch goal with
  | |- mbind _ (of_option ?o) ≠ _ => destruct o; [|done]; cbn [of_option mbind run_bind]
  end.

(** C36: loading a query event terminates on every stream of bytes, whatever its
    status variables: the loop is never entered more often than the bound on
    their length allows. *)
Theorem query_event_terminates fuel desc ev :
  (∀ s, m_ucStream (q_log ev) = Some s → bytes_ok s) →
  MAX_SIZE_LOG_EVENT_STATUS <= Z.of_nat fuel →
  CQueryEvent_loadEvent fuel desc ev ≠ NoFuel.
Proof.
  intros Hb Hf. unfold CQueryEvent_loadEvent.
  destruct (parseHeader (q_log ev)) as [[st l]|] eqn:E; [|done]. cbn [of_option mbind run_bind].
  destruct (negb _); [done|].
  assert (Hs : m_ucStream l = m_ucStream (q_log ev)).
  { unfold parseHeader in E. destruct (m_ucStream (q_log ev)) eqn:F; [|by injection E as <- <-].
    invert_bind E. by injection E as <- <-. }
  rewrite Hs. destruct (m_ucStream (q_log ev)) as [s|]; [|done]. cbn [of_option mbind run_bind].
  specialize (Hb s eq_refl).
  destruct (post_header_len desc l) as [ph|]; [|done]. cbn [of_option mbind run_bind].
  destruct (too_small l ph); [done|]. cbn zeta.
  do 4 run_step.
  lazymatch goal with |- mbind _ (of_option ?o) ≠ _ =>
    destruct o as [len|]; [|done]; cbn [of_option mbind run_bind] end.
  match goal with |- context [Z.min ?a ?b <? len] =>
    destruct (Z.ltb_spec (Z.min a b) len); [done|] end.
  pose proof (status_vars_fuel fuel ((s @+ LOG_EVENT_HEADER_LEN) @+ ph) len 0) as T.
  destruct (status_vars fuel _ len 0); [|done|].
  - cbn [mbind run_bind]. by destruct (c_string _).
  - exfalso. apply T; [by do 2 apply Forall_drop|lia|done].
Qed.

Lemma query_event_terminates_witness :
  CQueryEvent_loadEvent 4096 sample_format
    (new_CQueryEvent sample_format (mk_query_event sample_garbage 0 0 0 0 0 []) 0 [255; 2; 1]) ≠ NoFuel.
Proof.
  apply query_event_terminates.
  - intros s [= <-]. repeat constructor; unfold is_byte; lia.
  - vm_compute. discriminate.
Defined.

(** The status variables as a server writes them. *)
Inductive status_value :=
  | sv_fixed (c : Query_event_status_vars) (value : list Z)
  | sv_time_zone (s : list Z)
  | sv_catalog_nz (s : list Z)
  | sv_catalog (s : list Z)
  | sv_invoker (user host : list Z)
  | sv_db_names (names : list (list Z))
  | sv_over_max_dbs.

(** The width of the values of constant width. *)
Definition fixed_width (c : Query_event_status_vars) : option nat :=
  match c with
  | Q_FLAGS2_CODE | Q_AUTO_INCREMENT | Q_MASTER_DATA_WRITTEN_CODE => Some 4%nat
  | Q_SQL_MODE_CODE | Q_TABLE_MAP_FOR_UPDATE_CODE => Some 8%nat
  | Q_CHARSET_CODE => Some 6%nat
  | Q_LC_TIME_NAMES_CODE | Q_CHARSET_DATABASE_CODE => Some 2%nat
  | Q_MICROSECONDS => Some 3%nat
  | Q_EXPLICIT_DEFAULTS_FOR_TIMESTAMP => Some 1%nat
  | _ => None
  end.

Definition counted (s : list Z) : list Z := Z.of_nat (length s) :: s.

Definition status_encode (v : status_value) : list Z :=
  match v with
  | sv_fixed c value => status_var_to_Z c :: value
  | sv_time_zone s => status_var_to_Z Q_TIME_ZONE_CODE :: counted s
  | sv_catalog_nz s => status_var_to_Z Q_CATALOG_NZ_CODE :: counted s
  | sv_catalog s => status_var_to_Z Q_CATALOG_CODE :: counted s ++ [0]
  | sv_invoker user host => status_var_to_Z Q_INVOKER :: counted user ++ counted host
  | sv_db_names names =>
      status_var_to_Z Q_UPDATED_DB_NAMES :: Z.of_nat (length names) :: concat (map (.++ [0]) names)
  | sv_over_max_dbs => [status_var_to_Z Q_UPDATED_DB_NAMES; OVER_MAX_DBS_IN_EVENT_MTS]
  end.

(** The code a variable begins with. *)
Definition status_code (v : status_value) : Z :=
  match v with
  | sv_fixed c _ => status_var_to_Z c
  | sv_time_zone _ => status_var_to_Z Q_TIME_ZONE_CODE
  | sv_catalog_nz _ => status_var_to_Z Q_CATALOG_NZ_CODE
  | sv_catalog _ => status_var_to_Z Q_CATALOG_CODE
  | sv_invoker _ _ => status_var_to_Z Q_INVOKER
  | sv_db_names _ | sv_over_max_dbs => status_var_to_Z Q_UPDATED_DB_NAMES
  end.

Definition status_ok (v : status_value) : Prop :=
  match v with
  | sv_fixed c value => fixed_width c = Some (length value) ∧ bytes_ok value
  | sv_time_zone s | sv_catalog_nz s | sv_catalog s => (length s < 256)%nat ∧ bytes_ok s
  | sv_invoker user host =>
      (length user < 256)%nat ∧ bytes_ok user ∧ (length host < 256)%nat ∧ bytes_ok host
  | sv_db_names names => (length names ≤ 16)%nat ∧ Forall (λ s, bytes_ok s ∧ no_nul s) names
  | sv_over_max_dbs => True
  end.

Lemma counted_ok s : (length s < 256)%nat → bytes_ok s → bytes_ok (counted s).
Proof. intros. apply Forall_cons. split; [unfold is_byte; lia|done]. Qed.

Lemma status_encode_bytes v : status_ok v → bytes_ok (status_encode v).
Proof.
  assert (Hc : ∀ c, is_byte (status_var_to_Z c)) by (intros []; unfold is_byte; cbn; lia).
  assert (H0 : is_byte 0) by (unfold is_byte; lia).
  destruct v as [c value|s|s|s|u h|names|]; cbn [status_ok status_encode]; intros H;
    apply Forall_cons; (split; [by apply Hc|]); destruct_and?.
  - done.
  - by apply counted_ok.
  - by apply counted_ok.
  - apply Forall_app_2; [by apply counted_ok|by apply Forall_singleton].
  - apply Forall_app_2; by apply counted_ok.
  - apply Forall_cons. split; [unfold is_byte; lia|].
    apply Forall_concat, Forall_map. eapply Forall_impl; [eassumption|]. intros s [Hs _]. cbn.
    apply Forall_app_2; [done|by apply Forall_singleton].
  - apply Forall_singleton. unfold is_byte, OVER_MAX_DBS_IN_EVENT_MTS. lia.
Qed.

Lemma skip_counted_at pre s post :
  skip_counted (pre ++ counted s ++ post) (Z.of_nat (length pre)) =
  Some (Z.of_nat (length pre) + 1 + Z.of_nat (length s)).
Proof.
  unfold skip_counted. by rewrite (table_at_seek pre (s ++ post) _ _ (Z.of_nat (length s))).
Qed.

Lemma skip_db_names_at names pre post len :
  Forall (λ s, bytes_ok s ∧ no_nul s) names →
  Z.of_nat (length (pre ++ concat (map (.++ [0]) names))) <= len →
  skip_db_names (length names) (pre ++ concat (map (.++ [0]) names) ++ post) len (Z.of_nat (length pre)) =
  Some (Z.of_nat (length (pre ++ concat (map (.++ [0]) names)))).
Proof.
  intros H. revert pre. induction H as [|s names [Hs Hn] H IH]; intros pre Hl;
    cbn [length skip_db_names map concat]; [by rewrite app_nil_r|].
  cbn [map concat] in Hl. rewrite !length_app in Hl. cbn [length] in Hl.
  destruct (Z.ltb_spec (Z.of_nat (length pre)) len); [|lia].
  rewrite (seek pre (s ++ 0 :: concat (map (.++ [0]) names) ++ post));
    [|by rewrite <- !app_assoc|done].
  rewrite c_strlen_app by done. cbn [mbind option_bind].
  specialize (IH (pre ++ s ++ [0])). rewrite <- !app_assoc in IH. rewrite <- !app_assoc.
  rewrite <- IH.
  - f_equal. rewrite !length_app. cbn [length]. lia.
  - rewrite !length_app. cbn [length]. lia.
Qed.

Lemma status_var_of_to_Z c : status_var_of_Z (status_var_to_Z c) = Some c.
Proof. by destruct c. Qed.

Lemma seek_more {A} (pre l : list A) k :
  0 <= k → (pre ++ l) @+ (Z.of_nat (length pre) + k) = l @+ k.
Proof.
  intros. rewrite Z2Nat.inj_add, Nat2Z.id by lia. by rewrite drop_app_add.
Qed.

Lemma status_var_fixed c value pre post len :
  fixed_width c = Some (length value) → bytes_ok (value ++ post) →
  status_var (status_var_to_Z c) (pre ++ value ++ post) len (Z.of_nat (length pre)) =
  Some (Z.of_nat (length (pre ++ value))).
Proof.
  intros Hw Hb. unfold status_var. rewrite status_var_of_to_Z, length_app.
  assert (Hat : (pre ++ value ++ post) @+ Z.of_nat (length pre) = value ++ post) by (by apply (seek pre)).
  rewrite Hat, seek_more by lia.
  assert (Hd : bytes_ok ((value ++ post) @+ 2)) by (by apply Forall_drop).
  destruct c; cbn [fixed_width] in Hw; try discriminate; injection Hw as Hw;
    rewrite ?uint8korr_le, ?uint4korr_le, ?uint2korr_le by done;
    rewrite ?load_some by (rewrite ?length_drop, ?length_app; lia);
    cbn [fmap option_fmap option_map mbind option_bind]; f_equal; lia.
Qed.

Lemma status_var_counted c s pre post len :
  c = Q_TIME_ZONE_CODE ∨ c = Q_CATALOG_NZ_CODE →
  status_var (status_var_to_Z c) (pre ++ counted s ++ post) len (Z.of_nat (length pre)) =
  Some (Z.of_nat (length pre + length (counted s))).
Proof.
  intros Hc. unfold status_var. rewrite status_var_of_to_Z, skip_counted_at.
  replace (Z.of_nat (length pre) + 1 + Z.of_nat (length s))
    with (Z.of_nat (length pre + length (counted s))) by (cbn; lia).
  by destruct Hc as [-> | ->].
Qed.

(** One turn of the loop, wherever the variable is in the buffer. *)
Lemma status_var_encode v pre post len :
  status_ok v → bytes_ok post → Z.of_nat (length (pre ++ status_encode v)) <= len →
  table_at (pre ++ status_encode v ++ post) (Z.of_nat (length pre)) = Some (status_code v) ∧
  status_var (status_code v) (pre ++ status_encode v ++ post) len (Z.of_nat (length pre) + 1) =
    Some (Z.of_nat (length (pre ++ status_encode v))).
Proof.
  intros Hok Hp Hl. pose proof (status_encode_bytes v Hok) as Hb.
  destruct (status_encode v) as [|code rest] eqn:E; [by destruct v|].
  assert (Hc : status_code v = code) by (by destruct v; injection E). rewrite Hc.
  assert (Hr : bytes_ok (rest ++ post)) by (apply Forall_cons in Hb as [_ Hb]; by apply Forall_app).
  split; [by apply (table_at_seek pre (rest ++ post))|].
  replace (pre ++ (code :: rest) ++ post) with ((pre ++ [code]) ++ rest ++ post)
    by (by rewrite <- app_assoc).
  replace (Z.of_nat (length pre) + 1) with (Z.of_nat (length (pre ++ [code])))
    by (rewrite length_app; cbn; lia).
  replace (pre ++ code :: rest) with ((pre ++ [code]) ++ rest) in * by (by rewrite <- app_assoc).
  set (pre' := pre ++ [code]) in *. rewrite length_app in *. clearbody pre'.
  clear Hc. destruct v as [c value|s|s|s|u h|names|]; cbn [status_encode] in E; injection E as <- <-.
  - destruct Hok as [Hw _]. rewrite <- length_app. by apply status_var_fixed.
  - apply (status_var_counted Q_TIME_ZONE_CODE). by left.
  - apply (status_var_counted Q_CATALOG_NZ_CODE). by right.
  - change (Z.of_nat (length s) :: s ++ [0]) with (counted s ++ [0]) in *.
    unfold status_var. cbn [status_var_to_Z status_var_of_Z].
    rewrite <- !app_assoc, skip_counted_at. cbn [mbind option_bind].
    f_equal. unfold counted. rewrite length_app. cbn [length]. lia.
  - change (Z.of_nat (length u) :: u ++ counted h) with (counted u ++ counted h) in *.
    unfold status_var. cbn [status_var_to_Z status_var_of_Z].
    rewrite <- !app_assoc, skip_counted_at. cbn [mbind option_bind].
    pose proof (skip_counted_at (pre' ++ counted u) h post) as S2. rewrite <- app_assoc in S2.
    rewrite length_app in S2.
    replace (Z.of_nat (length pre') + 1 + Z.of_nat (length u))
      with (Z.of_nat (length pre' + length (counted u))) by (cbn; lia).
    rewrite S2. f_equal. unfold counted. rewrite length_app. cbn [length]. lia.
  - destruct Hok as [Hn Hs]. unfold status_var. cbn [status_var_to_Z status_var_of_Z].
    rewrite (table_at_seek pre' (concat (map (.++ [0]) names) ++ post) _ _ (Z.of_nat (length names)))
      by done. cbn [mbind option_bind]. unfold MAX_DBS_IN_EVENT_MTS.
    destruct (Z.ltb_spec 16 (Z.of_nat (length names))); [lia|]. rewrite Nat2Z.id.
    pose proof (skip_db_names_at names (pre' ++ [Z.of_nat (length names)]) post len Hs) as D.
    rewrite <- !app_assoc, !length_app in D. cbn [app length] in D, Hl. cbn [app length].
    replace (Z.of_nat (length pre') + 1) with (Z.of_nat (length pre' + 1)) by lia.
    rewrite D by lia. by f_equal; lia.
  - unfold status_var. cbn [status_var_to_Z status_var_of_Z].
    rewrite (table_at_seek pre' post _ _ OVER_MAX_DBS_IN_EVENT_MTS) by done.
    cbn [mbind option_bind Z.ltb MAX_DBS_IN_EVENT_MTS OVER_MAX_DBS_IN_EVENT_MTS Z.compare Pos.compare
      Pos.compare_cont length]. f_equal. lia.
Qed.

Definition status_block (vs : list status_value) : list Z := concat (map status_encode vs).

Lemma status_encode_nonempty v : (0 < length (status_encode v))%nat.
Proof. destruct v; cbn; lia. Qed.

Lemma status_block_bytes vs : Forall status_ok vs → bytes_ok (status_block vs).
Proof.
  intros H. apply Forall_concat, Forall_map. eapply Forall_impl; [exact H|]. apply status_encode_bytes.
Qed.

(** The loop goes over a whole block, one turn a variable. *)
Lemma status_vars_block vs pre post fuel :
  Forall status_ok vs → bytes_ok post → (length vs ≤ fuel)%nat →
  status_vars fuel (pre ++ status_block vs ++ post) (Z.of_nat (length (pre ++ status_block vs)))
    (Z.of_nat (length pre)) = Ret (Z.of_nat (length (pre ++ status_block vs))).
Proof.
  intros H Hp. revert pre fuel. induction H as [|v vs Hv H IH]; intros pre fuel Hf.
  { unfold status_block. cbn [map concat]. rewrite app_nil_r.
    destruct fuel; cbn [status_vars]; by rewrite Z.ltb_irrefl. }
  destruct fuel as [|fuel]; [cbn in Hf; lia|]. cbn [status_vars].
  pose proof (status_encode_nonempty v) as Hne.
  unfold status_block in *. cbn [map concat]. cbn [length] in Hf.
  set (block := concat (map status_encode vs)) in *.
  rewrite <- app_assoc.
  destruct (Z.ltb_spec (Z.of_nat (length pre)) (Z.of_nat (length (pre ++ status_encode v ++ block))));
    [|rewrite !length_app in *; lia].
  destruct (status_var_encode v pre (block ++ post) (Z.of_nat (length (pre ++ status_encode v ++ block)))
    Hv) as (C1 & C2).
  - apply Forall_app. split; [by apply status_block_bytes|done].
  - rewrite !length_app. lia.
  - rewrite C1. cbn [of_option mbind run_bind]. rewrite C2. cbn [of_option mbind run_bind].
    specialize (IH (pre ++ status_encode v) fuel ltac:(lia)). by rewrite <- !app_assoc in IH.
Qed.

Lemma status_block_count vs : (length vs ≤ length (status_block vs))%nat.
Proof.
  unfold status_block. induction vs as [|v vs IH]; [done|]. cbn [map concat length].
  rewrite length_app. pose proof (status_encode_nonempty v). lia.
Qed.

Record query_fields := mk_query_fields {
  qf_thread : Z; qf_exec : Z; qf_error : Z; qf_vars : list status_value;
  qf_schema : list Z; qf_query : list Z;
}.

(** The body of a query event as a server writes it. *)
Definition query_body (q : query_fields) : list Z :=
  le_split 4 (qf_thread q) ++ le_split 4 (qf_exec q) ++ [Z.of_nat (length (qf_schema q))] ++
  le_split 2 (qf_error q) ++ le_split 2 (Z.of_nat (length (status_block (qf_vars q)))) ++
  status_block (qf_vars q) ++ qf_schema q ++ [0] ++ qf_query q.

Record query_ok (q : query_fields) : Prop := {
  qo_thread : 0 <= qf_thread q < 2 ^ 32;
  qo_exec : 0 <= qf_exec q < 2 ^ 32;
  qo_error : - 2 ^ 15 <= qf_error q < 2 ^ 15;
  qo_vars : Forall status_ok (qf_vars q);
  qo_block : Z.of_nat (length (status_block (qf_vars q))) <= MAX_SIZE_LOG_EVENT_STATUS;
  qo_schema : bytes_ok (qf_schema q) ∧ no_nul (qf_schema q) ∧ (length (qf_schema q) < 256)%nat;
  qo_query : bytes_ok (qf_query q);
}.

Lemma query_body_bytes q : query_ok q → bytes_ok (query_body q).
Proof.
  intros [_ _ _ Hv _ (Hs & _ & Hl) Hq]. unfold query_body.
  assert (is_byte 0) by (unfold is_byte; lia).
  assert (is_byte (Z.of_nat (length (qf_schema q)))) by (unfold is_byte; lia).
  rewrite !Forall_app, !Forall_singleton. split_and!; auto using status_block_bytes with cint.
Qed.

(** The reads of [loadEvent], one by one. *)
Lemma query_reads q trailer (s := query_body q ++ trailer) :
  query_ok q → bytes_ok trailer →
  uint4korr (s @+ 0) = Some (qf_thread q) ∧ uint4korr (s @+ 4) = Some (qf_exec q) ∧
  table_at s 8 = Some (Z.of_nat (length (qf_schema q))) ∧
  uint2korr (s @+ 9) = Some (qf_error q mod 2 ^ 16) ∧
  memcpy_u32 2 (s @+ 11) = Some (Z.of_nat (length (status_block (qf_vars q)))) ∧
  s @+ 13 = status_block (qf_vars q) ++ qf_schema q ++ 0 :: qf_query q ++ trailer.
Proof.
  intros Hok Htr. pose proof (query_body_bytes q Hok) as Hb.
  assert (B : bytes_ok s) by (by apply Forall_app).
  destruct Hok as [Ht He Hr _ Hl (_ & _ & _) _].
  set (tail := status_block (qf_vars q) ++ qf_schema q ++ 0 :: qf_query q ++ trailer).
  set (len := Z.of_nat (length (status_block (qf_vars q)))) in *.
  assert (Es : s = le_split 4 (qf_thread q) ++ le_split 4 (qf_exec q) ++
    [Z.of_nat (length (qf_schema q))] ++ le_split 2 (qf_error q) ++ le_split 2 len ++ tail).
  { unfold s, query_body, tail, len. by repeat (cbn [app]; rewrite <- ?app_assoc). }
  rewrite Es in *. clearbody s tail. clear Es s Hb Htr.
  rewrite !Forall_app in B. destruct B as (_ & _ & Bs & _ & _ & Bt).
  assert (MAX_SIZE_LOG_EVENT_STATUS < 2 ^ 16) by (by vm_compute).
  assert (0 <= len < 2 ^ 16) by (unfold len in *; lia).
  split_and!.
  - change (Z.to_nat 0) with 0%nat. rewrite drop_0, korr_split4, Z.mod_small by
      (rewrite ?Forall_app; split_and?; auto with cint; lia). done.
  - seek_to (le_split 4 (qf_thread q)) (le_split 4 (qf_exec q) ++
      [Z.of_nat (length (qf_schema q))] ++ le_split 2 (qf_error q) ++ le_split 2 len ++ tail).
    rewrite korr_split4, Z.mod_small by (rewrite ?Forall_app; split_and?; auto with cint; lia). done.
  - by apply (table_at_seek (le_split 4 (qf_thread q) ++ le_split 4 (qf_exec q))
      (le_split 2 (qf_error q) ++ le_split 2 len ++ tail)).
  - seek_to (le_split 4 (qf_thread q) ++ le_split 4 (qf_exec q) ++ [Z.of_nat (length (qf_schema q))])
      (le_split 2 (qf_error q) ++ le_split 2 len ++ tail).
    by rewrite korr_split2 by (rewrite ?Forall_app; split_and?; auto with cint).
  - seek_to (le_split 4 (qf_thread q) ++ le_split 4 (qf_exec q) ++ [Z.of_nat (length (qf_schema q))] ++
      le_split 2 (qf_error q)) (le_split 2 len ++ tail).
    rewrite memcpy_u32_prefix, take_ge by done. rewrite le_combine_split.
    by rewrite Z.mod_small by lia.
  - by apply (seek (le_split 4 (qf_thread q) ++ le_split 4 (qf_exec q) ++
      [Z.of_nat (length (qf_schema q))] ++ le_split 2 (qf_error q) ++ le_split 2 len));
      rewrite <- ?app_assoc.
Qed.

Lemma load_query_event fuel desc h q trailer g pos :
  standard_format desc → query_ok q → bytes_ok trailer →
  hf_type h = event_type_to_Z QUERY_EVENT →
  header_ok h (event_size (query_body q) trailer) →
  MAX_SIZE_LOG_EVENT_STATUS <= Z.of_nat fuel →
  ∃ l, loaded_header h (query_body q) trailer pos l ∧
    CQueryEvent_loadEvent fuel desc
      (new_CQueryEvent desc g pos (event_buffer h (query_body q) trailer)) =
    Ret (EVENT_SUCCESS,
         mk_query_event l (qf_thread q) (qf_exec q) (Z.of_nat (length (qf_schema q))) (qf_error q)
           (Z.of_nat (length (status_block (qf_vars q)))) (qf_schema q)).
Proof.
  intros D Hok Htr Hty Hh Hfuel. pose proof (query_body_bytes q Hok) as Hbody.
  destruct (event_prologue desc h (query_body q) trailer (q_log g) pos D Hbody Htr Hh) as (l & HP & L).
  exists l. split; [done|].
  unfold CQueryEvent_loadEvent, new_CQueryEvent. cbn [q_log]. rewrite HP.
  cbn [of_option mbind run_bind]. rewrite bool_decide_eq_true_2 by done. cbn [negb].
  rewrite (lh_stream _ _ _ _ _ L). cbn [of_option mbind run_bind].
  replace (post_header_len desc l) with (Some 13).
  2:{ unfold post_header_len. rewrite (lh_type _ _ _ _ _ L), Hty. symmetry. apply D. }
  cbn [of_option mbind run_bind]. unfold too_small.
  rewrite (lh_common _ _ _ _ _ L), (lh_size _ _ _ _ _ L).
  destruct (query_reads q (trailer ++ [0]) Hok (trailer_ok _ Htr)) as (R1 & R2 & R3 & R4 & R5 & R6).
  replace (event_buffer h (query_body q) trailer @+ LOG_EVENT_HEADER_LEN) with (query_body q ++ trailer ++ [0])
    by (symmetry; apply (seek (header_bytes h (event_size (query_body q) trailer))); [by rewrite event_buffer_eq|done]).
  set (s := query_body q ++ trailer ++ [0]) in *.
  assert (Hsz : 32 + Z.of_nat (length (status_block (qf_vars q))) <= event_size (query_body q) trailer).
  { unfold event_size, query_body. rewrite !length_app, !length_le_split. cbn [length]. lia. }
  assert (Hlt : event_size (query_body q) trailer < 2 ^ 32) by (by destruct Hh as (_ & _ & _ & [_ ?] & _)).
  pose proof (qo_block _ Hok) as Hblock.
  rewrite (wrap_small 32 (19 + 13)), (wrap_small 32 (_ - 19 - 13)) by lia.
  destruct (Z.ltb_spec (event_size (query_body q) trailer) (19 + 13)); [lia|].
  unfold Q_THREAD_ID_OFFSET, Q_EXEC_TIME_OFFSET, Q_DB_LEN_OFFSET, Q_ERR_CODE_OFFSET,
    Q_STATUS_VARS_LEN_OFFSET.
  rewrite R1; cbn [of_option mbind run_bind]. rewrite R2; cbn [of_option mbind run_bind].
  rewrite R3; cbn [of_option mbind run_bind]. rewrite R4; cbn [of_option mbind run_bind].
  change (negb (13 - QUERY_HEADER_MINIMAL_LEN =? 0)) with true. cbv iota.
  rewrite R5; cbn [of_option mbind run_bind]. rewrite R6.
  destruct (Z.ltb_spec (Z.min (event_size (query_body q) trailer - 19 - 13) MAX_SIZE_LOG_EVENT_STATUS)
    (Z.of_nat (length (status_block (qf_vars q))))); [lia|].
  pose proof (status_vars_block (qf_vars q) [] (qf_schema q ++ 0 :: qf_query q ++ trailer ++ [0]) fuel
    (qo_vars _ Hok)) as SV. cbn [app length] in SV. change (Z.of_nat 0) with 0 in SV.
  destruct (qo_schema _ Hok) as (Bs & Ns & _).
  rewrite SV.
  - cbn [mbind run_bind].
    rewrite (seek (status_block (qf_vars q)) (qf_schema q ++ 0 :: qf_query q ++ trailer ++ [0])) by done.
    rewrite c_string_app by done. cbn [of_option mbind run_bind].
    rewrite swrap_mod, swrap_small by (pose proof (qo_error _ Hok); lia). done.
  - rewrite Forall_app, Forall_cons, Forall_app. pose proof (qo_query _ Hok). pose proof (trailer_ok _ Htr).
    split_and!; try done; unfold is_byte; lia.
  - pose proof (status_block_count (qf_vars q)). lia.
Qed.

(** The loop over the block of [vs] in [buf] begins its turns at the variables:
    a turn begun at a variable reads its code and leaves the position at the
    next variable, and the whole loop takes one turn for every variable (with
    fuel for fewer it does not end). *)
Record visits_variables (vs : list status_value) (buf : list Z) : Prop := {
  vv_turn vs1 v vs2 : vs = vs1 ++ v :: vs2 →
    table_at buf (Z.of_nat (length (status_block vs1))) = Some (status_code v) ∧
    status_var (status_code v) buf (Z.of_nat (length (status_block vs)))
      (Z.of_nat (length (status_block vs1)) + 1) =
      Some (Z.of_nat (length (status_block (vs1 ++ [v])))) ∧
    ∀ k, status_vars (S k) buf (Z.of_nat (length (status_block vs)))
      (Z.of_nat (length (status_block vs1))) =
      status_vars k buf (Z.of_nat (length (status_block vs)))
        (Z.of_nat (length (status_block (vs1 ++ [v]))));
  vv_turns k : status_vars k buf (Z.of_nat (length (status_block vs))) 0 =
    if decide (length vs ≤ k)%nat then Ret (Z.of_nat (length (status_block vs))) else NoFuel;
}.

Lemma status_block_app vs1 vs2 : status_block (vs1 ++ vs2) = status_block vs1 ++ status_block vs2.
Proof. unfold status_block. by rewrite map_app, concat_app. Qed.

Lemma status_vars_turn vs1 v vs2 post k (vs := vs1 ++ v :: vs2)
    (len := Z.of_nat (length (status_block vs))) (buf := status_block vs ++ post) :
  Forall status_ok vs → bytes_ok post →
  table_at buf (Z.of_nat (length (status_block vs1))) = Some (status_code v) ∧
  status_var (status_code v) buf len (Z.of_nat (length (status_block vs1)) + 1) =
    Some (Z.of_nat (length (status_block (vs1 ++ [v])))) ∧
  status_vars (S k) buf len (Z.of_nat (length (status_block vs1))) =
  status_vars k buf len (Z.of_nat (length (status_block (vs1 ++ [v])))).
Proof.
  intros Hok Hp.
  assert (E : status_block vs = status_block vs1 ++ status_encode v ++ status_block vs2)
    by (unfold vs; by rewrite status_block_app).
  assert (E1 : status_block (vs1 ++ [v]) = status_block vs1 ++ status_encode v)
    by (rewrite status_block_app; unfold status_block at 2; cbn; by rewrite app_nil_r).
  assert (Hv : status_ok v ∧ Forall status_ok vs2).
  { unfold vs in Hok. rewrite Forall_app, Forall_cons in Hok. tauto. }
  destruct Hv as [Hv Hvs2]. pose proof (status_encode_nonempty v) as Hne.
  destruct (status_var_encode v (status_block vs1) (status_block vs2 ++ post) len Hv) as [C1 C2].
  { apply Forall_app. split; [by apply status_block_bytes|done]. }
  { unfold len. rewrite E, !length_app. lia. }
  assert (Eb : buf = status_block vs1 ++ status_encode v ++ status_block vs2 ++ post)
    by (unfold buf; rewrite E; by rewrite <- !app_assoc).
  rewrite Eb, E1. split_and!; [done|done|]. cbn [status_vars].
  destruct (Z.ltb_spec (Z.of_nat (length (status_block vs1))) len);
    [|unfold len in *; rewrite E, !length_app in *; lia].
  rewrite C1. cbn [of_option mbind run_bind]. by rewrite C2.
Qed.

(** What is left of the loop takes a turn for every variable left. *)
Lemma status_vars_left vs1 vs2 post k (vs := vs1 ++ vs2) (len := Z.of_nat (length (status_block vs))) :
  Forall status_ok vs → bytes_ok post →
  status_vars k (status_block vs ++ post) len (Z.of_nat (length (status_block vs1))) =
  if decide (length vs2 ≤ k)%nat then Ret len else NoFuel.
Proof.
  unfold len, vs. clear len vs. revert vs1 k.
  induction vs2 as [|v vs2 IH]; intros vs1 k Hok Hp.
  { rewrite app_nil_r, decide_True by (cbn; lia). destruct k; cbn [status_vars]; by rewrite Z.ltb_irrefl. }
  destruct k as [|k].
  - rewrite decide_False by (cbn; lia). cbn [status_vars].
    pose proof (status_encode_nonempty v).
    destruct (Z.ltb_spec (Z.of_nat (length (status_block vs1)))
      (Z.of_nat (length (status_block (vs1 ++ v :: vs2))))) as [|Hge]; [done|].
    rewrite status_block_app, length_app in Hge. unfold status_block at 2 in Hge. cbn [map concat] in Hge.
    rewrite length_app in Hge. lia.
  - destruct (status_vars_turn vs1 v vs2 post k Hok Hp) as (_ & _ & ->).
    assert (A : vs1 ++ v :: vs2 = (vs1 ++ [v]) ++ vs2) by (by rewrite <- app_assoc).
    rewrite A in Hok |- *. rewrite IH by done. cbn [length].
    destruct (decide (length vs2 ≤ k)%nat), (decide (S (length vs2) ≤ S k)%nat); lia || done.
Qed.

Lemma block_visited vs post :
  Forall status_ok vs → bytes_ok post → visits_variables vs (status_block vs ++ post).
Proof.
  intros Hok Hp. split.
  - intros vs1 v vs2 ->. split_and!; [by apply (status_vars_turn vs1 v vs2 post 0)..|].
    intros k. by apply status_vars_turn.
  - intros k. by apply (status_vars_left [] vs).
Qed.

(** C8: a query event of the format servers write, with any status variables,
    is loaded: the loop over the status variables begins its turns exactly at
    the variables, one turn a variable and in their order, the switch moving
    it by the width of the variable, and the object gets the thread, time,
    error code, lengths and the schema name behind the block. *)
Theorem query_event_loads fuel desc h q trailer g pos :
  standard_format desc → query_ok q → bytes_ok trailer →
  hf_type h = event_type_to_Z QUERY_EVENT →
  header_ok h (event_size (query_body q) trailer) →
  MAX_SIZE_LOG_EVENT_STATUS <= Z.of_nat fuel →
  visits_variables (qf_vars q)
    ((event_buffer h (query_body q) trailer @+ LOG_EVENT_HEADER_LEN) @+ 13) ∧
  ∃ l, loaded_header h (query_body q) trailer pos l ∧
    post_header_len desc l = Some 13 ∧
    CQueryEvent_loadEvent fuel desc
      (new_CQueryEvent desc g pos (event_buffer h (query_body q) trailer)) =
    Ret (EVENT_SUCCESS,
         mk_query_event l (qf_thread q) (qf_exec q) (Z.of_nat (length (qf_schema q))) (qf_error q)
           (Z.of_nat (length (status_block (qf_vars q)))) (qf_schema q)).
Proof.
  intros D Hok Htr Hty Hh Hf. split.
  - replace (event_buffer h (query_body q) trailer @+ LOG_EVENT_HEADER_LEN) with (query_body q ++ trailer ++ [0])
      by (symmetry; apply (seek (header_bytes h (event_size (query_body q) trailer))); [by rewrite event_buffer_eq|done]).
    destruct (query_reads q (trailer ++ [0]) Hok (trailer_ok _ Htr)) as (_ & _ & _ & _ & _ & ->).
    apply block_visited; [by apply qo_vars|].
    destruct (qo_schema _ Hok) as (Bs & _). pose proof (qo_query _ Hok). pose proof (trailer_ok _ Htr).
    rewrite Forall_app, Forall_cons, Forall_app. split_and!; try done; unfold is_byte; lia.
  - destruct (load_query_event fuel desc h q trailer g pos D Hok Htr Hty Hh Hf) as (l & L & E).
    exists l. split_and!; [done| |done].
    unfold post_header_len. rewrite (lh_type _ _ _ _ _ L), Hty. apply D.
Qed.

Lemma query_event_loads_witness :
  ∃ l, CQueryEvent_loadEvent 4096 sample_format
    (new_CQueryEvent sample_format (mk_query_event sample_garbage 0 0 0 0 0 []) 100
       (event_buffer (mk_header_fields 5 2 1 200 0)
          (query_body (mk_query_fields 9 0 (-1) [sv_fixed Q_FLAGS2_CODE [0; 0; 0; 0];
             sv_catalog_nz [115; 116; 100]; sv_db_names [[97; 98]; [99]]] [116; 101; 115; 116] [66]))
          [7; 7; 7; 7])) =
    Ret (EVENT_SUCCESS, mk_query_event l 9 0 4 (-1) 17 [116; 101; 115; 116]).
Proof.
  destruct (query_event_loads 4096 sample_format (mk_header_fields 5 2 1 200 0)
    (mk_query_fields 9 0 (-1) [sv_fixed Q_FLAGS2_CODE [0; 0; 0; 0];
       sv_catalog_nz [115; 116; 100]; sv_db_names [[97; 98]; [99]]] [116; 101; 115; 116] [66])
    [7; 7; 7; 7] (mk_query_event sample_garbage 0 0 0 0 0 []) 100) as (_ & l & _ & _ & E);
    [exact sample_format_standard| | |reflexivity| |vm_compute; discriminate|by exists l].
  - repeat constructor; cbn; unfold is_byte; try lia; done.
  - repeat constructor; unfold is_byte; lia.
  - repeat split; vm_compute; congruence.
Defined.
