(* ===== verification/RowsEvent.v ===== *)
(** The rows events of [binlog/src/LogEvent.cpp]: loading the event's header
    and column sets, decoding the values of a row, and the loop over the rows.

    A pointer into the event is its 32-bit address with the bytes from it on;
    the address matters because the code stores one as a value.  The contents
    of uninitialised locals and of fresh allocations are variables. *)
From S2P Require Import Prelude ByteOrder MyBit MyBitmap BinlogTypes BinlogFuncs TableDef BinDecimal MyTime RowValue LogEvent.

Record ptr := mk_ptr { address : Z; bytes : list Z }.

Definition ptr_add (p : ptr) (n : Z) : ptr := mk_ptr (u32 (address p + n)) (bytes p @+ n).

(** ** Values *)

(** The conversion of a [float] to [double] on the bit patterns. *)
Definition float_to_double (f : Z) : Z :=
  let s := (f .>> 31) .<< 63 in
  let e := (f .>> 23) mod 256 in
  let m := f mod 2 ^ 23 in
  if e =? 255 then s + (0x7FF .<< 52) + (m .<< 29) .| (if m =? 0 then 0 else 2 ^ 51)
  else if e =? 0 then
    if m =? 0 then s
    else let k := Z.log2 m in s + ((k - 149 + 1023) .<< 52) + ((m - 2 ^ k) .<< (52 - k))
  else s + ((e - 127 + 1023) .<< 52) + (m .<< 29).

(** The adjustment of [type] and [length] for [MYSQL_TYPE_STRING]. *)
Definition string_type (type meta : Z) : Z * Z :=
  if type =? field_type_to_Z MYSQL_TYPE_STRING then
    if 256 <=? meta then
      let byte0 := meta .>> 8 in
      let byte1 := meta .& 0xFF in
      if negb (byte0 .& 0x30 =? 0x30)
      then (byte0 .| 0x30, byte1 .| (((byte0 .& 0x30) .^ 0x30) .<< 4))
      else (type, meta .& 0xFF)
    else (type, meta)
  else (type, 0).

(** The length and the text, which ends at its first NUL. *)
Definition parseRowDataToString (ptrData : list Z) (length : Z) : option (Z * list Z) :=
  let '(rlen, offset) :=
    if length <? 256 then (ptrData !! 0%nat, 1) else (uint2korr ptrData, 2) in
  rlen ← rlen;
  szTmp ← load (Z.to_nat rlen) (ptrData @+ offset);
  s ← c_string (szTmp ++ [0]);
  Some (u32 (rlen + offset), s).

(** [MYSQL_TYPE_BLOB]: the switch on the width of the length. *)
Definition blob_rLen (p : list Z) (meta : Z) : option Z :=
  match meta with
  | 1 => length ← p !! 0%nat; Some (u32 (length + 1))
  | 2 => length ← uint2korr p; Some (u32 (length + 2))
  | 3 => length ← uint3korr p; Some (u32 (length + 3))
  | 4 => length ← uint4korr p; Some (u32 (length + 4))
  | _ => Some 0
  end.

Definition time_of (t : MYSQL_TIME) : ROW_VALUE_TIME :=
  time_init 0 0 0 (hour t) (minute t) (second t) 0.
Definition datetime_of (t : MYSQL_TIME) : ROW_VALUE_TIME :=
  time_init (year t) (month t) (day t) (hour t) (minute t) (second t) 0.

(** [MYSQL_TYPE_DATETIME]: [size_t] has 32 bits. *)
Definition datetime_of_number (i64 : Z) : ROW_VALUE_TIME :=
  let d := u32 (i64 / 1000000) in
  let t := i64 mod 1000000 in
  time_init (d / 10000) (d mod 10000 / 100) (d mod 100) (t / 10000) (t mod 10000 / 100) (t mod 100) 0.

Section Rows.
(** Contents of [my_decimal dec], of [char buff[]], and of a fresh [malloc]. *)
Context (dec_garbage buff_garbage : list Z) (malloc : Z → option (list Z)).

(** [MYSQL_TYPE_NEWDECIMAL]. *)
Definition decimal_value (v : ROW_VALUE) (p : list Z) (meta : Z) : option (Z * ROW_VALUE) :=
  let precision := meta .>> 8 in
  let decimals := meta .& 0xFF in
  bin_size ← decimal_bin_size precision decimals;
  r ← binary2my_decimal E_DEC_FATAL_ERROR p (new_my_decimal dec_garbage) precision decimals;
  t ← decimal2string (snd r) buff_garbage DECIMAL_MAX_STR_LENGTH 0 0 0;
  let '(_, len, buff) := t in
  v ← row_set_value_char v buff len;
  Some (u32 bin_size, v).

(** The longer cases of the switch: [MYSQL_TYPE_TIMESTAMP2], [MYSQL_TYPE_DATETIME2],
    [MYSQL_TYPE_TIME2], [MYSQL_TYPE_ENUM], [MYSQL_TYPE_VARCHAR] and [MYSQL_TYPE_JSON]. *)
Definition timestamp2_value (v : ROW_VALUE) (p : list Z) (meta : Z) : option (Z * ROW_VALUE) :=
  tm ← my_timestamp_from_binary p meta;
  _ ← my_timeval_to_str tm meta;
  Some (my_timestamp_binary_length meta, v).

Definition datetime2_value (v : ROW_VALUE) (p : list Z) (meta : Z) : option (Z * ROW_VALUE) :=
  packed ← my_datetime_packed_from_binary p meta;
  Some (my_datetime_binary_length meta,
        row_set_value_time v (datetime_of (TIME_from_longlong_datetime_packed packed))).

Definition time2_value (v : ROW_VALUE) (p : list Z) (meta : Z) : option (Z * ROW_VALUE) :=
  packed ← my_time_packed_from_binary p meta;
  let ltime := TIME_from_longlong_time_packed packed in
  _ ← my_time_to_str ltime meta;
  Some (my_time_binary_length meta, row_set_value_time v (time_of ltime)).

Definition enum_value (v : ROW_VALUE) (p : list Z) (meta : Z) : option (Z * ROW_VALUE) :=
  match meta .& 0xFF with
  | 1 => i ← p !! 0%nat; Some (1, row_set_value_long v i)
  | 2 => i32 ← uint2korr p; Some (2, row_set_value_long v i32)
  | _ => Some (0, v)
  end.

Definition varchar_value (v : ROW_VALUE) (p : list Z) (meta : Z) : option (Z * ROW_VALUE) :=
  r ← parseRowDataToString p meta;
  let '(rLen, strValue) := r in
  v ← row_set_value_char v strValue (Z.of_nat (List.length strValue));
  Some (rLen, v).

Definition json_value (v : ROW_VALUE) (p : list Z) (meta : Z) : option (Z * ROW_VALUE) :=
  length ← uint2korr p;
  v ← row_set_value_char v (p @+ meta) length;
  Some (u32 (length + meta), v).

(** The switch of [parseOneRowData]: [rLen] and the value. *)
Definition decode_value (v : ROW_VALUE) (ptrData : ptr) (type meta length : Z)
    : option (Z * ROW_VALUE) :=
  let p := bytes ptrData in
  match field_type_of_Z type with
  | Some MYSQL_TYPE_LONG => si ← sint4korr p; Some (4, row_set_value_long v si)
  | Some MYSQL_TYPE_TINY => Some (1, row_set_value_long v (s32 (address ptrData)))
  | Some MYSQL_TYPE_SHORT => si ← sint2korr p; Some (2, row_set_value_long v si)
  | Some MYSQL_TYPE_INT24 => si ← sint3korr p; Some (3, row_set_value_long v si)
  | Some MYSQL_TYPE_LONGLONG => si ← sint8korr p; Some (8, row_set_value_long v si)
  | Some MYSQL_TYPE_NEWDECIMAL => decimal_value v p meta
  | Some MYSQL_TYPE_FLOAT =>
      f ← load 4 p; Some (4, row_set_value_double v (float_to_double (le_combine f)))
  | Some MYSQL_TYPE_DOUBLE => d ← load 8 p; Some (8, row_set_value_double v (le_combine d))
  | Some MYSQL_TYPE_BIT =>
      let nbits := u32 ((meta .>> 8) * 8 + (meta .& 0xFF)) in Some (u32 (nbits + 7) / 8, v)
  | Some MYSQL_TYPE_TIMESTAMP => _ ← uint4korr p; Some (4, v)
  | Some MYSQL_TYPE_TIMESTAMP2 => timestamp2_value v p meta
  | Some MYSQL_TYPE_DATETIME =>
      i64 ← uint8korr p; Some (8, row_set_value_time v (datetime_of_number i64))
  | Some MYSQL_TYPE_DATETIME2 => datetime2_value v p meta
  | Some MYSQL_TYPE_TIME =>
      i32 ← uint3korr p;
      Some (3, row_set_value_time v
                 (time_init 0 0 0 (i32 / 10000) (i32 mod 10000 / 100) (i32 mod 100) 0))
  | Some MYSQL_TYPE_TIME2 => time2_value v p meta
  | Some MYSQL_TYPE_NEWDATE => _ ← uint3korr p; Some (3, v)
  | Some MYSQL_TYPE_YEAR => i32 ← p !! 0%nat; Some (1, row_set_value_long v i32)
  | Some MYSQL_TYPE_ENUM => enum_value v p meta
  | Some MYSQL_TYPE_SET => Some (meta .& 0xFF, v)
  | Some MYSQL_TYPE_BLOB => r ← blob_rLen p meta; Some (r, v)
  | Some (MYSQL_TYPE_VARCHAR | MYSQL_TYPE_VAR_STRING) => varchar_value v p meta
  | Some MYSQL_TYPE_STRING => r ← parseRowDataToString p length; Some (fst r, v)
  | Some MYSQL_TYPE_JSON => json_value v p meta
  | _ => Some (0, v)
  end.

(** [rLen] and [row_values] after the call; a null pointer stands for NULL.  The
    value is copied into the vector, unless no case of the switch set it. *)
Definition parseOneRowData (row_values : list ROW_VALUE) (ptrData : option ptr) (type meta : Z)
    : option (Z * list ROW_VALUE) :=
  let '(type, length) := string_type type meta in
  let rowValueTmp := row_value_init type in
  r ← (match ptrData with
       | None => Some (0, row_set_value_null rowValueTmp)
       | Some p => decode_value rowValueTmp p type meta length
       end);
  let '(rLen, v) := r in
  if bool_decide (type_ v = VALUE_TYPE_UNSET) then Some (rLen, row_values)
  else v ← row_value_copy v; Some (rLen, row_values ++ [v]).

(** ** Rows *)

(** The loop over the columns: [n] are left from column [i] on; [value] is the
    offset from the start of the row. *)
Fixpoint row_columns (n : nat) (i null_bit_index : Z) (row_values : list ROW_VALUE) (td : CTableDef)
    (cols : MY_BITMAP) (row : ptr) (value : Z) : option (Z * list ROW_VALUE) :=
  match n with
  | O => Some (value, row_values)
  | S n =>
      b ← table_at (bytes row) (null_bit_index / 8);
      let is_null := negb ((b .>> (null_bit_index mod 8)) .& 1 =? 0) in
      present ← bitmap_is_set cols i;
      if present =? 0 then row_columns n (i + 1) null_bit_index row_values td cols row value
      else
        t ← type td i;
        m ← field_metadata td i;
        r ← parseOneRowData row_values (if is_null then None else Some (ptr_add row value)) t m;
        let '(rowSize, row_values) := r in
        row_columns n (i + 1) (null_bit_index + 1) row_values td cols row (value + rowSize)
  end.

Definition printOneRow (column_count : Z) (row_values : list ROW_VALUE) (td : CTableDef)
    (cols_bitmap : MY_BITMAP) (value : ptr) : option (Z * list ROW_VALUE) :=
  set ← bitmap_bits_set cols_bitmap;
  r ← row_columns (Z.to_nat column_count) 0 0 row_values td cols_bitmap value (u32 (set + 7) / 8);
  let '(len, row_values) := r in
  Some (u32 len, row_values).

(** ** The events *)

(** The classes: [CRowsEvent] and its three subclasses. *)
Inductive rows_class := Class_Rows | Class_Write | Class_Delete | Class_Update.

#[export] Instance rows_class_eq_dec : EqDecision rows_class.
Proof. solve_decision. Defined.

Definition getGeneralTypeCode (c : rows_class) : Log_event_type :=
  match c with
  | Class_Rows => UNKNOWN_EVENT
  | Class_Write => WRITE_ROWS_EVENT
  | Class_Delete => DELETE_ROWS_EVENT
  | Class_Update => UPDATE_ROWS_EVENT
  end.

(** [m_ptr_rows_data] is an offset into [m_ucStream]. *)
Record CRowsEvent := mk_rows_event {
  r_class : rows_class;
  r_log : CLogEvent;
  m_table_id : Z;
  m_table_flags : Z;
  m_column_count : Z;
  m_extra_row_data : list Z;
  m_column_before_image : list Z;
  m_column_after_image : list Z;
  m_crc32 : list Z;
  m_cols : MY_BITMAP;
  m_cols_ai : MY_BITMAP;
  m_p_tablemap_event : option TableMap.CTableMapEvent;
  m_ptr_rows_data : Z;
  m_rows_data_len : Z;
  m_row_before_values : list (list ROW_VALUE);
  m_row_after_values : list (list ROW_VALUE);
}.

(** The constructor clears the two bitmaps; [g] has the members it leaves
    uninitialised. *)
Definition new_CRowsEvent (desc : CHeaderEvent) (c : rows_class) (g : CRowsEvent) (eventPos : Z)
    (ucStream : list Z) : CRowsEvent :=
  mk_rows_event c (new_CLogEvent desc (r_log g) eventPos ucStream) (m_table_id g) (m_table_flags g)
    (m_column_count g) [] [] [] (m_crc32 g) (mk_bitmap None 0 0 0) (mk_bitmap None 0 0 0)
    (m_p_tablemap_event g) (m_ptr_rows_data g) (m_rows_data_len g) [] [].

Definition ROWS_V_EXTRAINFO_TAG : Z := 0.
Definition EXTRA_ROW_INFO_LEN_OFFSET : Z := 0.
Definition EXTRA_ROW_INFO_HDR_BYTES : Z := 2.
Definition ROWS_MAPID_OFFSET : Z := 0.
Definition ROWS_FLAGS_OFFSET : Z := 6.

(** The loop over the extra header, from the offset [pos] to [end_]: whether it
    completes, and [m_extra_row_data]. *)
Fixpoint extra_header (fuel : nat) (s : list Z) (end_ pos : Z) (extra : list Z) : run (bool * list Z) :=
  if pos <? end_ then
    match fuel with
    | O => NoFuel
    | S fuel =>
        tag ← of_option (table_at s pos);
        let pos := pos + 1 in
        if tag =? ROWS_V_EXTRAINFO_TAG then
          if end_ - pos <? EXTRA_ROW_INFO_HDR_BYTES then Ret (false, extra)
          else
            infoLen ← of_option (table_at s (pos + EXTRA_ROW_INFO_LEN_OFFSET));
            if end_ - pos <? infoLen then Ret (false, extra)
            else
              extra ← of_option (load (Z.to_nat infoLen) (s @+ pos));
              extra_header fuel s end_ (pos + infoLen) extra
        else extra_header fuel s end_ end_ extra
    end
  else Ret (true, extra).

(** [memcpy(map.bitmap, image, bitsLen)]. *)
Definition bitmap_write (map : MY_BITMAP) (image : list Z) : option MY_BITMAP :=
  l ← bitmap map;
  _ ← load (List.length image) l;
  Some (mk_bitmap (Some (image ++ drop (List.length image) l)) (n_bits map) (last_word_mask map)
          (last_word_ptr map)).

(** The two steps that set up [m_cols], and with it the mask of the last word;
    an empty image leaves a null buffer. *)
Definition init_cols (column_count : Z) (image : list Z) : option MY_BITMAP :=
  map ← bitmap_init malloc column_count;
  match image with
  | [] => Some (mk_bitmap None (n_bits map) (last_word_mask map) (last_word_ptr map))
  | _ => bitmap_write map image
  end.

(** The column sets, from the offset [var_start] on.  The mask of [m_cols] is
    recomputed where that of [m_cols_ai] is meant; both are already set. *)
Definition load_columns (s : list Z) (var_start : Z) (ev : CRowsEvent) : option CRowsEvent :=
  c ← get_field_length (s @+ var_start);
  let '(column_count, n) := c in
  let pos := var_start + n in
  let bitsLen := u32 (column_count + 7) / 8 in
  before ← load (Z.to_nat bitsLen) (s @+ pos);
  cols ← init_cols column_count before;
  let cols := match before with [] => cols | _ => create_last_word_mask cols end in
  let pos := pos + bitsLen in
  r ←
    (if bool_decide (getGeneralTypeCode (r_class ev) = UPDATE_ROWS_EVENT) then
       after ← load (Z.to_nat bitsLen) (s @+ pos);
       cols_ai ← init_cols column_count after;
       let cols := match after with [] => cols | _ => create_last_word_mask cols end in
       Some (after, cols, cols_ai, pos + bitsLen)
     else Some ([], cols, m_cols_ai ev, pos));
  let '(after, cols, cols_ai, pos) := r in
  Some (mk_rows_event (r_class ev) (r_log ev) (m_table_id ev) (m_table_flags ev) column_count
          (m_extra_row_data ev) before after (m_crc32 ev) cols cols_ai (m_p_tablemap_event ev) pos
          (u32 (m_event_size (r_log ev) - pos)) (m_row_before_values ev) (m_row_after_values ev)).

Definition CRowsEvent_loadEvent (fuel : nat) (desc : CHeaderEvent) (ev : CRowsEvent)
    : run (load_event_state * CRowsEvent) :=
  r ← of_option (parseHeader (r_log ev));
  let '(state, l) := r in
  let with_head l id flags extra :=
    mk_rows_event (r_class ev) l id flags (m_column_count ev) extra (m_column_before_image ev)
      (m_column_after_image ev) (m_crc32 ev) (m_cols ev) (m_cols_ai ev) (m_p_tablemap_event ev)
      (m_ptr_rows_data ev) (m_rows_data_len ev) (m_row_before_values ev) (m_row_after_values ev) in
  let failed st := Ret (st, with_head l (m_table_id ev) (m_table_flags ev) (m_extra_row_data ev)) in
  if negb (bool_decide (state = EVENT_SUCCESS)) then failed state
  else
    s ← of_option (m_ucStream l);
    postHeaderLen ← of_option (post_header_len desc l);
    if too_small l postHeaderLen then failed EVENT_EVENT_LENGTH_TOO_SMALL
    else
      let postHeaderStart := m_common_header_length l + ROWS_MAPID_OFFSET in
      id ← of_option (TableMap.read_table_id postHeaderLen (s @+ postHeaderStart));
      let postHeaderStart :=
        postHeaderStart + (if postHeaderLen =? 6 then 4 else ROWS_FLAGS_OFFSET) in
      flags ← of_option (uint2korr (s @+ postHeaderStart));
      let postHeaderStart := postHeaderStart + 2 in
      let too_small extra := Ret (EVENT_EXTRA_HEADER_LEN_TOO_SMALL, with_head l id flags extra) in
      let columns extra_header_len extra :=
        ev ← of_option (load_columns s (m_common_header_length l + postHeaderLen + extra_header_len)
                          (with_head l id flags extra));
        Ret (EVENT_SUCCESS, ev) in
      if postHeaderLen =? ROWS_HEADER_LEN_V2 then
        extra_header_len ← of_option (memcpy_u32 2 (s @+ postHeaderStart));
        if extra_header_len <? 2 then too_small (m_extra_row_data ev)
        else
          let extra_header_len := extra_header_len - 2 in
          let start := postHeaderStart + 2 in
          x ← extra_header fuel s (start + extra_header_len) start (m_extra_row_data ev);
          let '(ok, extra) := x in
          if negb ok then too_small extra else columns extra_header_len extra
      else columns 0 (m_extra_row_data ev).

(** [while(tmpDataLen < m_rows_data_len-4)].  An UPDATE reads its second row
    with the same column set and into the same vector as the first. *)
Fixpoint rows_loop (fuel : nat) (ev : CRowsEvent) (td : CTableDef) (p : ptr) (tmpDataLen : Z)
    (before after : list (list ROW_VALUE))
    : run (ptr * list (list ROW_VALUE) * list (list ROW_VALUE)) :=
  if tmpDataLen <? u32 (m_rows_data_len ev - 4) then
    match fuel with
    | O => NoFuel
    | S fuel =>
        r ← of_option (printOneRow (m_column_count ev) [] td (m_cols ev) p);
        let '(rowLength, tmp_value) := r in
        let before := before ++ [tmp_value] in
        let p := ptr_add p rowLength in
        let tmpDataLen := u32 (tmpDataLen + rowLength) in
        if bool_decide (getGeneralTypeCode (r_class ev) = UPDATE_ROWS_EVENT) then
          r ← of_option (printOneRow (m_column_count ev) tmp_value td (m_cols ev) p);
          let '(rowLength, tmp_value) := r in
          rows_loop fuel ev td (ptr_add p rowLength) (u32 (tmpDataLen + rowLength)) before
            (after ++ [tmp_value])
        else rows_loop fuel ev td p tmpDataLen before after
    end
  else Ret (p, before, after).

(** [base] is the address of [m_ucStream]. *)
Definition parseEvent (fuel : nat) (base : Z) (ev : CRowsEvent) : run (load_event_state * CRowsEvent) :=
  match m_p_tablemap_event ev with
  | None => Ret (EVENT_FIND_TABLEMAP_FAILED, ev)
  | Some tm =>
      td ← of_option (TableMap.createTableDef tm);
      s ← of_option (m_ucStream (r_log ev));
      r ← rows_loop fuel ev td (ptr_add (mk_ptr base s) (m_ptr_rows_data ev)) 0
            (m_row_before_values ev) (m_row_after_values ev);
      let '(p, before, after) := r in
      crc ← of_option (load 4 (bytes p));
      Ret (EVENT_SUCCESS,
           mk_rows_event (r_class ev) (r_log ev) (m_table_id ev) (m_table_flags ev)
             (m_column_count ev) (m_extra_row_data ev) (m_column_before_image ev)
             (m_column_after_image ev) crc (bitmap_free (m_cols ev)) (bitmap_free (m_cols_ai ev))
             (m_p_tablemap_event ev) (m_ptr_rows_data ev) (m_rows_data_len ev) before after)
  end.
End Rows.

Definition setTableMap (ev : CRowsEvent) (tm : option TableMap.CTableMapEvent) : CRowsEvent :=
  mk_rows_event (r_class ev) (r_log ev) (m_table_id ev) (m_table_flags ev) (m_column_count ev)
    (m_extra_row_data ev) (m_column_before_image ev) (m_column_after_image ev) (m_crc32 ev) (m_cols ev)
    (m_cols_ai ev) tm (m_ptr_rows_data ev) (m_rows_data_len ev) (m_row_before_values ev)
    (m_row_after_values ev).

Definition rows_getTableId (ev : CRowsEvent) : Z := m_table_id ev.

(** The kinds of change, by the type of the event: that of version 1 events is
    not listed. *)
Definition change_kind (event_type : Z) : Z * string :=
  match event_type_of_Z event_type with
  | Some WRITE_ROWS_EVENT => (1, "WRITE_ROWS_EVENT"%string)
  | Some DELETE_ROWS_EVENT => (2, "DELETE_ROWS_EVENT"%string)
  | Some UPDATE_ROWS_EVENT => (3, "UPDATE_ROWS_EVENT"%string)
  | _ => (0, "UNKNOWN_EVENT"%string)
  end.

Definition createRowData (ev : CRowsEvent) (threadid : Z) (dbname tablename : list Z)
    : RowData.CRowData :=
  let '(kind, name) := change_kind (m_event_type (r_log ev)) in
  RowData.mk_row_data (m_column_count ev) threadid kind (m_timestamp (r_log ev)) name tablename dbname
    (m_row_before_values ev) (m_row_after_values ev).

(** The destructor frees the text of every value. *)
Definition destroy_rows (ev : CRowsEvent) : list (list ROW_VALUE) * list (list ROW_VALUE) :=
  (map (map row_value_free) (m_row_before_values ev), map (map row_value_free) (m_row_after_values ev)).

(** ** The format of a row *)

Section RowFormat.
Context (dec_garbage buff_garbage : list Z).

(** A column of a row image: not in the image, NULL, or the bytes of a value
    and the value they stand for (at an address, for the code stores one). *)
Inductive slot :=
  | Absent
  | Null
  | Cell (bs : list Z) (v : Z → option ROW_VALUE).

Record column := mk_column { c_type : Z; c_meta : Z; c_slot : slot }.

Definition is_absent (c : column) : bool := match c_slot c with Absent => true | _ => false end.

(** [bs] is what the decoder takes for a column of type [t] and metadata [m],
    wherever it is and whatever follows. *)
Definition cell_reads (t m : Z) (bs : list Z) (v : Z → option ROW_VALUE) : Prop :=
  bytes_ok bs ∧
  ∀ addr rest vals, bytes_ok rest →
    parseOneRowData dec_garbage buff_garbage vals (Some (mk_ptr addr (bs ++ rest))) t m =
    Some (Z.of_nat (length bs), vals ++ option_list (v addr)).

Definition slot_ok (c : column) : Prop :=
  match c_slot c with Cell bs v => cell_reads (c_type c) (c_meta c) bs v | _ => True end.

Definition null_value (c : column) : ROW_VALUE :=
  mk_row_value VALUE_TYPE_NULL (u16 (fst (string_type (c_type c) (c_meta c)))) rv_none.

Fixpoint present_count (cols : list column) : nat :=
  match cols with
  | [] => 0
  | c :: cols => (if is_absent c then 0 else 1) + present_count cols
  end.

(** One bit for each column of the image, set for NULL. *)
Fixpoint null_bits (cols : list column) : Z :=
  match cols with
  | [] => 0
  | c :: cols =>
      match c_slot c with
      | Absent => null_bits cols
      | Null => 1 + 2 * null_bits cols
      | Cell _ _ => 2 * null_bits cols
      end
  end.

Definition slot_bytes (c : column) : list Z := match c_slot c with Cell bs _ => bs | _ => [] end.
Definition row_data (cols : list column) : list Z := concat (map slot_bytes cols).
Definition null_bytes (cols : list column) : nat := Z.to_nat ((Z.of_nat (present_count cols) + 7) / 8).

Definition encode_row (cols : list column) : list Z :=
  le_split (null_bytes cols) (null_bits cols) ++ row_data cols.

(** The values of the row whose data starts at the address [addr]. *)
Fixpoint values_from (addr : Z) (cols : list column) : list ROW_VALUE :=
  match cols with
  | [] => []
  | c :: cols =>
      match c_slot c with
      | Absent => values_from addr cols
      | Null => null_value c :: values_from addr cols
      | Cell bs v => option_list (v (u32 addr)) ++ values_from (addr + Z.of_nat (length bs)) cols
      end
  end.

Definition row_values_at (addr : Z) (cols : list column) : list ROW_VALUE :=
  values_from (addr + Z.of_nat (null_bytes cols)) cols.

(** The table definition and the column set are those of the columns, from
    column [i] on. *)
Fixpoint row_ok (td : CTableDef) (map : MY_BITMAP) (i : Z) (cols : list column) : Prop :=
  match cols with
  | [] => True
  | c :: cols =>
      (∃ r, bitmap_is_set map i = Some r ∧ (r ≠ 0 ↔ is_absent c = false)) ∧
      (is_absent c = false → type td i = Some (c_type c) ∧ field_metadata td i = Some (c_meta c)) ∧
      slot_ok c ∧ row_ok td map (i + 1) cols
  end.

Lemma parse_null vals c :
  parseOneRowData dec_garbage buff_garbage vals None (c_type c) (c_meta c) =
  Some (0, vals ++ [null_value c]).
Proof. unfold parseOneRowData, null_value. by destruct (string_type _ _). Qed.

Lemma null_bit_test b k : 0 <= k → negb ((b .>> k) .& 1 =? 0) = Z.testbit b k.
Proof.
  intros Hk. rewrite Z.shiftr_div_pow2 by done. change 1 with (Z.ones 1).
  rewrite Z.land_ones by lia. rewrite Z.testbit_odd, Z.shiftr_div_pow2 by done.
  change (2 ^ 1) with 2. rewrite Zmod_odd. by destruct (Z.odd _).
Qed.

(** The byte of the null bit [k], when the bit is one of the row's. *)
Lemma null_bit_byte n v rest k :
  0 <= k → (Z.to_nat (k / 8) < n)%nat →
  ∃ b, table_at (le_split n v ++ rest) (k / 8) = Some b ∧
    Z.testbit b (k mod 8) = Z.testbit (v mod 256 ^ Z.of_nat n) k.
Proof.
  intros Hk Hn. exists (nth (Z.to_nat (k / 8)) (le_split n v) 0). split.
  - unfold table_at. assert (0 <= k / 8) by (apply Z.div_pos; lia).
    destruct (Z.ltb_spec (k / 8) 0); [lia|].
    rewrite lookup_app_l by (by rewrite length_le_split). apply lookup_nth. by rewrite length_le_split.
  - by rewrite <- le_combine_split, le_combine_testbit by auto with cint.
Qed.

Lemma null_bits_range cols : 0 <= null_bits cols < 2 ^ Z.of_nat (present_count cols).
Proof.
  induction cols as [|c cols IH]; cbn [null_bits present_count]; [done|].
  unfold is_absent. destruct (c_slot c); cbn [Nat.add]; [done|..];
    rewrite Nat2Z.inj_succ, Z.pow_succ_r by lia; lia.
Qed.

Lemma table_at_in l i : 0 <= i < Z.of_nat (length l) → ∃ b, table_at l i = Some b.
Proof.
  intros Hi. unfold table_at. destruct (Z.ltb_spec i 0); [lia|].
  apply lookup_lt_is_Some. lia.
Qed.

Lemma row_data_cons c cols : row_data (c :: cols) = slot_bytes c ++ row_data cols.
Proof. reflexivity. Qed.

Lemma row_data_bytes td bm i cols : row_ok td bm i cols → bytes_ok (row_data cols).
Proof.
  revert i. induction cols as [|c cols IH]; intros i; [constructor|].
  cbn [row_ok]. intros (_ & _ & Hs & H). rewrite row_data_cons. apply Forall_app.
  split; [|by eapply IH]. unfold slot_ok, slot_bytes in *. destruct (c_slot c); [done..|]. apply Hs.
Qed.

(** The null bits of the columns behind one that is in the image. *)
Lemma null_bits_next X nb k c cols : is_absent c = false → 0 <= k →
  (∀ j, 0 <= j < Z.of_nat (present_count (c :: cols)) →
     Z.testbit (X mod 256 ^ Z.of_nat nb) (k + j) = Z.testbit (null_bits (c :: cols)) j) →
  Z.testbit (X mod 256 ^ Z.of_nat nb) k = Z.testbit (null_bits (c :: cols)) 0 ∧
  ∀ j, 0 <= j < Z.of_nat (present_count cols) →
    Z.testbit (X mod 256 ^ Z.of_nat nb) (k + 1 + j) = Z.testbit (null_bits cols) j.
Proof.
  intros Ab Hk Hbits. cbn [present_count] in Hbits. rewrite Ab in Hbits.
  split; [rewrite <- (Hbits 0) by lia; by rewrite Z.add_0_r|].
  intros j Hj. replace (k + 1 + j) with (k + (1 + j)) by lia. rewrite (Hbits (1 + j)) by lia.
  cbn [null_bits]. unfold is_absent in Ab. destruct (c_slot c); [discriminate|..].
  - rewrite (Z.add_comm 1 (2 * _)), (Z.add_comm 1 j). apply Z.testbit_odd_succ. lia.
  - rewrite (Z.add_comm 1 j). apply Z.testbit_even_succ. lia.
Qed.

(** The loop over the columns from column [i] on, with [k] columns of the image
    and the bytes [pre] of their values behind it. *)
Lemma row_columns_ok td bm addr nb N rest cols i k vals pre :
  row_ok td bm i cols → 0 <= k → bytes_ok rest → rest ≠ [] →
  (k + Z.of_nat (present_count cols) + 7) / 8 <= Z.of_nat nb →
  (∀ j, 0 <= j < Z.of_nat (present_count cols) →
     Z.testbit (N mod 256 ^ Z.of_nat nb) (k + j) = Z.testbit (null_bits cols) j) →
  row_columns dec_garbage buff_garbage (length cols) i k vals td bm
    (mk_ptr addr (le_split nb N ++ pre ++ row_data cols ++ rest)) (Z.of_nat (nb + length pre)) =
  Some (Z.of_nat (nb + length (pre ++ row_data cols)),
        vals ++ values_from (addr + Z.of_nat (nb + length pre)) cols).
Proof.
  revert i k vals pre. induction cols as [|c cols IH]; intros i k vals pre Hok Hk Hr Hne Hnb Hbits.
  { cbn [length row_columns values_from]. unfold row_data. cbn [map concat].
    by rewrite !app_nil_r. }
  cbn [row_ok] in Hok. destruct Hok as ((r & Hset & Hr0) & Htype & Hslot & Hok).
  pose proof (row_data_bytes _ _ _ _ Hok) as Hdata.
  cbn [length row_columns bytes].
  assert (Hlen : 0 < Z.of_nat (length rest)) by (destruct rest; cbn; [done|lia]).
  rewrite row_data_cons in *. pose proof (null_bits_next N nb k c cols) as Hnull. cbn [present_count null_bits] in *.
  destruct (is_absent c) eqn:Ab.
  - (* not in the image *)
    unfold is_absent in Ab. unfold slot_bytes in *.
    destruct (c_slot c) eqn:Ec; [|discriminate..]. cbn [Nat.add app] in *.
    destruct (table_at_in (le_split nb N ++ pre ++ row_data cols ++ rest) (k / 8)) as [b ->].
    { rewrite !length_app, length_le_split. zdm. }
    cbn [mbind option_bind]. rewrite Hset. cbn [mbind option_bind].
    destruct (Z.eqb_spec r 0) as [_|Hr1]; [|apply Hr0 in Hr1; discriminate].
    rewrite (IH (i + 1) k vals pre) by done. cbn [values_from]. by rewrite Ec.
  - assert (Hb : (Z.to_nat (k / 8) < nb)%nat) by zdm.
    destruct (null_bit_byte nb N (pre ++ (slot_bytes c ++ row_data cols) ++ rest) k Hk Hb) as (b & -> & Hb1).
    cbn [mbind option_bind]. rewrite null_bit_test by (apply Z.mod_pos_bound; lia).
    rewrite Hset. cbn [mbind option_bind].
    destruct (Z.eqb_spec r 0) as [Hr1|_]; [apply Hr0 in Hr1; [done|done]|].
    destruct (Htype eq_refl) as [-> ->]. cbn [mbind option_bind].
    destruct (Hnull eq_refl Hk Hbits) as [Hb0 Hnext]. rewrite <- Hb1 in Hb0. rewrite Hb0.
    assert (Hk1 : (k + 1 + Z.of_nat (present_count cols) + 7) / 8 <= Z.of_nat nb).
    { etrans; [|exact Hnb]. apply Z.div_le_mono; lia. }
    unfold is_absent, slot_ok, slot_bytes in *. cbn [values_from].
    destruct (c_slot c) as [| |bs v]; [discriminate|..].
    + replace (Z.testbit (1 + 2 * null_bits cols) 0) with true
        by (rewrite Z.add_comm; symmetry; apply Z.testbit_odd_0).
      rewrite parse_null. cbn [mbind option_bind app]. rewrite Z.add_0_r.
      rewrite IH by (done || lia). by rewrite <- app_assoc.
    + rewrite Z.testbit_even_0. destruct Hslot as [Hbs Hread]. unfold ptr_add. cbn [address bytes].
      rewrite (seek (le_split nb N ++ pre) (bs ++ row_data cols ++ rest));
        [|by rewrite <- !app_assoc|by rewrite length_app, length_le_split].
      rewrite Hread by (apply Forall_app; done). cbn [mbind option_bind].
      replace (pre ++ (bs ++ row_data cols) ++ rest) with ((pre ++ bs) ++ row_data cols ++ rest)
        by (by rewrite <- !app_assoc).
      replace (Z.of_nat (nb + length pre) + Z.of_nat (length bs))
        with (Z.of_nat (nb + length (pre ++ bs))) by (rewrite length_app; lia).
      rewrite IH by (done || lia). rewrite <- !app_assoc.
      replace (addr + Z.of_nat (nb + length (pre ++ bs)))
        with (addr + Z.of_nat (nb + length pre) + Z.of_nat (length bs)) by (rewrite length_app; lia).
      done.
Qed.

(** The columns of the image are the bits of the set. *)
Lemma popcount_present td bm i cols v :
  row_ok td bm i cols → 0 <= i →
  (∀ j r, i <= j < i + Z.of_nat (length cols) → bitmap_is_set bm j = Some r →
     (r ≠ 0 ↔ Z.testbit v (j - i) = true)) →
  popcount (length cols) v = Z.of_nat (present_count cols).
Proof.
  revert i v. induction cols as [|c cols IH]; intros i v Hok Hi H; [done|].
  cbn [row_ok] in Hok. destruct Hok as ((r & Hset & Hr) & _ & _ & Hok).
  cbn [length popcount present_count].
  specialize (H i r ltac:(cbn; lia) Hset) as H0. rewrite Z.sub_diag, Z.bit0_odd in H0.
  rewrite (IH (i + 1) (Z.div2 v)); [|done|lia|].
  - assert (Hodd : Z.odd v = negb (is_absent c)).
    { destruct (is_absent c), (Z.odd v); cbn; try done; exfalso; intuition congruence. }
    rewrite Hodd. destruct (is_absent c); cbn [negb Z.b2z]; lia.
  - intros j r' Hj Hset'. rewrite (H j r') by (cbn [length]; lia || done).
    rewrite Z.div2_spec, Z.shiftr_spec by lia. by replace (j - (i + 1) + 1) with (j - i) by lia.
Qed.

Lemma present_count_le cols : (present_count cols ≤ length cols)%nat.
Proof. induction cols as [|c cols IH]; cbn; [lia|]. destruct (is_absent c); lia. Qed.

(** One row: the values of the columns of the image, in order, and the exact
    number of bytes. *)
Lemma printOneRow_ok td bm l addr cols rest vals :
  row_ok td bm 0 cols → bitmap_wf bm l → n_bits bm = Z.of_nat (length cols) →
  bytes_ok rest → rest ≠ [] → Z.of_nat (length (encode_row cols)) < 2 ^ 32 →
  printOneRow dec_garbage buff_garbage (Z.of_nat (length cols)) vals td bm
    (mk_ptr addr (encode_row cols ++ rest)) =
  Some (Z.of_nat (length (encode_row cols)), vals ++ row_values_at addr cols).
Proof.
  intros Hok W Hn Hr Hne Hlen. unfold printOneRow.
  rewrite (bitmap_bits_set_popcount _ _ W), Hn, Nat2Z.id.
  assert (P : popcount (length cols) (bits bm) = Z.of_nat (present_count cols)).
  { apply (popcount_present td bm 0); [done|lia|]. intros j r Hj Hset.
    destruct (bitmap_is_set_wf bm l j W) as (r' & E & R); [lia|].
    rewrite E in Hset. injection Hset as ->. by rewrite Z.sub_0_r. }
  rewrite P. cbn [mbind option_bind].
  pose proof (wf_n_bits _ _ W). pose proof (present_count_le cols).
  rewrite (wrap_small 32 (_ + 7)) by lia.
  assert (Hnb : Z.of_nat (null_bytes cols) = (Z.of_nat (present_count cols) + 7) / 8)
    by (unfold null_bytes; zdm).
  pose proof (row_columns_ok td bm addr (null_bytes cols) (null_bits cols) rest cols 0 0 vals [] Hok) as RC.
  cbn [app length] in RC. rewrite Nat.add_0_r, Hnb in RC. unfold encode_row. rewrite <- app_assoc.
  rewrite RC; [|lia|done|done|by rewrite Z.add_0_l|].
  - cbn [mbind option_bind]. unfold row_values_at. rewrite Hnb, length_app, length_le_split.
    rewrite wrap_small; [done|]. unfold encode_row in Hlen. rewrite length_app, length_le_split in Hlen. lia.
  - intros j Hj. rewrite Z.mod_small; [done|]. pose proof (null_bits_range cols) as R.
    rewrite <- Hnb. change 256 with (2 ^ 8). rewrite <- Z.pow_mul_r by lia.
    assert (2 ^ Z.of_nat (present_count cols) <= 2 ^ (8 * Z.of_nat (null_bytes cols)))
      by (apply Z.pow_le_mono_r; zdm). lia.
Qed.

(** ** The formats of the values *)

(** Open the switch at a known type. *)
Ltac open_decode :=
  unfold decode_value; cbn [bytes]; rewrite ?field_type_of_to_Z;
  unfold timestamp2_value, datetime2_value, time2_value, enum_value, varchar_value, json_value.

(** What [parseOneRowData] makes of a value the switch decodes. *)
Lemma parse_decoded vals p t t' m len n v :
  string_type t m = (t', len) →
  decode_value dec_garbage buff_garbage (row_value_init t') p t' m len = Some (n, v) →
  (type_ v = VALUE_TYPE_UNSET ∨ value_wf v) →
  parseOneRowData dec_garbage buff_garbage vals (Some p) t m =
  Some (n, vals ++ option_list (if decide (type_ v = VALUE_TYPE_UNSET) then None else Some (cut_value v))).
Proof.
  intros Ht Hd Hv. unfold parseOneRowData. rewrite Ht, Hd. cbn [mbind option_bind].
  destruct (decide (type_ v = VALUE_TYPE_UNSET)) as [E|E].
  - rewrite bool_decide_eq_true_2 by done. by rewrite app_nil_r.
  - rewrite bool_decide_eq_false_2 by done. destruct Hv as [Hv|Hv]; [done|].
    by destruct (row_value_copy_wf v Hv) as [-> _].
Qed.

(** The value of a column of type [t]. *)
Definition shown (t : enum_field_types) (tag : row_value_tag) (v : row_value_group) : ROW_VALUE :=
  mk_row_value tag (field_type_to_Z t) v.

Lemma type_u16 t : u16 (field_type_to_Z t) = field_type_to_Z t.
Proof. by destruct t. Qed.

Lemma string_type_other t m : t ≠ MYSQL_TYPE_STRING → string_type (field_type_to_Z t) m = (field_type_to_Z t, 0).
Proof. by destruct t. Qed.

(** A cell from what the switch does on it. *)
Lemma cell_of_decode t m bs f :
  t ≠ MYSQL_TYPE_STRING → bytes_ok bs →
  (∀ addr, type_ (f addr) = VALUE_TYPE_UNSET ∨ value_wf (f addr)) →
  (∀ addr rest, bytes_ok rest →
     decode_value dec_garbage buff_garbage (row_value_init (field_type_to_Z t)) (mk_ptr addr (bs ++ rest))
       (field_type_to_Z t) m 0 = Some (Z.of_nat (length bs), f addr)) →
  cell_reads (field_type_to_Z t) m bs
    (λ addr, if decide (type_ (f addr) = VALUE_TYPE_UNSET) then None else Some (cut_value (f addr))).
Proof.
  intros Ht Hb Hf Hd. split; [done|]. intros addr rest vals Hr.
  eapply parse_decoded; [by apply string_type_other|by apply Hd|done].
Qed.

(** A value that is the same everywhere, and has no text to cut. *)
Lemma cell_constant t m bs v :
  t ≠ MYSQL_TYPE_STRING → bytes_ok bs → type_ v ≠ VALUE_TYPE_UNSET → value_wf v →
  (∀ addr rest, bytes_ok rest →
     decode_value dec_garbage buff_garbage (row_value_init (field_type_to_Z t)) (mk_ptr addr (bs ++ rest))
       (field_type_to_Z t) m 0 = Some (Z.of_nat (length bs), v)) →
  cell_reads (field_type_to_Z t) m bs (λ _, Some (cut_value v)).
Proof.
  intros Ht Hb Hv Hw Hd. split; [done|]. intros addr rest vals Hr.
  erewrite parse_decoded; [|by apply string_type_other|by apply Hd|by right].
  by rewrite decide_False.
Qed.

(** The integer types: width in bytes. *)
Definition int_width (t : enum_field_types) : option nat :=
  match t with
  | MYSQL_TYPE_SHORT => Some 2%nat
  | MYSQL_TYPE_INT24 => Some 3%nat
  | MYSQL_TYPE_LONG => Some 4%nat
  | MYSQL_TYPE_LONGLONG => Some 8%nat
  | _ => None
  end.

Lemma load_split n v r : load n (le_split n v ++ r) = Some (le_split n v).
Proof. apply load_app, length_le_split. Qed.

Lemma swrap_split w n v : 0 < w → w = 8 * Z.of_nat n → - 2 ^ (w - 1) <= v < 2 ^ (w - 1) →
  swrap w (le_combine (le_split n v)) = v.
Proof.
  intros Hw -> Hv. rewrite le_combine_split. change 256 with (2 ^ 8). rewrite <- Z.pow_mul_r by lia.
  rewrite swrap_mod by lia. by apply swrap_small.
Qed.

Lemma cell_int t n v m :
  int_width t = Some n → - 2 ^ (8 * Z.of_nat n - 1) <= v < 2 ^ (8 * Z.of_nat n - 1) →
  cell_reads (field_type_to_Z t) m (le_split n v) (λ _, Some (shown t VALUE_TYPE_LONGLONG (rv_long v))).
Proof.
  intros Hn Hv.
  assert (Hok : ∀ addr rest, bytes_ok rest →
    decode_value dec_garbage buff_garbage (row_value_init (field_type_to_Z t))
      (mk_ptr addr (le_split n v ++ rest)) (field_type_to_Z t) m 0 =
    Some (Z.of_nat (length (le_split n v)), shown t VALUE_TYPE_LONGLONG (rv_long v))).
  { intros addr rest Hr. rewrite length_le_split.
    assert (bytes_ok (le_split n v ++ rest)) by (apply Forall_app; auto with cint).
    open_decode.
    destruct t; cbn [int_width] in Hn; try discriminate; injection Hn as <-;
      rewrite ?sint2korr_le, ?sint3korr_le, ?sint4korr_le, ?sint8korr_le by done;
      rewrite load_split; cbn [fmap option_fmap option_map mbind option_bind];
      rewrite swrap_split by (done || lia); done. }
  eapply (cell_constant t m (le_split n v) (shown t VALUE_TYPE_LONGLONG (rv_long v))); auto with cint.
  - by destruct t.
  - done.
Qed.

Lemma cell_byte t b v m :
  t ≠ MYSQL_TYPE_STRING → is_byte b → type_ v ≠ VALUE_TYPE_UNSET → value_wf v →
  (∀ addr rest, decode_value dec_garbage buff_garbage (row_value_init (field_type_to_Z t))
     (mk_ptr addr (b :: rest)) (field_type_to_Z t) m 0 = Some (1, v)) →
  cell_reads (field_type_to_Z t) m [b] (λ _, Some (cut_value v)).
Proof.
  intros Ht Hb Hv Hw Hd. apply cell_constant; [done|by apply Forall_singleton|done|done|].
  intros addr rest _. apply Hd.
Qed.

Lemma cell_year b m :
  is_byte b →
  cell_reads (field_type_to_Z MYSQL_TYPE_YEAR) m [b]
    (λ _, Some (shown MYSQL_TYPE_YEAR VALUE_TYPE_LONGLONG (rv_long b))).
Proof. intros. by apply (cell_byte MYSQL_TYPE_YEAR b (shown MYSQL_TYPE_YEAR VALUE_TYPE_LONGLONG (rv_long b))). Qed.

Lemma cell_enum n v m :
  (n = 1 ∨ n = 2)%nat → m .& 0xFF = Z.of_nat n → 0 <= v < 256 ^ Z.of_nat n →
  cell_reads (field_type_to_Z MYSQL_TYPE_ENUM) m (le_split n v)
    (λ _, Some (shown MYSQL_TYPE_ENUM VALUE_TYPE_LONGLONG (rv_long v))).
Proof.
  intros Hn Hm Hv.
  apply (cell_constant MYSQL_TYPE_ENUM m (le_split n v)
    (shown MYSQL_TYPE_ENUM VALUE_TYPE_LONGLONG (rv_long v))); auto with cint; try done.
  intros addr rest Hr. open_decode. rewrite Hm.
  destruct Hn as [-> | ->]; cbn [Z.of_nat Pos.of_succ_nat Pos.succ].
  - cbn [le_split app lookup list_lookup mbind option_bind]. rewrite Z.mod_small by lia. done.
  - rewrite korr_split2 by done. cbn [mbind option_bind].
    change (256 ^ Z.of_nat 2) with (2 ^ 16) in Hv. by rewrite Z.mod_small by lia.
Qed.

Lemma cell_double d m :
  0 <= d < 2 ^ 64 →
  cell_reads (field_type_to_Z MYSQL_TYPE_DOUBLE) m (le_split 8 d)
    (λ _, Some (shown MYSQL_TYPE_DOUBLE VALUE_TYPE_DOUBLE (rv_double d))).
Proof.
  intros Hd. apply (cell_constant MYSQL_TYPE_DOUBLE m (le_split 8 d)
    (shown MYSQL_TYPE_DOUBLE VALUE_TYPE_DOUBLE (rv_double d))); auto with cint; try done.
  intros addr rest Hr. open_decode. rewrite load_split.
  cbn [mbind option_bind]. rewrite le_combine_split. change (256 ^ Z.of_nat 8) with (2 ^ 64).
  by rewrite Z.mod_small by lia.
Qed.

Lemma cell_float f m :
  0 <= f < 2 ^ 32 →
  cell_reads (field_type_to_Z MYSQL_TYPE_FLOAT) m (le_split 4 f)
    (λ _, Some (shown MYSQL_TYPE_FLOAT VALUE_TYPE_DOUBLE (rv_double (float_to_double f)))).
Proof.
  intros Hf. apply (cell_constant MYSQL_TYPE_FLOAT m (le_split 4 f)
    (shown MYSQL_TYPE_FLOAT VALUE_TYPE_DOUBLE (rv_double (float_to_double f)))); auto with cint; try done.
  intros addr rest Hr. open_decode. rewrite load_split.
  cbn [mbind option_bind]. rewrite le_combine_split. change (256 ^ Z.of_nat 4) with (2 ^ 32).
  by rewrite Z.mod_small by lia.
Qed.

(** The length prefix of a VARCHAR of at most [m] bytes. *)
Definition varchar_bytes (m : Z) (s : list Z) : list Z :=
  le_split (if m <? 256 then 1 else 2) (Z.of_nat (length s)) ++ s.

Lemma parseRowDataToString_ok m s rest :
  bytes_ok s → bytes_ok rest → Z.of_nat (length s) <= m → m < 2 ^ 16 →
  parseRowDataToString (varchar_bytes m s ++ rest) m =
  Some (Z.of_nat (length (varchar_bytes m s)), up_to_nul s).
Proof.
  intros Hs Hr Hl Hm. unfold parseRowDataToString, varchar_bytes. rewrite <- app_assoc.
  destruct (Z.ltb_spec m 256).
  - cbn [le_split app lookup list_lookup mbind option_bind]. rewrite Z.mod_small by lia.
    change (Z.to_nat 1) with 1%nat. cbn [drop]. rewrite drop_0, load_app by lia. cbn [mbind option_bind].
    rewrite c_string_up_to_nul. cbn [mbind option_bind length]. rewrite wrap_small by lia. do 2 f_equal. lia.
  - rewrite korr_split2 by (apply Forall_app; done). cbn [mbind option_bind].
    rewrite Z.mod_small by lia.
    rewrite (seek (le_split 2 (Z.of_nat (length s))) (s ++ rest)) by done.
    rewrite load_app by lia. cbn [mbind option_bind].
    rewrite c_string_up_to_nul. cbn [mbind option_bind]. rewrite length_app, length_le_split.
    rewrite wrap_small by lia. do 2 f_equal. lia.
Qed.

Lemma load_all l : load (length l) l = Some l.
Proof. rewrite load_some by done. by rewrite take_ge. Qed.

Lemma cell_varchar t m s :
  t = MYSQL_TYPE_VARCHAR ∨ t = MYSQL_TYPE_VAR_STRING →
  bytes_ok s → Z.of_nat (length s) <= m → m < 2 ^ 16 →
  cell_reads (field_type_to_Z t) m (varchar_bytes m s)
    (λ _, Some (shown t VALUE_TYPE_CHAR (rv_char (Some (up_to_nul s))))).
Proof.
  intros Ht Hs Hl Hm.
  assert (C : cell_reads (field_type_to_Z t) m (varchar_bytes m s)
    (λ _, Some (cut_value (shown t VALUE_TYPE_CHAR (rv_char (Some (up_to_nul s))))))).
  { apply cell_constant.
    - by destruct Ht as [-> | ->].
    - apply Forall_app; auto with cint.
    - done.
    - intros _. by eexists.
    - intros addr rest Hr. open_decode.
      rewrite parseRowDataToString_ok by done. cbn [mbind option_bind].
      unfold row_set_value_char. rewrite Nat2Z.id, load_all. cbn [mbind option_bind].
      by destruct Ht as [-> | ->]. }
  unfold cut_value in C. cbn [shown value_ type_ mysql_type_] in C. rewrite decide_True in C by done.
  by rewrite (up_to_nul_no_nul (up_to_nul s)) in C by apply no_nul_up_to_nul.
Qed.

Lemma cell_datetime2 t dec :
  time_fields_ok t → time_type t = MYSQL_TIMESTAMP_DATETIME → neg t = false → 0 <= dec <= 6 →
  second_part t < 1000000 → second_part t mod 10 ^ (6 - dec) = 0 →
  cell_reads (field_type_to_Z MYSQL_TYPE_DATETIME2) dec
    (my_datetime_packed_to_binary (TIME_to_longlong_datetime_packed t) dec)
    (λ _, Some (shown MYSQL_TYPE_DATETIME2 VALUE_TYPE_TIME (rv_time (datetime_of t)))).
Proof.
  intros Hf Ht Hn Hd Hp Hm. destruct (datetime_packed_ok t dec Hf Hn Hd Hp Hm) as [P P0].
  set (nr := TIME_to_longlong_datetime_packed t) in *.
  apply (cell_constant MYSQL_TYPE_DATETIME2 dec _
    (shown MYSQL_TYPE_DATETIME2 VALUE_TYPE_TIME (rv_time (datetime_of t)))); try done.
  - apply datetime_binary_bytes.
  - intros addr rest Hr. open_decode.
    rewrite (datetime_binary_roundtrip nr dec rest Hr P P0). cbn [mbind option_bind].
    unfold nr at 1. rewrite datetime_pack_unpack by (try done; congruence).
    by rewrite (datetime_binary_length nr dec Hd).
Qed.

Lemma cell_time2 t dec :
  year t = 0 → month t = 0 → day t = 0 → time_type t = MYSQL_TIMESTAMP_TIME →
  0 <= hour t <= 838 → 0 <= minute t < 60 → 0 <= second t < 60 → 0 <= dec <= 6 →
  0 <= second_part t < 1000000 → second_part t mod 10 ^ (6 - dec) = 0 →
  (neg t = true → hour t ≠ 0 ∨ minute t ≠ 0 ∨ second t ≠ 0 ∨ second_part t ≠ 0) →
  cell_reads (field_type_to_Z MYSQL_TYPE_TIME2) dec
    (my_time_packed_to_binary (TIME_to_longlong_time_packed t) dec)
    (λ _, Some (shown MYSQL_TYPE_TIME2 VALUE_TYPE_TIME (rv_time (time_of t)))).
Proof.
  intros Hy Hmo Hda Ht Hh Hmi Hse Hd Hp Hm Hn.
  pose proof (time_packed_ok t dec Hmo Hda Hh Hmi Hse Hd Hp Hm) as P.
  set (nr := TIME_to_longlong_time_packed t) in *.
  apply (cell_constant MYSQL_TYPE_TIME2 dec _
    (shown MYSQL_TYPE_TIME2 VALUE_TYPE_TIME (rv_time (time_of t)))); try done.
  - apply time_binary_bytes.
  - intros addr rest Hr. open_decode.
    rewrite (time_binary_roundtrip nr dec rest Hr P). cbn [mbind option_bind].
    unfold nr at 1 2. rewrite time_pack_unpack by (try done; try lia; congruence).
    destruct (my_time_to_str_defined t dec Hd) as [s ->]. cbn [mbind option_bind].
    by rewrite (time_binary_length nr dec Hd).
Qed.

(** The formats before MySQL 5.6: the digits of the fields as one number. *)
Lemma cell_datetime y mo d h mi sec m :
  0 <= y < 10000 → 0 <= mo < 100 → 0 <= d < 100 → 0 <= h < 100 → 0 <= mi < 100 → 0 <= sec < 100 →
  cell_reads (field_type_to_Z MYSQL_TYPE_DATETIME) m
    (le_split 8 (((y * 100 + mo) * 100 + d) * 1000000 + ((h * 100 + mi) * 100 + sec)))
    (λ _, Some (shown MYSQL_TYPE_DATETIME VALUE_TYPE_TIME (rv_time (time_init y mo d h mi sec 0)))).
Proof.
  intros. set (nr := ((y * 100 + mo) * 100 + d) * 1000000 + ((h * 100 + mi) * 100 + sec)).
  apply (cell_constant MYSQL_TYPE_DATETIME m (le_split 8 nr)
    (shown MYSQL_TYPE_DATETIME VALUE_TYPE_TIME (rv_time (time_init y mo d h mi sec 0)))); auto with cint; try done.
  intros addr rest Hr. open_decode.
  rewrite uint8korr_le, load_split by (apply Forall_app; auto with cint).
  cbn [fmap option_fmap option_map mbind option_bind]. rewrite le_combine_split, Z.mod_small by (unfold nr; zpow; lia).
  unfold datetime_of_number. replace (u32 (nr / 1000000)) with ((y * 100 + mo) * 100 + d)
    by (rewrite wrap_small; unfold nr; zpow; zdm).
  replace (nr mod 1000000) with ((h * 100 + mi) * 100 + sec) by (unfold nr; zdm).
  replace (((y * 100 + mo) * 100 + d) / 10000) with y by zdm.
  replace (((y * 100 + mo) * 100 + d) mod 10000 / 100) with mo by zdm.
  replace (((y * 100 + mo) * 100 + d) mod 100) with d by zdm.
  replace (((h * 100 + mi) * 100 + sec) / 10000) with h by zdm.
  replace (((h * 100 + mi) * 100 + sec) mod 10000 / 100) with mi by zdm.
  by replace (((h * 100 + mi) * 100 + sec) mod 100) with sec by zdm.
Qed.

Lemma cell_time h mi sec m :
  0 <= h <= 838 → 0 <= mi < 100 → 0 <= sec < 100 →
  cell_reads (field_type_to_Z MYSQL_TYPE_TIME) m (le_split 3 ((h * 100 + mi) * 100 + sec))
    (λ _, Some (shown MYSQL_TYPE_TIME VALUE_TYPE_TIME (rv_time (time_init 0 0 0 h mi sec 0)))).
Proof.
  intros. set (nr := (h * 100 + mi) * 100 + sec).
  apply (cell_constant MYSQL_TYPE_TIME m (le_split 3 nr)
    (shown MYSQL_TYPE_TIME VALUE_TYPE_TIME (rv_time (time_init 0 0 0 h mi sec 0)))); auto with cint; try done.
  intros addr rest Hr. open_decode.
  rewrite uint3korr_le, load_split by (apply Forall_app; auto with cint).
  cbn [fmap option_fmap option_map mbind option_bind]. rewrite le_combine_split, Z.mod_small by (unfold nr; zpow; lia).
  replace (nr / 10000) with h by (unfold nr; zdm). replace (nr mod 10000 / 100) with mi by (unfold nr; zdm).
  by replace (nr mod 100) with sec by (unfold nr; zdm).
Qed.

(** A document below 64 kB behind its length of four bytes, of which two are read. *)
Lemma cell_json doc :
  bytes_ok doc → Z.of_nat (length doc) < 2 ^ 16 →
  cell_reads (field_type_to_Z MYSQL_TYPE_JSON) 4 (le_split 4 (Z.of_nat (length doc)) ++ doc)
    (λ _, Some (shown MYSQL_TYPE_JSON VALUE_TYPE_CHAR (rv_char (Some (up_to_nul doc))))).
Proof.
  intros Hd Hl. set (L := Z.of_nat (length doc)) in *.
  assert (E4 : le_split 4 L = le_split 2 L ++ [0; 0]).
  { cbn [le_split app]. do 3 f_equal; [|f_equal]; zdm. }
  apply (cell_constant MYSQL_TYPE_JSON 4 (le_split 4 L ++ doc)
    (shown MYSQL_TYPE_JSON VALUE_TYPE_CHAR (rv_char (Some doc)))); try done.
  - apply Forall_app; auto with cint.
  - intros _. by eexists.
  - intros addr rest Hr. open_decode. rewrite length_app, length_le_split, <- app_assoc.
    rewrite (seek (le_split 4 L) (doc ++ rest)) by done. rewrite E4 at 1. rewrite <- app_assoc.
    rewrite korr_split2 by (apply Forall_app; split; [repeat constructor; lia|by apply Forall_app]).
    cbn [mbind option_bind]. rewrite Z.mod_small by (zpow; lia). unfold row_set_value_char.
    change (Z.to_nat L) with (Z.to_nat (Z.of_nat (length doc))). rewrite Nat2Z.id, load_app by done. cbn [mbind option_bind].
    rewrite wrap_small by lia. do 2 f_equal. unfold L. lia.
Qed.

Lemma decimal_groups_short neg precision scale I F room :
  decimal_params precision scale I F room →
  Z.of_nat (length (decimal_groups neg precision scale I F)) < 2 ^ 31.
Proof.
  intros P. pose proof (decimal_bin_size_groups neg precision scale I F room P) as E.
  unfold decimal_bin_size in E. invert_bind E. injection E as <-. apply (swrap_range 32). lia.
Qed.

Lemma cell_decimal neg precision scale n I F :
  decimal_params precision scale I F 9 → precision <= 65 → canonical n I →
  (neg = true → I ≠ 0 ∨ F ≠ 0) →
  length dec_garbage = 9%nat → length buff_garbage = 84%nat →
  cell_reads (field_type_to_Z MYSQL_TYPE_NEWDECIMAL) (precision * 256 + scale)
    (decimal_encode neg precision scale I F)
    (λ _, Some (shown MYSQL_TYPE_NEWDECIMAL VALUE_TYPE_CHAR
                  (rv_char (Some (decimal_text neg n I scale F))))).
Proof.
  intros P Hp C Hneg Hdg Hbg. pose proof P as [Hs Hpr HI HF _].
  destruct (decimal_encode_ok neg precision scale I F) as [Hb Hl].
  assert (Hn : Z.of_nat n <= Z.max 1 (precision - scale)).
  { destruct C as (_ & _ & [->|C]); [lia|].
    assert (H : 10 ^ (Z.of_nat n - 1) < 10 ^ (precision - scale)) by lia.
    apply Z.pow_lt_mono_r_iff in H; lia. }
  pose proof (length_decimal_text neg n I scale F) as Ht.
  set (text := decimal_text neg n I scale F) in *.
  assert (Cut : cut_value (shown MYSQL_TYPE_NEWDECIMAL VALUE_TYPE_CHAR (rv_char (Some text))) =
    shown MYSQL_TYPE_NEWDECIMAL VALUE_TYPE_CHAR (rv_char (Some text))).
  { unfold cut_value. cbn [shown value_ type_ mysql_type_]. rewrite decide_True by done.
    by rewrite up_to_nul_no_nul by apply decimal_text_no_nul. }
  rewrite <- Cut. apply cell_constant; [done|done|done|intros _; by eexists|].
  intros addr rest Hr. open_decode.
  unfold decimal_value.
  assert (E8 : (precision * 256 + scale) .>> 8 = precision) by (rewrite Z.shiftr_div_pow2 by lia; zpow; zdm).
  assert (E0 : (precision * 256 + scale) .& 0xFF = scale).
  { change 0xFF with (Z.ones 8). rewrite Z.land_ones by lia. zpow. zdm. }
  rewrite E8, E0. rewrite (decimal_bin_size_groups neg precision scale I F _ P). cbn [mbind option_bind].
  destruct (bin2decimal_ok neg precision scale I F (new_my_decimal dec_garbage) rest) as (d & E & R & Hsc);
    [by cbn [new_my_decimal buf]; rewrite Hdg|by cbn [new_my_decimal buf len]; rewrite Hdg|done|].
  unfold binary2my_decimal. rewrite E. cbn [mbind option_bind snd fst].
  pose proof (decimal2string_ok d neg I F n buff_garbage DECIMAL_MAX_STR_LENGTH 0 R ltac:(lia) C) as D.
  cbn zeta in D. rewrite Hsc in D. fold text in D. change DECIMAL_MAX_STR_LENGTH with 83 in *.
  rewrite D by lia. cbn [mbind option_bind]. unfold row_set_value_char.
  rewrite Nat2Z.id, load_app by done. cbn [mbind option_bind].
  rewrite <- Hl, wrap_small; [done|]. rewrite Hl.
  pose proof (decimal_groups_short neg precision scale I F _ P). lia.
Qed.

(** The types whose values the code skips: the bytes a value of the format has. *)
Inductive unstored_value : enum_field_types → Z → list Z → Prop :=
  | unstored_bit m bs : Z.of_nat (length bs) = ((m / 256) * 8 + m mod 256 + 7) / 8 →
      unstored_value MYSQL_TYPE_BIT m bs
  | unstored_timestamp m v : unstored_value MYSQL_TYPE_TIMESTAMP m (le_split 4 v)
  | unstored_timestamp2 m tm : 0 <= m <= 6 →
      - 2 ^ 31 <= tv_sec tm < 2 ^ 31 → 0 <= tv_usec tm < 1000000 → tv_usec tm mod 10 ^ (6 - m) = 0 →
      unstored_value MYSQL_TYPE_TIMESTAMP2 m (my_timestamp_to_binary tm m)
  | unstored_newdate m v : unstored_value MYSQL_TYPE_NEWDATE m (le_split 3 v)
  | unstored_set m bs : Z.of_nat (length bs) = m mod 256 → unstored_value MYSQL_TYPE_SET m bs
  | unstored_blob m s : 1 <= m <= 4 → Z.of_nat (length s) < 256 ^ m → Z.of_nat (length s) + m < 2 ^ 32 →
      unstored_value MYSQL_TYPE_BLOB m (le_split (Z.to_nat m) (Z.of_nat (length s)) ++ s).

Lemma timestamp_binary tm dec :
  0 <= dec <= 6 →
  bytes_ok (my_timestamp_to_binary tm dec) ∧
  my_timestamp_binary_length dec = Z.of_nat (length (my_timestamp_to_binary tm dec)).
Proof.
  intros Hd. unfold my_timestamp_to_binary. rewrite mi_int4store_be, mi_int3store_be, mi_int2store_be.
  dec_cases dec Hd; rewrite ?length_app, ?length_be_split, ?Forall_app, ?Forall_singleton;
    split; auto with cint.
Qed.

Lemma cell_unstored t m bs :
  unstored_value t m bs → bytes_ok bs → 0 <= m < 2 ^ 16 →
  cell_reads (field_type_to_Z t) m bs (λ _, None).
Proof.
  intros U Hb Hm. split; [done|]. intros addr rest vals Hr.
  assert (Br : bytes_ok (bs ++ rest)) by (by apply Forall_app).
  assert (Ht : t ≠ MYSQL_TYPE_STRING) by (by destruct U).
  assert (D : decode_value dec_garbage buff_garbage (row_value_init (field_type_to_Z t))
    (mk_ptr addr (bs ++ rest)) (field_type_to_Z t) m 0 =
    Some (Z.of_nat (length bs), row_value_init (field_type_to_Z t))).
  { open_decode.
    assert (E8 : m .>> 8 = m / 256) by (by rewrite Z.shiftr_div_pow2).
    assert (E0 : m .& 0xFF = m mod 256) by (change 0xFF with (Z.ones 8); by rewrite Z.land_ones).
    destruct U as [m bs L|m v|m tm Hd Hs Hu Hz|m v|m bs L|m s H1 H2 H3].
    - rewrite E8, E0, L, !wrap_small; [done|zdm|rewrite wrap_small; zdm].
    - rewrite korr_split4 by done. by rewrite length_le_split.
    - rewrite timestamp_binary_roundtrip by done. cbn [mbind option_bind].
      destruct (my_timeval_to_str_defined tm m Hd) as [s ->]. cbn [mbind option_bind].
      by destruct (timestamp_binary tm m Hd) as [_ ->].
    - rewrite uint3korr_le by done. rewrite load_split. by rewrite length_le_split.
    - by rewrite E0, L.
    - assert (C : m = 1 ∨ m = 2 ∨ m = 3 ∨ m = 4) by lia.
      rewrite length_app, length_le_split, <- app_assoc. rewrite <- app_assoc in Br. unfold blob_rLen.
      destruct C as [->|[->|[->| ->]]]; [change (Z.to_nat 1) with 1%nat in *|change (Z.to_nat 2) with 2%nat in *|
        change (Z.to_nat 3) with 3%nat in *|change (Z.to_nat 4) with 4%nat in *].
      + cbn [le_split app lookup list_lookup mbind option_bind]. rewrite Z.mod_small by lia.
        rewrite wrap_small by lia. do 2 f_equal. lia.
      + rewrite uint2korr_le by done. rewrite load_split. cbn [fmap option_fmap option_map mbind option_bind].
        rewrite le_combine_split, Z.mod_small, wrap_small by lia. do 2 f_equal. lia.
      + rewrite uint3korr_le by done. rewrite load_split. cbn [fmap option_fmap option_map mbind option_bind].
        rewrite le_combine_split, Z.mod_small, wrap_small by lia. do 2 f_equal. lia.
      + rewrite uint4korr_le by done. rewrite load_split. cbn [fmap option_fmap option_map mbind option_bind].
        rewrite le_combine_split, Z.mod_small, wrap_small by lia. do 2 f_equal. lia. }
  erewrite parse_decoded; [|by apply string_type_other|exact D|by left].
  by rewrite decide_True.
Qed.

(** TINYINT: the value stored is the address. *)
Lemma cell_tiny v m :
  cell_reads (field_type_to_Z MYSQL_TYPE_TINY) m (le_split 1 v)
    (λ addr, Some (shown MYSQL_TYPE_TINY VALUE_TYPE_LONGLONG (rv_long (s32 addr)))).
Proof.
  split; [auto with cint|]. intros addr rest vals Hr.
  rewrite (parse_decoded vals _ _ (field_type_to_Z MYSQL_TYPE_TINY) m 0 1
    (shown MYSQL_TYPE_TINY VALUE_TYPE_LONGLONG (rv_long (s32 addr))));
    [by rewrite decide_False|done|done|by right].
Qed.

(** ** All rows of an event *)

Lemma values_from_cong a b cols : u32 a = u32 b → values_from a cols = values_from b cols.
Proof.
  revert a b. induction cols as [|c cols IH]; intros a b E; [done|]. cbn [values_from].
  destruct (c_slot c) as [| |bs v].
  - by apply IH.
  - f_equal. by apply IH.
  - rewrite E. f_equal. apply IH. unfold wrap in *. rewrite <- Zplus_mod_idemp_l, E, Zplus_mod_idemp_l. done.
Qed.

Lemma row_values_u32 a cols : row_values_at (u32 a) cols = row_values_at a cols.
Proof. unfold row_values_at. apply values_from_cong. unfold wrap. by rewrite Zplus_mod_idemp_l. Qed.

(** One change: the row, and for an UPDATE the row after it. *)
Definition encode_change (upd : bool) (ch : list column * list column) : list Z :=
  encode_row (fst ch) ++ (if upd then encode_row (snd ch) else []).

Definition changes_bytes (upd : bool) (l : list (list column * list column)) : list Z :=
  concat (map (encode_change upd) l).

(** What the vectors get: of an UPDATE the second vector has, for every row, the
    values before and then the values after. *)
Fixpoint before_rows (upd : bool) (addr : Z) (l : list (list column * list column))
    : list (list ROW_VALUE) :=
  match l with
  | [] => []
  | ch :: l => row_values_at addr (fst ch) ::
      before_rows upd (addr + Z.of_nat (length (encode_change upd ch))) l
  end.

Fixpoint after_rows (upd : bool) (addr : Z) (l : list (list column * list column))
    : list (list ROW_VALUE) :=
  match l with
  | [] => []
  | ch :: l =>
      (if upd then [row_values_at addr (fst ch) ++
                    row_values_at (addr + Z.of_nat (length (encode_row (fst ch)))) (snd ch)]
       else []) ++
      after_rows upd (addr + Z.of_nat (length (encode_change upd ch))) l
  end.

Lemma rows_cong upd a b l :
  u32 a = u32 b → before_rows upd a l = before_rows upd b l ∧ after_rows upd a l = after_rows upd b l.
Proof.
  assert (P : ∀ x y z, u32 x = u32 y → u32 (x + z) = u32 (y + z)).
  { intros x y z E. unfold wrap in *. rewrite <- Zplus_mod_idemp_l, E, Zplus_mod_idemp_l. done. }
  revert a b. induction l as [|ch l IH]; intros a b E; [done|]. cbn [before_rows after_rows].
  destruct (IH (a + Z.of_nat (length (encode_change upd ch))) (b + Z.of_nat (length (encode_change upd ch))))
    as [-> ->]; [by apply P|].
  rewrite <- (row_values_u32 a), E, row_values_u32.
  rewrite <- (row_values_u32 (a + _)), (P a b _ E), row_values_u32. done.
Qed.

(** The columns of both rows are those of the set the decoder uses. *)
Definition change_ok (td : CTableDef) (bm : MY_BITMAP) (upd : bool) (ch : list column * list column) : Prop :=
  row_ok td bm 0 (fst ch) ∧ n_bits bm = Z.of_nat (length (fst ch)) ∧
  (upd = true → row_ok td bm 0 (snd ch) ∧ n_bits bm = Z.of_nat (length (snd ch))) ∧
  (0 < present_count (fst ch))%nat.

Lemma encode_row_nonempty cols : (0 < present_count cols)%nat → (0 < length (encode_row cols))%nat.
Proof.
  intros H. unfold encode_row, null_bytes. rewrite length_app, length_le_split. zdm.
Qed.

Lemma ptr_add_app addr a b :
  ptr_add (mk_ptr addr (a ++ b)) (Z.of_nat (length a)) = mk_ptr (u32 (addr + Z.of_nat (length a))) b.
Proof. unfold ptr_add. cbn [address bytes]. by rewrite (seek a b). Qed.

Lemma rows_loop_ok ev td l changes fuel addr trailer tmp before after
    (upd := bool_decide (getGeneralTypeCode (r_class ev) = UPDATE_ROWS_EVENT)) :
  bitmap_wf (m_cols ev) l → m_column_count ev = n_bits (m_cols ev) →
  Forall (change_ok td (m_cols ev) upd) changes → bytes_ok (changes_bytes upd changes) →
  bytes_ok trailer → trailer ≠ [] → (length changes ≤ fuel)%nat → 0 <= tmp → u32 addr = addr →
  tmp + Z.of_nat (length (changes_bytes upd changes)) = u32 (m_rows_data_len ev - 4) →
  rows_loop dec_garbage buff_garbage fuel ev td (mk_ptr addr (changes_bytes upd changes ++ trailer)) tmp
    before after =
  Ret (mk_ptr (u32 (addr + Z.of_nat (length (changes_bytes upd changes)))) trailer,
       before ++ before_rows upd addr changes, after ++ after_rows upd addr changes).
Proof.
  intros W Hcc Hok. revert fuel addr tmp before after.
  induction Hok as [|ch changes Hch Hok IH]; intros fuel addr tmp before after Hb Ht Hne Hf Htmp Ha Hlen.
  { cbn [changes_bytes map concat length] in Hlen. unfold changes_bytes in *. cbn [map concat] in *.
    destruct fuel; cbn [rows_loop]; rewrite <- Hlen; destruct (Z.ltb_spec tmp (tmp + Z.of_nat 0)); try lia;
      rewrite !app_nil_r; cbn [app length]; by rewrite Z.add_0_r, Ha. }
  destruct fuel as [|fuel]; [cbn in Hf; lia|]. cbn [length] in Hf.
  unfold changes_bytes in *. cbn [map concat] in *. set (tail := concat (map (encode_change upd) changes)) in *.
  destruct Hch as (Hr1 & Hn1 & Hr2 & Hp). pose proof (encode_row_nonempty _ Hp) as Hne1.
  apply Forall_app in Hb as [Hbc Hbt]. unfold encode_change in Hbc.
  rewrite length_app in Hlen. unfold encode_change in Hlen. rewrite length_app in Hlen.
  pose proof (wrap_range 32 (m_rows_data_len ev - 4) ltac:(lia)) as Hu.
  cbn [rows_loop]. destruct (Z.ltb_spec tmp (u32 (m_rows_data_len ev - 4))); [|lia].
  unfold encode_change. rewrite <- !app_assoc. rewrite Hcc, Hn1.
  apply Forall_app in Hbc as [Hb1 Hb2].
  rewrite (printOneRow_ok td (m_cols ev) l addr (fst ch)); [|done|done|done| | |lia].
  2:{ rewrite !Forall_app. split_and!; done. }
  2:{ intros E. apply app_nil in E as [_ E]. apply app_nil in E as [_ E]. done. }
  cbn [of_option mbind run_bind].
  cbn [app]. fold upd. rewrite ptr_add_app.
  assert (A : ∀ x y, u32 (u32 (addr + x) + y) = u32 (addr + (x + y))).
  { intros x y. unfold wrap. rewrite Zplus_mod_idemp_l. f_equal. lia. }
  assert (U : ∀ x, u32 (u32 x) = u32 x) by (intros; apply wrap_small, wrap_range; lia).
  rewrite (wrap_small 32 (tmp + _)) by lia.
  cbn [before_rows after_rows]. unfold encode_change.
  destruct upd eqn:Eu; cbv iota in Hlen, Hb2 |- *.
  - destruct (Hr2 eq_refl) as [Hr2' Hn2]. rewrite <- Hn1, Hn2.
    rewrite (printOneRow_ok td (m_cols ev) l _ (snd ch)); [|done|done|done|by apply Forall_app| |lia].
    2:{ intros E. by apply app_nil in E as [_ E]. }
    cbn [of_option mbind run_bind]. rewrite ptr_add_app, A, (wrap_small 32 (tmp + _ + _)) by lia.
    rewrite IH; [|done|done|done|lia|lia|by apply U|lia].
    rewrite (length_app (encode_row (fst ch)) (encode_row (snd ch))), Nat2Z.inj_add.
    destruct (rows_cong true (u32 (addr + (Z.of_nat (length (encode_row (fst ch))) +
      Z.of_nat (length (encode_row (snd ch)))))) _ changes (U _)) as [-> ->].
    rewrite row_values_u32, !length_app, A, <- !app_assoc, !Nat2Z.inj_add, !Z.add_assoc. done.
  - cbn [app]. rewrite app_nil_r. cbn [length] in Hlen.
    rewrite IH; [|done|done|done|lia|lia|by apply U|lia].
    destruct (rows_cong false (u32 (addr + Z.of_nat (length (encode_row (fst ch))))) _ changes (U _)) as [-> ->].
    rewrite !length_app, A, <- !app_assoc, !Nat2Z.inj_add, !Z.add_assoc. done.
Qed.

(** ** Rows without columns *)

Lemma row_columns_absent td bm row n i vals value :
  bytes row ≠ [] → (∀ j, i <= j < i + Z.of_nat n → bitmap_is_set bm j = Some 0) →
  row_columns dec_garbage buff_garbage n i 0 vals td bm row value = Some (value, vals).
Proof.
  intros Hb. revert i. induction n as [|n IH]; intros i H; [done|]. cbn [row_columns].
  destruct (table_at_in (bytes row) (0 / 8)) as [b ->].
  { destruct (bytes row); [done|]. change (0 / 8) with 0. cbn [length]. lia. }
  cbn [mbind option_bind]. rewrite H by lia. cbn [mbind option_bind Z.eqb]. apply IH. intros. apply H. lia.
Qed.

Lemma printOneRow_empty td bm l vals p :
  bitmap_wf bm l → (∀ j, 0 <= j < n_bits bm → Z.testbit (bits bm) j = false) → bytes p ≠ [] →
  printOneRow dec_garbage buff_garbage (n_bits bm) vals td bm p = Some (0, vals).
Proof.
  intros W Hz Hb. unfold printOneRow. pose proof (wf_n_bits _ _ W) as Hn.
  rewrite (bitmap_bits_set_popcount _ _ W).
  rewrite (popcount_bits _ (bits bm) 0).
  2:{ intros j Hj. rewrite Z.bits_0. apply Hz. lia. }
  rewrite popcount_0. cbn [mbind option_bind].
  rewrite row_columns_absent; [done|done|]. intros j Hj. rewrite Z2Nat.id in Hj by lia.
  destruct (bitmap_is_set_wf bm l j W) as (r & -> & Hr); [lia|].
  destruct (Z.eq_dec r 0) as [->|Hne]; [done|]. apply Hr in Hne. by rewrite Hz in Hne by lia.
Qed.

Lemma rows_loop_stuck ev td l fuel p tmp before after :
  bitmap_wf (m_cols ev) l → m_column_count ev = n_bits (m_cols ev) →
  (∀ j, 0 <= j < n_bits (m_cols ev) → Z.testbit (bits (m_cols ev)) j = false) → bytes p ≠ [] →
  0 <= tmp < u32 (m_rows_data_len ev - 4) →
  rows_loop dec_garbage buff_garbage fuel ev td p tmp before after = NoFuel.
Proof.
  intros W Hcc Hz Hb Htmp. pose proof (wrap_range 32 (m_rows_data_len ev - 4) ltac:(lia)) as Hu.
  revert p before after Hb. induction fuel as [|fuel IH]; intros p before after Hb; cbn [rows_loop];
    (destruct (Z.ltb_spec tmp (u32 (m_rows_data_len ev - 4))); [|lia]); [done|].
  assert (Hp : ∀ q, bytes (ptr_add q 0) = bytes q) by (intros; done).
  rewrite Hcc, (printOneRow_empty td _ l) by done. cbn [of_option mbind run_bind].
  rewrite Z.add_0_r, (wrap_small 32 tmp) by lia.
  destruct (bool_decide _); [|by apply IH].
  rewrite (printOneRow_empty td _ l) by done. cbn [of_option mbind run_bind].
  rewrite Z.add_0_r, (wrap_small 32 tmp) by lia. by apply IH.
Qed.
End RowFormat.

(** ** Properties of row images *)

(** C4: a row image is decoded exactly: for any table definition, any set of
    columns present in the image, and values each of which is NULL or a cell of
    its column's type, [printOneRow] appends the values of the present columns
    in order, NULL ones tagged NULL, and consumes exactly the bytes of the row. *)
Theorem row_image_decodes dec_garbage buff_garbage td bm l addr cols rest vals :
  row_ok dec_garbage buff_garbage td bm 0 cols → bitmap_wf bm l → n_bits bm = Z.of_nat (length cols) →
  bytes_ok rest → rest ≠ [] → Z.of_nat (length (encode_row cols)) < 2 ^ 32 →
  printOneRow dec_garbage buff_garbage (Z.of_nat (length cols)) vals td bm
    (mk_ptr addr (encode_row cols ++ rest)) =
  Some (Z.of_nat (length (encode_row cols)), vals ++ row_values_at addr cols).
Proof. apply printOneRow_ok. Qed.

Definition sample_td : CTableDef := mk_table_def 3 4 1 [3; 15; 246] [2] [0; 40; 2562].
Definition sample_cols : MY_BITMAP := create_last_word_mask (mk_bitmap (Some [7; 0; 0; 0]) 3 0 0).

Lemma sample_cols_wf : bitmap_wf sample_cols [7; 0; 0; 0].
Proof. split; [done|repeat constructor; unfold is_byte; lia|cbn; lia|done|done]. Qed.

Definition sample_row : list column :=
  [mk_column 3 0 (Cell (le_split 4 (-5)) (λ _, Some (shown MYSQL_TYPE_LONG VALUE_TYPE_LONGLONG (rv_long (-5)))));
   mk_column 15 40 (Cell (varchar_bytes 40 [97; 98])
     (λ _, Some (shown MYSQL_TYPE_VARCHAR VALUE_TYPE_CHAR (rv_char (Some [97; 98])))));
   mk_column 246 2562 Null].

Lemma sample_row_ok dg bg : row_ok dg bg sample_td sample_cols 0 sample_row.
Proof.
  assert (C1 : cell_reads dg bg 3 0 (le_split 4 (-5))
    (λ _, Some (shown MYSQL_TYPE_LONG VALUE_TYPE_LONGLONG (rv_long (-5)))))
    by (apply (cell_int dg bg MYSQL_TYPE_LONG 4 (-5) 0); [done|cbn; lia]).
  assert (C2 : cell_reads dg bg 15 40 (varchar_bytes 40 [97; 98])
    (λ _, Some (shown MYSQL_TYPE_VARCHAR VALUE_TYPE_CHAR (rv_char (Some [97; 98]))))).
  { apply (cell_varchar dg bg MYSQL_TYPE_VARCHAR 40 [97; 98]); [by left| |cbn; lia|lia].
    repeat constructor; unfold is_byte; lia. }
  unfold sample_row. cbn [row_ok].
  split_and!; [by exists 1|done|exact C1|by exists 2|done|exact C2|by exists 4|done|done|done].
Qed.

Lemma row_image_decodes_witness :
  printOneRow [] [] 3 [] sample_td sample_cols (mk_ptr 5000 (encode_row sample_row ++ [1; 2; 3; 4])) =
  Some (8, [shown MYSQL_TYPE_LONG VALUE_TYPE_LONGLONG (rv_long (-5));
            shown MYSQL_TYPE_VARCHAR VALUE_TYPE_CHAR (rv_char (Some [97; 98]));
            shown MYSQL_TYPE_NEWDECIMAL VALUE_TYPE_NULL rv_none]).
Proof.
  exact (row_image_decodes [] [] sample_td sample_cols [7; 0; 0; 0] 5000 sample_row [1; 2; 3; 4] []
    (sample_row_ok [] []) sample_cols_wf eq_refl ltac:(repeat constructor; unfold is_byte; lia)
    ltac:(discriminate) ltac:(vm_compute; reflexivity)).
Defined.

(** C6: every format of which the code stores a value, and the value it stores.  Written
    values come back for the signed integers of 2, 3, 4 and 8 bytes, YEAR, ENUM, FLOAT and
    DOUBLE, DECIMAL as its exact decimal text, and the old DATETIME and TIME; the others
    lose a part: VARCHAR and a JSON document below 64 kB all from their first NUL on,
    DATETIME2 and TIME2 the fraction of a second, TIME2 its sign; and of a TINYINT the
    value is lost, as the address of its byte is stored. *)
Theorem value_formats dg bg :
  length dg = 9%nat → length bg = 84%nat →
  (∀ t n v m, int_width t = Some n → - 2 ^ (8 * Z.of_nat n - 1) <= v < 2 ^ (8 * Z.of_nat n - 1) →
     cell_reads dg bg (field_type_to_Z t) m (le_split n v)
       (λ _, Some (shown t VALUE_TYPE_LONGLONG (rv_long v)))) ∧
  (∀ b m, is_byte b → cell_reads dg bg (field_type_to_Z MYSQL_TYPE_YEAR) m [b]
     (λ _, Some (shown MYSQL_TYPE_YEAR VALUE_TYPE_LONGLONG (rv_long b)))) ∧
  (∀ n v m, (n = 1 ∨ n = 2)%nat → m .& 0xFF = Z.of_nat n → 0 <= v < 256 ^ Z.of_nat n →
     cell_reads dg bg (field_type_to_Z MYSQL_TYPE_ENUM) m (le_split n v)
       (λ _, Some (shown MYSQL_TYPE_ENUM VALUE_TYPE_LONGLONG (rv_long v)))) ∧
  (∀ d m, 0 <= d < 2 ^ 64 → cell_reads dg bg (field_type_to_Z MYSQL_TYPE_DOUBLE) m (le_split 8 d)
     (λ _, Some (shown MYSQL_TYPE_DOUBLE VALUE_TYPE_DOUBLE (rv_double d)))) ∧
  (∀ f m, 0 <= f < 2 ^ 32 → cell_reads dg bg (field_type_to_Z MYSQL_TYPE_FLOAT) m (le_split 4 f)
     (λ _, Some (shown MYSQL_TYPE_FLOAT VALUE_TYPE_DOUBLE (rv_double (float_to_double f))))) ∧
  (∀ t m s, t = MYSQL_TYPE_VARCHAR ∨ t = MYSQL_TYPE_VAR_STRING → bytes_ok s →
     Z.of_nat (length s) <= m → m < 2 ^ 16 →
     cell_reads dg bg (field_type_to_Z t) m (varchar_bytes m s)
       (λ _, Some (shown t VALUE_TYPE_CHAR (rv_char (Some (up_to_nul s)))))) ∧
  (∀ neg precision scale n I F, decimal_params precision scale I F 9 → precision <= 65 →
     canonical n I → (neg = true → I ≠ 0 ∨ F ≠ 0) →
     cell_reads dg bg (field_type_to_Z MYSQL_TYPE_NEWDECIMAL) (precision * 256 + scale)
       (decimal_encode neg precision scale I F)
       (λ _, Some (shown MYSQL_TYPE_NEWDECIMAL VALUE_TYPE_CHAR
                     (rv_char (Some (decimal_text neg n I scale F)))))) ∧
  (∀ t dec, time_fields_ok t → time_type t = MYSQL_TIMESTAMP_DATETIME → neg t = false →
     0 <= dec <= 6 → second_part t < 1000000 → second_part t mod 10 ^ (6 - dec) = 0 →
     cell_reads dg bg (field_type_to_Z MYSQL_TYPE_DATETIME2) dec
       (my_datetime_packed_to_binary (TIME_to_longlong_datetime_packed t) dec)
       (λ _, Some (shown MYSQL_TYPE_DATETIME2 VALUE_TYPE_TIME (rv_time (datetime_of t))))) ∧
  (∀ t dec, year t = 0 → month t = 0 → day t = 0 →
     time_type t = MYSQL_TIMESTAMP_TIME → 0 <= hour t <= 838 → 0 <= minute t < 60 →
     0 <= second t < 60 → 0 <= dec <= 6 → 0 <= second_part t < 1000000 →
     second_part t mod 10 ^ (6 - dec) = 0 →
     (neg t = true → hour t ≠ 0 ∨ minute t ≠ 0 ∨ second t ≠ 0 ∨ second_part t ≠ 0) →
     cell_reads dg bg (field_type_to_Z MYSQL_TYPE_TIME2) dec
       (my_time_packed_to_binary (TIME_to_longlong_time_packed t) dec)
       (λ _, Some (shown MYSQL_TYPE_TIME2 VALUE_TYPE_TIME (rv_time (time_of t))))) ∧
  (∀ y mo d h mi sec m, 0 <= y < 10000 → 0 <= mo < 100 → 0 <= d < 100 → 0 <= h < 100 → 0 <= mi < 100 → 0 <= sec < 100 →
     cell_reads dg bg (field_type_to_Z MYSQL_TYPE_DATETIME) m
       (le_split 8 (((y * 100 + mo) * 100 + d) * 1000000 + ((h * 100 + mi) * 100 + sec)))
       (λ _, Some (shown MYSQL_TYPE_DATETIME VALUE_TYPE_TIME (rv_time (time_init y mo d h mi sec 0))))) ∧
  (∀ h mi sec m, 0 <= h <= 838 → 0 <= mi < 100 → 0 <= sec < 100 →
     cell_reads dg bg (field_type_to_Z MYSQL_TYPE_TIME) m (le_split 3 ((h * 100 + mi) * 100 + sec))
       (λ _, Some (shown MYSQL_TYPE_TIME VALUE_TYPE_TIME (rv_time (time_init 0 0 0 h mi sec 0))))) ∧
  (∀ doc, bytes_ok doc → Z.of_nat (length doc) < 2 ^ 16 →
     cell_reads dg bg (field_type_to_Z MYSQL_TYPE_JSON) 4 (le_split 4 (Z.of_nat (length doc)) ++ doc)
       (λ _, Some (shown MYSQL_TYPE_JSON VALUE_TYPE_CHAR (rv_char (Some (up_to_nul doc)))))) ∧
  (∀ v m, cell_reads dg bg (field_type_to_Z MYSQL_TYPE_TINY) m (le_split 1 v)
     (λ addr, Some (shown MYSQL_TYPE_TINY VALUE_TYPE_LONGLONG (rv_long (s32 addr))))).
Proof.
  intros Hdg Hbg. split_and!; intros; auto using cell_int, cell_year, cell_enum, cell_double, cell_float,
    cell_varchar, cell_decimal, cell_datetime2, cell_time2, cell_datetime, cell_time, cell_json, cell_tiny.
Qed.

Lemma value_formats_witness :
  cell_reads (replicate 9 7) (replicate 84 7) 246 (14 * 256 + 4) [0x7E; 0xF2; 0x04; 0xC7; 0x2D; 0xFB; 0x2D]
    (λ _, Some (shown MYSQL_TYPE_NEWDECIMAL VALUE_TYPE_CHAR
                  (rv_char (Some [45; 49; 50; 51; 52; 53; 54; 55; 56; 57; 48; 46; 49; 50; 51; 52])))).
Proof.
  destruct (value_formats (replicate 9 7) (replicate 84 7) eq_refl eq_refl)
    as (_ & _ & _ & _ & _ & _ & D & _).
  apply (D true 14 4 10%nat 1234567890 1234); [|lia| |left; lia].
  - split; vm_compute; intuition congruence.
  - repeat split; lia.
Defined.

(** The values of the other formats are read past by their exact width, and
    lost: BIT, SET, TIMESTAMP, TIMESTAMP2, DATE and BLOB columns get no value
    at all, so that the columns behind them move up in the row; and a TINYINT
    gets the address of its byte, whatever the byte is. *)
Theorem values_lost dg bg :
  (∀ t m bs, unstored_value t m bs → bytes_ok bs → 0 <= m < 2 ^ 16 →
     cell_reads dg bg (field_type_to_Z t) m bs (λ _, None)) ∧
  (∀ v m, cell_reads dg bg (field_type_to_Z MYSQL_TYPE_TINY) m (le_split 1 v)
     (λ addr, Some (shown MYSQL_TYPE_TINY VALUE_TYPE_LONGLONG (rv_long (s32 addr))))).
Proof. split; intros; auto using cell_unstored, cell_tiny. Qed.

Lemma values_lost_witness :
  parseOneRowData [] [] [] (Some (mk_ptr 4096 ([2; 0; 65; 66] ++ [9]))) 252 2 = Some (4, []).
Proof.
  destruct (proj1 (values_lost [] []) MYSQL_TYPE_BLOB 2 [2; 0; 65; 66]) as [_ H];
    [apply (unstored_blob 2 [65; 66]); cbn; lia|repeat constructor; unfold is_byte; lia|lia|].
  apply (H 4096 [9] []). repeat constructor; unfold is_byte; lia.
Defined.

(** ** Loading a rows event *)

Section Loading.
Context (malloc : Z → option (list Z)).
Context (malloc_ok : ∀ n, 0 <= n → ∃ l, malloc n = Some l ∧ Z.of_nat (length l) = n).

Lemma init_cols_ok n image :
  0 < n < 2 ^ 30 → bytes_ok image → Z.of_nat (length image) = (n + 7) / 8 →
  ∃ bm l, init_cols malloc n image = Some bm ∧ bitmap_wf bm l ∧ n_bits bm = n ∧
    bits bm = le_combine image ∧ create_last_word_mask bm = bm.
Proof.
  intros Hn Hb Hl. unfold init_cols.
  assert (Hsz : s32 (bitmap_buffer_size n) = 4 * ((n + 31) / 32)).
  { unfold bitmap_buffer_size. rewrite (wrap_small 32 (n + 31)), (wrap_small 32 (_ / 32)) by zdm.
    rewrite wrap_small by zdm. rewrite swrap_small by zdm. lia. }
  destruct (malloc_ok (4 * ((n + 31) / 32))) as (l0 & M & Ll); [zdm|].
  destruct (bitmap_init_wf malloc l0 n) as (bm & -> & W & N & _); [by rewrite Hsz|done|lia|].
  cbn [mbind option_bind]. destruct image as [|b image]; [cbn in Hl; zdm|]. set (im := b :: image) in *.
  unfold bitmap_write. rewrite (wf_buf _ _ W). cbn [mbind option_bind].
  assert (Le : (length im ≤ length (replicate (length l0) 0%Z))%nat) by (rewrite length_replicate; zdm).
  rewrite load_some by done. cbn [mbind option_bind].
  set (l := im ++ drop (length im) (replicate (length l0) 0)).
  assert (W' : bitmap_wf (mk_bitmap (Some l) (n_bits bm) (last_word_mask bm) (last_word_ptr bm)) l).
  { destruct W as [_ _ W3 W4 W5]. split; cbn [bitmap n_bits last_word_mask last_word_ptr]; [done| |done| |].
    - apply Forall_app. split; [done|]. by apply Forall_drop, Forall_replicate.
    - unfold l. rewrite length_app, length_drop. rewrite <- W4. lia.
    - rewrite with_buffer. by rewrite <- W5. }
  eexists _, l. split; [done|]. split; [exact W'|]. split; [exact N|]. split.
  - unfold bits. cbn [bitmap]. unfold l. rewrite le_combine_app, drop_replicate.
    replace (le_combine (replicate _ 0)) with 0; [lia|].
    induction (length l0 - length im)%nat; cbn [replicate le_combine]; lia.
  - symmetry. apply (wf_last _ _ W').
Qed.

Record rows_fields := mk_rows_fields {
  rf_id : Z; rf_flags : Z;
  rf_extra : option (option (list Z));  (* version 2; the tagged block *)
  rf_ncols : Z; rf_before : list Z; rf_after : list Z; rf_data : list Z;
}.

Definition extra_bytes (e : option (list Z)) : list Z :=
  match e with None => [] | Some e => ROWS_V_EXTRAINFO_TAG :: e end.

(** The post-header extension of version 2, which counts its own two bytes. *)
Definition v2_bytes (rf : rows_fields) : list Z :=
  match rf_extra rf with
  | None => []
  | Some e => le_split 2 (2 + Z.of_nat (length (extra_bytes e))) ++ extra_bytes e
  end.

Definition rows_body (upd : bool) (rf : rows_fields) : list Z :=
  le_split 6 (rf_id rf) ++ le_split 2 (rf_flags rf) ++ v2_bytes rf ++ lenenc (rf_ncols rf) ++
  rf_before rf ++ (if upd then rf_after rf else []) ++ rf_data rf.

Record rows_fields_ok (upd : bool) (rf : rows_fields) : Prop := {
  ro_id : 0 <= rf_id rf < 2 ^ 48;
  ro_flags : 0 <= rf_flags rf < 2 ^ 16;
  ro_extra : ∀ e, rf_extra rf = Some (Some e) →
    bytes_ok e ∧ (2 ≤ length e < 256)%nat ∧ e !! 0%nat = Some (Z.of_nat (length e));
  ro_ncols : 0 < rf_ncols rf < 2 ^ 30;
  ro_before : bytes_ok (rf_before rf) ∧ Z.of_nat (length (rf_before rf)) = (rf_ncols rf + 7) / 8;
  ro_after : upd = true → bytes_ok (rf_after rf) ∧ Z.of_nat (length (rf_after rf)) = (rf_ncols rf + 7) / 8;
  ro_data : bytes_ok (rf_data rf);
}.

(** The members of a loaded event that the rows are decoded with. *)
Record rows_loaded (upd : bool) (rf : rows_fields) (s trailer : list Z) (ev : CRowsEvent) : Prop := {
  rl_ncols : m_column_count ev = rf_ncols rf;
  rl_len : m_rows_data_len ev = Z.of_nat (length (rf_data rf ++ trailer));
  rl_data : s @+ m_ptr_rows_data ev = rf_data rf ++ trailer ++ [0];
  rl_ptr : m_ptr_rows_data ev + Z.of_nat (length (rf_data rf ++ trailer)) + 1 = Z.of_nat (length s);
  rl_cols : ∃ l, bitmap_wf (m_cols ev) l ∧ n_bits (m_cols ev) = rf_ncols rf ∧
       bits (m_cols ev) = le_combine (rf_before rf);
  rl_cols_ai : upd = true → ∃ l, bitmap_wf (m_cols_ai ev) l ∧ n_bits (m_cols_ai ev) = rf_ncols rf ∧
       bits (m_cols_ai ev) = le_combine (rf_after rf);
}.

(** The members [load_columns] does not touch. *)
Definition same_head (ev ev' : CRowsEvent) : Prop :=
  r_class ev' = r_class ev ∧ r_log ev' = r_log ev ∧ m_table_id ev' = m_table_id ev ∧
  m_table_flags ev' = m_table_flags ev ∧ m_extra_row_data ev' = m_extra_row_data ev ∧
  m_row_before_values ev' = m_row_before_values ev ∧ m_row_after_values ev' = m_row_after_values ev.

(** The column sets and the rest of the data. *)
Lemma load_columns_ok ev pre rf trailer
    (upd := bool_decide (getGeneralTypeCode (r_class ev) = UPDATE_ROWS_EVENT)) :
  rows_fields_ok upd rf →
  let s := pre ++ lenenc (rf_ncols rf) ++ rf_before rf ++ (if upd then rf_after rf else []) ++
           rf_data rf ++ trailer ++ [0] in
  Z.of_nat (length s) = m_event_size (r_log ev) + 1 → m_event_size (r_log ev) < 2 ^ 32 →
  ∃ ev', load_columns malloc s (Z.of_nat (length pre)) ev = Some ev' ∧
    same_head ev ev' ∧ rows_loaded upd rf s trailer ev'.
Proof.
  intros [_ _ _ Hn [Hb Hbl] Ha _] s Hsz Hlt. unfold load_columns.
  seek_to pre (lenenc (rf_ncols rf) ++ rf_before rf ++ (if upd then rf_after rf else []) ++
           rf_data rf ++ trailer ++ [0]).
  rewrite get_field_length_enc by lia. cbn [mbind option_bind].
  rewrite (wrap_small 32 (rf_ncols rf)), (wrap_small 32 (_ + 7)) by lia. rewrite <- Hbl.
  set (nb := Z.of_nat (length (rf_before rf))) in *.
  seek_to (pre ++ lenenc (rf_ncols rf)) (rf_before rf ++ (if upd then rf_after rf else []) ++
           rf_data rf ++ trailer ++ [0]).
  rewrite load_app by (unfold nb; lia). cbn [mbind option_bind].
  destruct (init_cols_ok (rf_ncols rf) (rf_before rf) Hn Hb Hbl) as (cols & lb & -> & W & N & B & M).
  cbn [mbind option_bind].
  assert (K : ∀ x : list Z, match x with [] => cols | _ => create_last_word_mask cols end = cols)
    by (intros []; done).
  rewrite !K. fold upd.
  assert (Hs : Z.of_nat (length s) = Z.of_nat (length pre) + Z.of_nat (length (lenenc (rf_ncols rf))) + nb +
    Z.of_nat (length (if upd then rf_after rf else [])) + Z.of_nat (length (rf_data rf ++ trailer)) + 1).
  { unfold s, nb. rewrite !length_app. cbn [length]. lia. }
  destruct upd eqn:Eu.
  - destruct (Ha eq_refl) as [Hab Hal].
    assert (P1 : s @+ (Z.of_nat (length pre) + Z.of_nat (length (lenenc (rf_ncols rf))) + nb) =
      rf_after rf ++ rf_data rf ++ trailer ++ [0]).
    { apply (seek (pre ++ lenenc (rf_ncols rf) ++ rf_before rf)); unfold nb;
        [unfold s; by rewrite <- !app_assoc|rewrite !length_app; lia]. }
    rewrite P1, load_app by lia. cbn [mbind option_bind].
    destruct (init_cols_ok (rf_ncols rf) (rf_after rf) Hn Hab Hal) as (cai & la & -> & Wa & Na & Ba & _).
    cbn [mbind option_bind]. rewrite K. eexists. split; [done|]. split; [done|].
    split; cbn [m_column_count m_rows_data_len m_ptr_rows_data m_cols m_cols_ai]; eauto.
    + assert (Z.of_nat (length (rf_after rf)) = nb) by (unfold nb in *; lia).
      rewrite wrap_small by lia. lia.
    + apply (seek (pre ++ lenenc (rf_ncols rf) ++ rf_before rf ++ rf_after rf));
        [unfold s; by rewrite <- !app_assoc|rewrite !length_app; unfold nb in *; lia].
    + unfold nb in *. lia.
  - cbn [mbind option_bind]. eexists. split; [done|]. split; [done|].
    split; cbn [m_column_count m_rows_data_len m_ptr_rows_data m_cols m_cols_ai]; eauto; try discriminate.
    + cbn [length] in Hs. rewrite wrap_small by lia. lia.
    + apply (seek (pre ++ lenenc (rf_ncols rf) ++ rf_before rf));
        [unfold s; by rewrite <- !app_assoc|rewrite !length_app; unfold nb in *; lia].
    + cbn [length] in Hs. unfold nb in *. lia.
Qed.

(** The extra header: nothing, or one tagged block that counts itself. *)
Lemma extra_header_ok e pre rest fuel old :
  (∀ x, e = Some x → bytes_ok x ∧ (2 ≤ length x < 256)%nat ∧ x !! 0%nat = Some (Z.of_nat (length x))) →
  (0 < fuel)%nat →
  extra_header fuel (pre ++ extra_bytes e ++ rest) (Z.of_nat (length pre + length (extra_bytes e)))
    (Z.of_nat (length pre)) old = Ret (true, default old e).
Proof.
  intros He Hf. destruct fuel as [|fuel]; [lia|].
  destruct e as [x|]; cbn [extra_bytes length default from_option id].
  2:{ cbn [extra_header]. destruct (Z.ltb_spec (Z.of_nat (length pre)) (Z.of_nat (length pre + 0))); [lia|done]. }
  destruct (He x eq_refl) as (Bx & Lx & Hx).
  set (s := pre ++ (ROWS_V_EXTRAINFO_TAG :: x) ++ rest).
  set (end_ := Z.of_nat (length pre + S (length x))).
  assert (E0 : table_at s (Z.of_nat (length pre)) = Some ROWS_V_EXTRAINFO_TAG)
    by (by apply (table_at_seek pre (x ++ rest))).
  assert (E1 : table_at s (Z.of_nat (length pre) + 1 + EXTRA_ROW_INFO_LEN_OFFSET) = Some (Z.of_nat (length x))).
  { destruct x as [|b y]; [done|]. injection Hx as ->.
    apply (table_at_seek (pre ++ [ROWS_V_EXTRAINFO_TAG]) (y ++ rest)); [|unfold EXTRA_ROW_INFO_LEN_OFFSET; seek_eq].
    unfold s. by rewrite <- app_assoc. }
  assert (E2 : s @+ (Z.of_nat (length pre) + 1) = x ++ rest).
  { apply (seek (pre ++ [ROWS_V_EXTRAINFO_TAG])); [|seek_eq]. unfold s. by rewrite <- app_assoc. }
  cbn [extra_header]. destruct (Z.ltb_spec (Z.of_nat (length pre)) end_); [|lia].
  rewrite E0. cbn [of_option mbind run_bind]. rewrite Z.eqb_refl.
  unfold EXTRA_ROW_INFO_HDR_BYTES. destruct (Z.ltb_spec (end_ - (Z.of_nat (length pre) + 1)) 2); [lia|].
  rewrite E1. cbn [of_option mbind run_bind].
  destruct (Z.ltb_spec (end_ - (Z.of_nat (length pre) + 1)) (Z.of_nat (length x))); [lia|].
  rewrite E2, load_app by lia. cbn [of_option mbind run_bind].
  assert (P : Z.of_nat (length pre) + 1 + Z.of_nat (length x) = end_) by lia. rewrite P.
  destruct fuel; cbn [extra_header]; by rewrite Z.ltb_irrefl.
Qed.

Lemma extra_bytes_ok e :
  (∀ x, e = Some x → bytes_ok x ∧ (2 ≤ length x < 256)%nat ∧ x !! 0%nat = Some (Z.of_nat (length x))) →
  bytes_ok (extra_bytes e) ∧ (length (extra_bytes e) ≤ 256)%nat.
Proof.
  intros H. destruct e as [x|]; cbn; [|split; [constructor|lia]].
  destruct (H x eq_refl) as (? & ? & _). split; [|lia]. constructor; [by vm_compute|done].
Qed.

Lemma v2_bytes_ok upd rf : rows_fields_ok upd rf → bytes_ok (v2_bytes rf).
Proof.
  intros [_ _ H _ _ _ _]. unfold v2_bytes. destruct (rf_extra rf) as [e|]; [|constructor].
  apply Forall_app. split; [auto with cint|]. by apply extra_bytes_ok; intros x ->; apply H.
Qed.

Lemma rows_body_bytes upd rf : rows_fields_ok upd rf → bytes_ok (rows_body upd rf).
Proof.
  intros H. pose proof (v2_bytes_ok _ _ H). destruct H as [_ _ _ Hn [Hb _] Ha Hd]. unfold rows_body.
  rewrite !Forall_app. split_and!; auto with cint.
  - apply lenenc_bytes. lia.
  - destruct upd; [by apply Ha|constructor].
Qed.

(** The type of the event says which version it has. *)
Definition rows_type (t : Log_event_type) (rf : rows_fields) : Prop :=
  match rf_extra rf with
  | None => t = WRITE_ROWS_EVENT_V1 ∨ t = UPDATE_ROWS_EVENT_V1 ∨ t = DELETE_ROWS_EVENT_V1
  | Some _ => t = WRITE_ROWS_EVENT ∨ t = UPDATE_ROWS_EVENT ∨ t = DELETE_ROWS_EVENT
  end.

Definition rows_post_header (rf : rows_fields) : Z := match rf_extra rf with None => 8 | Some _ => 10 end.

(** The table id and the flags, behind the header [hd]. *)
Lemma rows_head_reads upd hd rf trailer s plen (n := Z.of_nat (length hd)) :
  rows_fields_ok upd rf → bytes_ok trailer → (plen =? 6) = false → s = hd ++ rows_body upd rf ++ trailer →
  TableMap.read_table_id plen (s @+ (n + ROWS_MAPID_OFFSET)) = Some (rf_id rf mod 2 ^ 32) ∧
  uint2korr (s @+ (n + ROWS_MAPID_OFFSET + ROWS_FLAGS_OFFSET)) = Some (rf_flags rf).
Proof.
  intros Hok Htr Hp ->. pose proof (rows_body_bytes _ _ Hok) as Hb. destruct Hok as [Hi Hf _ _ _ _ _].
  unfold rows_body in *. rewrite !Forall_app in Hb. destruct Hb as (_ & _ & B1 & B2 & B3 & B4 & B5).
  set (r := v2_bytes rf ++ lenenc (rf_ncols rf) ++ rf_before rf ++ (if upd then rf_after rf else []) ++ rf_data rf) in *.
  assert (Br : bytes_ok (r ++ trailer)) by (unfold r; rewrite !Forall_app; split_and!; done).
  unfold ROWS_MAPID_OFFSET, ROWS_FLAGS_OFFSET, n. rewrite Z.add_0_r. split.
  - seek_to hd ((le_split 6 (rf_id rf) ++ le_split 2 (rf_flags rf) ++ r) ++ trailer).
    unfold TableMap.read_table_id. rewrite Hp, <- !app_assoc, load_app by done.
    cbn [mbind option_bind]. rewrite le_combine_take, le_combine_split by auto with cint.
    f_equal. change (256 ^ Z.of_nat 6) with (2 ^ 48). change (256 ^ Z.of_nat 4) with (2 ^ 32).
    by rewrite (Z.mod_small _ (2 ^ 48)) by lia.
  - seek_to (hd ++ le_split 6 (rf_id rf)) (le_split 2 (rf_flags rf) ++ r ++ trailer).
    rewrite korr_split2 by done. by rewrite Z.mod_small by lia.
Qed.

(** The extension of version 2 and what is behind it. *)
Lemma v2_reads upd hd rf trailer e s (n := Z.of_nat (length hd)) :
  rows_fields_ok upd rf → bytes_ok trailer → rf_extra rf = Some e → s = hd ++ rows_body upd rf ++ trailer →
  memcpy_u32 2 (s @+ (n + 8)) = Some (2 + Z.of_nat (length (extra_bytes e))) ∧
  ∀ fuel old, (0 < fuel)%nat →
    extra_header fuel s (n + 10 + Z.of_nat (length (extra_bytes e))) (n + 10) old = Ret (true, default old e).
Proof.
  intros Hok Htr He ->. pose proof (ro_extra _ _ Hok) as Hx. rewrite He in Hx.
  assert (Hx' : ∀ x, e = Some x →
    bytes_ok x ∧ (2 ≤ length x < 256)%nat ∧ x !! 0%nat = Some (Z.of_nat (length x))) by (intros x ->; by apply Hx).
  destruct (extra_bytes_ok e Hx') as [Bx Lx].
  unfold rows_body, v2_bytes. rewrite He.
  set (r := lenenc (rf_ncols rf) ++ rf_before rf ++ (if upd then rf_after rf else []) ++ rf_data rf).
  split.
  - seek_to (hd ++ le_split 6 (rf_id rf) ++ le_split 2 (rf_flags rf))
      (le_split 2 (2 + Z.of_nat (length (extra_bytes e))) ++ extra_bytes e ++ r ++ trailer).
    rewrite memcpy_u32_prefix, take_ge by done. rewrite le_combine_split.
    by rewrite Z.mod_small by lia.
  - intros fuel old Hf.
    pose proof (extra_header_ok e (hd ++ le_split 6 (rf_id rf) ++ le_split 2 (rf_flags rf) ++
      le_split 2 (2 + Z.of_nat (length (extra_bytes e)))) (r ++ trailer) fuel old Hx' Hf) as EH.
    rewrite <- ?app_assoc in EH |- *. rewrite <- EH. f_equal; rewrite !length_app, !length_le_split; lia.
Qed.

Definition loaded_extra (rf : rows_fields) : list Z :=
  match rf_extra rf with Some (Some e) => e | _ => [] end.

(** What [loadEvent] leaves. *)
Record rows_event_loaded (h : header_fields) (c : rows_class) (rf : rows_fields) (trailer : list Z)
    (pos : Z) (g ev : CRowsEvent) (upd := bool_decide (getGeneralTypeCode c = UPDATE_ROWS_EVENT)) : Prop := {
  re_header : loaded_header h (rows_body upd rf) trailer pos (r_log ev);
  re_class : r_class ev = c;
  re_id : m_table_id ev = rf_id rf mod 2 ^ 32;
  re_flags : m_table_flags ev = rf_flags rf;
  re_extra : m_extra_row_data ev = loaded_extra rf;
  re_rows : rows_loaded upd rf (event_buffer h (rows_body upd rf) trailer) trailer ev;
  re_before : m_row_before_values ev = [];
  re_after : m_row_after_values ev = [];
}.

(** The bytes of a rows event in front of its column count, and behind it. *)
Definition rows_prefix (upd : bool) (h : header_fields) (rf : rows_fields) (trailer : list Z) : list Z :=
  header_bytes h (event_size (rows_body upd rf) trailer)
  ++ le_split 6 (rf_id rf) ++ le_split 2 (rf_flags rf) ++ v2_bytes rf.

Lemma rows_event_split upd h rf trailer :
  event_buffer h (rows_body upd rf) trailer = rows_prefix upd h rf trailer ++ lenenc (rf_ncols rf) ++ rf_before rf ++
    (if upd then rf_after rf else []) ++ rf_data rf ++ trailer ++ [0].
Proof. rewrite event_buffer_eq. unfold rows_prefix, rows_body. by rewrite <- !app_assoc. Qed.

Lemma length_rows_prefix upd h rf trailer :
  Z.of_nat (length (rows_prefix upd h rf trailer)) = 19 + 8 + Z.of_nat (length (v2_bytes rf)).
Proof. unfold rows_prefix. rewrite !length_app, length_header, !length_le_split. lia. Qed.

(** No event is too small for its post-header. *)
Lemma rows_event_sizes upd h rf trailer :
  8 <= rows_post_header rf <= 10 ∧
  Z.of_nat (length (event_buffer h (rows_body upd rf) trailer)) = event_size (rows_body upd rf) trailer + 1 ∧
  19 + rows_post_header rf <= event_size (rows_body upd rf) trailer.
Proof.
  assert (Hsz : Z.of_nat (length (event_buffer h (rows_body upd rf) trailer)) =
    event_size (rows_body upd rf) trailer + 1).
  { unfold event_buffer. rewrite length_app, length_event_bytes. unfold event_size. cbn [length]. lia. }
  split; [unfold rows_post_header; destruct (rf_extra rf); lia|]. split; [done|].
  rewrite rows_event_split, length_app in Hsz. pose proof (length_rows_prefix upd h rf trailer) as Hpre.
  rewrite !length_app in Hsz. cbn [length] in Hsz.
  assert (0 < length (lenenc (rf_ncols rf)))%nat by (unfold lenenc; repeat case_match; cbn; lia).
  unfold v2_bytes, rows_post_header in *. destruct (rf_extra rf); rewrite ?length_app, ?length_le_split in Hpre; lia.
Qed.

(** The columns are loaded from behind the prefix. *)
Lemma load_columns_at h c rf trailer ev x (upd := bool_decide (getGeneralTypeCode c = UPDATE_ROWS_EVENT))
    (s := event_buffer h (rows_body upd rf) trailer) :
  rows_fields_ok upd rf → bytes_ok trailer → r_class ev = c →
  m_event_size (r_log ev) = event_size (rows_body upd rf) trailer → event_size (rows_body upd rf) trailer < 2 ^ 32 →
  x = Z.of_nat (length (rows_prefix upd h rf trailer)) →
  ∃ ev', load_columns malloc s x ev = Some ev' ∧ same_head ev ev' ∧ rows_loaded upd rf s trailer ev'.
Proof.
  intros Hok Htr Ec Hl Hlt ->. pose proof (load_columns_ok ev (rows_prefix upd h rf trailer) rf trailer) as LC.
  cbv zeta in LC. rewrite Ec in LC. fold upd in LC. unfold s. rewrite <- rows_event_split in LC.
  destruct (rows_event_sizes upd h rf trailer) as (_ & Hsz & _). rewrite Hsz, Hl in LC. by apply LC.
Qed.

(** The columns are loaded; what is left is the extra data. *)
Ltac loaded_from K L Hpre :=
  let ev := fresh "ev" in let E := fresh "E" in let S2 := fresh "S" in let S5 := fresh "S" in
  lazymatch goal with |- context [load_columns malloc _ ?x ?e] =>
    destruct (K e x eq_refl (lh_size _ _ _ _ _ L)) as (ev & E & (? & S2 & ? & ? & S5 & ? & ?) & ?);
      [done|rewrite Hpre; change ROWS_MAPID_OFFSET with 0; change ROWS_FLAGS_OFFSET with 6; lia|] end;
  rewrite E; cbn [of_option mbind run_bind]; exists ev; split; [done|];
  cbn [r_class r_log m_table_id m_table_flags m_extra_row_data m_row_before_values m_row_after_values] in *;
  split; try done; [by rewrite S2|]; rewrite S5.

Lemma load_rows_event fuel desc h t c rf trailer g pos
    (upd := bool_decide (getGeneralTypeCode c = UPDATE_ROWS_EVENT)) :
  standard_format desc → rows_fields_ok upd rf → bytes_ok trailer →
  rows_type t rf → hf_type h = event_type_to_Z t →
  header_ok h (event_size (rows_body upd rf) trailer) → (0 < fuel)%nat →
  ∃ ev, CRowsEvent_loadEvent malloc fuel desc
          (new_CRowsEvent desc c g pos (event_buffer h (rows_body upd rf) trailer)) = Ret (EVENT_SUCCESS, ev) ∧
    rows_event_loaded h c rf trailer pos g ev.
Proof.
  intros D Hok Htr Hrt Hty Hh Hfuel. pose proof (rows_body_bytes _ _ Hok) as Hbody.
  destruct (event_prologue desc h (rows_body upd rf) trailer (r_log g) pos D Hbody Htr Hh) as (l & HP & L).
  unfold CRowsEvent_loadEvent, new_CRowsEvent. cbn [r_log]. rewrite HP.
  cbn [of_option mbind run_bind]. rewrite bool_decide_eq_true_2 by done. cbn [negb].
  rewrite (lh_stream _ _ _ _ _ L). cbn [of_option mbind run_bind].
  assert (Hph : post_header_len desc l = Some (rows_post_header rf)).
  { unfold post_header_len, rows_post_header, rows_type in *. rewrite (lh_type _ _ _ _ _ L), Hty.
    destruct (rf_extra rf); by apply D. }
  rewrite Hph. cbn [of_option mbind run_bind]. unfold too_small.
  rewrite (lh_common _ _ _ _ _ L), (lh_size _ _ _ _ _ L).
  assert (Hlt : event_size (rows_body upd rf) trailer < 2 ^ 32) by (by destruct Hh as (_ & _ & _ & [_ ?] & _)).
  destruct (rows_event_sizes upd h rf trailer) as (Hpost & _ & Hle). pose proof (length_rows_prefix upd h rf trailer) as Hpre.
  rewrite (wrap_small 32 (19 + _)) by lia.
  destruct (Z.ltb_spec (event_size (rows_body upd rf) trailer) (19 + rows_post_header rf)); [lia|].
  set (hd := header_bytes h (event_size (rows_body upd rf) trailer)).
  destruct (rows_head_reads upd hd rf (trailer ++ [0]) (event_buffer h (rows_body upd rf) trailer)
    (rows_post_header rf) Hok (trailer_ok _ Htr)) as [R1 R2];
    [unfold rows_post_header; by destruct (rf_extra rf)|by rewrite event_buffer_eq|].
  change (Z.of_nat (length hd)) with 19 in R1, R2. rewrite R1. cbn [of_option mbind run_bind].
  replace (rows_post_header rf =? 6) with false by (unfold rows_post_header; by destruct (rf_extra rf)).
  rewrite R2. cbn [of_option mbind run_bind].
  pose proof (λ ev x, load_columns_at h c rf trailer ev x Hok Htr) as K. fold upd in K.
  unfold rows_type, rows_post_header, v2_bytes in *. destruct (rf_extra rf) as [e|] eqn:He.
  - destruct (v2_reads upd hd rf (trailer ++ [0]) e (event_buffer h (rows_body upd rf) trailer) Hok
      (trailer_ok _ Htr) He) as [V1 V2]; [by rewrite event_buffer_eq|]. change (Z.of_nat (length hd)) with 19 in V1, V2.
    cbn [ROWS_HEADER_LEN_V2 Z.eqb Pos.eqb].
    change (19 + ROWS_MAPID_OFFSET + ROWS_FLAGS_OFFSET + 2) with (19 + 8).
    change (19 + 8 + 2) with (19 + 10). rewrite V1. cbn [of_option mbind run_bind].
    destruct (Z.ltb_spec (2 + Z.of_nat (length (extra_bytes e))) 2); [lia|].
    replace (2 + Z.of_nat (length (extra_bytes e)) - 2) with (Z.of_nat (length (extra_bytes e))) by lia.
    cbn [m_extra_row_data]. rewrite (V2 _ [] Hfuel). cbn [of_option mbind run_bind negb].
    rewrite length_app, length_le_split in Hpre. loaded_from K L Hpre. unfold loaded_extra. rewrite He. by destruct e.
  - cbn [ROWS_HEADER_LEN_V2 Z.eqb Pos.eqb]. cbn [length] in Hpre. loaded_from K L Hpre. unfold loaded_extra. by rewrite He.
Qed.

(** ** The rows of a loaded event *)

Section Parsing.
Context (dec_garbage buff_garbage : list Z).

(** The columns of a row are those of the table definition, and in the image
    when their bit of the set is 1. *)
Fixpoint row_matches (td : CTableDef) (set i : Z) (cols : list column) : Prop :=
  match cols with
  | [] => True
  | c :: cols =>
      Z.testbit set i = negb (is_absent c) ∧
      (is_absent c = false → type td i = Some (c_type c) ∧ field_metadata td i = Some (c_meta c)) ∧
      slot_ok dec_garbage buff_garbage c ∧ row_matches td set (i + 1) cols
  end.

Lemma row_matches_ok td bm l i cols :
  bitmap_wf bm l → row_matches td (bits bm) i cols → 0 <= i → i + Z.of_nat (length cols) <= n_bits bm →
  row_ok dec_garbage buff_garbage td bm i cols.
Proof.
  intros W. revert i. induction cols as [|c cols IH]; intros i H Hi Hl; [done|].
  cbn [row_matches row_ok length] in *. destruct H as (Hset & Ht & Hs & H).
  split_and!; [|done|done|apply IH; [done|lia..]].
  destruct (bitmap_is_set_wf bm l i W) as (r & E & R); [lia|]. exists r. split; [done|].
  rewrite R, Hset. by destruct (is_absent c).
Qed.

(** A change of a table with [n] columns, in an event with the column set [set]. *)
Definition change_matches (td : CTableDef) (n set : Z) (upd : bool) (ch : list column * list column) : Prop :=
  row_matches td set 0 (fst ch) ∧ Z.of_nat (length (fst ch)) = n ∧
  (upd = true → row_matches td set 0 (snd ch) ∧ Z.of_nat (length (snd ch)) = n) ∧
  (0 < present_count (fst ch))%nat.

Lemma change_matches_ok td bm l upd ch :
  bitmap_wf bm l → change_matches td (n_bits bm) (bits bm) upd ch →
  change_ok dec_garbage buff_garbage td bm upd ch.
Proof.
  intros W (H1 & H2 & H3 & H4). unfold change_ok. split_and!; [|done| |done].
  - apply (row_matches_ok td bm l); [done..|lia].
  - intros Eu. destruct (H3 Eu) as [? ?]. split; [|done]. apply (row_matches_ok td bm l); [done..|lia].
Qed.

(** What [parseEvent] leaves. *)
Record rows_parsed (upd : bool) (addr : Z) (changes : list (list column * list column))
    (trailer : list Z) (ev : CRowsEvent) : Prop := {
  rp_before : m_row_before_values ev = before_rows upd addr changes;
  rp_after : m_row_after_values ev = after_rows upd addr changes;
  rp_crc : m_crc32 ev = trailer;
  rp_freed : bitmap (m_cols ev) = None ∧ bitmap (m_cols_ai ev) = None;
}.

Lemma parse_rows_event fuel h c rf trailer pos g ev tm td changes base
    (upd := bool_decide (getGeneralTypeCode c = UPDATE_ROWS_EVENT))
    (addr := u32 (base + m_ptr_rows_data ev)) :
  rows_fields_ok upd rf → bytes_ok trailer → length trailer = 4%nat →
  event_size (rows_body upd rf) trailer < 2 ^ 32 →
  rows_event_loaded h c rf trailer pos g ev →
  TableMap.createTableDef tm = Some td →
  rf_data rf = changes_bytes upd changes →
  Forall (change_matches td (rf_ncols rf) (le_combine (rf_before rf)) upd) changes →
  (length changes ≤ fuel)%nat →
  ∃ ev', parseEvent dec_garbage buff_garbage fuel base (setTableMap ev (Some tm)) = Ret (EVENT_SUCCESS, ev') ∧
    r_log ev' = r_log ev ∧ m_column_count ev' = m_column_count ev ∧ rows_parsed upd addr changes trailer ev'.
Proof.
  intros Hok Htr Hl4 Hlt [L C _ _ _ R Rb Ra] Htd Hdata Hch Hfuel.
  destruct R as [Rn Rl Rd _ (l & W & Nb & Bs) _].
  assert (Hlen : Z.of_nat (length (changes_bytes upd changes)) < 2 ^ 32 - 4).
  { rewrite <- Hdata. unfold event_size, rows_body in Hlt. rewrite !length_app in Hlt. lia. }
  unfold parseEvent. cbn [setTableMap m_p_tablemap_event]. rewrite Htd. cbn [of_option mbind run_bind].
  cbn [setTableMap r_log m_ptr_rows_data m_row_before_values m_row_after_values].
  rewrite (lh_stream _ _ _ _ _ L). cbn [of_option mbind run_bind].
  unfold ptr_add at 1. cbn [address bytes]. fold upd in Rd |- *. rewrite Rd, Hdata, Rb, Ra.
  pose proof (rows_loop_ok dec_garbage buff_garbage (setTableMap ev (Some tm)) td l changes fuel
    addr (trailer ++ [0]) 0 [] []) as RL. cbv zeta in RL.
  cbn [setTableMap r_class m_cols m_column_count m_rows_data_len] in RL. rewrite C in RL. fold upd in RL.
  fold addr. rewrite RL.
  - cbn [mbind run_bind of_option bytes]. rewrite load_app by done. cbn [of_option mbind run_bind].
    eexists. split; [done|]. split; [done|]. split; [done|]. by split.
  - done.
  - by rewrite Rn, Nb.
  - eapply Forall_impl; [exact Hch|]. intros ch Hc. apply (change_matches_ok td _ l); [done|]. by rewrite Nb, Bs.
  - rewrite <- Hdata. apply (ro_data _ _ Hok).
  - by apply trailer_ok.
  - by destruct trailer.
  - done.
  - lia.
  - apply wrap_small, wrap_range. lia.
  - rewrite Rl, length_app, Hdata, Hl4. rewrite wrap_small by lia. lia.
Qed.
End Parsing.
End Loading.

(** A rows event of either version, as servers write it, is loaded with
    every member as written, but for the table id, of whose 48 bits the low 32
    are kept; the column sets become bitmaps of the table's width, and the
    pointer to the rows is behind the column sets of the event. *)
Theorem rows_event_loads malloc fuel desc h t c rf trailer g pos
    (upd := bool_decide (getGeneralTypeCode c = UPDATE_ROWS_EVENT)) :
  (∀ n, 0 <= n → ∃ l, malloc n = Some l ∧ Z.of_nat (length l) = n) →
  standard_format desc → rows_fields_ok upd rf → bytes_ok trailer →
  rows_type t rf → hf_type h = event_type_to_Z t →
  header_ok h (event_size (rows_body upd rf) trailer) → (0 < fuel)%nat →
  ∃ ev, CRowsEvent_loadEvent malloc fuel desc
          (new_CRowsEvent desc c g pos (event_buffer h (rows_body upd rf) trailer)) = Ret (EVENT_SUCCESS, ev) ∧
    rows_event_loaded h c rf trailer pos g ev.
Proof. intros. by eapply load_rows_event. Qed.

(** C5: a whole rows event is decoded: loaded, given its table map and parsed,
    an event with any changes to a table gives a row for each change, in order,
    and the checksum behind the rows, and frees the bitmaps.  The row of an
    INSERT or DELETE has the values of its image; that of an UPDATE has the
    values of the before image before it, and after it those of the before image
    once more, followed by those of the after image.  The after image is read
    with the column set of the before image, so that it has to be laid out by
    that set to be read as it was written. *)
Theorem rows_event_decodes malloc dg bg fuel desc h t c rf trailer g pos tm td changes base
    (upd := bool_decide (getGeneralTypeCode c = UPDATE_ROWS_EVENT)) :
  (∀ n, 0 <= n → ∃ l, malloc n = Some l ∧ Z.of_nat (length l) = n) →
  standard_format desc → rows_fields_ok upd rf → bytes_ok trailer → length trailer = 4%nat →
  rows_type t rf → hf_type h = event_type_to_Z t →
  header_ok h (event_size (rows_body upd rf) trailer) → (0 < fuel)%nat → (length changes ≤ fuel)%nat →
  TableMap.createTableDef tm = Some td → rf_data rf = changes_bytes upd changes →
  Forall (change_matches dg bg td (rf_ncols rf) (le_combine (rf_before rf)) upd) changes →
  ∃ ev ev',
    CRowsEvent_loadEvent malloc fuel desc
      (new_CRowsEvent desc c g pos (event_buffer h (rows_body upd rf) trailer)) = Ret (EVENT_SUCCESS, ev) ∧
    parseEvent dg bg fuel base (setTableMap ev (Some tm)) = Ret (EVENT_SUCCESS, ev') ∧
    rows_parsed upd (u32 (base + m_ptr_rows_data ev)) changes trailer ev'.
Proof.
  intros Hm D Hok Htr Hl Hrt Hty Hh Hf1 Hf2 Htd Hdata Hch.
  destruct (load_rows_event malloc Hm fuel desc h t c rf trailer g pos) as (ev & E & L); [done..|].
  destruct (parse_rows_event dg bg fuel h c rf trailer pos g ev tm td changes base)
    as (ev' & E' & _ & _ & P); [done..| |done|done|done|done|done|by exists ev, ev'].
  by destruct Hh as (_ & _ & _ & [_ ?] & _).
Qed.

(** An event whose column set is empty, with anything but the four bytes
    of a checksum behind the sets, is loaded, and then parsed without end: the
    row decoder consumes nothing, whatever the fuel. *)
Theorem rows_without_columns_diverge malloc dg bg fuel desc h t c rf trailer g pos
    (upd := bool_decide (getGeneralTypeCode c = UPDATE_ROWS_EVENT)) :
  (∀ n, 0 <= n → ∃ l, malloc n = Some l ∧ Z.of_nat (length l) = n) →
  standard_format desc → rows_fields_ok upd rf → bytes_ok trailer →
  rows_type t rf → hf_type h = event_type_to_Z t →
  header_ok h (event_size (rows_body upd rf) trailer) → (0 < fuel)%nat →
  (∀ j, 0 <= j < rf_ncols rf → Z.testbit (le_combine (rf_before rf)) j = false) →
  length (rf_data rf ++ trailer) ≠ 4%nat →
  ∃ ev, CRowsEvent_loadEvent malloc fuel desc
          (new_CRowsEvent desc c g pos (event_buffer h (rows_body upd rf) trailer)) = Ret (EVENT_SUCCESS, ev) ∧
    ∀ fuel' base tm td, TableMap.createTableDef tm = Some td →
      parseEvent dg bg fuel' base (setTableMap ev (Some tm)) = NoFuel.
Proof.
  intros Hm D Hok Htr Hrt Hty Hh Hf Hz H4.
  destruct (load_rows_event malloc Hm fuel desc h t c rf trailer g pos) as (ev & E & L); [done..|].
  exists ev. split; [done|]. intros fuel' base tm td Htd.
  destruct L as [L C _ _ _ [Rn Rl Rd _ (l & W & Nb & Bs) _] Rb Ra].
  unfold parseEvent. cbn [setTableMap m_p_tablemap_event]. rewrite Htd. cbn [of_option mbind run_bind].
  cbn [setTableMap r_log m_ptr_rows_data m_row_before_values m_row_after_values].
  rewrite (lh_stream _ _ _ _ _ L). cbn [of_option mbind run_bind].
  unfold ptr_add at 1. cbn [address bytes]. fold upd in Rd |- *. rewrite Rd.
  assert (Hlt : event_size (rows_body upd rf) trailer < 2 ^ 32) by (by destruct Hh as (_ & _ & _ & [_ ?] & _)).
  assert (Z.of_nat (length (rf_data rf ++ trailer)) < 2 ^ 32).
  { unfold event_size, rows_body in Hlt. rewrite !length_app in *. lia. }
  rewrite (rows_loop_stuck dg bg _ td l);
    cbn [setTableMap r_class m_cols m_column_count m_rows_data_len bytes]; try done.
  - by rewrite Rn, Nb.
  - by rewrite Nb, Bs.
  - destruct (rf_data rf); [by destruct trailer|done].
  - rewrite Rl. unfold wrap. destruct (Z.ltb_spec (Z.of_nat (length (rf_data rf ++ trailer))) 4).
    + replace (Z.of_nat (length (rf_data rf ++ trailer)) - 4)
        with (Z.of_nat (length (rf_data rf ++ trailer)) - 4 + 2 ^ 32 + (-1) * 2 ^ 32) by lia.
      rewrite Z.mod_add by lia. rewrite Z.mod_small by lia. lia.
    + rewrite Z.mod_small by lia. lia.
Qed.

(** Samples: an UPDATE of one row of three columns. *)
Definition sample_malloc (n : Z) : option (list Z) := Some (replicate (Z.to_nat n) 170).

Lemma sample_malloc_ok n : 0 <= n → ∃ l, sample_malloc n = Some l ∧ Z.of_nat (length l) = n.
Proof. intros Hn. eexists. split; [done|]. rewrite length_replicate. lia. Qed.

Definition sample_tm : TableMap.CTableMapEvent :=
  TableMap.mk_table_map sample_garbage 70 1 2 1 3 4 [3; 15; 246] [40; 0; 10; 2] [2] [100; 98] [116].

Definition sample_after : list column :=
  [mk_column 3 0 (Cell (le_split 4 6) (λ _, Some (shown MYSQL_TYPE_LONG VALUE_TYPE_LONGLONG (rv_long 6))));
   mk_column 15 40 Null; mk_column 246 2562 Null].

Lemma sample_td_of_tm : TableMap.createTableDef sample_tm = Some sample_td.
Proof. reflexivity. Qed.

Lemma sample_matches dg bg :
  change_matches dg bg sample_td 3 7 true (sample_row, sample_after).
Proof.
  pose proof (sample_row_ok dg bg) as (_ & _ & C1 & _ & _ & C2 & _).
  assert (C3 : slot_ok dg bg (mk_column 3 0 (Cell (le_split 4 6)
    (λ _, Some (shown MYSQL_TYPE_LONG VALUE_TYPE_LONGLONG (rv_long 6))))))
    by (apply (cell_int dg bg MYSQL_TYPE_LONG 4 6 0); [done|cbn; lia]).
  unfold change_matches, sample_row, sample_after. cbn [fst snd row_matches].
  split_and!; try done; cbn; lia.
Qed.

Definition sample_changes : list (list column * list column) := [(sample_row, sample_after)].

Definition sample_rows (extra : option (option (list Z))) (image data : list Z) : rows_fields :=
  mk_rows_fields 70 1 extra 3 image image data.

Definition sample_rows_event (c : rows_class) : CRowsEvent :=
  mk_rows_event c sample_garbage 0 0 0 [] [] [] [] (mk_bitmap None 0 0 0) (mk_bitmap None 0 0 0) None 0 0
    [] [].

Lemma sample_rows_ok upd extra image data :
  (extra = None ∨ extra = Some None ∨ extra = Some (Some [3; 0; 9])) → bytes_ok image → length image = 1%nat →
  bytes_ok data → rows_fields_ok upd (sample_rows extra image data).
Proof.
  intros He Hi Hl Hd. split; cbn; try lia; try done; try (split; [done|by rewrite Hl]).
  intros e E. destruct He as [->|[->| ->]]; try discriminate. injection E as <-.
  split_and!; cbn; try lia; [|done]. repeat constructor; unfold is_byte; lia.
Qed.

Lemma sample_bytes l : forallb (λ b, (0 <=? b) && (b <? 256)) l = true → bytes_ok l.
Proof.
  induction l as [|b l IH]; intros H; [constructor|]. cbn in H. apply andb_prop in H as [H1 H2].
  constructor; [unfold is_byte; lia|by apply IH].
Qed.

Lemma rows_event_loads_witness :
  ∃ ev, CRowsEvent_loadEvent sample_malloc 1 sample_format
      (new_CRowsEvent sample_format Class_Write (sample_rows_event Class_Write) 100
        (event_buffer (mk_header_fields 5 30 1 200 0)
          (rows_body false (sample_rows (Some (Some [3; 0; 9])) [7] [])) [7; 7; 7; 7])) =
      Ret (EVENT_SUCCESS, ev) ∧ m_column_count ev = 3 ∧ m_extra_row_data ev = [3; 0; 9] ∧ m_table_id ev = 70.
Proof.
  destruct (rows_event_loads sample_malloc 1 sample_format (mk_header_fields 5 30 1 200 0) WRITE_ROWS_EVENT
    Class_Write (sample_rows (Some (Some [3; 0; 9])) [7] []) [7; 7; 7; 7]
    (sample_rows_event Class_Write) 100) as (ev & E & L);
    [exact sample_malloc_ok|exact sample_format_standard
    |apply sample_rows_ok; [by auto|by apply sample_bytes|done|constructor]
    |by apply sample_bytes|by left|done|repeat split; vm_compute; congruence|lia|].
  exists ev. split; [exact E|]. destruct L as [_ _ L3 _ L5 [L6 _ _ _ _ _] _ _]. by split_and!.
Defined.

Lemma rows_event_decodes_witness :
  let data := changes_bytes true sample_changes in
  ∃ ev ev', CRowsEvent_loadEvent sample_malloc 1 sample_format
      (new_CRowsEvent sample_format Class_Update (sample_rows_event Class_Update) 100
        (event_buffer (mk_header_fields 5 31 1 200 0)
          (rows_body true (sample_rows (Some None) [7] data)) [1; 2; 3; 4])) = Ret (EVENT_SUCCESS, ev) ∧
    parseEvent [] [] 1 4096 (setTableMap ev (Some sample_tm)) = Ret (EVENT_SUCCESS, ev') ∧
    m_crc32 ev' = [1; 2; 3; 4] ∧ length <$> m_row_before_values ev' = [3%nat] ∧
    length <$> m_row_after_values ev' = [6%nat].
Proof.
  cbv zeta.
  destruct (rows_event_decodes sample_malloc [] [] 1 sample_format (mk_header_fields 5 31 1 200 0)
    UPDATE_ROWS_EVENT Class_Update (sample_rows (Some None) [7] (changes_bytes true sample_changes))
    [1; 2; 3; 4] (sample_rows_event Class_Update) 100 sample_tm sample_td sample_changes 4096)
    as (ev & ev' & E & E' & [P1 P2 P3 _]);
    [exact sample_malloc_ok|exact sample_format_standard
    |apply sample_rows_ok; [by auto|by apply sample_bytes|done|by apply sample_bytes]
    |by apply sample_bytes|done|by right; left|done|repeat split; vm_compute; congruence|lia|cbn; lia
    |exact sample_td_of_tm|done
    |constructor; [exact (sample_matches [] [])|constructor]|].
  exists ev, ev'. split_and!; [exact E|exact E'|exact P3|by rewrite P1|by rewrite P2].
Defined.

Lemma rows_without_columns_diverge_witness :
  ∃ ev, CRowsEvent_loadEvent sample_malloc 1 sample_format
      (new_CRowsEvent sample_format Class_Write (sample_rows_event Class_Write) 100
        (event_buffer (mk_header_fields 5 23 1 200 0)
          (rows_body false (sample_rows None [0] [5])) [7; 7; 7; 7])) = Ret (EVENT_SUCCESS, ev) ∧
    ∀ fuel, parseEvent [] [] fuel 4096 (setTableMap ev (Some sample_tm)) = NoFuel.
Proof.
  destruct (rows_without_columns_diverge sample_malloc [] [] 1 sample_format (mk_header_fields 5 23 1 200 0)
    WRITE_ROWS_EVENT_V1 Class_Write (sample_rows None [0] [5]) [7; 7; 7; 7]
    (sample_rows_event Class_Write) 100) as (ev & E & H);
    [exact sample_malloc_ok|exact sample_format_standard
    |apply sample_rows_ok; [by auto|by apply sample_bytes|done|by apply sample_bytes]
    |by apply sample_bytes|by left|done|repeat split; vm_compute; congruence|lia
    |intros j _; apply Z.bits_0|done|].
  exists ev. split; [exact E|]. intros fuel. by apply (H fuel 4096 sample_tm sample_td).
Defined.
