(* ===== verification/RowSizes.v ===== *)
(** The two computations of the width of a value in a row image: the one the
    row decoder of [binlog/src/LogEvent.cpp] makes on the way, and
    [calc_field_size] of [binlog/src/binary_log_funcs.cpp]. *)
From S2P Require Import Prelude ByteOrder BinlogTypes BinlogFuncs TableDef BinDecimal MyTime RowValue LogEvent RowsEvent.

(** The metadata a table map gives for a value of the type the decoder is called
    with; a JSON column is apart, and a VAR_STRING has no size in
    [calc_field_size]. *)
Definition usual_metadata (t : enum_field_types) (m : Z) : Prop :=
  match t with
  | MYSQL_TYPE_LONG | MYSQL_TYPE_TINY | MYSQL_TYPE_SHORT | MYSQL_TYPE_INT24 | MYSQL_TYPE_LONGLONG
  | MYSQL_TYPE_NEWDECIMAL | MYSQL_TYPE_TIMESTAMP | MYSQL_TYPE_TIMESTAMP2 | MYSQL_TYPE_DATETIME
  | MYSQL_TYPE_DATETIME2 | MYSQL_TYPE_TIME | MYSQL_TYPE_TIME2 | MYSQL_TYPE_NEWDATE | MYSQL_TYPE_YEAR
  | MYSQL_TYPE_VARCHAR => True
  | MYSQL_TYPE_FLOAT => m = 4
  | MYSQL_TYPE_DOUBLE => m = 8
  | MYSQL_TYPE_BIT => m .& 0xFF <= 8
  | MYSQL_TYPE_ENUM => m .>> 8 = field_type_to_Z MYSQL_TYPE_ENUM ∧ 1 <= m .& 0xFF <= 2
  | MYSQL_TYPE_SET => m .>> 8 = field_type_to_Z MYSQL_TYPE_SET
  | MYSQL_TYPE_BLOB => 1 <= m <= 4
  | MYSQL_TYPE_STRING => (m .>> 8) .| 0x30 = field_type_to_Z MYSQL_TYPE_STRING
  | _ => False
  end.

Lemma memcpy_u32_load n p : memcpy_u32 n p = le_combine <$> load n p.
Proof. unfold memcpy_u32. by destruct (load n p). Qed.

Lemma memcpy_first p : memcpy_u32 1 p = p !! 0%nat.
Proof. rewrite memcpy_u32_load. destruct p as [|b p]; [done|]. rewrite load_some by (cbn; lia). cbn. f_equal. by destruct p; cbn; lia. Qed.

Lemma memcpy_korr p : bytes_ok p →
  memcpy_u32 2 p = uint2korr p ∧ memcpy_u32 3 p = uint3korr p ∧ memcpy_u32 4 p = uint4korr p.
Proof.
  intros H. by rewrite !memcpy_u32_load, uint2korr_le, uint3korr_le, uint4korr_le.
Qed.

(** Facts of all 16-bit metadata, by evaluation. *)
Lemma all_metadata (f : Z → bool) :
  forallb (λ a, forallb (λ b, f (a * 256 + b)) (seqZ 0 256)) (seqZ 0 256) = true →
  ∀ m, 0 <= m < 2 ^ 16 → f m = true.
Proof.
  intros H m Hm. rewrite forallb_forall in H.
  specialize (H (m / 256)). rewrite <- list_elem_of_In, elem_of_seqZ, forallb_forall in H.
  specialize (H ltac:(zdm) (m mod 256)). rewrite <- list_elem_of_In, elem_of_seqZ in H.
  specialize (H ltac:(zdm)). by replace (m / 256 * 256 + m mod 256) with m in H by zdm.
Qed.

Lemma string_metadata m :
  0 <= m < 2 ^ 16 → usual_metadata MYSQL_TYPE_STRING m →
  ∃ len, string_type (field_type_to_Z MYSQL_TYPE_STRING) m = (field_type_to_Z MYSQL_TYPE_STRING, len) ∧
    0 <= len ∧ max_display_length_for_field MYSQL_TYPE_STRING m = Some len ∧
    (u8 (m .>> 8) =? field_type_to_Z MYSQL_TYPE_SET) || (u8 (m .>> 8) =? field_type_to_Z MYSQL_TYPE_ENUM) = false.
Proof.
  intros Hm Hu. pose proof (all_metadata (λ m,
    if (m .>> 8) .| 0x30 =? field_type_to_Z MYSQL_TYPE_STRING then
      let '(t, len) := string_type (field_type_to_Z MYSQL_TYPE_STRING) m in
      (t =? field_type_to_Z MYSQL_TYPE_STRING) && (0 <=? len) &&
      match max_display_length_for_field MYSQL_TYPE_STRING m with Some d => d =? len | None => false end &&
      negb ((u8 (m .>> 8) =? field_type_to_Z MYSQL_TYPE_SET) || (u8 (m .>> 8) =? field_type_to_Z MYSQL_TYPE_ENUM))
    else true) ltac:(vm_compute; reflexivity) m Hm) as H. cbv beta in H.
  rewrite (proj2 (Z.eqb_eq _ _) Hu) in H. destruct (string_type _ m) as [t len].
  rewrite !andb_true_iff, negb_true_iff, Z.eqb_eq, Z.leb_le in H.
  destruct H as (((-> & H1) & H2) & H3). exists len. split_and!; [done..| |done].
  destruct (max_display_length_for_field _ m); [|discriminate]. by apply Z.eqb_eq in H2 as ->.
Qed.

Lemma bit_metadata m :
  0 <= m < 2 ^ 16 → m .& 0xFF <= 8 →
  u32 (u32 ((m .>> 8) * 8 + (m .& 0xFF)) + 7) / 8 =
  u32 (((m .>> 8) .& 0x00ff) + (if 0 <? m .& 0x00ff then 1 else 0)).
Proof.
  intros Hm Hu. pose proof (all_metadata (λ m, (8 <? m .& 0xFF) ||
    (u32 (u32 ((m .>> 8) * 8 + (m .& 0xFF)) + 7) / 8 =?
     u32 (((m .>> 8) .& 0x00ff) + (if 0 <? m .& 0x00ff then 1 else 0))))
    ltac:(vm_compute; reflexivity) m Hm) as H. cbv beta in H.
  apply orb_prop in H as [H|H]; [apply Z.ltb_lt in H; lia|by apply Z.eqb_eq].
Qed.

Section Sizes.
Context (dec_garbage buff_garbage : list Z).

(** What the row decoder consumes is what the switch says. *)
Lemma parse_consumes vals p t m r vs :
  parseOneRowData dec_garbage buff_garbage vals (Some p) t m = Some (r, vs) →
  ∃ t' len v, string_type t m = (t', len) ∧
    decode_value dec_garbage buff_garbage (row_value_init t') p t' m len = Some (r, v).
Proof.
  unfold parseOneRowData. destruct (string_type t m) as [t' len]. intros H. exists t', len.
  destruct (decode_value _ _ _ _ _ _ _) as [[n v]|]; [|discriminate]. exists v. split; [done|].
  cbn [mbind option_bind] in H. destruct (bool_decide _); [by injection H as -> _|].
  destruct (row_value_copy v); [|discriminate]. by injection H as -> _.
Qed.

(** The text columns: one byte of length below 256 characters of room, else two. *)
Lemma text_consumes p len r s :
  bytes_ok p → 0 <= len → parseRowDataToString p len = Some (r, s) →
  prefixed_length (255 <? len) p = Some r.
Proof.
  intros Hp Hl. unfold parseRowDataToString, prefixed_length.
  destruct (Z.ltb_spec len 256), (Z.ltb_spec 255 len); try lia.
  - destruct (p !! 0%nat); [|discriminate]. cbn [mbind option_bind]. intros H1. invert_bind H1.
    injection H1 as <- _. do 2 f_equal. lia.
  - destruct (memcpy_korr p Hp) as [-> _]. destruct (uint2korr p); [|discriminate].
    cbn [mbind option_bind]. intros H1. invert_bind H1. injection H1 as <- _. do 2 f_equal. lia.
Qed.

Lemma blob_consumes p m r :
  bytes_ok p → 1 <= m <= 4 → blob_rLen p m = Some r → blob_length m p = Some r.
Proof.
  intros Hp Hm. destruct (memcpy_korr p Hp) as (E2 & E3 & E4). unfold blob_rLen, blob_length.
  assert (m = 1 ∨ m = 2 ∨ m = 3 ∨ m = 4) as [->|[->|[->| ->]]] by lia; rewrite ?E2, ?E3, ?E4; done.
Qed.

(** The two computations agree on every type both know. *)
Lemma consumed_size t vals p m r vs :
  usual_metadata t m → 0 <= m < 2 ^ 16 → bytes_ok (bytes p) →
  parseOneRowData dec_garbage buff_garbage vals (Some p) (field_type_to_Z t) m = Some (r, vs) →
  calc_field_size (field_type_to_Z t) (bytes p) m = Some r.
Proof.
  intros Hu Hm Hp H. apply parse_consumes in H as (t' & len & v & Ht & H).
  destruct (decide (t = MYSQL_TYPE_STRING)) as [->|Hns].
  { destruct (string_metadata m Hm Hu) as (len' & Ht' & Hl & Hmax & Hse). rewrite Ht' in Ht.
    injection Ht as <- <-. unfold decode_value in H. unfold calc_field_size. rewrite field_type_of_to_Z.
    change (field_type_of_Z 254) with (Some MYSQL_TYPE_STRING) in H.
    cbv beta iota in H. rewrite Hse, Hmax. cbn [mbind option_bind].
    destruct (parseRowDataToString _ _) as [[x y]|] eqn:E; [|discriminate].
    cbn [mbind option_bind fst] in H. injection H as <- _. by eapply text_consumes. }
  rewrite string_type_other in Ht by done. injection Ht as <- <-.
  unfold decode_value in H. unfold calc_field_size. rewrite field_type_of_to_Z in *.
  unfold timestamp2_value, datetime2_value, time2_value, enum_value, varchar_value in H.
  assert (Hbyte : m .>> 8 = field_type_to_Z MYSQL_TYPE_ENUM ∨ m .>> 8 = field_type_to_Z MYSQL_TYPE_SET →
    (u8 (m .>> 8) =? field_type_to_Z MYSQL_TYPE_SET) || (u8 (m .>> 8) =? field_type_to_Z MYSQL_TYPE_ENUM) = true)
    by (intros [-> | ->]; reflexivity).
  destruct t; cbn [usual_metadata] in Hu; try done;
    try (invert_bind H; injection H as <- _; by subst); try (injection H as <- _; by subst).
  - destruct (parseRowDataToString _ _) as [[x y]|] eqn:E; [|discriminate]. cbn [mbind option_bind] in H.
    invert_bind H. injection H as <- _. apply (text_consumes (bytes p) m x y); [done|lia|done].
  - injection H as <- _. by rewrite bit_metadata.
  - unfold decimal_value in H. change (decimal_binary_size ?a ?b) with (decimal_bin_size a b).
    assert (0 <= m .>> 8 < 256) by (rewrite Z.shiftr_div_pow2 by lia; zdm).
    rewrite swrap_small by lia. destruct (decimal_bin_size _ _); [|discriminate].
    cbn [mbind option_bind] in H |- *. destruct (binary2my_decimal _ _ _ _ _) as [[e d]|]; [|discriminate].
    cbn [mbind option_bind] in H. destruct (decimal2string _ _ _ _ _ _) as [[[e' len'] b]|]; [|discriminate].
    cbn [mbind option_bind] in H. invert_bind H. by injection H as <- _.
  - destruct Hu as [Hu1 Hu2]. rewrite Hbyte by auto.
    assert (m .& 255 = 1 ∨ m .& 255 = 2) as [E|E] by lia; rewrite E in *;
      invert_bind H; by injection H as <- _.
  - rewrite Hbyte by auto. by injection H as <- _.
  - destruct (blob_rLen (bytes p) m) eqn:E; [|discriminate]. injection H as <- _. by apply blob_consumes.
Qed.
End Sizes.

(** A column of the type in a table map; the decoder is called with the type
    [CTableDef::type] gives for it, the [real_type]: an ENUM or SET column is
    written as a STRING, and a DATE is decoded as a NEWDATE. *)
Definition column_metadata (t : enum_field_types) (m : Z) : Prop :=
  match t with
  | MYSQL_TYPE_DATE => True
  | MYSQL_TYPE_STRING =>
      usual_metadata MYSQL_TYPE_STRING m ∨ usual_metadata MYSQL_TYPE_ENUM m ∨ usual_metadata MYSQL_TYPE_SET m
  | _ => usual_metadata t m
  end.

(** The types [calc_field_size] knows and the decoder does not. *)
Definition undecoded (t : enum_field_types) : Prop :=
  t ∈ [MYSQL_TYPE_DECIMAL; MYSQL_TYPE_NULL; MYSQL_TYPE_TINY_BLOB; MYSQL_TYPE_MEDIUM_BLOB;
       MYSQL_TYPE_LONG_BLOB; MYSQL_TYPE_GEOMETRY].

Lemma real_type_string m : usual_metadata MYSQL_TYPE_STRING m → 0 <= m < 2 ^ 16 →
  real_type MYSQL_TYPE_STRING m = field_type_to_Z MYSQL_TYPE_STRING.
Proof.
  intros Hu Hm. pose proof (all_metadata (λ m,
    if (m .>> 8) .| 0x30 =? field_type_to_Z MYSQL_TYPE_STRING
    then real_type MYSQL_TYPE_STRING m =? field_type_to_Z MYSQL_TYPE_STRING else true)
    ltac:(vm_compute; reflexivity) m Hm) as H. cbv beta in H.
  rewrite (proj2 (Z.eqb_eq _ _) Hu) in H. by apply Z.eqb_eq in H.
Qed.

Lemma real_type_packed t m : t = MYSQL_TYPE_ENUM ∨ t = MYSQL_TYPE_SET →
  m .>> 8 = field_type_to_Z t → real_type MYSQL_TYPE_STRING m = field_type_to_Z t.
Proof.
  intros Ht E. rewrite Z.shiftr_div_pow2 in E by lia. change (2 ^ 8) with 256 in E.
  unfold real_type. rewrite E. by destruct Ht as [-> | ->].
Qed.

(** [calc_field_size] looks at the metadata of a STRING, an ENUM and a SET alike. *)
Lemma calc_string t p m : t = MYSQL_TYPE_ENUM ∨ t = MYSQL_TYPE_SET →
  calc_field_size (field_type_to_Z MYSQL_TYPE_STRING) p m = calc_field_size (field_type_to_Z t) p m.
Proof. by intros [-> | ->]. Qed.

Lemma column_size dg bg t vals p m r vs :
  column_metadata t m → 0 <= m < 2 ^ 16 → bytes_ok (bytes p) →
  parseOneRowData dg bg vals (Some p) (real_type t m) m = Some (r, vs) →
  calc_field_size (field_type_to_Z t) (bytes p) m = Some r.
Proof.
  intros Hu Hm Hp H.
  destruct (decide (t = MYSQL_TYPE_STRING)) as [->|Hs].
  { destruct Hu as [Hu|[Hu|Hu]].
    - rewrite real_type_string in H by done. by eapply consumed_size.
    - rewrite (real_type_packed MYSQL_TYPE_ENUM) in H by (try apply Hu; auto).
      rewrite (calc_string MYSQL_TYPE_ENUM) by auto. by eapply consumed_size.
    - rewrite (real_type_packed MYSQL_TYPE_SET) in H by (try apply Hu; auto).
      rewrite (calc_string MYSQL_TYPE_SET) by auto. by eapply consumed_size. }
  destruct (decide (t = MYSQL_TYPE_DATE)) as [->|Hd].
  { by apply (consumed_size dg bg MYSQL_TYPE_NEWDATE vals p m r vs). }
  apply (consumed_size dg bg t vals p m r vs); [by destruct t|done|done|by destruct t].
Qed.

Lemma json_size dg bg vals p L rest r vs :
  0 <= L < 2 ^ 32 → bytes_ok (bytes p) → bytes p = le_split 4 L ++ rest →
  parseOneRowData dg bg vals (Some p) (field_type_to_Z MYSQL_TYPE_JSON) 4 = Some (r, vs) →
  r = L mod 2 ^ 16 + 4 ∧ calc_field_size (field_type_to_Z MYSQL_TYPE_JSON) (bytes p) 4 = Some (u32 (L + 4)).
Proof.
  intros HL Hp E H. apply parse_consumes in H as (t' & len & v & Ht & H).
  rewrite string_type_other in Ht by done. injection Ht as <- <-.
  unfold decode_value in H. change (field_type_of_Z _) with (Some MYSQL_TYPE_JSON) in H. cbv beta iota in H.
  unfold json_value in H. rewrite E in Hp, H |- *. split.
  - destruct (memcpy_korr _ Hp) as [M _]. rewrite <- M, memcpy_u32_load in H.
    rewrite load_some in H by (rewrite length_app, length_le_split; lia).
    assert (T : take 2 (le_split 4 L ++ rest) = le_split 2 L) by (by cbn).
    rewrite T in H. cbn [fmap option_fmap option_map mbind option_bind] in H.
    rewrite le_combine_split in H. change (8 * Z.of_nat 2) with 16 in H. invert_bind H. injection H as <- _.
    rewrite wrap_small; [done|]. zdm.
  - unfold calc_field_size. rewrite field_type_of_to_Z. unfold blob_length.
    rewrite memcpy_u32_split by (change (256 ^ Z.of_nat 4) with (2 ^ 32); lia). done.
Qed.

(** C37: the row decoder and [calc_field_size] compared for a column of any type.
    But for JSON they agree on the types both know: with the metadata a table
    map has for it, a value the decoder reads takes the number of bytes
    [calc_field_size] computes (a DATE 3, being decoded as a NEWDATE).  A JSON
    document of [L] bytes takes [L + 4] bytes and the decoder goes on behind
    [L mod 65536 + 4] of them.  The types only [calc_field_size] knows take no
    bytes in the decoder, whatever their size, and give no value; a VAR_STRING,
    which the decoder reads, has no size in [calc_field_size].  There are no
    other types. *)
Theorem decoder_sizes_agree dec_garbage buff_garbage vals p t m :
  bytes_ok (bytes p) → 0 <= m < 2 ^ 16 →
  let parse := parseOneRowData dec_garbage buff_garbage vals (Some p) (real_type t m) m in
  let size := calc_field_size (field_type_to_Z t) (bytes p) m in
  (∀ r vs, column_metadata t m → parse = Some (r, vs) → size = Some r) ∧
  (∀ L rest r vs, t = MYSQL_TYPE_JSON → m = 4 → 0 <= L < 2 ^ 32 → bytes p = le_split 4 L ++ rest →
     parse = Some (r, vs) → r = L mod 2 ^ 16 + 4 ∧ size = Some (u32 (L + 4))) ∧
  (undecoded t → parse = Some (0, vals)) ∧
  (t = MYSQL_TYPE_VAR_STRING → size = Some UINT_MAX) ∧
  ((∃ m', column_metadata t m') ∨ t = MYSQL_TYPE_JSON ∨ undecoded t ∨ t = MYSQL_TYPE_VAR_STRING).
Proof.
  intros Hp Hm parse size. subst parse size. split_and!.
  - intros r vs Hu H. by eapply column_size.
  - intros L rest r vs -> -> HL E H. by eapply json_size.
  - intros Ht. unfold undecoded in Ht. repeat (apply elem_of_cons in Ht as [->|Ht]); [done..|].
    by apply not_elem_of_nil in Ht.
  - by intros ->.
  - destruct t; try (by left; exists 0); try (by do 2 right; left; apply list_elem_of_In; cbn; tauto);
      try (by right; left); try (by do 3 right); left.
    + by exists 4.
    + by exists 8.
    + exists (247 * 256 + 1). by vm_compute.
    + exists (248 * 256). by vm_compute.
    + by exists 1.
    + exists (254 * 256). left. by vm_compute.
Qed.

(** A VARCHAR, a DATE, a JSON document, and a GEOMETRY. *)
Lemma decoder_sizes_agree_witness :
  calc_field_size 15 [3; 97; 98; 99; 7] 40 = Some 4 ∧
  calc_field_size 10 [1; 2; 3] 0 = Some 3 ∧
  calc_field_size 245 [2; 0; 1; 0; 97; 98] 4 = Some 65542 ∧
  parseOneRowData [] [] [] (Some (mk_ptr 0 [3; 97; 98; 99])) 255 0 = Some (0, []).
Proof.
  split_and!.
  - refine (proj1 (decoder_sizes_agree [] [] [] (mk_ptr 0 [3; 97; 98; 99; 7]) MYSQL_TYPE_VARCHAR 40 _ _) 4
      [shown MYSQL_TYPE_VARCHAR VALUE_TYPE_CHAR (rv_char (Some [97; 98; 99]))] I eq_refl); [by apply sample_bytes|lia].
  - refine (proj1 (decoder_sizes_agree [] [] [] (mk_ptr 0 [1; 2; 3]) MYSQL_TYPE_DATE 0 _ _) 3
      [] I eq_refl); [by apply sample_bytes|lia].
  - refine (proj2 (proj1 (proj2 (decoder_sizes_agree [] [] [] (mk_ptr 0 [2; 0; 1; 0; 97; 98]) MYSQL_TYPE_JSON 4 _ _))
      65538 [97; 98] 6 [shown MYSQL_TYPE_JSON VALUE_TYPE_CHAR (rv_char (Some [97; 98]))] eq_refl eq_refl _ eq_refl eq_refl));
      [by apply sample_bytes|lia|lia].
  - refine (proj1 (proj2 (proj2 (decoder_sizes_agree [] [] [] (mk_ptr 0 [3; 97; 98; 99]) MYSQL_TYPE_GEOMETRY 0 _ _))) _);
      [by apply sample_bytes|lia|apply list_elem_of_In; cbn; tauto].
Defined.
