(* ===== verification/FileCache.v ===== *)
(** [binlog/src/FileCache.cpp]: reads of an event file through a C stream.

    A stream is the contents of the file when it was opened, the position and
    the end-of-file indicator; [long] and [int] have 32 bits and [ulonglong] 64.
    Opening a file and allocating memory are parameters. *)
From S2P Require Import Prelude ByteOrder.

(** ** Streams of the C library *)

Record FILE := mk_FILE { contents : list Z; position : Z; eof : bool }.

Definition SEEK_SET : Z := 0.
Definition SEEK_CUR : Z := 1.
Definition SEEK_END : Z := 2.

Definition file_length (f : FILE) : Z := Z.of_nat (length (contents f)).

(** [fseek]: the result and the stream. *)
Definition fseek (f : FILE) (offset whence : Z) : Z * FILE :=
  let base := if whence =? SEEK_SET then 0 else if whence =? SEEK_CUR then position f else file_length f in
  if base + offset <? 0 then (-1, f) else (0, mk_FILE (contents f) (base + offset) false).

(** [ftell] fails where [long] cannot hold the position. *)
Definition ftell (f : FILE) : Z := if position f <? 2 ^ 31 then position f else -1.

(** [fread] of one item of [size] bytes: the item when it is complete; an item
    of no bytes is never read. *)
Definition fread (f : FILE) (size : Z) : option (list Z) * FILE :=
  if size =? 0 then (None, f)
  else
    match load (Z.to_nat size) (contents f @+ position f) with
    | Some item => (Some item, mk_FILE (contents f) (position f + size) (eof f))
    | None => (None, mk_FILE (contents f) (Z.max (position f) (file_length f)) true)
    end.

(** ** The class *)

Record FileCache := mk_file_cache {
  m_fp : option FILE;
  m_fp_offset : Z;
  m_fp_where : Z;
  m_cache : option (list Z);
  m_file_size : Z;
}.

(** The constructor; the arguments are the members it leaves uninitialised. *)
Definition new_FileCache (where_garbage size_garbage : Z) : FileCache :=
  mk_file_cache None 0 where_garbage None size_garbage.

Definition enableFp (c : FileCache) : bool := match m_fp c with None => false | Some _ => true end.

Definition getFileSize (c : FileCache) : Z := u32 (m_file_size c).

Definition with_fp (c : FileCache) (f : option FILE) : FileCache :=
  mk_file_cache f (m_fp_offset c) (m_fp_where c) (m_cache c) (m_file_size c).

Definition with_cache (c : FileCache) (b : option (list Z)) : FileCache :=
  mk_file_cache (m_fp c) (m_fp_offset c) (m_fp_where c) b (m_file_size c).

Section FileCache.
(** [fopen(path, "rb")] gives the contents, [malloc] the bytes it leaves there. *)
Context (fopen : list Z → option (list Z)) (malloc : Z → option (list Z)).

Definition init (c : FileCache) (filePath : option (list Z)) : bool * FileCache :=
  match filePath with
  | None => (false, c)
  | Some path =>
      match fopen path with
      | None => (false, with_fp c None)
      | Some s =>
          let f := snd (fseek (mk_FILE s 0 false) 0 SEEK_END) in
          let size := u64 (ftell f) in
          let f := snd (fseek f 0 SEEK_SET) in
          (true, mk_file_cache (Some f) (m_fp_offset c) (m_fp_where c) (m_cache c) size)
      end
  end.

Definition myFree (c : FileCache) : FileCache := with_cache c None.

Definition myMalloc (c : FileCache) (len : Z) : bool * FileCache :=
  let c := with_cache (myFree c) (malloc len) in
  (match m_cache c with None => false | Some _ => true end, c).

(** With no stream the calls of the C library are undefined. *)
Definition fileTell (c : FileCache) : option Z := f ← m_fp c; Some (s32 (ftell f)).

Definition fileEof (c : FileCache) : option bool :=
  t ← fileTell c;
  f ← m_fp c;
  Some ((m_file_size c <=? u64 t) || eof f).

Definition fileSeek (c : FileCache) (loffset iwhere : Z) : option (Z * FileCache) :=
  f ← m_fp c;
  let '(r, f) := fseek f (s32 loffset) iwhere in
  Some (r, with_fp c (Some f)).

(** The steps both overloads of [readCache] share: note the request, seek. *)
Definition note_request (c : FileCache) (loffset iwhere : Z) : FileCache :=
  mk_file_cache (m_fp c) (s32 loffset) iwhere (m_cache c) (m_file_size c).

Definition seek_first (c : FileCache) (f : FILE) (loffset iwhere : Z) (bfseek : bool) : bool * FILE :=
  if bfseek then let '(r, f) := fseek f (s32 loffset) iwhere in (r =? 0, f) else (true, f).

(** [uchar* readCache(readsize, loffset, iwhere, bfseek)]; [None] is NULL. *)
Definition readCache (c : FileCache) (readsize loffset iwhere : Z) (bfseek : bool)
    : option (list Z) * FileCache :=
  match m_fp c with
  | None => (None, c)
  | Some f =>
      let c := note_request c loffset iwhere in
      let '(ok, f) := seek_first c f loffset iwhere bfseek in
      let c := with_fp c (Some f) in
      if negb ok then (None, c)
      else
        let '(ok, c) := myMalloc c readsize in
        if negb ok then (None, c)
        else
          match fread f readsize with
          | (None, f) => (None, myFree (with_fp c (Some f)))
          | (Some b, f) => (Some b, with_cache (with_fp c (Some f)) (Some b))
          end
  end.

(** [bool readCache(buf, readsize, ...)]: the bytes it writes to [buf] when it
    succeeds. *)
Definition readCache_into (c : FileCache) (readsize loffset iwhere : Z) (bfseek : bool)
    : option (list Z) * FileCache :=
  match m_fp c with
  | None => (None, c)
  | Some f =>
      let c := note_request c loffset iwhere in
      let '(ok, f) := seek_first c f loffset iwhere bfseek in
      let c := with_fp c (Some f) in
      if negb ok then (None, c)
      else let '(b, f) := fread f readsize in (b, with_fp c (Some f))
  end.
End FileCache.

(** ** Reading forward *)

(** A cache open on a file of [s], [n] bytes read. *)
Definition opened (c : FileCache) (s : list Z) (n : Z) : Prop :=
  m_fp c = Some (mk_FILE s n false) ∧ m_file_size c = Z.of_nat (length s).

Lemma fread_at pre bs post n e :
  n = Z.of_nat (length pre) → bs ≠ [] →
  fread (mk_FILE (pre ++ bs ++ post) n e) (Z.of_nat (length bs)) =
  (Some bs, mk_FILE (pre ++ bs ++ post) (n + Z.of_nat (length bs)) e).
Proof.
  intros -> Hne. unfold fread. cbn [contents position eof].
  destruct (Z.eqb_spec (Z.of_nat (length bs)) 0); [by destruct bs|].
  rewrite drop_app_at by lia. rewrite load_app by lia. done.
Qed.

Lemma fread_short s n e size :
  0 <= n → 0 < size → Z.of_nat (length s) < n + size →
  fread (mk_FILE s n e) size = (None, mk_FILE s (Z.max n (Z.of_nat (length s))) true).
Proof.
  intros Hn Hs Hl. unfold fread. cbn [contents position]. destruct (Z.eqb_spec size 0); [lia|].
  unfold load. rewrite decide_False; [done|]. rewrite length_drop. lia.
Qed.

(** ** Positions *)

(** A cache on a file of [s], anywhere in it. *)
Definition on_file (c : FileCache) (s : list Z) : Prop :=
  (∃ n e, m_fp c = Some (mk_FILE s n e) ∧ 0 <= n) ∧ m_file_size c = Z.of_nat (length s).

Lemma opened_on_file c s n : opened c s n → 0 <= n → on_file c s.
Proof. intros [Hf Hs] Hn. split; [by exists n, false|done]. Qed.

Lemma fileTell_opened c s n : opened c s n → 0 <= n < 2 ^ 31 → fileTell c = Some n.
Proof.
  intros [Hf _] Hn. unfold fileTell. rewrite Hf. cbn [mbind option_bind]. unfold ftell. cbn [position].
  destruct (Z.ltb_spec n (2 ^ 31)); [|lia]. by rewrite swrap_small by lia.
Qed.

Lemma fileEof_opened c s n :
  opened c s n → 0 <= n < 2 ^ 31 → fileEof c = Some (Z.of_nat (length s) <=? n).
Proof.
  intros Ho Hn. unfold fileEof. rewrite (fileTell_opened c s n Ho Hn). destruct Ho as [-> ->].
  cbn [mbind option_bind eof]. by rewrite orb_false_r, wrap_small by lia.
Qed.

Lemma s32_u32 z : s32 (u32 z) = s32 z.
Proof. unfold swrap, wrap. by rewrite Zplus_mod_idemp_l. Qed.

Lemma fileSeek_cur c s n off :
  opened c s n → - 2 ^ 31 <= off < 2 ^ 31 → 0 <= n + off →
  ∃ c', fileSeek c (u32 off) SEEK_CUR = Some (0, c') ∧ opened c' s (n + off).
Proof.
  intros [Hf Hs] Ho Hn. unfold fileSeek. rewrite Hf. cbn [mbind option_bind].
  rewrite s32_u32, swrap_small by lia. unfold fseek. cbn [Z.eqb SEEK_CUR SEEK_SET Pos.eqb position contents].
  destruct (Z.ltb_spec (n + off) 0); [lia|]. eexists. split; [done|]. by split.
Qed.

Lemma fileSeek_set c s n :
  on_file c s → 0 <= n < 2 ^ 31 → ∃ c', fileSeek c n SEEK_SET = Some (0, c') ∧ opened c' s n.
Proof.
  intros [(m & e & Hf & _) Hs] Hn. unfold fileSeek. rewrite Hf. cbn [mbind option_bind].
  rewrite swrap_small by lia. unfold fseek. cbn [Z.eqb SEEK_SET contents].
  destruct (Z.ltb_spec (0 + n) 0); [lia|]. eexists. split; [done|]. by split.
Qed.

Lemma getFileSize_on c s : on_file c s → Z.of_nat (length s) < 2 ^ 31 → getFileSize c = Z.of_nat (length s).
Proof. intros [_ Hs] Hl. unfold getFileSize. rewrite Hs. apply wrap_small. lia. Qed.

Section Forward.
Context (malloc : Z → option (list Z)).
Context (malloc_ok : ∀ n, 0 <= n → ∃ l, malloc n = Some l ∧ Z.of_nat (length l) = n).

(** A read that is complete takes the bytes at the position. *)
Lemma readCache_at c pre bs post n s off wh :
  opened c s n → s = pre ++ bs ++ post → n = Z.of_nat (length pre) → bs ≠ [] →
  ∃ c', readCache malloc c (Z.of_nat (length bs)) off wh false = (Some bs, c') ∧
    opened c' s (n + Z.of_nat (length bs)).
Proof.
  intros [Hf Hs] -> Hn Hne. unfold readCache. rewrite Hf. cbn [seek_first negb].
  unfold myMalloc. destruct (malloc_ok (Z.of_nat (length bs))) as (l & -> & _); [lia|].
  cbn [with_cache m_cache negb]. rewrite fread_at by done. eexists. split; [done|]. by split.
Qed.

(** A read past the end of the file fails and leaves the stream at its end. *)
Lemma readCache_short c s n size off wh :
  opened c s n → 0 <= n → 0 < size → Z.of_nat (length s) < n + size →
  ∃ c', readCache malloc c size off wh false = (None, c') ∧
    m_fp c' = Some (mk_FILE s (Z.max n (Z.of_nat (length s))) true) ∧ m_file_size c' = m_file_size c.
Proof.
  intros [Hf Hs] Hn Hz Hl. unfold readCache. rewrite Hf. cbn [seek_first negb].
  unfold myMalloc. destruct (malloc_ok size) as (l & -> & _); [lia|].
  cbn [with_cache m_cache negb]. rewrite fread_short by done. by eexists.
Qed.

Lemma readCache_into_at c pre bs post n s off wh :
  opened c s n → s = pre ++ bs ++ post → n = Z.of_nat (length pre) → bs ≠ [] →
  ∃ c', readCache_into c (Z.of_nat (length bs)) off wh false = (Some bs, c') ∧
    opened c' s (n + Z.of_nat (length bs)).
Proof.
  intros [Hf Hs] -> Hn Hne. unfold readCache_into. rewrite Hf. cbn [seek_first negb].
  rewrite fread_at by done. eexists. split; [done|]. by split.
Qed.

(** Reading again, [k] bytes back. *)
Lemma readCache_back c pre bs post s n k :
  opened c s (n + k) → s = pre ++ bs ++ post → n = Z.of_nat (length pre) → bs ≠ [] → 0 <= k < 2 ^ 31 →
  ∃ c', readCache malloc c (Z.of_nat (length bs)) (u32 (- k)) SEEK_CUR true = (Some bs, c') ∧
    opened c' s (n + Z.of_nat (length bs)).
Proof.
  intros [Hf Hs] -> Hn Hne Hk. unfold readCache. rewrite Hf. unfold seek_first.
  rewrite s32_u32, swrap_small by lia.
  unfold fseek. cbn [Z.eqb SEEK_CUR SEEK_SET Pos.eqb position contents].
  replace (n + k + - k) with n by lia.
  destruct (Z.ltb_spec n 0); [lia|]. cbn [negb Z.eqb].
  unfold myMalloc. destruct (malloc_ok (Z.of_nat (length bs))) as (l & -> & _); [lia|].
  cbn [with_cache m_cache negb]. rewrite fread_at by done. eexists. split; [done|]. by split.
Qed.

(** The reads of a list of sizes, one after another, until one fails. *)
Fixpoint read_sizes (c : FileCache) (sizes : list Z) : list (list Z) * FileCache :=
  match sizes with
  | [] => ([], c)
  | n :: sizes =>
      match readCache malloc c n 0 0 false with
      | (None, c) => ([], c)
      | (Some b, c) => let '(bs, c) := read_sizes c sizes in (b :: bs, c)
      end
  end.

Lemma read_sizes_ok c pre blocks post n s :
  opened c s n → s = pre ++ concat blocks ++ post → n = Z.of_nat (length pre) →
  Forall (λ b, b ≠ []) blocks →
  ∃ c', read_sizes c (map (λ b, Z.of_nat (length b)) blocks) = (blocks, c') ∧
    opened c' s (n + Z.of_nat (length (concat blocks))).
Proof.
  intros Ho Hs Hn Hb. revert c pre n Ho Hs Hn.
  induction Hb as [|b blocks Hb Hbs IH]; intros c pre n Ho Hs Hn; cbn [map concat read_sizes].
  { exists c. split; [done|]. by rewrite Z.add_0_r. }
  cbn [concat] in Hs. rewrite <- app_assoc in Hs.
  destruct (readCache_at c pre b (concat blocks ++ post) n s 0 0 Ho Hs Hn Hb) as (c1 & -> & H1).
  destruct (IH c1 (pre ++ b) (n + Z.of_nat (length b)) H1) as (c2 & -> & H2).
  - rewrite Hs. by rewrite <- app_assoc.
  - rewrite length_app. lia.
  - exists c2. split; [done|]. by rewrite length_app, Nat2Z.inj_add, Z.add_assoc.
Qed.
End Forward.

(** A file just opened is at its start. *)
Lemma init_opened fopen c path s :
  fopen path = Some s → Z.of_nat (length s) < 2 ^ 31 →
  ∃ c', init fopen c (Some path) = (true, c') ∧ opened c' s 0 ∧ m_cache c' = m_cache c.
Proof.
  intros Hp Hl. unfold init. rewrite Hp.
  assert (E : fseek (mk_FILE s 0 false) 0 SEEK_END = (0, mk_FILE s (Z.of_nat (length s)) false)).
  { unfold fseek, file_length. cbn [contents position Z.eqb SEEK_SET SEEK_CUR SEEK_END Pos.eqb].
    rewrite Z.add_0_r. destruct (Z.ltb_spec (Z.of_nat (length s)) 0); [lia|done]. }
  rewrite E. cbn [snd]. eexists. split; [done|]. split; [|done]. split; [done|].
  cbn [m_file_size]. unfold ftell. cbn [position].
  destruct (Z.ltb_spec (Z.of_nat (length s)) (2 ^ 31)); [|lia]. rewrite wrap_small by lia. done.
Qed.

(** Reading forward loses and repeats nothing: a file opened and read by
    any sizes that add up to a prefix of it comes back in consecutive blocks;
    and a read that would go past the end fails, whatever is left, and takes the
    stream to the end of the file. *)
Theorem reads_are_consecutive fopen malloc c path blocks post :
  (∀ n, 0 <= n → ∃ l, malloc n = Some l ∧ Z.of_nat (length l) = n) →
  fopen path = Some (concat blocks ++ post) → Z.of_nat (length (concat blocks ++ post)) < 2 ^ 31 →
  Forall (λ b, b ≠ []) blocks →
  ∃ c1 c2, init fopen c (Some path) = (true, c1) ∧
    read_sizes malloc c1 (map (λ b, Z.of_nat (length b)) blocks) = (blocks, c2) ∧
    fileTell c2 = Some (Z.of_nat (length (concat blocks))) ∧
    fileEof c2 = Some (bool_decide (post = [])) ∧
    ∀ size, Z.of_nat (length post) < size →
      ∃ c3, readCache malloc c2 size 0 0 false = (None, c3) ∧ fileEof c3 = Some true.
Proof.
  intros Hm Hp Hl Hb. destruct (init_opened fopen c path _ Hp Hl) as (c1 & -> & O1 & _).
  exists c1. destruct (read_sizes_ok malloc Hm c1 [] blocks post 0 _ O1 eq_refl eq_refl Hb)
    as (c2 & E2 & O2). exists c2. rewrite Z.add_0_l in O2. rewrite length_app in *.
  assert (T : fileTell c2 = Some (Z.of_nat (length (concat blocks)))).
  { destruct O2 as [O2 _]. unfold fileTell. rewrite O2. cbn [mbind option_bind]. unfold ftell. cbn [position].
    destruct (Z.ltb_spec (Z.of_nat (length (concat blocks))) (2 ^ 31)); [|lia].
    by rewrite swrap_small by lia. }
  split_and!; [done|done|done| |].
  - unfold fileEof. rewrite T. destruct O2 as [-> ->]. cbn [mbind option_bind eof]. f_equal.
    rewrite orb_false_r, wrap_small, length_app by lia.
    destruct post; cbn [length]; [rewrite bool_decide_eq_true_2 by done|rewrite bool_decide_eq_false_2 by done];
      [apply Z.leb_le|apply Z.leb_gt]; lia.
  - intros size Hs. destruct (readCache_short malloc Hm c2 _ _ size 0 0 O2) as (c3 & E3 & F3 & S3);
      [lia|lia|rewrite length_app; lia|].
    exists c3. split; [done|]. unfold fileEof, fileTell. rewrite F3, S3. cbn [mbind option_bind eof].
    by rewrite orb_true_r.
Qed.

Lemma reads_are_consecutive_witness :
  ∃ c1 c2, init (λ _, Some [1; 2; 3; 4; 5]) (new_FileCache 0 0) (Some [97]) = (true, c1) ∧
    read_sizes (λ n, Some (replicate (Z.to_nat n) 0)) c1 [2; 1] = ([[1; 2]; [3]], c2) ∧
    fileEof c2 = Some false.
Proof.
  destruct (reads_are_consecutive (λ _, Some [1; 2; 3; 4; 5]) (λ n, Some (replicate (Z.to_nat n) 0))
    (new_FileCache 0 0) [97] [[1; 2]; [3]] [4; 5]) as (c1 & c2 & E1 & E2 & _ & E3 & _);
    [|done|done|by repeat constructor|by exists c1, c2].
  intros n Hn. eexists. split; [done|]. rewrite length_replicate. lia.
Defined.
