(* ===== verification/SharedQueue.v ===== *)
(** The queues between the threads of the program: a deque or several behind one
    mutex and its two condition variables, as [binlog/src/CRowData.cpp],
    [DataSync/CProcessMqData.cpp] and [wmsclient/wmsclient/UpdateDbThread.cpp]
    all have them.

    A call holds the mutex from its entry to its end, except while it sleeps; so
    an execution is a sequence of pieces of calls: from the entry to the end or
    to the sleep, and from the wakeup to the end. *)
From S2P Require Import Prelude RowValue.

Section Queues.
Context {A : Type}.
(** The length from which a producer sleeps, and whether a consumer of the
    deque returns a value of its own when it wakes up and finds it empty. *)
Context (capacity : Z) (guarded : nat → bool).

(** A call on one of the deques. *)
Inductive call :=
  | Product (i : nat) (d : A)
  | Consumer (i : nat).

(** The deques; the calls asleep on [full] and on [empty]; those woken that
    wait for the mutex.  The rest is the history: what was pushed, what was
    given up, and what the consumers returned ([None] is NULL). *)
Record state := mk_state {
  deques : list (list A);
  asleep_full : list (nat * A);
  asleep_empty : list nat;
  woken : list call;
  accepted : list (nat * A);
  lost : list (nat * A);
  returned : list (nat * option A);
}.

Definition initial (n : nat) : state := mk_state (replicate n []) [] [] [] [] [] [].

(** Undefined behaviour: the front of an empty deque, or an indeterminate
    pointer that is returned. *)
Inductive outcome := Next (s : state) | Undefined.

(** [CONDITION_WAKEUP] wakes one of the calls asleep, the [w]-th. *)
Definition wakeup_empty (w : nat) (s : state) : option state :=
  match asleep_empty s with
  | [] => Some s
  | _ =>
      i ← asleep_empty s !! w;
      Some (mk_state (deques s) (asleep_full s) (delete w (asleep_empty s)) (woken s ++ [Consumer i])
              (accepted s) (lost s) (returned s))
  end.

Definition wakeup_full (w : nat) (s : state) : option state :=
  match asleep_full s with
  | [] => Some s
  | _ =>
      p ← asleep_full s !! w;
      Some (mk_state (deques s) (delete w (asleep_full s)) (asleep_empty s)
              (woken s ++ [Product (fst p) (snd p)]) (accepted s) (lost s) (returned s))
  end.

(** [CONDITION_SLEEP]. *)
Definition sleep_full (i : nat) (d : A) (s : state) : state :=
  mk_state (deques s) (asleep_full s ++ [(i, d)]) (asleep_empty s) (woken s) (accepted s) (lost s)
    (returned s).

Definition sleep_empty (i : nat) (s : state) : state :=
  mk_state (deques s) (asleep_full s) (asleep_empty s ++ [i]) (woken s) (accepted s) (lost s) (returned s).

Definition push_back (i : nat) (d : A) (l : list A) (s : state) : state :=
  mk_state (<[i := l ++ [d]]> (deques s)) (asleep_full s) (asleep_empty s) (woken s)
    (accepted s ++ [(i, d)]) (lost s) (returned s).

Definition drop_datum (i : nat) (d : A) (s : state) : state :=
  mk_state (deques s) (asleep_full s) (asleep_empty s) (woken s) (accepted s) (lost s ++ [(i, d)])
    (returned s).

Definition pop_front (i : nat) (d : A) (l : list A) (s : state) : state :=
  mk_state (<[i := l]> (deques s)) (asleep_full s) (asleep_empty s) (woken s) (accepted s) (lost s)
    (returned s ++ [(i, Some d)]).

Definition return_null (i : nat) (s : state) : state :=
  mk_state (deques s) (asleep_full s) (asleep_empty s) (woken s) (accepted s) (lost s)
    (returned s ++ [(i, None)]).

(** The producer, from its entry; and from its wakeup, when it does not push. *)
Definition product_enter (i : nat) (d : A) (w : nat) (s : state) : option state :=
  l ← deques s !! i;
  if capacity <=? Z.of_nat (length l) then Some (sleep_full i d s)
  else wakeup_empty w (push_back i d l s).

Definition product_resume (i : nat) (d : A) (w : nat) (s : state) : option state :=
  wakeup_empty w (drop_datum i d s).

(** The consumer's end: the front of the deque, if it has one. *)
Definition consumer_resume (i w : nat) (s : state) : option outcome :=
  l ← deques s !! i;
  match l with
  | d :: l => s ← wakeup_full w (pop_front i d l s); Some (Next s)
  | [] => if guarded i then s ← wakeup_full w (return_null i s); Some (Next s) else Some Undefined
  end.

Definition consumer_enter (i w : nat) (s : state) : option outcome :=
  l ← deques s !! i;
  match l with
  | [] => Some (Next (sleep_empty i s))
  | _ => consumer_resume i w s
  end.

(** A piece of an execution: a call enters, the [k]-th woken call goes on, or a
    sleeping call wakes up on its own.  [None] is a piece that cannot happen. *)
Inductive action :=
  | Enter (c : call) (w : nat)
  | Resume (k w : nat)
  | Spurious_full (k : nat)
  | Spurious_empty (k : nat).

Definition unwake (k : nat) (s : state) : state :=
  mk_state (deques s) (asleep_full s) (asleep_empty s) (delete k (woken s)) (accepted s) (lost s)
    (returned s).

Definition next (o : option state) : option outcome := s ← o; Some (Next s).

Definition step (a : action) (s : state) : option outcome :=
  match a with
  | Enter (Product i d) w => next (product_enter i d w s)
  | Enter (Consumer i) w => consumer_enter i w s
  | Resume k w =>
      c ← woken s !! k;
      match c with
      | Product i d => next (product_resume i d w (unwake k s))
      | Consumer i => consumer_resume i w (unwake k s)
      end
  | Spurious_full k => if decide (k < length (asleep_full s))%nat then next (wakeup_full k s) else None
  | Spurious_empty k => if decide (k < length (asleep_empty s))%nat then next (wakeup_empty k s) else None
  end.

Fixpoint execute (l : list action) (s : state) : option outcome :=
  match l with
  | [] => Some (Next s)
  | a :: l =>
      o ← step a s;
      match o with Next s => execute l s | Undefined => Some Undefined end
  end.

(** ** The invariant *)

(** The data of the calls that have not ended. *)
Definition pending_product (c : call) : list (nat * A) :=
  match c with Product i d => [(i, d)] | Consumer _ => [] end.

Definition pending (s : state) : list (nat * A) := asleep_full s ++ concat (map pending_product (woken s)).

Definition of_deque {B} (i : nat) (l : list (nat * B)) : list B :=
  omap (λ p, if decide (fst p = i) then Some (snd p) else None) l.

Definition received (i : nat) (s : state) : list A := omap id (of_deque i (returned s)).

Record queue_ok (n : nat) (entered : list (nat * A)) (s : state) : Prop := {
  qk_deques : length (deques s) = n;
  qk_bound : ∀ i l, deques s !! i = Some l → Z.of_nat (length l) <= Z.max 0 capacity;
  qk_fifo : ∀ i l, deques s !! i = Some l → of_deque i (accepted s) = received i s ++ l;
  qk_total : entered ≡ₚ accepted s ++ lost s ++ pending s;
}.

Definition entering (a : action) : list (nat * A) :=
  match a with Enter c _ => pending_product c | _ => [] end.

Lemma of_deque_app {B} i (l1 l2 : list (nat * B)) : of_deque i (l1 ++ l2) = of_deque i l1 ++ of_deque i l2.
Proof. apply omap_app. Qed.

Lemma received_snoc i j r s l :
  returned s = l ++ [(j, r)] →
  received i s = omap id (of_deque i l) ++ (if decide (j = i) then option_list r else []).
Proof.
  intros E. unfold received. rewrite E, of_deque_app, omap_app. f_equal. unfold of_deque. cbn.
  destruct (decide (j = i)); by destruct r.
Qed.

(** The bookkeeping steps. *)
Lemma wakeup_empty_ok n e w s s' : queue_ok n e s → wakeup_empty w s = Some s' → queue_ok n e s'.
Proof.
  intros [H1 H2 H3 H4] E. unfold wakeup_empty in E. destruct (asleep_empty s) eqn:Es.
  { injection E as <-. by split. }
  invert_bind E. injection E as <-. split; try done. unfold pending in *. cbn.
  rewrite map_app, concat_app. cbn. by rewrite app_nil_r.
Qed.

Lemma wakeup_full_ok n e w s s' : queue_ok n e s → wakeup_full w s = Some s' → queue_ok n e s'.
Proof.
  intros [H1 H2 H3 H4] E. unfold wakeup_full in E. destruct (asleep_full s) eqn:Es.
  { injection E as <-. by split. }
  rewrite <- Es in E. destruct (asleep_full s !! w) as [[i d]|] eqn:Ep; [|discriminate].
  cbn in E. injection E as <-. split; try done. rewrite H4. unfold pending. cbn.
  rewrite map_app, concat_app. cbn. do 2 f_equiv.
  rewrite (delete_Permutation _ _ _ Ep) at 1. cbn. by rewrite app_assoc, <- Permutation_cons_append.
Qed.

Lemma unwake_ok n e k c s :
  queue_ok n e s → woken s !! k = Some c →
  ∃ e', e ≡ₚ pending_product c ++ e' ∧ queue_ok n e' (unwake k s).
Proof.
  intros [H1 H2 H3 H4] Hk.
  exists (accepted s ++ lost s ++ pending (unwake k s)). split; [|by split].
  rewrite H4. unfold pending. cbn. rewrite (delete_Permutation _ _ _ Hk) at 1. cbn.
  rewrite !(Permutation_app_comm (pending_product c)), <- !app_assoc. do 3 f_equiv.
Qed.

(** One piece of a producer: [e] without its datum to [e] with it. *)
Lemma drop_datum_ok n e i d s : queue_ok n e s → queue_ok n ((i, d) :: e) (drop_datum i d s).
Proof.
  intros [H1 H2 H3 H4]. split; try done. rewrite H4. unfold pending. cbn.
  rewrite <- !app_assoc. cbn. by rewrite !Permutation_middle.
Qed.

Lemma push_back_ok n e i d l s :
  queue_ok n e s → deques s !! i = Some l → Z.of_nat (length l) < capacity →
  queue_ok n ((i, d) :: e) (push_back i d l s).
Proof.
  intros [H1 H2 H3 H4] Hi Hl. split; cbn [push_back deques accepted].
  - by rewrite length_insert.
  - intros j l' Hj. destruct (decide (i = j)) as [<-|Hne].
    + rewrite list_lookup_insert_eq in Hj by (by apply lookup_lt_Some in Hi). injection Hj as <-.
      rewrite length_app. cbn. lia.
    + rewrite list_lookup_insert_ne in Hj by done. by eapply H2.
  - intros j l' Hj. rewrite of_deque_app. unfold of_deque at 2. cbn.
    destruct (decide (i = j)) as [<-|Hne].
    + rewrite list_lookup_insert_eq in Hj by (by apply lookup_lt_Some in Hi). injection Hj as <-.
      rewrite (H3 i l Hi). by rewrite <- app_assoc.
    + rewrite list_lookup_insert_ne in Hj by done. rewrite app_nil_r. by apply H3.
  - rewrite H4. unfold pending. cbn. rewrite <- !app_assoc. cbn. by rewrite !Permutation_middle.
Qed.

Lemma sleep_full_ok n e i d s : queue_ok n e s → queue_ok n ((i, d) :: e) (sleep_full i d s).
Proof.
  intros [H1 H2 H3 H4]. split; try done. rewrite H4. unfold pending. cbn.
  rewrite <- !app_assoc. cbn. by rewrite !Permutation_middle.
Qed.

Lemma pop_front_ok n e i d l s :
  queue_ok n e s → deques s !! i = Some (d :: l) → queue_ok n e (pop_front i d l s).
Proof.
  intros [H1 H2 H3 H4] Hi. pose proof (lookup_lt_Some _ _ _ Hi) as Hlt. split; cbn [pop_front deques accepted]; [| | |done].
  - by rewrite length_insert.
  - intros j l' Hj. destruct (decide (i = j)) as [<-|Hne].
    + rewrite list_lookup_insert_eq in Hj by done. injection Hj as <-.
      specialize (H2 i _ Hi). cbn in H2. lia.
    + rewrite list_lookup_insert_ne in Hj by done. by eapply H2.
  - intros j l' Hj. rewrite (received_snoc j i (Some d) _ (returned s)) by done.
    destruct (decide (i = j)) as [<-|Hne].
    + rewrite list_lookup_insert_eq in Hj by done. injection Hj as <-.
      rewrite (H3 i _ Hi). unfold received. by rewrite <- app_assoc.
    + rewrite list_lookup_insert_ne in Hj by done. rewrite app_nil_r. by apply H3.
Qed.

Lemma return_null_ok n e i s : queue_ok n e s → queue_ok n e (return_null i s).
Proof.
  intros [H1 H2 H3 H4]. split; try done. intros j l' Hj.
  rewrite (received_snoc j i None _ (returned s)) by done. cbn.
  replace (if decide (i = j) then [] else []) with (@nil A) by (by destruct (decide (i = j))).
  rewrite app_nil_r. by apply H3.
Qed.

#[global] Instance queue_ok_proper n : Proper ((≡ₚ) ==> (=) ==> iff) (queue_ok n).
Proof.
  intros e1 e2 He s ? <-. split; intros [H1 H2 H3 H4]; split; try done; by rewrite <- H4, He || rewrite He.
Qed.

Lemma product_resume_ok n e i d w s s' :
  queue_ok n e s → product_resume i d w s = Some s' → queue_ok n ((i, d) :: e) s'.
Proof. intros H E. eapply wakeup_empty_ok; [|exact E]. by apply drop_datum_ok. Qed.

Lemma product_enter_ok n e i d w s s' :
  queue_ok n e s → product_enter i d w s = Some s' → queue_ok n ((i, d) :: e) s'.
Proof.
  intros H E. unfold product_enter in E. destruct (deques s !! i) as [l|] eqn:Ei; [|discriminate].
  cbn in E. destruct (Z.leb_spec capacity (Z.of_nat (length l))).
  - injection E as <-. by apply sleep_full_ok.
  - eapply wakeup_empty_ok; [|exact E]. by apply push_back_ok.
Qed.

Lemma consumer_resume_ok n e i w s s' :
  queue_ok n e s → consumer_resume i w s = Some (Next s') → queue_ok n e s'.
Proof.
  intros H E. unfold consumer_resume in E. destruct (deques s !! i) as [[|d l]|] eqn:Ei; [..|discriminate].
  - cbn in E. destruct (guarded i); [|discriminate]. destruct (wakeup_full w _) eqn:Ew; [|discriminate].
    injection E as <-. eapply wakeup_full_ok; [|exact Ew]. by apply return_null_ok.
  - cbn in E. destruct (wakeup_full w _) eqn:Ew; [|discriminate].
    injection E as <-. eapply wakeup_full_ok; [|exact Ew]. by apply pop_front_ok.
Qed.

Lemma consumer_enter_ok n e i w s s' :
  queue_ok n e s → consumer_enter i w s = Some (Next s') → queue_ok n e s'.
Proof.
  intros H E. unfold consumer_enter in E. destruct (deques s !! i) as [[|d l]|] eqn:Ei; [..|discriminate].
  - injection E as <-. by destruct H.
  - by eapply consumer_resume_ok.
Qed.

Lemma next_inv o s : next o = Some (Next s) → o = Some s.
Proof. destruct o; [|discriminate]. by intros [= ->]. Qed.

Lemma step_ok n e a s s' :
  queue_ok n e s → step a s = Some (Next s') → queue_ok n (entering a ++ e) s'.
Proof.
  intros H E. destruct a as [[i d|i] w|k w|k|k]; cbn [step entering pending_product app] in *.
  - apply next_inv in E. by eapply product_enter_ok.
  - by eapply consumer_enter_ok.
  - destruct (woken s !! k) as [c|] eqn:Ek; [|discriminate]. cbn in E.
    destruct (unwake_ok n e k c s H Ek) as (e' & He & H'). rewrite He.
    destruct c as [i d|i]; cbn.
    + apply next_inv in E. by eapply product_resume_ok.
    + by eapply consumer_resume_ok.
  - destruct (decide _); [|discriminate]. apply next_inv in E. by eapply wakeup_full_ok.
  - destruct (decide _); [|discriminate]. apply next_inv in E. by eapply wakeup_empty_ok.
Qed.

Lemma initial_ok n : queue_ok n [] (initial n).
Proof.
  assert (E : ∀ i l, replicate n ([] : list A) !! i = Some l → l = [])
    by (intros i l H; by apply lookup_replicate in H as [-> _]).
  split; cbn; [by rewrite length_replicate| | |done]; intros i l Hl; apply E in Hl as ->; [cbn; lia|done].
Qed.

Lemma execute_ok n l s s' e :
  queue_ok n e s → execute l s = Some (Next s') →
  ∃ e', e' ≡ₚ concat (map entering l) ++ e ∧ queue_ok n e' s'.
Proof.
  revert s e. induction l as [|a l IH]; intros s e H E; cbn [execute map concat] in *.
  { injection E as <-. by exists e. }
  destruct (step a s) as [[s1|]|] eqn:Ea; [|discriminate..]. cbn in E.
  destruct (IH s1 (entering a ++ e) (step_ok n e a s s1 H Ea) E) as (e' & He & H').
  exists e'. split; [|done]. rewrite He, app_assoc, (Permutation_app_comm (concat _)), <- app_assoc. done.
Qed.

(** A consumer that looks again is never undefined. *)
Lemma guarded_step a s : (∀ i, guarded i = true) → step a s ≠ Some Undefined.
Proof.
  intros G. assert (R : ∀ i w s, consumer_resume i w s ≠ Some Undefined).
  { intros i w s0. unfold consumer_resume. rewrite G.
    destruct (deques s0 !! i) as [[|d l]|]; cbn; [..|done]; by destruct (wakeup_full w _). }
  destruct a as [[i d|i] w|k w|k|k]; cbn [step].
  - by destruct (product_enter _ _ _ _).
  - unfold consumer_enter. destruct (deques s !! i) as [[|d l]|]; cbn; [done|apply R|done].
  - destruct (woken s !! k) as [[i d|i]|]; cbn; [by destruct (product_resume _ _ _ _)|apply R|done].
  - destruct (decide _); [by destruct (wakeup_full _ _)|done].
  - destruct (decide _); [by destruct (wakeup_empty _ _)|done].
Qed.

(** ** No message is left with its consumer asleep *)

Definition is_consumer (c : call) : bool := match c with Consumer _ => true | _ => false end.
Definition woken_consumers (l : list call) : nat := length (filter is_consumer l).
#[local] Arguments woken_consumers : simpl never.

(** With one deque: when a consumer sleeps, a woken one is there for every
    message. *)
Definition attended (s : state) : Prop :=
  ∀ q, deques s = [q] → asleep_empty s ≠ [] → (length q ≤ woken_consumers (woken s))%nat.

Lemma woken_consumers_snoc l c :
  woken_consumers (l ++ [c]) = (woken_consumers l + if is_consumer c then 1 else 0)%nat.
Proof. unfold woken_consumers. rewrite filter_app, length_app. by destruct c. Qed.

Lemma woken_consumers_delete k l c :
  l !! k = Some c →
  woken_consumers l = ((if is_consumer c then 1 else 0) + woken_consumers (delete k l))%nat.
Proof.
  intros H. unfold woken_consumers. rewrite (delete_Permutation _ _ _ H) at 1. by destruct c.
Qed.

(** Waking a consumer makes up for one message more. *)
Lemma wakeup_empty_attended w s s' q :
  deques s = [q] → (asleep_empty s ≠ [] → (length q ≤ S (woken_consumers (woken s)))%nat) →
  wakeup_empty w s = Some s' → attended s'.
Proof.
  intros Hq H E. unfold wakeup_empty in E. destruct (asleep_empty s) as [|j l] eqn:Es.
  { injection E as <-. intros q' _ Hne. by rewrite Es in Hne. }
  invert_bind E. injection E as <-. intros q' Hq' _. cbn [deques woken] in *. rewrite Hq in Hq'. injection Hq' as <-.
  rewrite woken_consumers_snoc. cbn [is_consumer]. specialize (H ltac:(done)). lia.
Qed.

Lemma wakeup_full_attended w s s' : attended s → wakeup_full w s = Some s' → attended s'.
Proof.
  intros H E. unfold wakeup_full in E. destruct (asleep_full s) eqn:Es; [by injection E as <-|].
  invert_bind E. injection E as <-. intros q Hq Hne. cbn [deques woken asleep_empty] in *. rewrite woken_consumers_snoc. cbn [is_consumer].
  specialize (H q Hq Hne). lia.
Qed.

Lemma consumer_resume_attended i w s s' q :
  deques s = [q] → (asleep_empty s ≠ [] → (pred (length q) ≤ woken_consumers (woken s))%nat) →
  consumer_resume i w s = Some (Next s') → attended s'.
Proof.
  intros Hq H E. unfold consumer_resume in E. rewrite Hq in E. destruct i as [|i]; [|discriminate].
  destruct q as [|d l]; cbn [lookup list_lookup mbind option_bind] in E.
  - destruct (guarded 0%nat); [|discriminate]. destruct (wakeup_full w _) as [s1|] eqn:Ew; [|discriminate].
    injection E as <-. eapply wakeup_full_attended; [|exact Ew]. intros q' Hq' Hne. cbn in *.
    rewrite Hq in Hq'. injection Hq' as <-. cbn. lia.
  - destruct (wakeup_full w _) as [s1|] eqn:Ew; [|discriminate].
    injection E as <-. eapply wakeup_full_attended; [|exact Ew]. intros q' Hq' Hne. cbn in *.
    rewrite Hq in Hq'. injection Hq' as <-. by apply H.
Qed.

Lemma attended_step a s s' q :
  deques s = [q] → attended s → step a s = Some (Next s') → attended s'.
Proof.
  intros Hq H E. destruct a as [[i d|i] w|k w|k|k]; cbn [step] in E.
  - apply next_inv in E. unfold product_enter in E. rewrite Hq in E. destruct i as [|i]; [|discriminate].
    cbn in E. destruct (capacity <=? _).
    + injection E as <-. exact H.
    + eapply (wakeup_empty_attended _ _ _ (q ++ [d])); [|..|exact E]; [cbn; by rewrite Hq|].
      cbn. intros Hne. rewrite length_app. specialize (H q Hq Hne). cbn. lia.
  - unfold consumer_enter in E. destruct i as [|i]; [|by rewrite Hq in E]. rewrite Hq in E. cbn in E.
    destruct q as [|d l].
    + injection E as <-. intros q' Hq' _. cbn in Hq'. rewrite Hq in Hq'. injection Hq' as <-. cbn. lia.
    + eapply consumer_resume_attended; [exact Hq| |exact E].
      intros Hne. specialize (H _ Hq Hne). cbn in *. lia.
  - destruct (woken s !! k) as [c|] eqn:Ek; [|discriminate]. cbn [mbind option_bind] in E.
    pose proof (woken_consumers_delete k _ c Ek) as Hk. destruct c as [i d|i].
    + apply next_inv in E. eapply wakeup_empty_attended; [| |exact E]; [exact Hq|].
      cbn. intros Hne. specialize (H _ Hq Hne). cbn in Hk. lia.
    + eapply consumer_resume_attended; [| |exact E]; [exact Hq|].
      cbn. intros Hne. specialize (H _ Hq Hne). cbn in Hk. lia.
  - destruct (decide _); [|discriminate]. apply next_inv in E. by eapply wakeup_full_attended.
  - destruct (decide _); [|discriminate]. apply next_inv in E.
    eapply wakeup_empty_attended; [exact Hq| |exact E]. intros Hne. specialize (H _ Hq Hne). lia.
Qed.

Lemma execute_attended l s s' e :
  queue_ok 1 e s → attended s → execute l s = Some (Next s') → attended s'.
Proof.
  revert s e. induction l as [|a l IH]; intros s e H Ha E; cbn [execute] in E.
  { by injection E as <-. }
  destruct (step a s) as [[s1|]|] eqn:Ea; [|discriminate..]. cbn in E.
  pose proof (qk_deques _ _ _ H) as H1. destruct (deques s) as [|q [|? ?]] eqn:Eq; [done| |done].
  eapply (IH s1); [by eapply step_ok| |exact E]. by eapply attended_step.
Qed.

(** ** Threads *)

(** The two threads of the program on each deque: no call enters while another
    of the same kind on the same deque has not ended, and none wakes on its own. *)
Definition on_deque (i : nat) (p : nat * A) : bool := bool_decide (fst p = i).
Definition same_call (c c' : call) : bool :=
  match c, c' with
  | Product i _, Product j _ => bool_decide (i = j)
  | Consumer i, Consumer j => bool_decide (i = j)
  | _, _ => false
  end.

Definition free_to_enter (c : call) (s : state) : bool :=
  negb (existsb (same_call c) (woken s)) &&
  match c with
  | Product i _ => negb (existsb (on_deque i) (asleep_full s))
  | Consumer i => negb (existsb (λ j, bool_decide (i = j)) (asleep_empty s))
  end.

Fixpoint two_threads (l : list action) (s : state) : bool :=
  match l with
  | [] => true
  | a :: l =>
      match a with
      | Enter c _ => free_to_enter c s
      | Resume _ _ => true
      | _ => false
      end &&
      match step a s with Some (Next s) => two_threads l s | _ => true end
  end.

(** ** One producer and one consumer of one deque *)

(** The calls are on the deque [i], and it is not full when a producer enters. *)
Definition only_on (i : nat) (a : action) : bool :=
  match a with
  | Enter (Product j _) _ | Enter (Consumer j) _ => bool_decide (j = i)
  | _ => true
  end.

Fixpoint never_full (i : nat) (l : list action) (s : state) : bool :=
  match l with
  | [] => true
  | a :: l =>
      match a, deques s !! i with
      | Enter (Product _ _) _, Some q => Z.of_nat (length q) <? capacity
      | _, _ => true
      end &&
      match step a s with Some (Next s) => never_full i l s | _ => true end
  end.

(** No producer sleeps; the consumer is running, or asleep at an empty deque, or
    woken with something to take. *)
Record pair_ok (i : nat) (entered : list A) (s : state) : Prop := {
  pr_full : asleep_full s = [];
  pr_lost : lost s = [];
  pr_deque : ∃ q, deques s !! i = Some q ∧ entered = received i s ++ q ∧
    (asleep_empty s = [] ∧ woken s = []
     ∨ asleep_empty s = [i] ∧ woken s = [] ∧ q = []
     ∨ asleep_empty s = [] ∧ woken s = [Consumer i] ∧ q ≠ []);
}.

Lemma pair_pop i d q e w s o :
  asleep_full s = [] → lost s = [] → asleep_empty s = [] → woken s = [] → deques s !! i = Some (d :: q) →
  e = received i s ++ d :: q → consumer_resume i w s = Some o → ∃ s', o = Next s' ∧ pair_ok i e s'.
Proof.
  intros Hf Hl Ha Hw Hq He E. unfold consumer_resume in E. rewrite Hq in E. cbn in E.
  unfold wakeup_full in E. cbn in E. rewrite Hf in E. cbn in E. injection E as <-. eexists. split; [done|].
  split; cbn; [done..|]. exists q. rewrite list_lookup_insert_eq by (by eapply lookup_lt_Some).
  split; [done|]. split; [|by left]. unfold received, of_deque in *. cbn.
  rewrite omap_app. cbn. rewrite decide_True by done. rewrite omap_app. cbn. by rewrite <- app_assoc.
Qed.

Lemma pair_step i a e s o :
  pair_ok i e s → only_on i a = true → never_full i [a] s = true → two_threads [a] s = true →
  step a s = Some o → ∃ s', o = Next s' ∧ pair_ok i (e ++ map snd (entering a)) s'.
Proof.
  intros [Hf Hl (q & Hq & He & Hc)] Ho Hn Ht E. cbn [never_full two_threads] in Hn, Ht.
  destruct a as [[j d|j] w|k w|k|k]; cbn [step only_on entering pending_product map snd] in *; try done;
    rewrite ?app_nil_r.
  - apply bool_decide_eq_true in Ho as ->. rewrite Hq in Hn. apply andb_true_iff in Hn as [Hn%Z.ltb_lt _].
    unfold product_enter in E. rewrite Hq in E. cbn [mbind option_bind] in E.
    destruct (Z.leb_spec capacity (Z.of_nat (length q))); [lia|]. unfold next, wakeup_empty, push_back in E. cbn in E.
    assert (i < length (deques s))%nat by (by eapply lookup_lt_Some).
    destruct Hc as [(Ha & Hw)|[(Ha & Hw & ->)|(Ha & Hw & Hne)]]; rewrite Ha in E; cbn in E.
    1,3: injection E as <-; eexists; split; [done|]; split; cbn; [done..|]; exists (q ++ [d]);
      rewrite list_lookup_insert_eq by done; split; [done|]; split; [by rewrite He, app_assoc|].
    + by left.
    + right. right. split_and!; [done..|]. by destruct q.
    + destruct w as [|w]; [|done]. cbn in E. injection E as <-. eexists. split; [done|].
      split; cbn; [done..|]. exists [d]. rewrite list_lookup_insert_eq by done. split; [done|].
      split; [by rewrite He, app_nil_r|]. right. right. by rewrite Hw.
  - apply bool_decide_eq_true in Ho as ->. apply andb_true_iff in Ht as [Ht _].
    unfold free_to_enter in Ht. unfold consumer_enter in E. rewrite Hq in E. cbn in E.
    destruct Hc as [(Ha & Hw)|[(Ha & Hw & ->)|(Ha & Hw & Hne)]].
    + destruct q as [|d q]; [|by eapply pair_pop]. injection E as <-. eexists. split; [done|].
      split; cbn; [done..|]. exists []. split; [done|]. split; [done|]. right. left. by rewrite Ha.
    + rewrite Ha in Ht. cbn in Ht. rewrite bool_decide_eq_true_2 in Ht by done. by rewrite andb_false_r in Ht.
    + rewrite Hw in Ht. cbn in Ht. by rewrite bool_decide_eq_true_2 in Ht by done.
  - destruct Hc as [(Ha & Hw)|[(Ha & Hw & ->)|(Ha & Hw & Hne)]]; rewrite Hw in E; [done..|].
    destruct k as [|k]; [|done]. cbn in E. destruct q as [|d q]; [done|].
    by eapply (pair_pop i d q e w (unwake 0 s)); cbn; rewrite ?Hw.
Qed.

Lemma pair_execute i l e s o :
  pair_ok i e s → forallb (only_on i) l = true → never_full i l s = true → two_threads l s = true →
  execute l s = Some o → ∃ s', o = Next s' ∧ pair_ok i (e ++ map snd (concat (map entering l))) s'.
Proof.
  revert e s. induction l as [|a l IH]; intros e s Hp Ho Hn Ht E; cbn [execute map concat forallb] in *.
  { injection E as <-. exists s. by rewrite app_nil_r. }
  apply andb_true_iff in Ho as [Ho1 Ho]. cbn [never_full two_threads] in Hn, Ht.
  apply andb_true_iff in Hn as [Hn1 Hn]. apply andb_true_iff in Ht as [Ht1 Ht].
  destruct (step a s) as [o1|] eqn:Ea; [|done].
  destruct (pair_step i a e s o1 Hp Ho1) as (s1 & -> & H1).
  - cbn [never_full]. rewrite Hn1, Ea. by destruct o1.
  - cbn [two_threads]. rewrite Ht1, Ea. by destruct o1.
  - done.
  - cbn in E. destruct (IH _ s1 H1 Ho Hn Ht E) as (s' & -> & H'). exists s'. split; [done|].
    by rewrite map_app, app_assoc.
Qed.

Lemma pair_initial i n : (i < n)%nat → pair_ok i [] (initial n).
Proof.
  intros Hi. split; [done..|]. exists []. split; [by apply lookup_replicate|]. split; [done|]. by left.
Qed.

(** The data of the producing calls of an execution. *)
Definition entered (l : list action) : list A := map snd (concat (map entering l)).

(** The calls are those of the two threads on one deque that is not full when the
    producer enters. *)
Definition quiet (i : nat) (l : list action) (s : state) : bool :=
  forallb (only_on i) l && never_full i l s && two_threads l s.

Lemma quiet_execute i n l o : (i < n)%nat → quiet i l (initial n) = true → execute l (initial n) = Some o →
  ∃ s, o = Next s ∧ pair_ok i (entered l) s.
Proof.
  unfold quiet. rewrite !andb_true_iff. intros Hi [[Ho Hn] Ht] E.
  exact (pair_execute i l [] _ o (pair_initial i n Hi) Ho Hn Ht E).
Qed.

(** A consumer that sleeps has nothing to take. *)
Lemma pair_asleep i e s : pair_ok i e s → ∃ q, deques s !! i = Some q ∧ e = received i s ++ q
  ∧ (asleep_empty s ≠ [] → q = []).
Proof.
  intros [_ _ (q & Hq & He & Hc)]. exists q. split_and!; [done..|].
  by destruct Hc as [[-> _]|[(_ & _ & ->)|[-> _]]].
Qed.
End Queues.

Arguments state : clear implicits.
Arguments call : clear implicits.
Arguments action : clear implicits.
Arguments outcome : clear implicits.

(** ** The queues of the program *)

(** The rows of the binary log, [binlog/src/CRowData.cpp]: the consumer takes
    the front of the deque without looking. *)
Module RowDataQueue.
Definition ROWS_DATA_MAX_SIZE : Z := 256.
Definition productRowData (data : RowData.CRowData) : call RowData.CRowData := Product 0 data.
Definition consumerRowData : call RowData.CRowData := Consumer 0.
Definition run : list (action RowData.CRowData) → state RowData.CRowData → option (outcome RowData.CRowData) :=
  execute ROWS_DATA_MAX_SIZE (λ _, false).
Definition start : state RowData.CRowData := initial 1.
End RowDataQueue.

(** [SOCKET_MESSAGE_HEADER] of [public/socket_message.h]. *)
Record SOCKET_MESSAGE_HEADER := mk_message_header {
  code_ : Z;
  data_len_ : Z;
  message_id_ : list Z;
}.

(** The messages of [DataSync/CProcessMqData.cpp].  [m_data] (0) and
    [m_exception_data] (1) share a mutex and its conditions; [m_raw_data] has
    its own, and its consumer returns an indeterminate pointer. *)
Module MqDataQueues.
Record MQ_DATA := mk_mq_data {
  header_ : option SOCKET_MESSAGE_HEADER;
  dispatch_type_ : list Z;
  stores_ : list Z;
  body_ : list Z;
}.

Definition MAX_QUEUE_DATA : Z := 1000.
Definition ProductData (header : SOCKET_MESSAGE_HEADER) (disType stores body : list Z) : call MQ_DATA :=
  Product 0 (mk_mq_data (Some header) disType stores body).
Definition ConsumerData : call MQ_DATA := Consumer 0.
Definition ProductExceptionData (header : SOCKET_MESSAGE_HEADER) (disType stores body : list Z)
    : call MQ_DATA :=
  Product 1 (mk_mq_data (Some header) disType stores body).
Definition ConsumerExceptionData : call MQ_DATA := Consumer 1.
Definition run : list (action MQ_DATA) → state MQ_DATA → option (outcome MQ_DATA) :=
  execute MAX_QUEUE_DATA (λ _, true).
Definition start : state MQ_DATA := initial 2.

Definition ProductRawData (stores body : list Z) : call MQ_DATA :=
  Product 0 (mk_mq_data None [] stores body).
Definition ConsumerRawData : call MQ_DATA := Consumer 0.
Definition run_raw : list (action MQ_DATA) → state MQ_DATA → option (outcome MQ_DATA) :=
  execute MAX_QUEUE_DATA (λ _, false).
Definition start_raw : state MQ_DATA := initial 1.
End MqDataQueues.

(** The updates of [wmsclient/wmsclient/UpdateDbThread.cpp]. *)
Module UpdateDbQueue.
Record UPDATE_DATA := mk_update_data { header_ : SOCKET_MESSAGE_HEADER; body_ : list Z }.

Definition ROWS_DATA_MAX_SIZE : Z := 1000.
Definition ProductData (header : SOCKET_MESSAGE_HEADER) (strData : list Z) : call UPDATE_DATA :=
  Product 0 (mk_update_data header strData).
Definition ConsumerData : call UPDATE_DATA := Consumer 0.
Definition run : list (action UPDATE_DATA) → state UPDATE_DATA → option (outcome UPDATE_DATA) :=
  execute ROWS_DATA_MAX_SIZE (λ _, true).
Definition start : state UPDATE_DATA := initial 1.
End UpdateDbQueue.

(** ** Properties *)

(** C14: in every execution, by any number of threads and with wakeups of any
    kind, no deque is longer than its capacity, what the consumers of a deque
    received and what it still holds is what was pushed to it, in that order,
    and every datum handed to a producer is in a deque or received, or given up
    by a producer that slept, or held by a producer that still sleeps: none
    twice. *)
Theorem queue_history {A} capacity guarded n (l : list (action A)) s :
  execute capacity guarded l (initial n) = Some (Next s) →
  (∀ i q, deques s !! i = Some q →
     Z.of_nat (length q) <= Z.max 0 capacity ∧ of_deque i (accepted s) = received i s ++ q) ∧
  concat (map entering l) ≡ₚ accepted s ++ lost s ++ pending s.
Proof.
  intros E. destruct (execute_ok _ _ n l _ s [] (initial_ok capacity n) E) as (e & He & H).
  rewrite app_nil_r in He. split.
  - intros i q Hq. split; [by apply (qk_bound _ _ _ _ H i)|by apply (qk_fifo _ _ _ _ H)].
  - by rewrite <- He, (qk_total _ _ _ _ H).
Qed.

Lemma queue_history_witness :
  ∃ s, execute 1 (λ _, true) [Enter (Product 0 10) 0; Enter (Product 0 11) 0; Enter (Consumer 0) 0; Resume 0 0]
         (initial 1) = Some (Next s) ∧
    of_deque 0 (accepted s) = received 0 s ++ [] ∧ [(0%nat, 10); (0%nat, 11)] ≡ₚ accepted s ++ lost s ++ pending s.
Proof.
  destruct (execute 1 (λ _, true) [Enter (Product 0 10) 0; Enter (Product 0 11) 0; Enter (Consumer 0) 0;
    Resume 0 0] (initial 1)) as [[s|]|] eqn:E; [|vm_compute in E; discriminate..].
  exists s. split; [done|]. destruct (queue_history 1 (λ _, true) 1 _ s E) as [H1 H2]. split; [|exact H2].
  apply (H1 0%nat []). vm_compute in E. by injection E as <-.
Defined.

(** C38: with a deque of its own, a queue never leaves a message behind a
    sleeping consumer: whenever one sleeps, there is a woken consumer for every
    message, whatever the threads did. *)
Theorem message_attended {A} capacity guarded (l : list (action A)) s q :
  execute capacity guarded l (initial 1) = Some (Next s) →
  deques s = [q] → asleep_empty s ≠ [] → (length q ≤ woken_consumers (woken s))%nat.
Proof.
  intros E Hq Hne. refine (execute_attended capacity guarded l (initial 1) s [] _ _ E q Hq Hne).
  - apply initial_ok.
  - by intros ? ? ?.
Qed.

Lemma message_attended_witness :
  ∃ s, execute 5 (λ _, true) [Enter (Consumer 0) 0; Enter (Consumer 0) 0; Enter (Product 0 1) 0] (initial 1)
         = Some (Next s) ∧ (length [1%Z] ≤ woken_consumers (woken s))%nat.
Proof.
  destruct (execute 5 (λ _, true) [Enter (Consumer 0) 0; Enter (Consumer 0) 0; Enter (Product 0 1) 0]
    (initial 1)) as [[s|]|] eqn:E; [|vm_compute in E; discriminate..].
  exists s. split; [done|]. vm_compute in E. injection E as Es.
  apply (message_attended 5 (λ _, true) [Enter (Consumer 0) 0; Enter (Consumer 0) 0; Enter (Product 0 1) 0]).
  - by rewrite <- Es.
  - by rewrite <- Es.
  - by rewrite <- Es.
Defined.

(** C39: where two deques share their conditions, as [m_data] and
    [m_exception_data] do, a message can be left behind its sleeping consumer:
    the one wakeup goes to the consumer of the other deque.  Each deque has one
    consumer and no thread wakes on its own. *)
Theorem shared_condition_strands_message data :
  ∃ l s, MqDataQueues.run l MqDataQueues.start = Some (Next s) ∧
    two_threads MqDataQueues.MAX_QUEUE_DATA (λ _, true) l MqDataQueues.start = true ∧
    deques s = [[data]; []] ∧ asleep_empty s = [0%nat; 1%nat] ∧ woken s = [].
Proof.
  exists [Enter MqDataQueues.ConsumerExceptionData 0; Enter MqDataQueues.ConsumerData 0;
     Enter (Product 0 data) 0; Resume 0 0; Enter MqDataQueues.ConsumerExceptionData 0].
  by eexists.
Qed.

(** The execution in which a producer that slept wakes the consumer for nothing. *)
Definition fill_and_drain {A} (i n : nat) (d : A) : list (action A) :=
  replicate n (Enter (Product i d) 0) ++ [Enter (Product i d) 0] ++ replicate n (Enter (Consumer i) 0) ++
  [Enter (Consumer i) 0; Resume 0 0; Resume 0 0].

(** The rows queue takes the front of an empty deque, with one producer and
    one consumer and no spurious wakeup: the producer of a full queue sleeps,
    the consumer empties the queue and sleeps, and the producer gives its row up
    and wakes the consumer.  The same happens to the queue of raw messages. *)
Theorem row_queue_undefined data msg :
  (RowDataQueue.run (fill_and_drain 0 256 data) RowDataQueue.start = Some Undefined ∧
   two_threads RowDataQueue.ROWS_DATA_MAX_SIZE (λ _, false) (fill_and_drain 0 256 data) RowDataQueue.start = true) ∧
  (MqDataQueues.run_raw (fill_and_drain 0 1000 msg) MqDataQueues.start_raw = Some Undefined ∧
   two_threads MqDataQueues.MAX_QUEUE_DATA (λ _, false) (fill_and_drain 0 1000 msg) MqDataQueues.start_raw = true).
Proof. split; split; vm_compute; reflexivity. Qed.

(** The queues whose consumers look again never come to that: no execution
    of the message, exception and update queues is undefined. *)
Theorem guarded_queues_defined l l' :
  MqDataQueues.run l MqDataQueues.start ≠ Some Undefined ∧
  UpdateDbQueue.run l' UpdateDbQueue.start ≠ Some Undefined.
Proof.
  assert (G : ∀ A c (l : list (action A)) s, execute c (λ _, true) l s ≠ Some Undefined).
  { intros A c l0. induction l0 as [|a l0 IH]; intros s; cbn [execute]; [done|].
    pose proof (guarded_step c (λ _, true) a s ltac:(done)) as H.
    destruct (step c (λ _, true) a s) as [[s'|]|]; cbn; [apply IH|done|done]. }
  split; apply G.
Qed.
