(* ===== verification/ParseLog.v ===== *)
(** [binlog/src/ParseLogEntry.cpp]: reading a binary log from its file, event by
    event, with the table maps and the last query, and handing the rows on.

    The contents of uninitialised members and the addresses of buffers are
    functions of the position of the event.  Objects are values: a table map is
    not changed once it is loaded, and the one it replaces in the map is not used
    again.  Their pointers into the freed buffer of the event are not used
    either. *)
From S2P Require Import Prelude ByteOrder MyBitmap BinlogTypes BinlogFuncs TableDef RowValue LogEvent RowsEvent FileCache.

(** What the parser hands its rows to: [productRowData]. *)
Class RowSink (S : Type) := productRowData : S → RowData.CRowData → S.

Record CParseLogEntry := mk_parse_log_entry {
  m_fileCache : FileCache;
  m_p_tablemaps : gmap Z TableMap.CTableMapEvent;
  m_p_query_tmp : option CQueryEvent;
  m_p_map_tmp : option TableMap.CTableMapEvent;
  m_binlog_current_file_ptr : Z;
}.

Definition new_CParseLogEntry (where_garbage size_garbage : Z) : CParseLogEntry :=
  mk_parse_log_entry (new_FileCache where_garbage size_garbage) ∅ None None 0.

Definition with_file (e : CParseLogEntry) (c : FileCache) : CParseLogEntry :=
  mk_parse_log_entry c (m_p_tablemaps e) (m_p_query_tmp e) (m_p_map_tmp e) (m_binlog_current_file_ptr e).

Definition with_file_ptr (e : CParseLogEntry) (n : Z) : CParseLogEntry :=
  mk_parse_log_entry (m_fileCache e) (m_p_tablemaps e) (m_p_query_tmp e) (m_p_map_tmp e) n.

Definition with_query (e : CParseLogEntry) (q : CQueryEvent) : CParseLogEntry :=
  mk_parse_log_entry (m_fileCache e) (m_p_tablemaps e) (Some q) (m_p_map_tmp e)
    (m_binlog_current_file_ptr e).

Definition getTableMapEvent (e : CParseLogEntry) (tableId : Z) : option TableMap.CTableMapEvent :=
  m_p_tablemaps e !! tableId.

Definition updateTableMap (e : CParseLogEntry) (ev : TableMap.CTableMapEvent) : CParseLogEntry :=
  mk_parse_log_entry (m_fileCache e) (<[TableMap.getTableId ev := ev]> (m_p_tablemaps e)) (m_p_query_tmp e)
    (m_p_map_tmp e) (m_binlog_current_file_ptr e).

Definition with_map_tmp (e : CParseLogEntry) (ev : TableMap.CTableMapEvent) : CParseLogEntry :=
  mk_parse_log_entry (m_fileCache e) (m_p_tablemaps e) (m_p_query_tmp e) (Some ev)
    (m_binlog_current_file_ptr e).

Section Parser.
Context {S : Type} `{!RowSink S}.
Context (fopen : list Z → option (list Z)) (malloc : Z → option (list Z)).
Context (dec_garbage buff_garbage : list Z) (query_garbage : Z → CQueryEvent)
  (map_garbage : Z → TableMap.CTableMapEvent) (rows_garbage : Z → CRowsEvent) (address_of : Z → Z).
(** The fuel of the loops inside one event. *)
Context (inner : nat).

(** The object, [global_description_event] and the queue of the rows. *)
Record parser := mk_parser { p_entry : CParseLogEntry; p_desc : CHeaderEvent; p_sink : S }.

Definition set_entry (p : parser) (e : CParseLogEntry) : parser := mk_parser e (p_desc p) (p_sink p).
Definition set_file (p : parser) (c : FileCache) : parser := set_entry p (with_file (p_entry p) c).
Definition file (p : parser) : FileCache := m_fileCache (p_entry p).

Definition refreshFileCache (p : parser) (filePath : option (list Z)) : bool * parser :=
  let '(r, c) := init fopen (file p) filePath in (r, set_file p c).

(** The loop of [checkHeader]. *)
Fixpoint header_events (fuel : nat) (p : parser) : run (bool * parser) :=
  match fuel with
  | O => NoFuel
  | Datatypes.S fuel =>
      match readCache malloc (file p) LOG_EVENT_HEADER_LEN 0 0 false with
      | (None, c) => Ret (false, set_file p c)
      | (Some buf, c) =>
          eventSize ← of_option (uint4korr (buf @+ EVENT_LEN_OFFSET));
          eventType ← of_option (table_at buf EVENT_TYPE_OFFSET);
          let skip :=
            r ← of_option (fileSeek c (u32 (eventSize - LOG_EVENT_HEADER_LEN)) SEEK_CUR);
            header_events fuel (set_file p (snd r)) in
          match event_type_of_Z eventType with
          | Some START_EVENT_V3 => skip
          | Some FORMAT_DESCRIPTION_EVENT =>
              match readCache malloc c eventSize (u32 (- LOG_EVENT_HEADER_LEN)) SEEK_CUR true with
              | (None, c) => Ret (false, set_file p c)
              | (Some ucBuf, c) =>
                  r ← of_option (CHeaderEvent_loadEvent (setStream (p_desc p) ucBuf));
                  let '(state, desc) := r in
                  let p := mk_parser (with_file (p_entry p) c) desc (p_sink p) in
                  if negb (bool_decide (state = EVENT_SUCCESS)) then Ret (false, p)
                  else header_events fuel p
              end
          | Some PREVIOUS_GTIDS_LOG_EVENT => skip
          | Some ROTATE_EVENT => skip
          | _ =>
              r ← of_option (fileSeek c (u32 (- LOG_EVENT_HEADER_LEN)) SEEK_CUR);
              Ret (true, set_file p (snd r))
          end
      end
  end.

Definition checkHeader (fuel : nat) (p : parser) : run (bool * parser) :=
  match readCache malloc (file p) BIN_LOG_HEADER_SIZE 0 0 false with
  | (None, c) => Ret (false, set_file p c)
  | (Some ucHeader, c) =>
      if bool_decide (ucHeader = BINLOG_MAGIC) then header_events fuel (set_file p c)
      else Ret (false, set_file p c)
  end.

(** The cases of the switch of [parseOneEvent]. *)
Definition on_query (p : parser) (eventPos : Z) (cBuf : list Z) : run parser :=
  r ← CQueryEvent_loadEvent inner (p_desc p)
        (new_CQueryEvent (p_desc p) (query_garbage eventPos) eventPos cBuf);
  Ret (set_entry p (with_query (p_entry p) (snd r))).

Definition on_table_map (p : parser) (eventPos : Z) (cBuf : list Z) : run parser :=
  r ← of_option (TableMap.loadEvent (p_desc p)
        (TableMap.new_CTableMapEvent (p_desc p) (map_garbage eventPos) eventPos cBuf));
  Ret (set_entry p (updateTableMap (with_map_tmp (p_entry p) (snd r)) (snd r))).

Definition on_rows (c : rows_class) (p : parser) (eventPos : Z) (cBuf : list Z) : run parser :=
  r ← CRowsEvent_loadEvent malloc inner (p_desc p)
        (new_CRowsEvent (p_desc p) c (rows_garbage eventPos) eventPos cBuf);
  let ev := setTableMap (snd r) (getTableMapEvent (p_entry p) (rows_getTableId (snd r))) in
  r ← parseEvent dec_garbage buff_garbage inner (address_of eventPos) ev;
  q ← of_option (m_p_query_tmp (p_entry p));
  m ← of_option (m_p_map_tmp (p_entry p));
  Ret (mk_parser (p_entry p) (p_desc p)
         (productRowData (p_sink p)
            (createRowData (snd r) (getThreadId q) (up_to_nul (TableMap.getDbName m))
               (up_to_nul (TableMap.getTableName m))))).

Definition dispatch (p : parser) (eventType eventPos : Z) (cBuf : list Z) : run parser :=
  match event_type_of_Z eventType with
  | Some QUERY_EVENT => on_query p eventPos cBuf
  | Some TABLE_MAP_EVENT => on_table_map p eventPos cBuf
  | Some (WRITE_ROWS_EVENT_V1 | WRITE_ROWS_EVENT) => on_rows Class_Write p eventPos cBuf
  | Some (UPDATE_ROWS_EVENT | UPDATE_ROWS_EVENT_V1) => on_rows Class_Update p eventPos cBuf
  | Some (DELETE_ROWS_EVENT_V1 | DELETE_ROWS_EVENT) => on_rows Class_Delete p eventPos cBuf
  | Some STOP_EVENT => Ret (set_entry p (with_file_ptr (p_entry p) 0))
  | _ => Ret p
  end.

(** The buffer has a 0 behind the event; without it the write is undefined. *)
Definition parseOneEvent (p : parser) : run (bool * parser) :=
  let headSize := Z.min (getEventHeaderLength (p_desc p)) LOG_EVENT_MINIMAL_HEADER_LEN in
  t ← of_option (fileTell (file p));
  let eventPos := u32 t in
  match readCache malloc (file p) headSize 0 0 false with
  | (None, c) => Ret (false, set_file p c)
  | (Some ucHeader, c) =>
      eventSize ← of_option (uint4korr (ucHeader @+ EVENT_LEN_OFFSET));
      if eventSize <? headSize then Ret (false, set_file p c)
      else
        buf ← of_option (malloc (u32 (eventSize + 1)));
        _ ← of_option (load (Z.to_nat (eventSize + 1)) buf);
        match readCache_into c (u32 (eventSize - headSize)) 0 0 false with
        | (None, c) => Ret (false, set_file p c)
        | (Some body, c) =>
            let p := set_file p c in
            let cBuf := ucHeader ++ body ++ [0] in
            size ← of_option (uint4korr (cBuf @+ EVENT_LEN_OFFSET));
            if (eventSize <? EVENT_LEN_OFFSET) || negb (eventSize =? size) then Ret (false, p)
            else
              eventType ← of_option (table_at cBuf EVENT_TYPE_OFFSET);
              if (event_type_to_Z ENUM_END_EVENT <? eventType) ||
                 (eventType =? event_type_to_Z UNKNOWN_EVENT)
              then Ret (false, p)
              else p ← dispatch p eventType eventPos cBuf; Ret (true, p)
        end
  end.

Fixpoint parseEvents (fuel : nat) (p : parser) : run parser :=
  match fuel with
  | O => NoFuel
  | Datatypes.S fuel =>
      r ← parseOneEvent p;
      let '(ok, p) := r in
      if negb ok then Ret p
      else
        eof ← of_option (fileEof (file p));
        if (eof : bool) then Ret p else parseEvents fuel p
  end.

Definition parseBegin (fuel : nat) (p : parser) : run (bool * parser) :=
  let go p :=
    p ← parseEvents fuel p;
    Ret (true, set_entry p (with_file_ptr (p_entry p) (getFileSize (file p)))) in
  if m_binlog_current_file_ptr (p_entry p) =? 0 then
    r ← checkHeader fuel p;
    let '(ok, p) := r in
    if negb ok then Ret (false, p) else go p
  else if getFileSize (file p) <=? m_binlog_current_file_ptr (p_entry p) then Ret (true, p)
  else
    r ← of_option (fileSeek (file p) (m_binlog_current_file_ptr (p_entry p)) SEEK_SET);
    go (set_file p (snd r)).

(** What the monitor does when the directory changes. *)
Definition on_change (fuel : nat) (p : parser) (filePath : option (list Z)) : run parser :=
  let '(ok, p) := refreshFileCache p filePath in
  if (ok : bool) then r ← parseBegin fuel p; Ret (snd r) else Ret p.
End Parser.
