(* ===== verification/LogFollow.v ===== *)
(** Following a log: what a binary log says ([log_rows], the reference), and that
    the parser of [ParseLog] hands on exactly that, over any number of rounds of
    the monitor; and where it does not. *)
From S2P Require Import Prelude ByteOrder MyBitmap BinlogTypes BinlogFuncs TableDef RowValue LogEvent RowsEvent FileCache ParseLog.

(** ** What a log says *)

Inductive log_entry :=
  | L_query (h : header_fields) (q : query_fields)
  | L_table_map (h : header_fields) (tm : table_map_fields)
  | L_rows (h : header_fields) (t : Log_event_type) (rf : rows_fields)
      (changes : list (list column * list column))
  | L_other (h : header_fields) (body : list Z).

Definition rows_class_of (t : Log_event_type) : rows_class :=
  match t with
  | WRITE_ROWS_EVENT_V1 | WRITE_ROWS_EVENT => Class_Write
  | UPDATE_ROWS_EVENT_V1 | UPDATE_ROWS_EVENT => Class_Update
  | _ => Class_Delete
  end.

Definition is_update (t : Log_event_type) : bool :=
  bool_decide (getGeneralTypeCode (rows_class_of t) = UPDATE_ROWS_EVENT).

Definition entry_header (e : log_entry) : header_fields :=
  match e with L_query h _ | L_table_map h _ | L_rows h _ _ _ | L_other h _ => h end.

Definition entry_body (e : log_entry) : list Z :=
  match e with
  | L_query _ q => query_body q
  | L_table_map _ tm => table_map_body tm
  | L_rows _ t rf _ => rows_body (is_update t) rf
  | L_other _ body => body
  end.

(** An entry with its checksum, and a log. *)
Definition entry_bytes (e : log_entry * list Z) : list Z :=
  event_bytes (entry_header (fst e)) (entry_body (fst e)) (snd e).

Definition log_bytes (log : list (log_entry * list Z)) : list Z := concat (map entry_bytes log).

(** The state a log builds up: the thread of the last query, the tables by the
    id the parser keeps, the last table map. *)
Record log_state := mk_log_state {
  ls_thread : option Z;
  ls_tables : gmap Z table_map_fields;
  ls_last : option table_map_fields;
}.

Definition table_def (tm : table_map_fields) : option CTableDef :=
  new_CTableDef (tm_types tm) (Z.of_nat (length (tm_cols tm))) (tm_meta tm) (Z.of_nat (length (tm_meta tm)))
    (tm_nulls tm) (tm_flags tm).

Definition entry_next (st : log_state) (e : log_entry) : log_state :=
  match e with
  | L_query _ q => mk_log_state (Some (qf_thread q)) (ls_tables st) (ls_last st)
  | L_table_map _ tm => mk_log_state (ls_thread st) (<[tm_id tm mod 2 ^ 32 := tm]> (ls_tables st)) (Some tm)
  | _ => st
  end.

Section Spec.
Context (dec_garbage buff_garbage : list Z) (address_of : Z → Z).

(** The rows an entry at position [pos] hands on: those of its changes, under
    the names of the last table map and the thread of the last query. *)
Definition entry_rows (st : log_state) (pos : Z) (e : log_entry * list Z) : list RowData.CRowData :=
  match fst e with
  | L_rows h t rf changes =>
      match ls_thread st, ls_last st with
      | Some thread, Some tm =>
          let '(kind, name) := change_kind (event_type_to_Z t) in
          let size := event_size (entry_body (fst e)) (snd e) in
          let addr := u32 (address_of pos + (size - Z.of_nat (length (rf_data rf ++ snd e)))) in
          [RowData.mk_row_data (rf_ncols rf) thread kind (hf_timestamp h) name (up_to_nul (tm_table tm))
             (up_to_nul (tm_db tm)) (before_rows (is_update t) addr changes)
             (after_rows (is_update t) addr changes)]
      | _, _ => []
      end
  | _ => []
  end.

Fixpoint log_rows (st : log_state) (pos : Z) (log : list (log_entry * list Z)) : list RowData.CRowData :=
  match log with
  | [] => []
  | e :: log =>
      entry_rows st pos e ++ log_rows (entry_next st (fst e)) (pos + Z.of_nat (length (entry_bytes e))) log
  end.

Definition log_end (st : log_state) (log : list (log_entry * list Z)) : log_state :=
  fold_left (λ st e, entry_next st (fst e)) log st.

(** The event types [parseOneEvent] has a case for. *)
Definition handled_types : list Log_event_type :=
  [QUERY_EVENT; TABLE_MAP_EVENT; WRITE_ROWS_EVENT_V1; WRITE_ROWS_EVENT; UPDATE_ROWS_EVENT; UPDATE_ROWS_EVENT_V1;
   DELETE_ROWS_EVENT_V1; DELETE_ROWS_EVENT; STOP_EVENT; UNKNOWN_EVENT].

Definition kind_ok (inner : nat) (st : log_state) (e : log_entry) : Prop :=
  match e with
  | L_query h q => hf_type h = event_type_to_Z QUERY_EVENT ∧ query_ok q
  | L_table_map h tm => hf_type h = event_type_to_Z TABLE_MAP_EVENT ∧ table_map_ok tm
  | L_rows h t rf changes =>
      hf_type h = event_type_to_Z t ∧ rows_type t rf ∧ rows_fields_ok (is_update t) rf ∧
      rf_data rf = changes_bytes (is_update t) changes ∧ (length changes ≤ inner)%nat ∧
      is_Some (ls_thread st) ∧ is_Some (ls_last st) ∧
      ∃ tm td, ls_tables st !! (rf_id rf mod 2 ^ 32) = Some tm ∧ table_def tm = Some td ∧
        Forall (change_matches dec_garbage buff_garbage td (rf_ncols rf) (le_combine (rf_before rf)) (is_update t))
          changes
  | L_other h body =>
      bytes_ok body ∧ ∃ t, hf_type h = event_type_to_Z t ∧ (t = STOP_EVENT ∨ t ∉ handled_types)
  end.

Record entry_ok (inner : nat) (st : log_state) (e : log_entry * list Z) : Prop := {
  eo_header : header_ok (entry_header (fst e)) (event_size (entry_body (fst e)) (snd e));
  eo_crc : bytes_ok (snd e) ∧ length (snd e) = 4%nat;
  eo_kind : kind_ok inner st (fst e);
}.

Fixpoint log_ok (inner : nat) (st : log_state) (log : list (log_entry * list Z)) : Prop :=
  match log with
  | [] => True
  | e :: log => entry_ok inner st e ∧ log_ok inner (entry_next st (fst e)) log
  end.
End Spec.

(** ** Reading one event *)

Lemma header_size h size rest :
  bytes_ok rest → header_ok h size → uint4korr ((header_bytes h size ++ rest) @+ EVENT_LEN_OFFSET) = Some size.
Proof.
  intros Hr (_ & _ & _ & Hs & _ & _). unfold header_bytes, EVENT_LEN_OFFSET. rewrite <- !app_assoc.
  seek_to (le_split 4 (hf_timestamp h) ++ [hf_type h] ++ le_split 4 (hf_server h))
    (le_split 4 size ++ le_split 4 (hf_next h) ++ le_split 2 (hf_flags h) ++ rest).
  rewrite korr_split4 by (rewrite !Forall_app; split_and!; auto with cint). by rewrite Z.mod_small.
Qed.

Lemma header_type h size rest :
  table_at (header_bytes h size ++ rest) EVENT_TYPE_OFFSET = Some (hf_type h).
Proof.
  unfold header_bytes. rewrite <- !app_assoc.
  by apply (table_at_seek (le_split 4 (hf_timestamp h))
    (le_split 4 (hf_server h) ++ le_split 4 size ++ le_split 4 (hf_next h) ++ le_split 2 (hf_flags h) ++ rest)).
Qed.

Section Reading.
Context {S : Type} `{!RowSink S}.
Context (malloc : Z → option (list Z)).
Context (malloc_ok : ∀ n, 0 <= n → ∃ l, malloc n = Some l ∧ Z.of_nat (length l) = n).
Context (dec_garbage buff_garbage : list Z) (query_garbage : Z → CQueryEvent)
  (map_garbage : Z → TableMap.CTableMapEvent) (rows_garbage : Z → CRowsEvent) (address_of : Z → Z).
Context (inner : nat).

Local Abbreviation one_event :=
  (parseOneEvent malloc dec_garbage buff_garbage query_garbage map_garbage rows_garbage address_of inner).
Local Abbreviation handle :=
  (dispatch malloc dec_garbage buff_garbage query_garbage map_garbage rows_garbage address_of inner).

(** A whole event is read into its buffer, and dispatched on its type. *)
Lemma read_event p pre h body trailer post s n :
  opened (file p) s n → s = pre ++ event_bytes h body trailer ++ post → n = Z.of_nat (length pre) →
  Z.of_nat (length s) < 2 ^ 31 → standard_format (p_desc p) → bytes_ok body → bytes_ok trailer →
  body ++ trailer ≠ [] → header_ok h (event_size body trailer) →
  1 <= hf_type h <= event_type_to_Z ENUM_END_EVENT →
  ∃ c, opened c s (n + Z.of_nat (length (event_bytes h body trailer))) ∧
    one_event p = (p' ← handle (set_file p c) (hf_type h) n (event_buffer h body trailer); Ret (true, p')).
Proof.
  intros Ho Hs Hn Hl D Hb Ht Hne Hh Hty.
  assert (Hsz : event_size body trailer = Z.of_nat (length (event_bytes h body trailer)))
    by (rewrite length_event_bytes; unfold event_size; lia).
  assert (Hle : n + event_size body trailer <= Z.of_nat (length s)) by (rewrite Hsz, Hs, !length_app; lia).
  set (hd := header_bytes h (event_size body trailer)).
  assert (Ehd : event_bytes h body trailer = hd ++ body ++ trailer) by done.
  assert (Bt : bytes_ok (body ++ trailer)) by (by apply Forall_app).
  assert (Lhd : Z.of_nat (length hd) = 19) by done.
  assert (B0 : bytes_ok ((body ++ trailer) ++ [0])) by (by apply trailer_ok).
  pose proof (header_size h _ [] (Forall_nil_2 _) Hh) as H1. rewrite app_nil_r in H1. fold hd in H1.
  pose proof (header_size h _ _ B0 Hh) as H2. fold hd in H2.
  pose proof (header_type h (event_size body trailer) ((body ++ trailer) ++ [0])) as H3. fold hd in H3.
  rewrite Ehd in Hs. rewrite <- !app_assoc in Hs.
  destruct (readCache_at malloc malloc_ok (file p) pre hd (body ++ trailer ++ post) n s 0 0 Ho Hs Hn)
    as (c1 & R1 & O1); [done|]. rewrite Lhd in R1, O1.
  destruct (readCache_into_at c1 (pre ++ hd) (body ++ trailer) post (n + 19) s 0 0 O1) as (c2 & R2 & O2).
  { by rewrite Hs, <- !app_assoc. } { rewrite length_app. lia. } { done. }
  assert (Lbt : Z.of_nat (length (body ++ trailer)) = event_size body trailer - 19)
    by (unfold event_size; rewrite length_app; lia).
  exists c2. split.
  { rewrite Hsz in Lbt. rewrite Lbt in O2. by replace (n + 19 + _) with
      (n + Z.of_nat (length (event_bytes h body trailer))) in O2 by lia. }
  unfold parseOneEvent. rewrite (sf_common _ D). change (Z.min 19 LOG_EVENT_MINIMAL_HEADER_LEN) with 19.
  rewrite (fileTell_opened _ s n Ho) by (unfold event_size in *; lia). cbn [of_option mbind run_bind].
  rewrite R1, H1.
  cbn [of_option mbind run_bind].
  destruct (Z.ltb_spec (event_size body trailer) 19); [unfold event_size in *; lia|].
  rewrite !(wrap_small 32) by lia.
  destruct (malloc_ok (event_size body trailer + 1)) as (buf & -> & Lb); [lia|].
  cbn [of_option mbind run_bind]. rewrite load_some by lia. cbn [of_option mbind run_bind].
  rewrite <- Lbt, R2. cbv zeta.
  assert (Eb : hd ++ (body ++ trailer) ++ [0] = event_buffer h body trailer)
    by (unfold event_buffer; by rewrite Ehd, <- !app_assoc).
  rewrite H2. cbn [of_option mbind run_bind].
  rewrite Z.eqb_refl. change EVENT_LEN_OFFSET with 9. destruct (Z.ltb_spec (event_size body trailer) 9); [lia|].
  cbn [negb orb]. rewrite H3. cbn [of_option mbind run_bind].
  destruct (Z.ltb_spec (event_type_to_Z ENUM_END_EVENT) (hf_type h)); [lia|].
  change (event_type_to_Z UNKNOWN_EVENT) with 0. destruct (Z.eqb_spec (hf_type h) 0); [lia|].
  cbn [orb]. by rewrite Eb.
Qed.

(** The members of the parser say what the log has said so far. *)
Definition loads (ev : TableMap.CTableMapEvent) (tm : table_map_fields) : Prop :=
  ∃ l, ev = loaded_table_map tm l.

Record represents (p : @parser S) (st : log_state) : Prop := {
  rs_desc : standard_format (p_desc p);
  rs_thread : getThreadId <$> m_p_query_tmp (p_entry p) = ls_thread st;
  rs_tables : ∀ i, option_Forall2 loads (m_p_tablemaps (p_entry p) !! i) (ls_tables st !! i);
  rs_last : option_Forall2 loads (m_p_map_tmp (p_entry p)) (ls_last st);
}.

(** What handling an entry at [n] does. *)
Record handled (p p' : @parser S) (st : log_state) (n : Z) (e : log_entry * list Z) : Prop := {
  ha_state : represents p' (entry_next st (fst e));
  ha_file : file p' = file p;
  ha_sink : p_sink p' = fold_left productRowData (entry_rows address_of st n e) (p_sink p);
}.

Lemma handle_query p st n h q crc :
  represents p st → MAX_SIZE_LOG_EVENT_STATUS <= Z.of_nat inner →
  entry_ok dec_garbage buff_garbage inner st (L_query h q, crc) →
  ∃ p', handle p (hf_type h) n (event_buffer h (query_body q) crc) = Ret p' ∧
    handled p p' st n (L_query h q, crc).
Proof.
  intros [D _ T L] Hin [Hh [Hc _] [Hty Hq]]. cbn [fst snd entry_header entry_body] in *.
  destruct (load_query_event inner (p_desc p) h q crc (query_garbage n) n D Hq Hc Hty Hh Hin) as (l & _ & E).
  unfold dispatch. rewrite Hty. cbn [event_type_to_Z event_type_of_Z]. unfold on_query. rewrite E.
  cbn [mbind run_bind snd]. eexists. split; [done|]. split; [|done|done]. by split.
Qed.

Lemma handle_table_map p st n h tm crc :
  represents p st → entry_ok dec_garbage buff_garbage inner st (L_table_map h tm, crc) →
  ∃ p', handle p (hf_type h) n (event_buffer h (table_map_body tm) crc) = Ret p' ∧
    handled p p' st n (L_table_map h tm, crc).
Proof.
  intros [D Q T L] [Hh [Hc _] [Hty Hq]]. cbn [fst snd entry_header entry_body] in *.
  destruct (load_table_map_event (p_desc p) h tm crc (map_garbage n) n D Hq Hc Hty Hh) as (l & _ & E).
  unfold dispatch. rewrite Hty. cbn [event_type_to_Z event_type_of_Z]. unfold on_table_map. rewrite E.
  cbn [of_option mbind run_bind snd]. eexists. split; [done|]. split; [|done|done].
  split; cbn [set_entry updateTableMap with_map_tmp p_desc p_entry m_p_query_tmp m_p_tablemaps m_p_map_tmp
    entry_next fst ls_thread ls_tables ls_last]; [done|done| |constructor; by exists l].
  intros i. change (TableMap.getTableId _) with (tm_id tm mod 2 ^ 32).
  destruct (decide (tm_id tm mod 2 ^ 32 = i)) as [<-|Hi].
  - rewrite !lookup_insert_eq. constructor. by exists l.
  - by rewrite !lookup_insert_ne.
Qed.

Lemma dispatch_rows p t rf n s :
  rows_type t rf →
  handle p (event_type_to_Z t) n s =
  on_rows malloc dec_garbage buff_garbage rows_garbage address_of inner (rows_class_of t) p n s.
Proof. unfold rows_type. intros H. destruct (rf_extra rf); destruct H as [->|[->| ->]]; reflexivity. Qed.

Lemma handle_rows p st n h t rf changes crc :
  represents p st → (0 < inner)%nat →
  entry_ok dec_garbage buff_garbage inner st (L_rows h t rf changes, crc) →
  ∃ p', handle p (hf_type h) n (event_buffer h (rows_body (is_update t) rf) crc) = Ret p' ∧
    handled p p' st n (L_rows h t rf changes, crc).
Proof.
  intros R Hin [Hh [Hc Hc4] (Hty & Hrt & Hrf & Hdata & Hch & [th Hth] & [tl Htl] & tm & td & Htm & Htd & Hm)].
  cbn [fst snd entry_header entry_body] in *.
  rewrite Hty, (dispatch_rows p t rf) by done.
  destruct (load_rows_event malloc malloc_ok inner (p_desc p) h t (rows_class_of t) rf crc (rows_garbage n) n)
    as (ev & E & L); [apply R|done..|].
  unfold on_rows. unfold is_update. rewrite E. cbn [mbind run_bind snd].
  pose proof (rs_tables _ _ R (rf_id rf mod 2 ^ 32)) as RT. rewrite Htm in RT. inversion RT as [ev0 ? [l0 ->] Et|].
  subst. unfold getTableMapEvent, rows_getTableId. rewrite (re_id _ _ _ _ _ _ _ L), <- Et.
  destruct (parse_rows_event dec_garbage buff_garbage inner h (rows_class_of t) rf crc n
    (rows_garbage n) ev (loaded_table_map tm l0) td changes (address_of n)) as (ev' & E' & Elog & Ecol & P);
    [done|done|done|by destruct Hh as (_ & _ & _ & [_ ?] & _)|exact L|exact Htd|exact Hdata|exact Hm|exact Hch|].
  rewrite E'. cbn [mbind run_bind snd].
  pose proof (rs_thread _ _ R) as RQ. rewrite Hth in RQ.
  destruct (m_p_query_tmp (p_entry p)) as [q|] eqn:Eq; [|done]. injection RQ as RQ.
  pose proof (rs_last _ _ R) as RL. rewrite Htl in RL. inversion RL as [m ? [l1 ->] Em|]. subst.
  cbn [of_option mbind run_bind]. eexists. split; [done|]. split; [destruct R; by split|done|].
  cbn [p_sink entry_rows fst snd]. rewrite Hth, Htl.
  unfold createRowData. rewrite Elog, Ecol, (rp_before _ _ _ _ _ P), (rp_after _ _ _ _ _ P).
  rewrite (lh_type _ _ _ _ _ (re_header _ _ _ _ _ _ _ L)), Hty.
  rewrite (lh_timestamp _ _ _ _ _ (re_header _ _ _ _ _ _ _ L)).
  rewrite (rl_ncols _ _ _ _ _ (re_rows _ _ _ _ _ _ _ L)).
  destruct (change_kind (event_type_to_Z t)) as [kind name]. cbn [fold_left].
  pose proof (rl_ptr _ _ _ _ _ (re_rows _ _ _ _ _ _ _ L)) as Hp.
  replace (m_ptr_rows_data ev) with (event_size (entry_body (L_rows h t rf changes)) crc -
    Z.of_nat (length (rf_data rf ++ crc))); [done|].
  unfold event_buffer in Hp. rewrite (length_app (event_bytes _ _ _)), length_event_bytes in Hp. cbn [length] in Hp.
  cbn [entry_body]. unfold event_size, is_update. lia.
Qed.

Lemma dispatch_other p t n s : t ∉ handled_types → handle p (event_type_to_Z t) n s = Ret p.
Proof.
  intros H. unfold handled_types in H. rewrite !not_elem_of_cons in H. destruct H as (H1 & H2 & H3 & H4 & H5 & H6 & H7 & H8 & H9 & _).
  unfold dispatch. rewrite event_type_of_to_Z. by destruct t.
Qed.

Lemma handle_other p st n h body crc :
  represents p st → entry_ok dec_garbage buff_garbage inner st (L_other h body, crc) →
  ∃ p', handle p (hf_type h) n (event_buffer h body crc) = Ret p' ∧
    handled p p' st n (L_other h body, crc).
Proof.
  intros R [_ _ [_ (t & Hty & [->|Ht])]]; cbn [fst entry_header] in *; rewrite Hty.
  - eexists. split; [reflexivity|]. split; [destruct R; by split|done|done].
  - rewrite dispatch_other by done. eexists. split; [done|]. by split.
Qed.

Context (inner_ok : MAX_SIZE_LOG_EVENT_STATUS <= Z.of_nat inner).

Lemma handle_entry p st n e :
  represents p st → entry_ok dec_garbage buff_garbage inner st e →
  ∃ p', handle p (hf_type (entry_header (fst e))) n (event_buffer (entry_header (fst e)) (entry_body (fst e)) (snd e))
      = Ret p' ∧ handled p p' st n e.
Proof.
  intros R H. destruct e as [[h q|h tm|h t rf changes|h body] crc]; cbn [fst snd entry_header entry_body].
  - by apply handle_query.
  - by apply handle_table_map.
  - apply handle_rows; [done| |done]. assert (0 < MAX_SIZE_LOG_EVENT_STATUS) by done. lia.
  - by apply handle_other.
Qed.

Lemma entry_type_range st e :
  entry_ok dec_garbage buff_garbage inner st e →
  1 <= hf_type (entry_header (fst e)) <= event_type_to_Z ENUM_END_EVENT.
Proof.
  intros [_ _ K]. destruct e as [[h q|h tm|h t rf changes|h body] crc]; cbn [fst entry_header kind_ok] in *.
  - destruct K as [-> _]. vm_compute; split; discriminate.
  - destruct K as [-> _]. vm_compute; split; discriminate.
  - destruct K as (-> & K & _). unfold rows_type in K. destruct (rf_extra rf); destruct K as [->|[->| ->]]; vm_compute; split; discriminate.
  - destruct K as (_ & t & -> & K). assert (t ≠ UNKNOWN_EVENT).
    { intros ->. destruct K as [K|K]; [done|]. apply K. by apply (bool_decide_unpack _). }
    destruct t; first [done|vm_compute; split; discriminate].
Qed.

Lemma entry_body_bytes st e :
  entry_ok dec_garbage buff_garbage inner st e → bytes_ok (entry_body (fst e)).
Proof.
  intros [_ _ K]. destruct e as [[h q|h tm|h t rf changes|h body] crc]; cbn [fst entry_body kind_ok] in *.
  - destruct K as [_ K]. by apply query_body_bytes.
  - destruct K as [_ K]. by apply table_map_body_bytes.
  - destruct K as (_ & _ & K & _). by apply rows_body_bytes.
  - by destruct K.
Qed.

(** One turn of the loop over an entry. *)
Lemma parse_entry p st pre e post s n :
  represents p st → entry_ok dec_garbage buff_garbage inner st e →
  opened (file p) s n → s = pre ++ entry_bytes e ++ post → n = Z.of_nat (length pre) →
  Z.of_nat (length s) < 2 ^ 31 →
  ∃ p', one_event p = Ret (true, p') ∧ represents p' (entry_next st (fst e)) ∧
    opened (file p') s (n + Z.of_nat (length (entry_bytes e))) ∧
    p_sink p' = fold_left productRowData (entry_rows address_of st n e) (p_sink p).
Proof.
  intros R He Ho Hs Hn Hl. pose proof (entry_type_range _ _ He) as Hty. pose proof (entry_body_bytes _ _ He) as Hb.
  pose proof He as [Hh [Hc Hc4] _].
  destruct (read_event p pre (entry_header (fst e)) (entry_body (fst e)) (snd e) post s n) as (c & Oc & ->);
    [done|exact Hs|done|done|apply R|done|done| |done|done|].
  { intros E. apply (f_equal length) in E. rewrite length_app in E. cbn [length] in E. lia. }
  destruct (handle_entry (set_file p c) st n e) as (p' & -> & [Rs Fs Ss]); [destruct R; by split|done|].
  exists p'. split; [done|]. split; [done|]. rewrite Fs. by split.
Qed.

(** ** The end of the file *)

(** A tail the loop stops at: nothing, less than a header, an event that is
    not complete, or an event that is no longer than its header. *)
Definition unreadable (rest : list Z) : Prop :=
  (length rest < 19)%nat ∨
  ∃ h size body, rest = header_bytes h size ++ body ∧ header_ok h size ∧ size < 2 ^ 31 ∧
    (size <= 19 ∨ 19 + Z.of_nat (length body) < size).

Lemma stop_at_end p rest pre s n :
  opened (file p) s n → s = pre ++ rest → n = Z.of_nat (length pre) → Z.of_nat (length s) < 2 ^ 31 →
  standard_format (p_desc p) → unreadable rest →
  ∃ c, one_event p = Ret (false, set_file p c) ∧ on_file c s.
Proof.
  intros Ho Hs Hn Hl D Hr.
  assert (Ls : Z.of_nat (length s) = n + Z.of_nat (length rest)) by (rewrite Hs, length_app; lia).
  unfold parseOneEvent. rewrite (sf_common _ D). change (Z.min 19 LOG_EVENT_MINIMAL_HEADER_LEN) with 19.
  rewrite (fileTell_opened _ s n Ho) by lia. cbn [of_option mbind run_bind].
  destruct Hr as [Hr|(h & size & body & -> & Hh & Hz & Hr)].
  { destruct (readCache_short malloc malloc_ok (file p) s n 19 0 0 Ho) as (c & -> & F & Sz); [lia..|].
    exists c. split; [done|]. split; [eexists _, _; split; [exact F|lia]|]. rewrite Sz. apply Ho. }
  destruct (readCache_at malloc malloc_ok (file p) pre (header_bytes h size) body n s 0 0 Ho Hs Hn)
    as (c1 & R1 & O1); [done|]. change (Z.of_nat (length (header_bytes h size))) with 19 in *. rewrite R1.
  pose proof (header_size h _ [] (Forall_nil_2 _) Hh) as H1. rewrite app_nil_r in H1. rewrite H1.
  cbn [of_option mbind run_bind].
  assert (0 <= size) by (by destruct Hh as (_ & _ & _ & [? _] & _)).
  destruct (Z.ltb_spec size 19); [exists c1; split; [done|by apply (opened_on_file c1 s (n + 19)); [|lia]]|].
  rewrite !(wrap_small 32) by lia. destruct (malloc_ok (size + 1)) as (buf & -> & Lb); [lia|].
  cbn [of_option mbind run_bind]. rewrite load_some by lia. cbn [of_option mbind run_bind].
  rewrite length_app in Ls. change (length (header_bytes h size)) with 19%nat in Ls.
  unfold readCache_into. destruct O1 as [-> Sz1]. cbn [seek_first negb].
  destruct (Z.eq_dec size 19) as [->|].
  - unfold fread. cbn [Z.sub Z.eqb Z.add Z.opp Z.pos_sub Pos.compare Pos.compare_cont]. eexists. split; [reflexivity|].
    split; [|exact Sz1]. eexists _, _. split; [reflexivity|lia].
  - rewrite fread_short by lia. eexists. split; [reflexivity|].
    split; [|exact Sz1]. eexists _, _. split; [reflexivity|lia].
Qed.

Local Abbreviation all_events :=
  (parseEvents malloc dec_garbage buff_garbage query_garbage map_garbage rows_garbage address_of inner).

(** The loop, over a log and what may follow it. *)
Lemma parse_entries log p st pre rest s n fuel :
  represents p st → log_ok dec_garbage buff_garbage inner st log → unreadable rest →
  opened (file p) s n → s = pre ++ log_bytes log ++ rest → n = Z.of_nat (length pre) →
  Z.of_nat (length s) < 2 ^ 31 → (length log < fuel)%nat →
  ∃ p', all_events fuel p = Ret p' ∧ represents p' (log_end st log) ∧ on_file (file p') s ∧
    p_sink p' = fold_left productRowData (log_rows address_of st n log) (p_sink p).
Proof.
  revert p st pre n fuel. induction log as [|e log IH]; intros p st pre n fuel R Hok Hr Ho Hs Hn Hl Hf;
    (destruct fuel as [|fuel]; [lia|]); cbn [parseEvents].
  { destruct (stop_at_end p rest pre s n) as (c & -> & Hc); [done..|apply R|done|].
    cbn [mbind run_bind negb]. eexists. split; [done|]. split; [destruct R; by split|]. by split. }
  destruct Hok as [He Hok]. cbn [length] in Hf. unfold log_bytes in Hs. cbn [map concat] in Hs. rewrite <- app_assoc in Hs.
  destruct (parse_entry p st pre e (log_bytes log ++ rest) s n) as (p1 & -> & R1 & O1 & S1); [done..|].
  cbn [mbind run_bind negb].
  assert (Hs1 : s = (pre ++ entry_bytes e) ++ log_bytes log ++ rest) by (by rewrite Hs, <- app_assoc).
  assert (Hn1 : n + Z.of_nat (length (entry_bytes e)) = Z.of_nat (length (pre ++ entry_bytes e)))
    by (rewrite length_app; lia).
  assert (Hle : Z.of_nat (length (pre ++ entry_bytes e)) <= Z.of_nat (length s))
    by (rewrite Hs1, (length_app (pre ++ entry_bytes e)); lia).
  rewrite (fileEof_opened _ s _ O1) by lia. cbn [of_option mbind run_bind].
  cbn [log_rows]. rewrite fold_left_app, <- S1.
  destruct (Z.leb_spec (Z.of_nat (length s)) (n + Z.of_nat (length (entry_bytes e)))).
  - assert (E : log_bytes log ++ rest = []).
    { apply length_zero_iff_nil. rewrite Hn1 in *. rewrite Hs1, (length_app (pre ++ entry_bytes e)) in H. lia. }
    apply app_eq_nil in E as [E _]. destruct log as [|e' log].
    2:{ unfold log_bytes, entry_bytes in E. apply (f_equal length) in E. cbn [map concat] in E.
        rewrite length_app, length_event_bytes in E. cbn [length] in E. lia. }
    exists p1. split; [done|]. split; [done|]. split; [eapply opened_on_file; [exact O1|lia]|done].
  - destruct (IH p1 (entry_next st (fst e)) (pre ++ entry_bytes e) (n + Z.of_nat (length (entry_bytes e))) fuel)
      as (p' & E & R' & O' & S'); [done..|lia|]. by exists p'.
Qed.

(** ** The format description *)

Record format_fields := mk_format_fields {
  ff_version : Z; ff_server : list Z; ff_created : Z; ff_lens : list Z;
}.

Definition format_body (ff : format_fields) : list Z :=
  le_split 2 (ff_version ff) ++ ff_server ff ++ le_split 4 (ff_created ff) ++ [19] ++ ff_lens ff.

(** The lengths of all the event types, those of [standard_format] among them. *)
Record format_ok (ff : format_fields) : Prop := {
  fo_version : 0 <= ff_version ff < 2 ^ 16;
  fo_server : bytes_ok (ff_server ff) ∧ length (ff_server ff) = 50%nat;
  fo_created : 0 <= ff_created ff < 2 ^ 32;
  fo_lens : bytes_ok (ff_lens ff) ∧ Z.of_nat (length (ff_lens ff)) = LOG_EVENT_TYPES;
  fo_standard : ∀ desc, getEventHeaderLength desc = 19 → m_post_header_len desc = ff_lens ff →
     standard_format desc;
}.

(** Reloading the description appends the lengths: the first ones are used. *)
Lemma standard_format_app desc desc' lens :
  standard_format desc → getEventHeaderLength desc' = 19 →
  m_post_header_len desc' = m_post_header_len desc ++ lens → standard_format desc'.
Proof.
  assert (T : ∀ l i v, table_at l i = Some v → table_at (l ++ lens) i = Some v).
  { unfold table_at. intros l i v. destruct (i <? 0); [done|]. apply lookup_app_l_Some. }
  intros [_ H1 H2 H3 H4] Hc Hl. split; rewrite ?Hl; auto.
Qed.

Lemma load_format desc h ff trailer :
  format_ok ff → bytes_ok trailer → header_ok h (event_size (format_body ff) trailer) →
  m_post_header_len desc = [] ∨ standard_format desc →
  ∃ desc', CHeaderEvent_loadEvent (setStream desc (event_bytes h (format_body ff) trailer)) =
      Some (EVENT_SUCCESS, desc') ∧
    standard_format desc' ∧ m_binlog_version desc' = ff_version ff ∧ m_create_timestamp desc' = ff_created ff ∧
    m_binlog_szversion desc' = ff_server ff.
Proof.
  intros [Hv [Hs Ls] Hc [Hl Ll] Hstd] Ht Hh Hd.
  set (size := event_size (format_body ff) trailer) in *. set (hd := header_bytes h size).
  assert (B19 : is_byte 19) by (unfold is_byte; lia).
  assert (Hb : bytes_ok (format_body ff))
    by (unfold format_body; rewrite !Forall_app, Forall_singleton; split_and!; auto with cint).
  assert (Es : event_bytes h (format_body ff) trailer = hd ++ le_split 2 (ff_version ff) ++ ff_server ff ++
    le_split 4 (ff_created ff) ++ [19] ++ ff_lens ff ++ trailer)
    by (unfold event_bytes, format_body; by rewrite <- ?app_assoc).
  assert (Lh : length hd = 19%nat) by done.
  assert (Ln : size = 76 + LOG_EVENT_TYPES + Z.of_nat (length trailer)).
  { unfold size, event_size, format_body. rewrite !length_app, !length_le_split, Ls. cbn [length]. lia. }
  assert (Hz : 0 <= size < 2 ^ 32) by (by destruct Hh as (_ & _ & _ & ? & _)).
  unfold CHeaderEvent_loadEvent. cbn [setStream h_log].
  erewrite (parseHeader_bytes h size _ (format_body ff ++ trailer)) by
    first [exact Hh | by apply Forall_app | reflexivity].
  cbn [mbind option_bind]. rewrite bool_decide_eq_true_2 by done.
  cbn [negb parsed_header m_ucStream m_event_size m_post_header_len setStream].
  change (header_bytes h size ++ format_body ff ++ trailer) with (event_bytes h (format_body ff) trailer).
  cbn [mbind option_bind]. rewrite Es. unfold LOG_EVENT_HEADER_LEN, ST_SERVER_VER_LEN.
  set (tail := ff_lens ff ++ trailer) in *.
  assert (Bt : bytes_ok (le_split 4 (ff_created ff) ++ [19] ++ tail))
    by (unfold tail; rewrite !Forall_app, Forall_singleton; split_and!; auto with cint).
  seek_to hd (le_split 2 (ff_version ff) ++ ff_server ff ++ le_split 4 (ff_created ff) ++ [19] ++ tail).
  rewrite korr_split2 by (apply Forall_app; by split). cbn [mbind option_bind].
  seek_to (hd ++ le_split 2 (ff_version ff)) (ff_server ff ++ le_split 4 (ff_created ff) ++ [19] ++ tail).
  rewrite load_app by done. cbn [mbind option_bind].
  rewrite (seek (hd ++ le_split 2 (ff_version ff) ++ ff_server ff) (le_split 4 (ff_created ff) ++ [19] ++ tail)
    _ (19 + 2 + 50))
    by first [by rewrite <- ?app_assoc | rewrite !length_app, ?length_le_split, Lh, Ls; cbn [length]; lia].
  rewrite Forall_app in Bt. rewrite korr_split4 by apply Bt. cbn [mbind option_bind].
  rewrite (table_at_seek (hd ++ le_split 2 (ff_version ff) ++ ff_server ff ++ le_split 4 (ff_created ff)) tail
    _ _ 19) by first [by rewrite <- ?app_assoc | rewrite !length_app, ?length_le_split, Lh, Ls; cbn [length]; lia].
  cbn [mbind option_bind].
  rewrite (seek (hd ++ le_split 2 (ff_version ff) ++ ff_server ff ++ le_split 4 (ff_created ff) ++ [19]) tail
    _ (19 + (2 + 50 + 4 + 1)))
    by first [by rewrite <- ?app_assoc | rewrite !length_app, ?length_le_split, Lh, Ls; cbn [length]; lia].
  rewrite wrap_small by lia. rewrite Z.min_r by (change (event_type_to_Z ENUM_END_EVENT - 1) with LOG_EVENT_TYPES; lia).
  change (event_type_to_Z ENUM_END_EVENT - 1) with LOG_EVENT_TYPES. rewrite <- Ll.
  unfold tail. rewrite load_app by lia. cbn [mbind option_bind]. eexists. split; [done|].
  cbn [m_binlog_version m_create_timestamp m_binlog_szversion]. rewrite !Z.mod_small by lia.
  split_and!; try done. destruct Hd as [Hd|Hd].
  - apply Hstd; [done|]. cbn [m_post_header_len]. by rewrite Hd.
  - by apply (standard_format_app desc _ (ff_lens ff)).
Qed.

(** ** The header of the file *)

Definition skipped_types : list Log_event_type := [START_EVENT_V3; PREVIOUS_GTIDS_LOG_EVENT; ROTATE_EVENT].

(** What a log file starts with: the format description and events to skip. *)
Record log_head := mk_log_head {
  hd_header : header_fields; hd_format : format_fields; hd_trailer : list Z;
  hd_skipped : list (header_fields * list Z);
}.

Definition skipped_bytes (l : list (header_fields * list Z)) : list Z :=
  concat (map (λ e, event_bytes (fst e) (snd e) []) l).

Definition head_bytes (hd : log_head) : list Z :=
  BINLOG_MAGIC ++ event_bytes (hd_header hd) (format_body (hd_format hd)) (hd_trailer hd) ++
  skipped_bytes (hd_skipped hd).

Definition skipped_ok (e : header_fields * list Z) : Prop :=
  header_ok (fst e) (event_size (snd e) []) ∧ ∃ t, hf_type (fst e) = event_type_to_Z t ∧ t ∈ skipped_types.

Record head_ok (hd : log_head) : Prop := {
  ho_header : header_ok (hd_header hd) (event_size (format_body (hd_format hd)) (hd_trailer hd));
  ho_type : hf_type (hd_header hd) = event_type_to_Z FORMAT_DESCRIPTION_EVENT;
  ho_format : format_ok (hd_format hd);
  ho_trailer : bytes_ok (hd_trailer hd);
  ho_skipped : Forall skipped_ok (hd_skipped hd);
}.

(** The events of the log that follow start with one that is not skipped. *)
Definition body_start (log : list (log_entry * list Z)) : Prop :=
  ∃ e log', log = e :: log' ∧
    ∀ t, hf_type (entry_header (fst e)) = event_type_to_Z t → t ≠ FORMAT_DESCRIPTION_EVENT ∧ t ∉ skipped_types.

(** The header of the next event. *)
Lemma read_header (p : @parser S) pre h size post s n :
  opened (file p) s n → s = pre ++ header_bytes h size ++ post → n = Z.of_nat (length pre) → header_ok h size →
  ∃ c, readCache malloc (file p) LOG_EVENT_HEADER_LEN 0 0 false = (Some (header_bytes h size), c) ∧
    opened c s (n + 19) ∧
    uint4korr (header_bytes h size @+ EVENT_LEN_OFFSET) = Some size ∧
    table_at (header_bytes h size) EVENT_TYPE_OFFSET = Some (hf_type h).
Proof.
  intros Ho Hs Hn Hh.
  destruct (readCache_at malloc malloc_ok (file p) pre (header_bytes h size) post n s 0 0 Ho Hs Hn)
    as (c & R & O); [done|]. exists c. split; [exact R|]. split; [exact O|].
  pose proof (header_size h _ [] (Forall_nil_2 _) Hh) as H1. pose proof (header_type h size []) as H2.
  by rewrite app_nil_r in H1, H2.
Qed.

(** Only the file and the format of the parser change. *)
Definition with_format (p : @parser S) (c : FileCache) (desc : CHeaderEvent) : parser :=
  mk_parser (with_file (p_entry p) c) desc (p_sink p).

Lemma header_stop fuel (p : @parser S) pre log rest s n :
  opened (file p) s n → s = pre ++ log_bytes log ++ rest → n = Z.of_nat (length pre) →
  body_start log → (∀ e, head log = Some e → header_ok (entry_header (fst e)) (event_size (entry_body (fst e)) (snd e))) →
  ∃ c, header_events malloc (Datatypes.S fuel) p = Ret (true, set_file p c) ∧ opened c s n.
Proof.
  intros Ho Hs Hn (e & log' & -> & Ht) Hh. specialize (Hh e eq_refl).
  unfold log_bytes, entry_bytes, event_bytes in Hs. cbn [map concat] in Hs. rewrite <- !app_assoc in Hs.
  destruct (read_header p pre _ _ _ s n Ho Hs Hn Hh) as (c & R & O & E1 & E2).
  cbn [header_events]. rewrite R, E1. cbn [of_option mbind run_bind]. rewrite E2. cbn [of_option mbind run_bind].
  destruct (fileSeek_cur c s (n + 19) (- LOG_EVENT_HEADER_LEN) O) as (c' & F & O');
    [unfold LOG_EVENT_HEADER_LEN; lia|unfold LOG_EVENT_HEADER_LEN; lia|].
  replace (n + 19 + - LOG_EVENT_HEADER_LEN) with n in O' by (unfold LOG_EVENT_HEADER_LEN; lia).
  exists c'. split; [|done]. rewrite F. cbn [of_option mbind run_bind snd].
  destruct (event_type_of_Z (hf_type (entry_header (fst e)))) as [t|] eqn:Et; [|done].
  apply event_type_of_Z_Some in Et. destruct (Ht t Et) as [T1 T2].
  unfold skipped_types in T2. rewrite !not_elem_of_cons in T2. destruct T2 as (? & ? & ? & _). by destruct t.
Qed.

Lemma header_skip skipped fuel (p : @parser S) pre post s n :
  opened (file p) s n → s = pre ++ skipped_bytes skipped ++ post → n = Z.of_nat (length pre) →
  Z.of_nat (length s) < 2 ^ 31 → Forall skipped_ok skipped →
  ∃ c, header_events malloc (length skipped + fuel) p = header_events malloc fuel (set_file p c) ∧
    opened c s (n + Z.of_nat (length (skipped_bytes skipped))).
Proof.
  intros Ho Hs Hn Hl H. revert p pre n Ho Hs Hn.
  induction H as [|e skipped [Hh (t & Hty & Ht)] H IH]; intros p pre n Ho Hs Hn.
  { exists (file p). split; [by destruct p as [[] ? ?]|]. by rewrite Z.add_0_r. }
  unfold skipped_bytes in Hs. cbn [map concat] in Hs. pose proof Hs as Hs0.
  unfold event_bytes in Hs at 1. rewrite <- !app_assoc in Hs.
  destruct (read_header p pre _ _ _ s n Ho Hs Hn Hh) as (c & R & O & E1 & E2).
  cbn [length Nat.add header_events]. rewrite R, E1. cbn [of_option mbind run_bind]. rewrite E2.
  cbn [of_option mbind run_bind].
  assert (Lz : Z.of_nat (length (event_bytes (fst e) (snd e) [])) = event_size (snd e) [])
    by (rewrite length_event_bytes; unfold event_size; lia).
  assert (Hle : n + event_size (snd e) [] <= Z.of_nat (length s)) by (rewrite <- Lz, Hs0, !length_app; lia).
  destruct (fileSeek_cur c s (n + 19) (event_size (snd e) [] - LOG_EVENT_HEADER_LEN) O) as (c' & F & O');
    [unfold LOG_EVENT_HEADER_LEN, event_size in *; lia|unfold LOG_EVENT_HEADER_LEN, event_size in *; lia|].
  replace (n + 19 + (event_size (snd e) [] - LOG_EVENT_HEADER_LEN)) with (n + event_size (snd e) []) in O'
    by (unfold LOG_EVENT_HEADER_LEN; lia).
  fold (event_size (snd e) []). rewrite F. cbn [of_option mbind run_bind snd].
  destruct (IH (set_file p c') (pre ++ event_bytes (fst e) (snd e) []) (n + event_size (snd e) [])) as (c2 & E & O2).
  - done.
  - by rewrite Hs0, <- !app_assoc.
  - rewrite length_app. lia.
  - exists c2. split.
    + unfold skipped_types in Ht. rewrite !elem_of_cons in Ht. rewrite Hty, event_type_of_to_Z.
      destruct Ht as [->|[->|[->|Ht]]]; [exact E..|by apply elem_of_nil in Ht].
    + unfold skipped_bytes in *. cbn [map concat]. rewrite length_app, Nat2Z.inj_add, Lz. by rewrite Z.add_assoc.
Qed.

Lemma checkHeader_ok hd (p : @parser S) log rest s fuel :
  head_ok hd → opened (file p) s 0 → s = head_bytes hd ++ log_bytes log ++ rest →
  Z.of_nat (length s) < 2 ^ 31 → m_post_header_len (p_desc p) = [] ∨ standard_format (p_desc p) →
  body_start log → (∀ e, head log = Some e → header_ok (entry_header (fst e)) (event_size (entry_body (fst e)) (snd e))) →
  (2 + length (hd_skipped hd) ≤ fuel)%nat →
  ∃ c desc, checkHeader malloc fuel p = Ret (true, with_format p c desc) ∧ standard_format desc ∧
    opened c s (Z.of_nat (length (head_bytes hd))).
Proof.
  intros [Hh Hty Hf Ht Hsk] Ho Hs Hl Hd Hb He Hfuel. unfold head_bytes in Hs. rewrite <- !app_assoc in Hs.
  set (fde := event_bytes (hd_header hd) (format_body (hd_format hd)) (hd_trailer hd)) in *.
  set (size := event_size (format_body (hd_format hd)) (hd_trailer hd)) in *.
  assert (Lf : Z.of_nat (length fde) = size)
    by (unfold fde; rewrite length_event_bytes; unfold size, event_size; lia).
  destruct (readCache_at malloc malloc_ok (file p) [] BINLOG_MAGIC _ 0 s 0 0 Ho Hs eq_refl) as (c0 & R0 & O0); [done|].
  unfold checkHeader. change BIN_LOG_HEADER_SIZE with (Z.of_nat (length BINLOG_MAGIC)). rewrite R0.
  rewrite bool_decide_eq_true_2 by done.
  change (0 + Z.of_nat (length BINLOG_MAGIC)) with 4 in O0.
  pose proof Hs as Hs1. unfold fde in Hs1. unfold event_bytes in Hs1 at 1. rewrite <- !app_assoc in Hs1.
  destruct (read_header (set_file p c0) BINLOG_MAGIC _ _ _ s 4 O0 Hs1 eq_refl Hh) as (c1 & R1 & O1 & E1 & E2).
  destruct fuel as [|fuel]; [lia|]. cbn [header_events]. rewrite R1, E1. cbn [of_option mbind run_bind].
  rewrite E2. cbn [of_option mbind run_bind]. rewrite Hty, event_type_of_to_Z.
  destruct (readCache_back malloc malloc_ok c1 BINLOG_MAGIC fde _ s 4 LOG_EVENT_HEADER_LEN O1 Hs eq_refl)
    as (c2 & R2 & O2); [|done|].
  { intros E. rewrite E in Lf. unfold size, event_size in Lf. cbn in Lf. lia. }
  change (19 + Z.of_nat (length (format_body (hd_format hd)) + length (hd_trailer hd))) with size.
  rewrite <- Lf, R2. cbn [set_file set_entry p_desc].
  destruct (load_format (p_desc p) (hd_header hd) (hd_format hd) (hd_trailer hd) Hf Ht Hh Hd)
    as (desc & L & D & _). fold fde in L. rewrite L. cbn [of_option mbind run_bind].
  rewrite bool_decide_eq_true_2 by done. cbn [negb].
  replace fuel with (length (hd_skipped hd) + Datatypes.S (fuel - length (hd_skipped hd) - 1))%nat by lia.
  destruct (header_skip (hd_skipped hd) (Datatypes.S (fuel - length (hd_skipped hd) - 1))
    (with_format p c2 desc) (BINLOG_MAGIC ++ fde) (log_bytes log ++ rest) s (4 + Z.of_nat (length fde))) as (c3 & E3 & O3);
    [exact O2|by rewrite Hs, <- app_assoc|rewrite length_app, Nat2Z.inj_add; done|done|done|].
  unfold with_format in E3.
  change (with_file (p_entry (set_file p c0)) c2) with (with_file (p_entry p) c2).
  change (p_sink (set_file p c0)) with (p_sink p). rewrite E3.
  destruct (header_stop (fuel - length (hd_skipped hd) - 1) (with_format p c3 desc) (BINLOG_MAGIC ++ fde ++ skipped_bytes (hd_skipped hd)) log rest s
    (4 + Z.of_nat (length fde) + Z.of_nat (length (skipped_bytes (hd_skipped hd))))) as (c4 & E4 & O4);
    [exact O3|by rewrite Hs, <- !app_assoc| |done|done|].
  { rewrite !length_app, !Nat2Z.inj_add. change (Z.of_nat (length BINLOG_MAGIC)) with 4. lia. }
  exists c4, desc. split; [exact E4|]. split; [done|]. unfold head_bytes. fold fde. rewrite !length_app.
  replace (Z.of_nat (length BINLOG_MAGIC + (length fde + length (skipped_bytes (hd_skipped hd)))))
    with (4 + Z.of_nat (length fde) + Z.of_nat (length (skipped_bytes (hd_skipped hd))))
    by (change (length BINLOG_MAGIC) with 4%nat; lia). exact O4.
Qed.

(** ** Rounds of the monitor *)

Local Abbreviation changed fopen :=
  (on_change fopen malloc dec_garbage buff_garbage query_garbage map_garbage rows_garbage address_of inner).
Local Abbreviation begin :=
  (parseBegin malloc dec_garbage buff_garbage query_garbage map_garbage rows_garbage address_of inner).

Lemma refresh_opened fopen (p : @parser S) path s :
  fopen path = Some s → Z.of_nat (length s) < 2 ^ 31 →
  ∃ c, refreshFileCache fopen p (Some path) = (true, set_file p c) ∧ opened c s 0.
Proof.
  intros Hp Hl. unfold refreshFileCache. destruct (init_opened fopen (file p) path s Hp Hl) as (c & -> & O & _).
  by exists c.
Qed.

(** What a round leaves: the state of the log, the rows, and the end of the file. *)
Record round_done (p p' : @parser S) (st : log_state) (n : Z) (log : list (log_entry * list Z)) (s : list Z)
    : Prop := {
  rd_state : represents p' (log_end st log);
  rd_ptr : m_binlog_current_file_ptr (p_entry p') = Z.of_nat (length s);
  rd_sink : p_sink p' = fold_left productRowData (log_rows address_of st n log) (p_sink p);
}.

(** The loop and the new position, which [parseBegin] ends with. *)
Lemma finish_round log (p : @parser S) st pre rest s n fuel :
  represents p st → log_ok dec_garbage buff_garbage inner st log → unreadable rest →
  opened (file p) s n → s = pre ++ log_bytes log ++ rest → n = Z.of_nat (length pre) →
  Z.of_nat (length s) < 2 ^ 31 → (length log < fuel)%nat →
  ∃ p', (p ← all_events fuel p;
         Ret (true, set_entry p (with_file_ptr (p_entry p) (getFileSize (file p))))) = Ret (true, p') ∧
    round_done p p' st n log s.
Proof.
  intros R Hok Hr Ho Hs Hn Hl Hf.
  destruct (parse_entries log p st pre rest s n fuel) as (p1 & -> & R1 & O1 & S1); [done..|].
  cbn [mbind run_bind]. eexists. split; [done|]. split; [destruct R1; by split| |done].
  cbn [set_entry with_file_ptr p_entry m_binlog_current_file_ptr]. by apply getFileSize_on.
Qed.

(** A file not looked at before: its header, then the events. *)
Lemma first_round fopen hd log (p : @parser S) st rest s path fuel :
  fopen path = Some s → s = head_bytes hd ++ log_bytes log ++ rest → Z.of_nat (length s) < 2 ^ 31 →
  head_ok hd → body_start log → log_ok dec_garbage buff_garbage inner st log → unreadable rest →
  m_binlog_current_file_ptr (p_entry p) = 0 →
  m_post_header_len (p_desc p) = [] ∨ standard_format (p_desc p) →
  (∀ desc, standard_format desc → represents (mk_parser (p_entry p) desc (p_sink p)) st) →
  (2 + length (hd_skipped hd) ≤ fuel)%nat → (length log < fuel)%nat →
  ∃ p', changed fopen fuel p (Some path) = Ret p' ∧
    round_done p p' st (Z.of_nat (length (head_bytes hd))) log s.
Proof.
  intros Hp Hs Hl Hh Hb Hok Hr Hptr Hd R Hf1 Hf2.
  unfold on_change. destruct (refresh_opened fopen p path s Hp Hl) as (c & -> & O).
  unfold parseBegin. cbn [set_file set_entry with_file p_entry m_binlog_current_file_ptr]. rewrite Hptr.
  cbn [Z.eqb].
  destruct (checkHeader_ok hd (set_file p c) log rest s fuel) as (c1 & desc & -> & D & O1); try done.
  { intros e He. destruct log as [|e' log]; [done|]. injection He as ->. apply Hok. }
  cbn [mbind run_bind negb].
  destruct (finish_round log (with_format (set_file p c) c1 desc) st (head_bytes hd) rest s
    (Z.of_nat (length (head_bytes hd))) fuel)
    as (p' & -> & P); [|done|done|exact O1|done..|].
  { specialize (R desc D). destruct R. by split. }
  cbn [mbind run_bind snd]. exists p'. split; [done|]. destruct P. by split.
Qed.

(** The file has grown: the events behind the position. *)
Lemma next_round fopen log (p : @parser S) st old rest s path fuel :
  fopen path = Some s → s = old ++ log_bytes log ++ rest → Z.of_nat (length s) < 2 ^ 31 →
  log_ok dec_garbage buff_garbage inner st log → unreadable rest →
  m_binlog_current_file_ptr (p_entry p) = Z.of_nat (length old) → old ≠ [] → represents p st →
  (length log < fuel)%nat →
  ∃ p', changed fopen fuel p (Some path) = Ret p' ∧ round_done p p' st (Z.of_nat (length old)) log s.
Proof.
  intros Hp Hs Hl Hok Hr Hptr Hold R Hf.
  unfold on_change. destruct (refresh_opened fopen p path s Hp Hl) as (c & -> & O).
  unfold parseBegin. cbn [set_file set_entry with_file p_entry m_binlog_current_file_ptr]. rewrite Hptr.
  destruct (Z.eqb_spec (Z.of_nat (length old)) 0) as [E|_]; [by destruct old|].
  assert (Hon : on_file c s) by (by eapply opened_on_file).
  change (file (set_file p c)) with c. rewrite (getFileSize_on c s Hon Hl).
  assert (Ll : Z.of_nat (length s) = Z.of_nat (length old) + Z.of_nat (length (log_bytes log ++ rest)))
    by (rewrite Hs, length_app; lia).
  destruct (Z.leb_spec (Z.of_nat (length s)) (Z.of_nat (length old))) as [Hle|Hlt].
  { assert (E : log_bytes log ++ rest = []) by (apply length_zero_iff_nil; lia).
    apply app_eq_nil in E as [E ->]. destruct log as [|e log].
    2:{ unfold log_bytes, entry_bytes in E. apply (f_equal length) in E. cbn [map concat] in E.
        rewrite length_app, length_event_bytes in E. cbn [length] in E. lia. }
    cbn [mbind run_bind snd]. eexists. split; [done|]. split; [destruct R; by split| |done].
    cbn [set_file set_entry with_file p_entry m_binlog_current_file_ptr].
    rewrite Hptr, Hs. by rewrite app_nil_r. }
  change (file (set_file p c)) with c.
  destruct (fileSeek_set c s (Z.of_nat (length old)) Hon) as (c1 & -> & O1); [lia|].
  cbn [of_option mbind run_bind snd].
  destruct (finish_round log (set_file (set_file p c) c1) st old rest s (Z.of_nat (length old)) fuel)
    as (p' & E' & P); [destruct R; by split|done..|].
  rewrite E'.
  cbn [mbind run_bind snd]. exists p'. split; [done|]. destruct P. by split.
Qed.
End Reading.

(** The rounds of a file that grows: its contents at every change. *)
Section Rounds.
Context {S : Type} `{!RowSink S}.
Context (malloc : Z → option (list Z)) (dec_garbage buff_garbage : list Z) (query_garbage : Z → CQueryEvent)
  (map_garbage : Z → TableMap.CTableMapEvent) (rows_garbage : Z → CRowsEvent) (address_of : Z → Z).
Context (inner fuel : nat) (path : list Z).

Fixpoint follow (p : @parser S) (contents : list (list Z)) : run parser :=
  match contents with
  | [] => Ret p
  | s :: contents =>
      p ← on_change (λ _, Some s) malloc dec_garbage buff_garbage query_garbage map_garbage rows_garbage
            address_of inner fuel p (Some path);
      follow p contents
  end.

(** [grown old logs]: the contents after each of [logs] is appended to [old]. *)
Fixpoint grown (old : list Z) (logs : list (list (log_entry * list Z))) : list (list Z) :=
  match logs with
  | [] => []
  | log :: logs => (old ++ log_bytes log) :: grown (old ++ log_bytes log) logs
  end.
End Rounds.

Lemma log_rows_app address_of st n l1 l2 :
  log_rows address_of st n (l1 ++ l2) =
  log_rows address_of st n l1 ++ log_rows address_of (log_end st l1) (n + Z.of_nat (length (log_bytes l1))) l2.
Proof.
  revert st n. induction l1 as [|e l1 IH]; intros st n; cbn [app log_rows].
  { unfold log_bytes. cbn [map concat length log_end fold_left]. by rewrite Z.add_0_r. }
  rewrite IH, app_assoc. unfold log_bytes. cbn [map concat log_end fold_left].
  rewrite length_app, Nat2Z.inj_add, Z.add_assoc. done.
Qed.

Lemma log_ok_app dg bg inner st l1 l2 :
  log_ok dg bg inner st (l1 ++ l2) → log_ok dg bg inner st l1 ∧ log_ok dg bg inner (log_end st l1) l2.
Proof. revert st. induction l1 as [|e l1 IH]; intros st; [done|]. cbn. intros [? H]. apply IH in H as [? ?]. done. Qed.

Lemma log_bytes_app l1 l2 : log_bytes (l1 ++ l2) = log_bytes l1 ++ log_bytes l2.
Proof. unfold log_bytes. by rewrite map_app, concat_app. Qed.

Lemma log_end_app st l1 l2 : log_end st (l1 ++ l2) = log_end (log_end st l1) l2.
Proof. unfold log_end. apply fold_left_app. Qed.

Lemma unreadable_nil : unreadable [].
Proof. left. cbn. lia. Qed.

(** What the proofs about the monitor assume of the parser and its parameters. *)
Section Monitor.
Context {S : Type} `{!RowSink S}.
Context (malloc : Z → option (list Z)).
Context (malloc_ok : ∀ n, 0 <= n → ∃ l, malloc n = Some l ∧ Z.of_nat (length l) = n).
Context (dec_garbage buff_garbage : list Z) (query_garbage : Z → CQueryEvent)
  (map_garbage : Z → TableMap.CTableMapEvent) (rows_garbage : Z → CRowsEvent) (address_of : Z → Z).
Context (inner fuel : nat) (path : list Z).
Context (inner_ok : MAX_SIZE_LOG_EVENT_STATUS <= Z.of_nat inner).

Local Abbreviation rounds :=
  (follow malloc dec_garbage buff_garbage query_garbage map_garbage rows_garbage address_of inner fuel path).

Lemma follow_next logs (p : @parser S) st old :
  Z.of_nat (length (old ++ log_bytes (concat logs))) < 2 ^ 31 →
  log_ok dec_garbage buff_garbage inner st (concat logs) →
  m_binlog_current_file_ptr (p_entry p) = Z.of_nat (length old) → old ≠ [] → represents p st →
  (length (concat logs) < fuel)%nat →
  ∃ p', rounds p (grown old logs) = Ret p' ∧
    round_done address_of p p' st (Z.of_nat (length old)) (concat logs) (old ++ log_bytes (concat logs)).
Proof.
  revert p st old. induction logs as [|log logs IH]; intros p st old Hl Hok Hptr Hold R Hf.
  { exists p. split; [done|]. split; [done| |done]. cbn [concat]. by rewrite app_nil_r. }
  cbn [concat] in *. apply log_ok_app in Hok as [Hok1 Hok2]. rewrite log_bytes_app, app_assoc in Hl.
  rewrite length_app in Hf.
  destruct (next_round malloc malloc_ok dec_garbage buff_garbage query_garbage map_garbage rows_garbage address_of
    inner inner_ok (λ _, Some (old ++ log_bytes log)) log p st old [] (old ++ log_bytes log) path fuel)
    as (p1 & E1 & [R1 P1 S1]); [done|by rewrite app_nil_r|rewrite (length_app (old ++ _)) in Hl; lia
    |done|apply unreadable_nil|done|done|done|lia|].
  cbn [grown follow]. rewrite E1. cbn [mbind run_bind].
  destruct (IH p1 (log_end st log) (old ++ log_bytes log)) as (p2 & E2 & [R2 P2 S2]);
    [done|done|done|by destruct old|done|lia|].
  exists p2. split; [done|]. rewrite log_bytes_app, app_assoc. split; [by rewrite log_end_app|done|].
  rewrite S2, S1, log_rows_app, fold_left_app. by rewrite length_app, Nat2Z.inj_add.
Qed.
End Monitor.

(** A parser that has not looked at its file: after the constructor, with the
    state of an empty log; or with what an earlier file has left. *)
Record fresh {S : Type} (p : @parser S) (st : log_state) : Prop := {
  fr_ptr : m_binlog_current_file_ptr (p_entry p) = 0;
  fr_desc : m_post_header_len (p_desc p) = [] ∨ standard_format (p_desc p);
  fr_state : ∀ desc, standard_format desc → represents (mk_parser (p_entry p) desc (p_sink p)) st;
}.

Definition no_log : log_state := mk_log_state None ∅ None.

Lemma new_parser_fresh {S : Type} a b (sink : S) :
  fresh (mk_parser (new_CParseLogEntry a b) new_CHeaderEvent sink) no_log.
Proof.
  split; [done|by left|]. intros desc D. split; [done|done| |constructor].
  intros i. cbn [p_entry new_CParseLogEntry m_p_tablemaps no_log ls_tables]. rewrite !lookup_empty. constructor.
Qed.

(** C1: following a binary log.  A server that writes a log of any queries,
    table maps, row changes and events the parser passes over, in any number of
    steps that each end behind a whole event, has every row change handed on
    exactly once, in the order of the log, decoded, under the thread of the
    query and the names of the table map before it; afterwards the parser holds
    the tables of the log and is at the end of the file. *)
Theorem growing_log_followed {S : Type} `{!RowSink S} malloc dg bg qg mg rg address_of inner fuel path
    (p : @parser S) st hd log logs :
  (∀ n, 0 <= n → ∃ l, malloc n = Some l ∧ Z.of_nat (length l) = n) →
  MAX_SIZE_LOG_EVENT_STATUS <= Z.of_nat inner →
  fresh p st → head_ok hd → body_start log → log_ok dg bg inner st (log ++ concat logs) →
  Z.of_nat (length (head_bytes hd ++ log_bytes (log ++ concat logs))) < 2 ^ 31 →
  (2 + length (hd_skipped hd) ≤ fuel)%nat → (length (log ++ concat logs) < fuel)%nat →
  ∃ p', follow malloc dg bg qg mg rg address_of inner fuel path p (grown (head_bytes hd) (log :: logs)) = Ret p' ∧
    round_done address_of p p' st (Z.of_nat (length (head_bytes hd))) (log ++ concat logs)
      (head_bytes hd ++ log_bytes (log ++ concat logs)).
Proof.
  intros Hm Hin [Fp Fd Fs] Hh Hb Hok Hl Hf1 Hf2. apply log_ok_app in Hok as [Hok1 Hok2].
  rewrite log_bytes_app, app_assoc in Hl |- *. rewrite length_app in Hf2.
  destruct (first_round malloc Hm dg bg qg mg rg address_of inner Hin (λ _, Some (head_bytes hd ++ log_bytes log))
    hd log p st [] (head_bytes hd ++ log_bytes log) path fuel) as (p1 & E1 & [R1 P1 S1]);
    [done|by rewrite app_nil_r|rewrite (length_app (_ ++ _)) in Hl; lia|done|done|done|apply unreadable_nil
    |done|done|done|done|lia|].
  cbn [grown follow]. rewrite E1. cbn [mbind run_bind].
  destruct (follow_next malloc Hm dg bg qg mg rg address_of inner fuel path Hin logs p1 (log_end st log)
    (head_bytes hd ++ log_bytes log)) as (p2 & -> & [R2 P2 S2]); [done|done|done|done|done|lia|].
  exists p2. split; [done|]. split; [by rewrite log_end_app|done|].
  rewrite S2, S1, log_rows_app, fold_left_app. by rewrite length_app, Nat2Z.inj_add.
Qed.

(** An event that has been written in part. *)
Lemma torn_unreadable dg bg inner st e a b :
  entry_ok dg bg inner st e → entry_bytes e = a ++ b → b ≠ [] →
  Z.of_nat (length (entry_bytes e)) < 2 ^ 31 → unreadable a.
Proof.
  intros [Hh _ _] E Hb Hl. destruct (decide (length a < 19)%nat) as [|Ha]; [by left|]. right.
  set (hdr := header_bytes (entry_header (fst e)) (event_size (entry_body (fst e)) (snd e))).
  assert (Ee : hdr ++ entry_body (fst e) ++ snd e = a ++ b) by (by rewrite <- E).
  assert (Lz : Z.of_nat (length (entry_bytes e)) = event_size (entry_body (fst e)) (snd e))
    by (unfold entry_bytes; rewrite length_event_bytes; unfold event_size; lia).
  assert (Ea : take 19 a = hdr).
  { rewrite <- (take_app_le a b) by lia. rewrite <- Ee. by apply take_app_length'. }
  exists (entry_header (fst e)), (event_size (entry_body (fst e)) (snd e)), (drop 19 a).
  split; [fold hdr; rewrite <- Ea; by rewrite take_drop|]. split; [done|]. split; [lia|]. right.
  apply (f_equal length) in E. rewrite length_app in E. rewrite length_drop.
  assert (0 < length b)%nat by (destruct b; [done|cbn; lia]). lia.
Qed.

(** C15: a round that sees an event without its end loses it.  When at one change the
    file lacks the last bytes of an event, between 1 and 18 of them, less than a
    header, and at the next has the whole event, the second round does not go back: the parser is at the end
    of the file and the event's rows are never handed on. *)
Theorem torn_event_lost {S : Type} `{!RowSink S} malloc dg bg qg mg rg address_of inner fuel path
    (p : @parser S) st hd log e a b :
  (∀ n, 0 <= n → ∃ l, malloc n = Some l ∧ Z.of_nat (length l) = n) →
  MAX_SIZE_LOG_EVENT_STATUS <= Z.of_nat inner →
  fresh p st → head_ok hd → body_start log → log_ok dg bg inner st (log ++ [e]) →
  Z.of_nat (length (head_bytes hd ++ log_bytes (log ++ [e]))) < 2 ^ 31 →
  (2 + length (hd_skipped hd) ≤ fuel)%nat → (length log < fuel)%nat →
  entry_bytes e = a ++ b → (0 < length b < 19)%nat →
  ∃ p', follow malloc dg bg qg mg rg address_of inner fuel path p
          [head_bytes hd ++ log_bytes log ++ a; head_bytes hd ++ log_bytes log ++ entry_bytes e] = Ret p' ∧
    round_done address_of p p' st (Z.of_nat (length (head_bytes hd))) log
      (head_bytes hd ++ log_bytes (log ++ [e])).
Proof.
  intros Hm Hin [Fp Fd Fs] Hh Hb Hok Hl Hf1 Hf2 He Hb'. apply log_ok_app in Hok as [Hok1 [Hok2 _]].
  assert (El : log_bytes (log ++ [e]) = log_bytes log ++ a ++ b)
    by (rewrite log_bytes_app, <- He; unfold log_bytes; cbn [map concat]; by rewrite app_nil_r).
  rewrite El in Hl |- *.
  assert (Hlen := Hl). rewrite !length_app in Hlen.
  destruct (first_round malloc Hm dg bg qg mg rg address_of inner Hin
    (λ _, Some (head_bytes hd ++ log_bytes log ++ a)) hd log p st a _ path fuel eq_refl eq_refl)
    as (p1 & E1 & [R1 P1 S1]); [rewrite !length_app; lia|done|done|done| |done|done|done|done|lia|].
  { apply (torn_unreadable dg bg inner (log_end st log) e a b); [done|done|by destruct b; cbn in Hb'; [lia|]|].
    rewrite He, length_app. lia. }
  cbn [follow]. rewrite E1. cbn [mbind run_bind].
  destruct (next_round malloc Hm dg bg qg mg rg address_of inner Hin
    (λ _, Some (head_bytes hd ++ log_bytes log ++ entry_bytes e)) [] p1 (log_end st log)
    (head_bytes hd ++ log_bytes log ++ a) b _ path fuel eq_refl) as (p2 & E2 & [R2 P2 S2]);
    [by rewrite He, <- !app_assoc|rewrite He, !length_app; lia|done|left; lia|done|done|done|cbn; lia|].
  exists p2. rewrite E2. split; [done|]. split; [done|by rewrite P2, He|by rewrite S2, S1].
Qed.

Lemma short_round {S : Type} `{!RowSink S} malloc dg bg qg mg rg address_of inner fuel path fopen (p : @parser S) s :
  fopen path = Some s → Z.of_nat (length s) <= m_binlog_current_file_ptr (p_entry p) < 2 ^ 31 →
  0 < m_binlog_current_file_ptr (p_entry p) →
  ∃ c, on_change fopen malloc dg bg qg mg rg address_of inner fuel p (Some path) = Ret (set_file p c).
Proof.
  intros Hp Hle H0. unfold on_change. destruct (refresh_opened fopen p path s Hp) as (c & -> & O); [lia|].
  exists c. unfold parseBegin. cbn [set_file set_entry with_file p_entry m_binlog_current_file_ptr].
  destruct (Z.eqb_spec (m_binlog_current_file_ptr (p_entry p)) 0); [lia|].
  assert (Hon : on_file c s) by (by eapply opened_on_file).
  change (file (set_file p c)) with c. rewrite (getFileSize_on c s Hon) by lia.
  by destruct (Z.leb_spec (Z.of_nat (length s)) (m_binlog_current_file_ptr (p_entry p))); [|lia].
Qed.

(** After a rotation the rows of the new file are not seen: for all the
    rounds in which it is no longer than the position in the old file, nothing
    of it is read, whatever it contains. *)
Theorem shorter_file_ignored {S : Type} `{!RowSink S} malloc dg bg qg mg rg address_of inner fuel path
    (p : @parser S) contents :
  0 < m_binlog_current_file_ptr (p_entry p) < 2 ^ 31 →
  Forall (λ s, Z.of_nat (length s) <= m_binlog_current_file_ptr (p_entry p)) contents →
  ∃ c, follow malloc dg bg qg mg rg address_of inner fuel path p contents = Ret (set_file p c).
Proof.
  intros H0 H. revert p H0 H. induction contents as [|s contents IH]; intros p H0 H.
  { exists (file p). by destruct p as [[] ? ?]. }
  apply Forall_cons in H as [Hs H]. cbn [follow].
  destruct (short_round malloc dg bg qg mg rg address_of inner fuel path (λ _, Some s) p s eq_refl) as (c & ->); [lia..|].
  cbn [mbind run_bind]. destruct (IH (set_file p c)) as (c' & ->); [done..|]. by exists c'.
Qed.

(** A damaged header stops the program from answering: when the first event
    is one of those the loop over the file's header skips and says its size is
    0, the loop reads that event for ever. *)
Theorem header_loop_diverges {S : Type} `{!RowSink S} malloc dg bg qg mg rg address_of inner fuel path
    fopen (p : @parser S) h t rest :
  (∀ n, 0 <= n → ∃ l, malloc n = Some l ∧ Z.of_nat (length l) = n) →
  fopen path = Some (BINLOG_MAGIC ++ header_bytes h 0 ++ rest) →
  Z.of_nat (length (BINLOG_MAGIC ++ header_bytes h 0 ++ rest)) < 2 ^ 31 →
  header_ok h 0 → hf_type h = event_type_to_Z t → t ∈ skipped_types →
  m_binlog_current_file_ptr (p_entry p) = 0 →
  on_change fopen malloc dg bg qg mg rg address_of inner fuel p (Some path) = NoFuel.
Proof.
  intros Hm Hp Hl Hh Hty Ht Hptr. set (s := BINLOG_MAGIC ++ header_bytes h 0 ++ rest) in *.
  unfold on_change. destruct (refresh_opened fopen p path s Hp Hl) as (c & -> & O).
  unfold parseBegin. cbn [set_file set_entry with_file p_entry m_binlog_current_file_ptr]. rewrite Hptr.
  cbn [Z.eqb]. unfold checkHeader.
  destruct (readCache_at malloc Hm c [] BINLOG_MAGIC (header_bytes h 0 ++ rest) 0 s 0 0 O eq_refl eq_refl)
    as (c0 & R0 & O0); [done|].
  change (Z.of_nat (length BINLOG_MAGIC)) with 4 in *.
  change BIN_LOG_HEADER_SIZE with 4. change (file (set_file p c)) with c. rewrite R0.
  rewrite bool_decide_eq_true_2 by done.
  enough (L : ∀ k (q : @parser S), opened (file q) s 4 → header_events malloc k q = NoFuel)
    by (by rewrite L by exact O0).
  clear - Hm Hh Hty Ht. induction k as [|k IH]; intros q Oq; [done|].
  destruct (read_header malloc Hm q BINLOG_MAGIC h 0 rest s 4 Oq eq_refl eq_refl Hh) as (c & R & O & E1 & E2).
  cbn [header_events]. rewrite R, E1. cbn [of_option mbind run_bind]. rewrite E2. cbn [of_option mbind run_bind].
  destruct (fileSeek_cur c s (4 + 19) (0 - LOG_EVENT_HEADER_LEN) O) as (c' & F & O');
    [unfold LOG_EVENT_HEADER_LEN; lia..|]. rewrite F. cbn [of_option mbind run_bind snd].
  rewrite Hty, event_type_of_to_Z. unfold skipped_types in Ht. rewrite !elem_of_cons in Ht.
  destruct Ht as [->|[->|[->|Ht]]]; [apply IH, O'..|by apply elem_of_nil in Ht].
Qed.

(** Samples: an UPDATE of one row, with the events around it. *)
Definition sample_head : log_head :=
  mk_log_head (mk_header_fields 5 15 1 119 0)
    (mk_format_fields 4 (replicate 50 53) 5 (m_post_header_len sample_format)) [1; 7; 7; 7; 7]
    [(mk_header_fields 5 35 1 150 128, [0; 0; 0; 0; 0; 0; 0; 0; 7; 7; 7; 7])].

Definition sample_tables : table_map_fields :=
  mk_table_map_fields 70 1 [100; 98] [116]
    [(MYSQL_TYPE_LONG, 0); (MYSQL_TYPE_VARCHAR, 40); (MYSQL_TYPE_NEWDECIMAL, 2562)] [2].

Definition sample_query : log_entry * list Z :=
  (L_query (mk_header_fields 5 2 1 200 0) (mk_query_fields 9 0 0 [sv_fixed Q_FLAGS2_CODE [0; 0; 0; 0]] [100; 98] [66]),
   [7; 7; 7; 7]).

Definition sample_map : log_entry * list Z :=
  (L_table_map (mk_header_fields 5 19 1 250 0) sample_tables, [7; 7; 7; 7]).

Definition sample_update : log_entry * list Z :=
  (L_rows (mk_header_fields 5 31 1 300 0) UPDATE_ROWS_EVENT
     (sample_rows (Some None) [7] (changes_bytes true sample_changes)) sample_changes, [1; 2; 3; 4]).

Definition sample_xid : log_entry * list Z :=
  (L_other (mk_header_fields 5 16 1 340 0) [1; 0; 0; 0; 0; 0; 0; 0], [7; 7; 7; 7]).

Lemma sample_head_ok : head_ok sample_head.
Proof.
  split.
  - repeat split; vm_compute; congruence.
  - done.
  - split; [cbn; lia|split; [by apply sample_bytes|done]|cbn; lia|split; [by apply sample_bytes|done]|].
    intros desc D E. destruct sample_format_standard as [_ H2 H3 H4 H5].
    split; rewrite ?E; [done|exact H2|exact H3|exact H4|exact H5].
  - by apply sample_bytes.
  - constructor; [|constructor]. split; [repeat split; vm_compute; congruence|].
    exists PREVIOUS_GTIDS_LOG_EVENT. split; [done|]. by apply (bool_decide_unpack _).
Qed.

Lemma sample_log_ok dg bg inner :
  (0 < inner)%nat → log_ok dg bg inner no_log [sample_query; sample_map; sample_update; sample_xid].
Proof.
  intros Hi.
  assert (Q : query_ok (mk_query_fields 9 0 0 [sv_fixed Q_FLAGS2_CODE [0; 0; 0; 0]] [100; 98] [66])).
  { split; cbn; try lia; [|vm_compute; congruence|split_and!; [by apply sample_bytes| |lia]|by apply sample_bytes].
    - constructor; [|constructor]. cbn. split; [done|by apply sample_bytes].
    - unfold no_nul. repeat constructor; lia. }
  assert (T : table_map_ok sample_tables) by (split; cbn; try lia; repeat constructor; cbn; unfold is_byte; lia).
  assert (H : ∀ h size, hf_timestamp h = 5 → hf_server h = 1 → hf_flags h = 0 → is_byte (hf_type h) →
    0 <= hf_next h < 1000 → 0 <= size < 1000 → header_ok h size).
  { intros h size H1 H2 H3 H4 H5 H6. unfold header_ok. rewrite H1, H2, H3. split_and!; try done; lia. }
  assert (C : ∀ crc, forallb (λ b, (0 <=? b) && (b <? 256)) crc = true ∧ length crc = 4%nat →
    bytes_ok crc ∧ length crc = 4%nat) by (intros crc [? ?]; split; [by apply sample_bytes|done]).
  cbn [log_ok]. split; [|split; [|split; [|split; [|done]]]]; (split; [apply H; first [done|by vm_compute|unfold is_byte; cbn; lia]|by apply C|]).
  - done.
  - done.
  - cbn [fst kind_ok sample_update]. split; [done|]. split; [by right; left|].
    split; [apply sample_rows_ok; [by auto|by apply sample_bytes|done|by apply sample_bytes]|].
    split; [done|]. split; [cbn; lia|]. split; [by exists 9|]. split; [by exists sample_tables|].
    exists sample_tables, sample_td. split; [reflexivity|]. split; [reflexivity|].
    constructor; [apply sample_matches|constructor].
  - cbn [fst kind_ok sample_xid]. split; [by apply sample_bytes|]. exists XID_EVENT. split; [done|]. right.
    by apply (bool_decide_unpack _).
Qed.

Lemma sample_body_start log : body_start (sample_query :: log).
Proof.
  exists sample_query, log. split; [done|]. intros t Ht.
  split; [by intros ->|]. unfold skipped_types. intros Hs. rewrite !elem_of_cons in Hs.
  destruct Hs as [->|[->|[->|Hs]]]; [done..|by apply elem_of_nil in Hs].
Qed.

#[local] Instance list_sink : RowSink (list RowData.CRowData) := λ s r, s ++ [r].

Definition sample_parser : @parser (list RowData.CRowData) :=
  mk_parser (new_CParseLogEntry 0 0) new_CHeaderEvent [].

Definition sample_query_garbage (pos : Z) : CQueryEvent := mk_query_event sample_garbage pos 0 0 0 0 [].
Definition sample_map_garbage (pos : Z) : TableMap.CTableMapEvent :=
  TableMap.mk_table_map sample_garbage pos 0 0 0 0 0 [] [] [] [] [].
Definition sample_rows_garbage (_ : Z) : CRowsEvent := sample_rows_event Class_Write.

Lemma growing_log_followed_witness :
  ∃ p', follow sample_malloc [] [] sample_query_garbage sample_map_garbage sample_rows_garbage (λ pos, pos) 5000 10
      [97] sample_parser
      (grown (head_bytes sample_head) [[sample_query; sample_map]; [sample_update]; [sample_xid]]) = Ret p' ∧
    map (λ r, (RowData.m_thread_id r, RowData.m_db_name r, RowData.m_table_name r)) (p_sink p') = [(9, [100; 98], [116])].
Proof.
  destruct (growing_log_followed sample_malloc [] [] sample_query_garbage sample_map_garbage sample_rows_garbage
    (λ pos, pos) 5000 10 [97] sample_parser no_log sample_head [sample_query; sample_map]
    [[sample_update]; [sample_xid]]) as (p' & E & [_ _ R]).
  - exact sample_malloc_ok.
  - by vm_compute.
  - apply new_parser_fresh.
  - exact sample_head_ok.
  - apply sample_body_start.
  - apply sample_log_ok. lia.
  - by vm_compute.
  - cbn. lia.
  - cbn. lia.
  - exists p'. split; [exact E|]. rewrite R. vm_compute. reflexivity.
Defined.

(** The last eight bytes of the UPDATE come later. *)
Definition torn_at : nat := length (entry_bytes sample_update) - 8.

Lemma torn_event_lost_witness :
  ∃ p', follow sample_malloc [] [] sample_query_garbage sample_map_garbage sample_rows_garbage (λ pos, pos) 5000 10
      [97] sample_parser
      [head_bytes sample_head ++ log_bytes [sample_query; sample_map] ++ take torn_at (entry_bytes sample_update);
       head_bytes sample_head ++ log_bytes [sample_query; sample_map] ++ entry_bytes sample_update] = Ret p' ∧
    p_sink p' = [] ∧ m_binlog_current_file_ptr (p_entry p') =
      Z.of_nat (length (head_bytes sample_head ++ log_bytes [sample_query; sample_map; sample_update])).
Proof.
  destruct (torn_event_lost sample_malloc [] [] sample_query_garbage sample_map_garbage sample_rows_garbage
    (λ pos, pos) 5000 10 [97] sample_parser no_log sample_head [sample_query; sample_map] sample_update
    (take torn_at (entry_bytes sample_update)) (drop torn_at (entry_bytes sample_update))) as (p' & E & [_ P R]).
  - exact sample_malloc_ok.
  - by vm_compute.
  - apply new_parser_fresh.
  - exact sample_head_ok.
  - apply sample_body_start.
  - apply (log_ok_app _ _ _ _ _ [sample_xid]), sample_log_ok. lia.
  - by vm_compute.
  - cbn. lia.
  - cbn. lia.
  - by rewrite take_drop.
  - vm_compute. lia.
  - exists p'. split; [exact E|]. split; [rewrite R; vm_compute; reflexivity|exact P].
Defined.

Lemma shorter_file_ignored_witness :
  let p := mk_parser (with_file_ptr (p_entry sample_parser) 500) sample_format [] in
  ∃ c, follow sample_malloc [] [] sample_query_garbage sample_map_garbage sample_rows_garbage (λ pos, pos) 5000 10 [98] p
      [head_bytes sample_head; head_bytes sample_head ++ entry_bytes sample_query] = Ret (set_file p c).
Proof.
  cbv zeta.
  apply (shorter_file_ignored sample_malloc [] [] sample_query_garbage sample_map_garbage sample_rows_garbage
    (λ pos, pos) 5000 10 [98] (mk_parser (with_file_ptr (p_entry sample_parser) 500) sample_format []));
    [by vm_compute|]. by apply (bool_decide_unpack _); vm_compute.
Defined.

Lemma header_loop_diverges_witness :
  on_change (λ _, Some (BINLOG_MAGIC ++ header_bytes (mk_header_fields 5 4 1 0 0) 0 ++ [])) sample_malloc [] []
      sample_query_garbage sample_map_garbage sample_rows_garbage (λ pos, pos) 5000 100 sample_parser (Some [97]) =
    NoFuel.
Proof.
  apply (header_loop_diverges sample_malloc [] [] sample_query_garbage sample_map_garbage sample_rows_garbage
    (λ pos, pos) 5000 100 [97] _ sample_parser (mk_header_fields 5 4 1 0 0) ROTATE_EVENT []);
    [exact sample_malloc_ok|reflexivity|by vm_compute|repeat split; vm_compute; congruence|done
    |by apply (bool_decide_unpack _)|done].
Defined.
