(* ===== verification/TextCoding.v ===== *)
(** [syncshare/base64.cpp] and [syncshare/urlencode.cpp]: the text codings of the
    message service's requests.

    Strings and buffers are lists of bytes.  [url_decode] works in place, so its
    buffer, and the two positions in it, are modelled. *)
From S2P Require Import Prelude ByteOrder.



Definition between (lo c hi : Z) : bool := (lo <=? c) && (c <=? hi).

(** ** Base64 *)

Module Base64.
Definition base64_chars : list Z :=
  string_bytes "ABCDEFGHIJKLMNOPQRSTUVWXYZabcdefghijklmnopqrstuvwxyz0123456789+/".

(** [isalnum] of the C locale. *)
Definition is_base64 (c : Z) : bool :=
  (between 65 c 90 || between 97 c 122 || between 48 c 57) || (c =? 43) || (c =? 47).

(** [char_array_4] from [char_array_3]. *)
Definition to_sextets (a b c : Z) : list Z :=
  [u8 ((a .& 0xfc) .>> 2); u8 (((a .& 0x03) .<< 4) + ((b .& 0xf0) .>> 4));
   u8 (((b .& 0x0f) .<< 2) + ((c .& 0xc0) .>> 6)); u8 (c .& 0x3f)].

Definition char_of (k : Z) : Z := nth (Z.to_nat k) base64_chars 0.

(** The first [i] elements of [char_array_3] are [arr]. *)
Fixpoint encode_loop (bytes arr ret : list Z) : list Z * list Z :=
  match bytes with
  | [] => (arr, ret)
  | b :: bytes =>
      match arr ++ [b] with
      | [x; y; z] => encode_loop bytes [] (ret ++ map char_of (to_sextets x y z))
      | arr => encode_loop bytes arr ret
      end
  end.

Definition base64_encode (bytes : list Z) : list Z :=
  let '(arr, ret) := encode_loop bytes [] [] in
  match arr with
  | [] => ret
  | _ =>
      let i := length arr in
      let arr := arr ++ replicate (3 - i) 0 in
      ret ++ map char_of (take (i + 1) (to_sextets (nth 0 arr 0) (nth 1 arr 0) (nth 2 arr 0))) ++
      replicate (3 - i) 61
  end.

(** [base64_chars.find(c)] stored in an [unsigned char]: [npos] is 255 there. *)
Definition index_of (c : Z) : Z :=
  match list_find (λ x, x = c) base64_chars with Some (k, _) => Z.of_nat k | None => 255 end.

(** [char_array_3] from [char_array_4]. *)
Definition from_sextets (a b c d : Z) : list Z :=
  [u8 ((a .<< 2) + ((b .& 0x30) .>> 4)); u8 (((b .& 0xf) .<< 4) + ((c .& 0x3c) .>> 2));
   u8 (((c .& 0x3) .<< 6) + d)].

Fixpoint decode_loop (s arr ret : list Z) : list Z * list Z :=
  match s with
  | [] => (arr, ret)
  | x :: s =>
      if negb (x =? 61) && is_base64 x then
        match arr ++ [x] with
        | [a; b; c; d] =>
            decode_loop s [] (ret ++ from_sextets (index_of a) (index_of b) (index_of c) (index_of d))
        | arr => decode_loop s arr ret
        end
      else (arr, ret)
  end.

Definition base64_decode (s : list Z) : list Z :=
  let '(arr, ret) := decode_loop s [] [] in
  match arr with
  | [] => ret
  | _ =>
      let i := length arr in
      let arr := map index_of (arr ++ replicate (4 - i) 0) in
      ret ++ take (i - 1) (from_sextets (nth 0 arr 0) (nth 1 arr 0) (nth 2 arr 0) (nth 3 arr 0))
  end.

(** *** The reference: RFC 4648 *)

(** A group of up to three bytes is a number of 24 bits, written as four digits
    of base 64; the digits that only have bits of missing bytes are padding. *)
Definition digits (v : Z) : list Z := [v / 64 ^ 3 mod 64; v / 64 ^ 2 mod 64; v / 64 mod 64; v mod 64].

Definition encode_group (g : list Z) : list Z :=
  map char_of (take (length g + 1) (digits (be_combine (g ++ replicate (3 - length g) 0)))) ++
  replicate (3 - length g) 61.

Fixpoint rfc4648 (s : list Z) : list Z :=
  match s with
  | [] => []
  | x :: y :: z :: s => encode_group [x; y; z] ++ rfc4648 s
  | g => encode_group g
  end.

Lemma land_masks b :
  is_byte b →
  (b .& 0xfc) .>> 2 = b / 4 ∧ (b .& 0x03) .<< 4 = b mod 4 * 16 ∧ (b .& 0xf0) .>> 4 = b / 16 ∧
  (b .& 0x0f) .<< 2 = b mod 16 * 4 ∧ (b .& 0xc0) .>> 6 = b / 64 ∧ b .& 0x3f = b mod 64.
Proof.
  intros H.
  pose proof (forall_byte (λ b, ((b .& 0xfc) .>> 2 =? b / 4) && ((b .& 0x03) .<< 4 =? b mod 4 * 16) &&
    ((b .& 0xf0) .>> 4 =? b / 16) && ((b .& 0x0f) .<< 2 =? b mod 16 * 4) && ((b .& 0xc0) .>> 6 =? b / 64) &&
    (b .& 0x3f =? b mod 64)) eq_refl b H) as E. cbn beta in E. rewrite !andb_true_iff, !Z.eqb_eq in E. tauto.
Qed.

Lemma to_sextets_digits a b c :
  is_byte a → is_byte b → is_byte c → to_sextets a b c = digits (be_combine [a; b; c]).
Proof.
  intros Ha Hb Hc. unfold to_sextets, digits, be_combine. cbn [foldl].
  destruct (land_masks a Ha) as (-> & -> & _). destruct (land_masks b Hb) as (_ & _ & -> & -> & _).
  destruct (land_masks c Hc) as (_ & _ & _ & _ & -> & ->). unfold wrap, is_byte in *. zpow.
  change (64 ^ 3) with 262144. change (64 ^ 2) with 4096. repeat (f_equal; [zdm|]). f_equal; zdm.
Qed.

Lemma sextets_back a b c :
  is_byte a → is_byte b → is_byte c →
  ∃ p q r s, to_sextets a b c = [p; q; r; s] ∧ 0 <= p < 64 ∧ 0 <= q < 64 ∧ 0 <= r < 64 ∧ 0 <= s < 64 ∧
    from_sextets p q r s = [a; b; c] ∧ (∀ d, take 2 (from_sextets p q r d) = [a; b]) ∧
    (∀ d e, take 1 (from_sextets p q d e) = [a]).
Proof.
  intros Ha Hb Hc. do 4 eexists. split; [reflexivity|]. unfold from_sextets.
  destruct (land_masks a Ha) as (-> & -> & _). destruct (land_masks b Hb) as (_ & _ & -> & -> & _).
  destruct (land_masks c Hc) as (_ & _ & _ & _ & -> & ->).
  assert (M : ∀ v, 0 <= v < 64 → (v .& 0x30) .>> 4 = v / 16 ∧ (v .& 0xf) .<< 4 = v mod 16 * 16 ∧
    (v .& 0x3c) .>> 2 = v / 4 ∧ (v .& 0x3) .<< 6 = v mod 4 * 64).
  { intros v Hv. pose proof (forall_range 64 (λ v, ((v .& 0x30) .>> 4 =? v / 16) && ((v .& 0xf) .<< 4 =? v mod 16 * 16) &&
      ((v .& 0x3c) .>> 2 =? v / 4) && ((v .& 0x3) .<< 6 =? v mod 4 * 64)) eq_refl v Hv) as E. cbn beta in E. rewrite !andb_true_iff, !Z.eqb_eq in E. tauto. }
  unfold is_byte, wrap in *. zpow.
  rewrite (Z.mod_small (a / 4)), (Z.mod_small (a mod 4 * 16 + b / 16)), (Z.mod_small (b mod 16 * 4 + c / 64)),
    (Z.mod_small (c mod 64)) by zdm.
  destruct (M (a mod 4 * 16 + b / 16)) as (M1 & M2 & _ & _); [zdm|].
  destruct (M (b mod 16 * 4 + c / 64)) as (_ & _ & M3 & M4); [zdm|].
  rewrite Z.shiftl_mul_pow2 by lia. rewrite M1, M2, M3, M4. zpow. cbn [take].
  split_and!; try zdm; [|intros; f_equal; [zdm|f_equal; zdm]|intros; f_equal; zdm].
  f_equal; [zdm|f_equal; [zdm|f_equal; zdm]].
Qed.

Lemma char_of_ok k : 0 <= k < 64 → (char_of k =? 61) = false ∧ is_base64 (char_of k) = true ∧ index_of (char_of k) = k.
Proof.
  intros H. pose proof (forall_range 64 (λ k, negb (char_of k =? 61) && is_base64 (char_of k) &&
    (index_of (char_of k) =? k)) eq_refl k H) as E. cbn beta in E.
  rewrite !andb_true_iff, negb_true_iff, Z.eqb_eq in E. tauto.
Qed.

Lemma encode_loop_app bytes arr ret :
  encode_loop bytes arr ret = (fst (encode_loop bytes arr []), ret ++ snd (encode_loop bytes arr [])).
Proof.
  revert arr ret. induction bytes as [|b bytes IH]; intros arr ret; cbn [encode_loop]; [by rewrite app_nil_r|].
  destruct (arr ++ [b]) as [|x [|y [|z [|? ?]]]]; try apply IH.
  rewrite IH, (IH [] ([] ++ _)). cbn [fst snd]. by rewrite app_assoc.
Qed.

Lemma decode_loop_app s arr ret :
  decode_loop s arr ret = (fst (decode_loop s arr []), ret ++ snd (decode_loop s arr [])).
Proof.
  revert arr ret. induction s as [|b s IH]; intros arr ret; cbn [decode_loop]; [by rewrite app_nil_r|].
  destruct (negb (b =? 61) && is_base64 b); [|by rewrite app_nil_r].
  destruct (arr ++ [b]) as [|x [|y [|z [|w [|? ?]]]]]; try apply IH.
  rewrite IH, (IH [] ([] ++ _)). cbn [fst snd]. by rewrite app_assoc.
Qed.

(** The groups of three. *)
Lemma base64_encode_group x y z s :
  base64_encode (x :: y :: z :: s) = map char_of (to_sextets x y z) ++ base64_encode s.
Proof.
  unfold base64_encode. cbn [encode_loop app]. rewrite encode_loop_app.
  destruct (encode_loop s [] []) as [[|a arr] ret]; cbn [fst snd app]; [done|]. by rewrite <- !app_assoc.
Qed.

Lemma base64_decode_group p q r s t :
  0 <= p < 64 → 0 <= q < 64 → 0 <= r < 64 → 0 <= s < 64 →
  base64_decode (map char_of [p; q; r; s] ++ t) = from_sextets p q r s ++ base64_decode t.
Proof.
  intros Hp Hq Hr Hs. unfold base64_decode. cbn [map app decode_loop].
  destruct (char_of_ok p Hp) as (-> & -> & Ep). destruct (char_of_ok q Hq) as (-> & -> & Eq).
  destruct (char_of_ok r Hr) as (-> & -> & Er). destruct (char_of_ok s Hs) as (-> & -> & Es).
  cbn [negb andb app]. rewrite Ep, Eq, Er, Es, decode_loop_app.
  destruct (decode_loop t [] []) as [[|a arr] ret]; cbn [fst snd app]; [done|]. by rewrite <- !app_assoc.
Qed.

(** Induction by groups. *)
Lemma groups_ind (P : list Z → Prop) :
  P [] → (∀ x, P [x]) → (∀ x y, P [x; y]) → (∀ x y z s, P s → P (x :: y :: z :: s)) → ∀ s, P s.
Proof.
  intros H0 H1 H2 H3. fix IH 1. intros [|x [|y [|z s]]]; [apply H0|apply H1|apply H2|apply H3, IH].
Qed.

(** Base64_encode writes RFC 4648's text for every byte string, of four
    characters for every three bytes begun; and base64_decode reads the bytes
    back. *)
Theorem base64_roundtrip s :
  bytes_ok s →
  base64_encode s = rfc4648 s ∧ base64_decode (base64_encode s) = s ∧
  Z.of_nat (length (base64_encode s)) = 4 * ((Z.of_nat (length s) + 2) / 3).
Proof.
  assert (Z0 : is_byte 0) by (unfold is_byte; lia).
  intros H. induction s as [|x|x y|x y z s IH] using groups_ind.
  - done.
  - apply Forall_cons in H as [H _]. unfold base64_encode. cbn [encode_loop app length Nat.sub replicate nth Nat.add].
    destruct (sextets_back x 0 0 H Z0 Z0) as (p & q & r & t & E & Hp & Hq & _ & _ & _ & _ & D).
    split_and!.
    + unfold rfc4648, encode_group. cbn [length Nat.add Nat.sub replicate app]. by rewrite to_sextets_digits.
    + rewrite E. cbn [take map app]. unfold base64_decode. cbn [decode_loop].
      destruct (char_of_ok p Hp) as (-> & -> & Ep). destruct (char_of_ok q Hq) as (-> & -> & Eq).
      cbn [negb andb app Z.eqb Pos.eqb length Nat.sub replicate map nth]. rewrite Ep, Eq. apply D.
    + by rewrite E.
  - apply Forall_cons in H as [Hx H]. apply Forall_cons in H as [H _]. unfold base64_encode.
    cbn [encode_loop app length Nat.sub replicate nth Nat.add].
    destruct (sextets_back x y 0 Hx H Z0) as (p & q & r & t & E & Hp & Hq & Hr & _ & _ & D & _).
    split_and!.
    + unfold rfc4648, encode_group. cbn [length Nat.add Nat.sub replicate app]. by rewrite to_sextets_digits.
    + rewrite E. cbn [take map app]. unfold base64_decode. cbn [decode_loop].
      destruct (char_of_ok p Hp) as (-> & -> & Ep). destruct (char_of_ok q Hq) as (-> & -> & Eq).
      destruct (char_of_ok r Hr) as (-> & -> & Er).
      cbn [negb andb app Z.eqb Pos.eqb length Nat.sub replicate map nth]. rewrite Ep, Eq, Er. apply D.
    + by rewrite E.
  - rewrite !Forall_cons in H. destruct H as (Hx & Hy & Hz & Hs). destruct (IH Hs) as (E1 & E2 & E3).
    rewrite base64_encode_group.
    destruct (sextets_back x y z Hx Hy Hz) as (p & q & r & t & E & Hp & Hq & Hr & Ht & D & _).
    split_and!.
    + cbn [rfc4648]. unfold encode_group. cbn [length Nat.add Nat.sub replicate app].
      rewrite to_sextets_digits, app_nil_r, E1 by done. by cbn [take digits].
    + rewrite E, base64_decode_group, D, E2 by done. done.
    + rewrite length_app, length_map, Nat2Z.inj_add, E3, E. cbn [length]. zdm.
Qed.

Lemma base64_roundtrip_witness :
  base64_encode [0; 1; 2; 3] = string_bytes "AAECAw==" ∧ base64_decode (base64_encode [0; 1; 2; 3]) = [0; 1; 2; 3].
Proof.
  assert (B : bytes_ok [0; 1; 2; 3]) by (repeat constructor; unfold is_byte; lia).
  destruct (base64_roundtrip [0; 1; 2; 3] B) as (E1 & E2 & _). split; [|exact E2]. rewrite E1. vm_compute. reflexivity.
Defined.
End Base64.

(** ** URL coding *)

Module UrlCode.
Definition hexchars : list Z := string_bytes "0123456789ABCDEF".

(** The characters that are neither a space nor escaped. *)
Definition kept (c : Z) : bool :=
  negb ((c <? 48) && negb (c =? 45) && negb (c =? 46) || (c <? 65) && (57 <? c) ||
        (90 <? c) && (c <? 97) && negb (c =? 95) || (122 <? c)).

Definition encode_char (c : Z) : list Z :=
  if c =? 32 then [43]
  else if kept c then [c]
  else [37; nth (Z.to_nat (c .>> 4)) hexchars 0; nth (Z.to_nat (c .& 15)) hexchars 0].

Fixpoint encode_chars (from to : list Z) : list Z :=
  match from with [] => to | c :: from => encode_chars from (to ++ encode_char c) end.

(** The buffer of [calloc(1, 3*len+1)] and [*new_length].  A text that does not
    fit into it is undefined. *)
Definition url_encode (s : list Z) : option (list Z * Z) :=
  let to := encode_chars s [] in
  let size := (3 * length s + 1)%nat in
  if (length to <? size)%nat then Some (to ++ replicate (size - length to) 0, Z.of_nat (length to)) else None.

(** [isxdigit] of a [char], which is undefined for the negative ones. *)
Definition isxdigit (c : Z) : option bool :=
  if c <? 128 then Some (between 48 c 57 || between 65 c 70 || between 97 c 102) else None.

Definition htoi_digit (c : Z) : Z :=
  let c := if between 65 c 90 then c + 32 else c in
  if between 48 c 57 then c - 48 else c - 97 + 10.

Definition php_htoi (s : list Z) : option Z :=
  a ← s !! 0%nat; b ← s !! 1%nat; Some (htoi_digit a * 16 + htoi_digit b).

(** The loop, over [len] more characters. *)
Fixpoint decode_loop (len : nat) (str : list Z) (dest data : nat) : option (list Z * nat) :=
  match len with
  | O => if (dest <? length str)%nat then Some (<[dest := 0]> str, dest) else None
  | S len =>
      c ← str !! data;
      if c =? 43 then decode_loop len (<[dest := 32]> str) (S dest) (S data)
      else
        let plain := decode_loop len (<[dest := c]> str) (S dest) (S data) in
        match len with
        | S (S len') =>
            if c =? 37 then
              a ← str !! S data;
              x ← isxdigit a;
              if (x : bool) then
                b ← str !! S (S data);
                y ← isxdigit b;
                if (y : bool) then
                  v ← php_htoi (drop (S data) str);
                  decode_loop len' (<[dest := u8 v]> str) (S dest) (S (S (S data)))
                else plain
              else plain
            else plain
        | _ => plain
        end
  end.

Definition url_decode (str : list Z) (len : Z) : option (list Z * nat) := decode_loop (Z.to_nat len) str 0 0.

Lemma encode_chars_eq from to : encode_chars from to = to ++ concat (map encode_char from).
Proof.
  revert to. induction from as [|c from IH]; intros to; cbn [encode_chars map concat]; [by rewrite app_nil_r|].
  by rewrite IH, app_assoc.
Qed.

Lemma encode_char_length c : (0 < length (encode_char c) ≤ 3)%nat.
Proof. unfold encode_char. repeat case_match; cbn; lia. Qed.

Lemma encoded_length s : (length (concat (map encode_char s)) ≤ 3 * length s)%nat.
Proof.
  induction s as [|c s IH]; [done|]. cbn [map concat length]. rewrite length_app.
  pose proof (encode_char_length c). lia.
Qed.

(** What the decoder finds of one character. *)
Inductive encoded (c : Z) : list Z → Prop :=
  | Enc_space : c = 32 → encoded c [43]
  | Enc_kept : c ≠ 43 → c ≠ 37 → encoded c [c]
  | Enc_hex h l : isxdigit h = Some true → isxdigit l = Some true → htoi_digit h * 16 + htoi_digit l = c →
      encoded c [37; h; l].

Lemma encode_char_encoded c : is_byte c → encoded c (encode_char c).
Proof.
  intros Hc. unfold encode_char.
  destruct (Z.eqb_spec c 32); [by constructor|]. destruct (kept c) eqn:K.
  - constructor; intros ->; discriminate.
  - pose proof (forall_byte (λ c, match isxdigit (nth (Z.to_nat (c .>> 4)) hexchars 0), isxdigit (nth (Z.to_nat (c .& 15)) hexchars 0) with
      | Some a, Some b => a && b && (htoi_digit (nth (Z.to_nat (c .>> 4)) hexchars 0) * 16 +
          htoi_digit (nth (Z.to_nat (c .& 15)) hexchars 0) =? c) | _, _ => false end) eq_refl c Hc) as E.
    cbn beta in E.
    destruct (isxdigit (nth (Z.to_nat (c .>> 4)) hexchars 0)) as [[]|] eqn:E1; [|by case_match|done].
    destruct (isxdigit (nth (Z.to_nat (c .& 15)) hexchars 0)) as [[]|] eqn:E2; [|done..].
    cbn [andb] in E. apply Enc_hex; [done|done|lia].
Qed.

(** One turn of the loop: [gap] is what lies between the two positions. *)
Lemma decode_step c e len done gap post :
  is_byte c → encoded c e → (length e ≤ len)%nat →
  ∃ gap', length (gap ++ e) = S (length gap') ∧
    decode_loop len (done ++ gap ++ e ++ post) (length done) (length (done ++ gap)) =
    decode_loop (len - length e) (done ++ c :: gap' ++ post) (S (length done)) (length (done ++ c :: gap')).
Proof.
  intros Hc He Hl.
  destruct (gap ++ e) as [|x gap'] eqn:Eg; [apply app_eq_nil in Eg as [_ ->]; inversion He|].
  exists gap'. split; [done|].
  assert (Ei : ∀ y, <[length done := y]> (done ++ gap ++ e ++ post) = done ++ y :: gap' ++ post).
  { intros y. rewrite (app_assoc gap), Eg. rewrite insert_app_r_alt, Nat.sub_diag by lia. done. }
  assert (Lg : (length gap + length e = S (length gap'))%nat) by (rewrite <- length_app, Eg; done).
  assert (Ll : length (done ++ c :: gap') = (length (done ++ gap) + length e)%nat)
    by (rewrite !length_app; cbn [length]; lia).
  rewrite Ll.
  assert (At : ∀ k y, e !! k = Some y → (done ++ gap ++ e ++ post) !! (length (done ++ gap) + k)%nat = Some y).
  { intros k y Hk. rewrite app_assoc, lookup_app_r by lia.
    rewrite Nat.add_comm, Nat.add_sub. by apply lookup_app_l_Some. }
  destruct len as [|len]; [inversion He; subst; cbn in Hl; lia|]. cbn [decode_loop].
  pose proof (At 0%nat) as A0. rewrite Nat.add_0_r in A0.
  inversion He as [Ec Ee|H1 H2 Ee|h l Hh Hl' Hv Ee]; subst e.
  - rewrite (A0 43) by done. cbn [mbind option_bind Z.eqb Pos.eqb length Nat.sub].
    rewrite Ei, Nat.sub_0_r, Nat.add_1_r. by subst.
  - rewrite (A0 c) by done. cbn [mbind option_bind length Nat.sub].
    destruct (Z.eqb_spec c 43); [done|]. destruct (Z.eqb_spec c 37); [done|].
    rewrite Ei, Nat.sub_0_r, Nat.add_1_r. by destruct len as [|[|]].
  - rewrite (A0 37) by done. cbn [mbind option_bind Z.eqb Pos.eqb length Nat.sub] in *.
    destruct len as [|[|len]]; [lia..|].
    rewrite <- (Nat.add_1_r (length (done ++ gap))), (At 1%nat h) by done. cbn [mbind option_bind]. rewrite Hh.
    cbn [mbind option_bind].
    replace (S (length (done ++ gap) + 1)) with (length (done ++ gap) + 2)%nat by lia.
    rewrite (At 2%nat l) by done. cbn [mbind option_bind]. rewrite Hl'. cbn [mbind option_bind].
    unfold php_htoi. rewrite !lookup_drop, Nat.add_0_r, (At 1%nat h) by done. cbn [mbind option_bind].
    replace (length (done ++ gap) + 1 + 1)%nat with (length (done ++ gap) + 2)%nat by lia.
    rewrite (At 2%nat l) by done. cbn [mbind option_bind]. rewrite Hv, Ei, wrap_small by (unfold is_byte in Hc; lia).
    f_equal; lia.
Qed.

Lemma decode_encoded s done gap post :
  bytes_ok s → post ≠ [] →
  ∃ gap', decode_loop (length (concat (map encode_char s))) (done ++ gap ++ concat (map encode_char s) ++ post)
      (length done) (length (done ++ gap)) = Some (done ++ s ++ 0 :: gap', (length done + length s)%nat).
Proof.
  intros H Hp. revert done gap. induction H as [|c s Hc H IH]; intros done gap; cbn [map concat].
  { cbn [length decode_loop app]. rewrite Nat.add_0_r.
    destruct (gap ++ post) as [|x l] eqn:E; [by apply app_eq_nil in E as [_ ->]|].
    rewrite length_app. cbn [length]. destruct (Nat.ltb_spec (length done) (length done + S (length l))); [|lia].
    exists l. by rewrite insert_app_r_alt, Nat.sub_diag by lia. }
  rewrite <- app_assoc, length_app.
  destruct (decode_step c (encode_char c) (length (encode_char c) + length (concat (map encode_char s))) done gap
    (concat (map encode_char s) ++ post) Hc (encode_char_encoded c Hc)) as (g & _ & ->); [lia|].
  rewrite Nat.add_comm, Nat.add_sub.
  destruct (IH (done ++ [c]) g) as (g' & E). exists g'.
  assert (Ea : ∀ l, (done ++ [c]) ++ l = done ++ c :: l) by (intros l; by rewrite <- app_assoc).
  rewrite !Ea, length_app, Nat.add_1_r in E. cbn [app]. rewrite E. cbn [length]. do 2 f_equal. lia.
Qed.

(** Url_encode never runs out of its buffer, and url_decode, which works in
    the buffer it reads, turns it back into the bytes encoded, with a 0 behind
    them. *)
Theorem url_roundtrip s :
  bytes_ok s →
  ∃ buf n rest, url_encode s = Some (buf, n) ∧ 0 <= n <= 3 * Z.of_nat (length s) ∧
    url_decode buf n = Some (s ++ 0 :: rest, length s).
Proof.
  intros H. unfold url_encode. rewrite encode_chars_eq. cbn [app].
  pose proof (encoded_length s) as L. set (e := concat (map encode_char s)) in *.
  destruct (Nat.ltb_spec (length e) (3 * length s + 1)); [|lia].
  set (post := replicate (3 * length s + 1 - length e) 0).
  destruct (decode_encoded s [] [] post H) as (rest & E).
  { unfold post. by replace (3 * length s + 1 - length e)%nat with (S (3 * length s - length e)) by lia. }
  exists (e ++ post), (Z.of_nat (length e)), rest. split; [done|]. split; [lia|].
  unfold url_decode. rewrite Nat2Z.id. exact E.
Qed.

Lemma url_roundtrip_witness :
  ∃ buf n rest, url_encode (string_bytes "a b/") = Some (buf, n) ∧ url_decode buf n = Some (string_bytes "a b/" ++ 0 :: rest, 4%nat).
Proof.
  destruct (url_roundtrip (string_bytes "a b/")) as (buf & n & rest & E1 & _ & E2);
    [repeat constructor; vm_compute; done|]. by exists buf, n, rest.
Defined.
End UrlCode.
