(* ===== verification/Messages.v ===== *)
(** Messages over TCP: [public/Commfun.cpp], the sending and receiving of
    [DataSync/HandlerClientSocket.cpp] and the receiving loop and the sending of
    [wmsclient/wmsclient/ClientSocketServer.cpp].

    A connection to read from is the list of what [recv] will find: pieces of
    data, in the sizes in which they arrive, and timeouts; behind the last the
    peer has closed it.  A connection to write to is what has been sent and the
    list of what [send] will accept.  [int] has 32 bits; [size_t] has 64 on the
    server and 32 on the client. *)
From S2P Require Import Prelude ByteOrder SharedQueue.

(** ** Sockets *)

Inductive arrival := Data (l : list Z) | Timeout.

(** [recv(sock, buff, len, 0)] for a positive [len]: its result, the bytes and
    what is left. *)
Definition recv (c : list arrival) (len : Z) : Z * list Z * list arrival :=
  match c with
  | [] => (0, [], [])
  | Timeout :: c => (-1, [], c)
  | Data l :: c =>
      if Z.of_nat (length l) <=? len then (Z.of_nat (length l), l, c)
      else (len, take (Z.to_nat len) l, Data (l @+ len) :: c)
  end.

Record sender := mk_sender { sent : list Z; accepts : list Z }.

(** [send]: it takes as much as the next number says, all of it when there is
    none, and fails when it is negative. *)
Definition send (c : sender) (buff : list Z) : Z * sender :=
  match accepts c with
  | [] => (Z.of_nat (length buff), mk_sender (sent c ++ buff) [])
  | n :: ns =>
      if n <? 0 then (-1, mk_sender (sent c) ns)
      else
        let n := Z.min n (Z.of_nat (length buff)) in
        (n, mk_sender (sent c ++ take (Z.to_nat n) buff) ns)
  end.

Section Sockets.
(** The branch of the preprocessor: on Windows a result of 0 ends the loops. *)
Context (win32 : bool).

Definition size_t (z : Z) : Z := if win32 then u32 z else u64 z.

(** The loop of [mRecv], [SumByte] bytes being in the buffer.  A negative
    result is -2 on either system: the look at the error code behind it is not
    reached. *)
Fixpoint recv_loop (fuel : nat) (c : list arrival) (len : Z) (buff : list Z) : run (Z * list Z * list arrival) :=
  let SumByte := Z.of_nat (length buff) in
  if SumByte <? len then
    match fuel with
    | O => NoFuel
    | S fuel =>
        let '(nRecv, l, c) := recv c (len - SumByte) in
        if nRecv <? 0 then Ret (-2, buff, c)
        else if win32 && (nRecv =? 0) then Ret (-3, buff, c)
        else recv_loop fuel c len (buff ++ l)
    end
  else Ret (SumByte, buff, c).

Definition mRecv (fuel : nat) (c : list arrival) (len : Z) : run (Z * list Z * list arrival) :=
  recv_loop fuel c len [].

Fixpoint send_loop (fuel : nat) (c : sender) (buff : list Z) (len SumByte : Z) : run (Z * sender) :=
  if SumByte <? len then
    match fuel with
    | O => NoFuel
    | S fuel =>
        let '(nSend, c) := send c (take (Z.to_nat (len - SumByte)) (buff @+ SumByte)) in
        if nSend <? 0 then Ret (-2, c)
        else if win32 && (nSend =? 0) then Ret (-3, c)
        else send_loop fuel c buff len (SumByte + nSend)
    end
  else Ret (SumByte, c).

Definition mSend (fuel : nat) (c : sender) (buff : list Z) (len : Z) : run (Z * sender) := send_loop fuel c buff len 0.

(** ** Messages *)

(** [MESSAGE_BUFFER_OVER] is ["&over&"]. *)
Definition MESSAGE_BUFFER_OVER : list Z := [38; 111; 118; 101; 114; 38].
Definition MESSAGE_BUFFER_OVER_LEN : Z := 6.
Definition MSG_TYPE_STORECODE : Z := 101.
Definition MSG_TYPE_BINLOG : Z := 102.
Definition MSG_TYPE_UPDATE_DATABASE : Z := 103.
Definition MSG_TYPE_HEART_BEAT : Z := 104.
Definition MSG_TYPE_CONNECT_SUCCESS : Z := 105.

(** [sizeof(SOCKET_MESSAGE_HEADER)]: two ints, 33 bytes and 3 of padding. *)
Definition HEADER_SIZE : Z := 44.

(** The object representation, with the bytes the padding has. *)
Definition header_image (h : SOCKET_MESSAGE_HEADER) (padding : list Z) : list Z :=
  le_split 4 (code_ h) ++ le_split 4 (data_len_ h) ++ message_id_ h ++ padding.

Definition header_of_image (l : list Z) : SOCKET_MESSAGE_HEADER :=
  mk_message_header (s32 (le_combine (take 4 l))) (s32 (le_combine (take 4 (drop 4 l)))) (take 33 (drop 8 l)).

(** [sendMessage(header, strData)] of the server.  A text that is longer than
    the buffer, and a length for which there is no memory, are undefined. *)
Definition sendMessage (fuel : nat) (c : sender) (header : SOCKET_MESSAGE_HEADER) (padding strData : list Z)
    : run (bool * sender) :=
  let iSendLen := data_len_ header in
  if (iSendLen <? 0) || (2 ^ 31 <=? iSendLen + 1) || (iSendLen + 1 <? HEADER_SIZE + Z.of_nat (length strData)) then Undef
  else
    let pSendBuf := header_image header padding ++ strData ++
                    replicate (Z.to_nat iSendLen - 44 - length strData) 0 in
    r ← mSend fuel c pSendBuf iSendLen;
    let '(n, c) := r in
    if n <? iSendLen then Ret (false, c)
    else
      r ← mSend fuel c MESSAGE_BUFFER_OVER (Z.of_nat (length MESSAGE_BUFFER_OVER));
      let '(n, c) := r in
      Ret (n =? Z.of_nat (length MESSAGE_BUFFER_OVER), c).

(** [sendMessage(type, strData)]: the message id is not set, [id_garbage]. *)
Definition sendTyped (fuel : nat) (c : sender) (type : Z) (id_garbage padding strData : list Z)
    : run (bool * sender) :=
  sendMessage fuel c (mk_message_header type (s32 (Z.of_nat (length strData) + HEADER_SIZE)) id_garbage) padding
    strData.

(** [SendMessage] of the client, with the coding of the text as a parameter;
    [None] is [INVALID_SOCKET], which every failure leaves. *)
Definition client_SendMessage (Gbk2Utf8 : list Z → list Z) (fuel : nat) (m_clientSocket : option sender) (type : Z)
    (id_garbage padding strMessage : list Z) : run (bool * option sender) :=
  match m_clientSocket with
  | None => Ret (false, None)
  | Some c =>
      let strMessage := Gbk2Utf8 strMessage in
      let iSendLen := s32 (Z.of_nat (length strMessage) + HEADER_SIZE) in
      let msgData := mk_message_header type iSendLen id_garbage in
      if iSendLen <? HEADER_SIZE + Z.of_nat (length strMessage) then Undef
      else
        r ← mSend fuel c (header_image msgData padding ++ strMessage) iSendLen;
        let '(n, c) := r in
        if negb (n =? iSendLen) then Ret (false, None)
        else
          r ← mSend fuel c MESSAGE_BUFFER_OVER (Z.of_nat (length MESSAGE_BUFFER_OVER));
          let '(n, c) := r in
          if negb (n =? Z.of_nat (length MESSAGE_BUFFER_OVER)) then Ret (false, None) else Ret (true, Some c)
  end.

Section Receiving.
(** [malloc] gives the bytes it leaves in the memory. *)
Context (malloc : Z → option (list Z)).

(** What the receivers have in common: the header, the length of the body, the
    body, the end mark; a step that fails ends it. *)
Inductive receipt :=
  | No_header
  | No_memory
  | No_body
  | No_mark
  | Received (header : SOCKET_MESSAGE_HEADER) (pBuf : list Z).

Definition receive (fuel : nat) (header_ok : Z → bool) (c : list arrival) : run (receipt * list arrival) :=
  r ← mRecv fuel c HEADER_SIZE;
  let '(n, h, c) := r in
  if negb (header_ok n) then Ret (No_header, c)
  else
    let msgHeader := header_of_image h in
    let bodyLen := s32 (size_t (data_len_ msgHeader - HEADER_SIZE)) in
    if 2 ^ 31 <=? bodyLen + 1 then Undef
    else
      match malloc (size_t (bodyLen + 1)) with
      | None => Ret (No_memory, c)
      | Some _ =>
          r ← mRecv fuel c bodyLen;
          let '(n, body, c) := r in
          if negb (n =? bodyLen) then Ret (No_body, c)
          else
            r ← mRecv fuel c MESSAGE_BUFFER_OVER_LEN;
            let '(n, over, c) := r in
            if negb (n =? MESSAGE_BUFFER_OVER_LEN) then Ret (No_mark, c)
            else if negb (bool_decide (over = MESSAGE_BUFFER_OVER)) then Ret (No_mark, c)
            else Ret (Received msgHeader (body ++ [0]), c)
      end.

(** [recvMessage] of the server: the header and the text, [None] for false. *)
Definition recvMessage (fuel : nat) (c : list arrival)
    : run (option (SOCKET_MESSAGE_HEADER * list Z) * list arrival) :=
  r ← receive fuel (λ n, n =? HEADER_SIZE) c;
  let '(x, c) := r in
  match x with
  | Received h pBuf => s ← of_option (c_string pBuf); Ret (Some (h, s), c)
  | _ => Ret (None, c)
  end.

(** A turn of the client's loop: it ends, goes on, or gives a message away. *)
Inductive turn := Break | Continue | Message (header : SOCKET_MESSAGE_HEADER) (strData : list Z).

Definition client_turn (fuel : nat) (c : list arrival) : run (turn * list arrival) :=
  r ← receive fuel (λ n, 0 <? n) c;
  let '(x, c) := r in
  match x with
  | No_header | No_mark => Ret (Continue, c)
  | No_memory | No_body => Ret (Break, c)
  | Received h pBuf => s ← of_option (c_string pBuf); Ret (Message h s, c)
  end.
End Receiving.
End Sockets.

(** ** Loops over a connection *)

(** Pieces of data, as they arrive. *)
Definition pieces (ls : list (list Z)) : list arrival := map Data ls.
Definition nonempty : list (list Z) → Prop := Forall (λ l, l ≠ []).

Lemma recv_loop_ok win32 bs fuel ls buff rest :
  nonempty ls → concat ls = bs ++ rest → (length bs ≤ fuel)%nat →
  ∃ ls', recv_loop win32 fuel (pieces ls) (Z.of_nat (length buff + length bs)) buff =
      Ret (Z.of_nat (length buff + length bs), buff ++ bs, pieces ls') ∧ nonempty ls' ∧ concat ls' = rest.
Proof.
  remember (length bs) as k eqn:Ek. revert bs Ek fuel ls buff.
  induction k as [k IH] using lt_wf_ind. intros bs Ek fuel ls buff Hn Hc Hf.
  destruct (decide (bs = [])) as [->|Hne].
  { exists ls. split_and!; [|done|done]. cbn [length] in Ek. subst k. rewrite Nat.add_0_r, app_nil_r.
    destruct fuel; cbn [recv_loop]; by rewrite Z.ltb_irrefl. }
  assert (0 < k)%nat by (destruct bs; [done|cbn in Ek; lia]).
  destruct fuel as [|fuel]; [lia|]. cbn [recv_loop].
  destruct (Z.ltb_spec (Z.of_nat (length buff)) (Z.of_nat (length buff + k))); [|lia].
  destruct ls as [|l ls]; [by destruct bs|]. apply Forall_cons in Hn as [Hl Hn]. cbn [pieces map recv].
  replace (Z.of_nat (length buff + k) - Z.of_nat (length buff)) with (Z.of_nat k) by lia.
  cbn [concat] in Hc. assert (0 < length l)%nat by (destruct l; [done|cbn; lia]).
  destruct (Z.leb_spec (Z.of_nat (length l)) (Z.of_nat k)).
  - destruct (Z.ltb_spec (Z.of_nat (length l)) 0); [lia|].
    destruct (Z.eqb_spec (Z.of_nat (length l)) 0); [lia|]. rewrite andb_false_r.
    assert (Eb : bs = l ++ drop (length l) bs).
    { rewrite <- (take_drop (length l) bs) at 1. f_equal.
      rewrite <- (take_app_le bs rest) by lia. rewrite <- Hc. by rewrite take_app_length. }
    destruct (IH (k - length l)%nat ltac:(lia) (drop (length l) bs) ltac:(rewrite length_drop; lia) fuel ls (buff ++ l) Hn)
      as (ls' & E & N & C); [|lia|].
    { rewrite Eb, <- app_assoc in Hc. by apply app_inv_head in Hc. }
    exists ls'. split_and!; [|done|done].
    rewrite length_app in E. replace (length buff + length l + (k - length l))%nat with (length buff + k)%nat in E by lia.
    unfold pieces in E. rewrite E, <- app_assoc. by rewrite <- Eb.
  - destruct (Z.ltb_spec (Z.of_nat k) 0); [lia|]. destruct (Z.eqb_spec (Z.of_nat k) 0); [lia|]. rewrite andb_false_r.
    assert (Eb : take k l = bs).
    { rewrite <- (take_app_le l (concat ls)) by lia. rewrite Hc, Ek. by rewrite take_app_length. }
    rewrite Nat2Z.id, Eb. exists (drop k l :: ls). split_and!.
    + assert (L : Z.of_nat (length (buff ++ bs)) = Z.of_nat (length buff + k)) by (rewrite length_app; lia).
      destruct fuel; cbn [recv_loop]; rewrite L, Z.ltb_irrefl; done.
    + constructor; [|done]. intros E. apply (f_equal length) in E. rewrite length_drop in E. cbn in E. lia.
    + cbn [concat]. apply (app_inv_head bs). rewrite app_assoc, <- Hc. f_equal. rewrite <- Eb. by rewrite take_drop.
Qed.

Lemma mRecv_ok win32 bs fuel ls rest :
  nonempty ls → concat ls = bs ++ rest → (length bs ≤ fuel)%nat →
  ∃ ls', mRecv win32 fuel (pieces ls) (Z.of_nat (length bs)) = Ret (Z.of_nat (length bs), bs, pieces ls') ∧
    nonempty ls' ∧ concat ls' = rest.
Proof. apply (recv_loop_ok win32 bs fuel ls []). Qed.

Definition willing (c : sender) : Prop := Forall (λ n, 0 < n) (accepts c).

Lemma send_loop_ok win32 todo fuel c done :
  willing c → (length todo ≤ fuel)%nat →
  ∃ c', send_loop win32 fuel c (done ++ todo) (Z.of_nat (length (done ++ todo))) (Z.of_nat (length done)) =
      Ret (Z.of_nat (length (done ++ todo)), c') ∧ willing c' ∧ sent c' = sent c ++ todo.
Proof.
  remember (length todo) as k eqn:Ek. revert todo Ek fuel c done.
  induction k as [k IH] using lt_wf_ind. intros todo Ek fuel c done Hw Hf.
  destruct (decide (todo = [])) as [->|Hne].
  { exists c. rewrite !app_nil_r. split_and!; [|done|done]. destruct fuel; cbn [send_loop]; by rewrite Z.ltb_irrefl. }
  assert (0 < k)%nat by (destruct todo; [done|cbn in Ek; lia]).
  destruct fuel as [|fuel]; [lia|]. cbn [send_loop].
  rewrite Nat2Z.id, drop_app_length, length_app, <- Ek.
  destruct (Z.ltb_spec (Z.of_nat (length done)) (Z.of_nat (length done + k))); [|lia].
  replace (Z.to_nat (Z.of_nat (length done + k) - Z.of_nat (length done))) with (length todo) by lia.
  rewrite firstn_all. unfold send. unfold willing in Hw. destruct (accepts c) as [|n ns].
  - rewrite <- Ek. destruct (Z.ltb_spec (Z.of_nat k) 0); [lia|]. destruct (Z.eqb_spec (Z.of_nat k) 0); [lia|].
    rewrite andb_false_r. eexists. split_and!.
    + replace (Z.of_nat (length done) + Z.of_nat k) with (Z.of_nat (length done + k)) by lia.
      destruct fuel; cbn [send_loop]; by rewrite Z.ltb_irrefl.
    + constructor.
    + done.
  - apply Forall_cons in Hw as [Hn Hw]. destruct (Z.ltb_spec n 0); [lia|].
    rewrite <- Ek. set (m := Z.min n (Z.of_nat k)). assert (Hm : 0 < m <= Z.of_nat k) by lia.
    destruct (Z.ltb_spec m 0); [lia|]. destruct (Z.eqb_spec m 0); [lia|]. rewrite andb_false_r.
    destruct (IH (k - Z.to_nat m)%nat ltac:(lia) (drop (Z.to_nat m) todo) ltac:(rewrite length_drop; lia) fuel
      (mk_sender (sent c ++ take (Z.to_nat m) todo) ns) (done ++ take (Z.to_nat m) todo) Hw) as (c' & E & W & S);
      [lia|].
    exists c'. rewrite <- app_assoc, take_drop in E. rewrite (length_app done (take _ _)), length_take_le in E by lia.
    rewrite length_app, <- Ek in E. split_and!; [|done|].
    + rewrite <- E. f_equal. lia.
    + rewrite S. cbn [sent]. by rewrite <- app_assoc, take_drop.
Qed.

Lemma mSend_ok win32 buff fuel c :
  willing c → (length buff ≤ fuel)%nat →
  ∃ c', mSend win32 fuel c buff (Z.of_nat (length buff)) = Ret (Z.of_nat (length buff), c') ∧ willing c' ∧
    sent c' = sent c ++ buff.
Proof. intros Hw Hf. apply (send_loop_ok win32 buff fuel c [] Hw Hf). Qed.

(** ** Messages and their frames *)

Record message := mk_message { ms_type : Z; ms_id : list Z; ms_padding : list Z; ms_text : list Z }.

Record message_ok (m : message) : Prop := {
  mo_type : - 2 ^ 31 <= ms_type m < 2 ^ 31;
  mo_id : length (ms_id m) = 33%nat;
  mo_padding : length (ms_padding m) = 3%nat;
  mo_text : no_nul (ms_text m);
  mo_length : Z.of_nat (length (ms_text m)) < 2 ^ 31 - 45;
}.

Definition header_of (m : message) : SOCKET_MESSAGE_HEADER :=
  mk_message_header (ms_type m) (HEADER_SIZE + Z.of_nat (length (ms_text m))) (ms_id m).

Definition frame (m : message) : list Z :=
  header_image (header_of m) (ms_padding m) ++ ms_text m ++ MESSAGE_BUFFER_OVER.

Lemma length_header_image h padding :
  length (message_id_ h) = 33%nat → length padding = 3%nat → length (header_image h padding) = 44%nat.
Proof. intros H1 H2. unfold header_image. rewrite !length_app, !length_le_split. lia. Qed.

Lemma s32_split v : - 2 ^ 31 <= v < 2 ^ 31 → s32 (le_combine (le_split 4 v)) = v.
Proof.
  intros H. rewrite le_combine_split. change (256 ^ Z.of_nat 4) with (2 ^ 32).
  unfold swrap. rewrite Zplus_mod_idemp_l. apply (swrap_small 32); lia.
Qed.

Lemma header_of_image_ok m : message_ok m → header_of_image (header_image (header_of m) (ms_padding m)) = header_of m.
Proof.
  intros [Ht Hi Hp _ Hl]. unfold header_of_image, header_image, header_of. cbn [code_ data_len_ message_id_].
  rewrite take_app_length' by (by rewrite length_le_split).
  rewrite drop_app_length' by (by rewrite length_le_split). rewrite take_app_length' by (by rewrite length_le_split).
  rewrite (app_assoc (le_split 4 _)), drop_app_length' by (by rewrite length_app, !length_le_split).
  rewrite take_app_length' by done. unfold HEADER_SIZE. by rewrite !s32_split by lia.
Qed.

Section Delivery.
Context (malloc : Z → option (list Z)).
Context (malloc_ok : ∀ n, 0 <= n → ∃ l, malloc n = Some l ∧ Z.of_nat (length l) = n).

(** The bytes of a message and the end mark behind them are sent, whatever [send]
    takes at a time. *)
Lemma frame_sent win32 fuel c m :
  message_ok m → willing c → (50 + length (ms_text m) ≤ fuel)%nat →
  let img := header_image (header_of m) (ms_padding m) ++ ms_text m in
  let len := Z.of_nat (length (ms_text m)) + 44 in
  ∃ c1 c2, mSend win32 fuel c img len = Ret (len, c1)
  ∧ mSend win32 fuel c1 MESSAGE_BUFFER_OVER (Z.of_nat (length MESSAGE_BUFFER_OVER))
    = Ret (Z.of_nat (length MESSAGE_BUFFER_OVER), c2)
  ∧ willing c2 ∧ sent c2 = sent c ++ frame m.
Proof.
  intros [_ Hi Hp _ _] Hw Hf img len.
  assert (len = Z.of_nat (length img)) as ->
    by (unfold len, img; rewrite length_app, length_header_image by done; lia).
  assert (length img = 44 + length (ms_text m))%nat by (unfold img; by rewrite length_app, length_header_image).
  destruct (mSend_ok win32 img fuel c Hw) as (c1 & -> & W1 & S1); [lia|].
  destruct (mSend_ok win32 MESSAGE_BUFFER_OVER fuel c1 W1) as (c2 & E2 & W2 & S2); [cbn; lia|].
  exists c1, c2. split_and!; [done..|]. rewrite S2, S1. unfold frame, img. by rewrite <- !app_assoc.
Qed.

(** A message of the server is sent as its frame. *)
Lemma sendMessage_ok win32 fuel c m :
  message_ok m → willing c → (50 + length (ms_text m) ≤ fuel)%nat →
  ∃ c', sendMessage win32 fuel c (header_of m) (ms_padding m) (ms_text m) = Ret (true, c') ∧ willing c' ∧
    sent c' = sent c ++ frame m.
Proof.
  intros Hm Hw Hf. destruct (frame_sent win32 fuel c m Hm Hw Hf) as (c1 & c2 & E1 & E2 & W & S).
  destruct Hm as [_ _ _ _ Hl]. unfold sendMessage, header_of, HEADER_SIZE in *. cbn [data_len_].
  rewrite (Z.add_comm _ 44) in E1. set (n := 44 + Z.of_nat (length (ms_text m))) in *.
  destruct (Z.ltb_spec n 0); [lia|]. destruct (Z.leb_spec (2 ^ 31) (n + 1)); [lia|].
  destruct (Z.ltb_spec (n + 1) n); [lia|].
  cbn [orb]. replace (_ - 44 - length (ms_text m))%nat with 0%nat by lia. cbn [replicate]. rewrite app_nil_r, E1.
  cbn [mbind run_bind]. rewrite Z.ltb_irrefl, E2. cbn [mbind run_bind]. rewrite Z.eqb_refl. by exists c2.
Qed.

Lemma sendTyped_ok win32 fuel c m :
  message_ok m → willing c → (50 + length (ms_text m) ≤ fuel)%nat →
  ∃ c', sendTyped win32 fuel c (ms_type m) (ms_id m) (ms_padding m) (ms_text m) = Ret (true, c') ∧ willing c' ∧
    sent c' = sent c ++ frame m.
Proof.
  intros Hm. pose proof (mo_length m Hm). unfold sendTyped. unfold HEADER_SIZE. rewrite swrap_small by lia.
  rewrite Z.add_comm. by apply sendMessage_ok.
Qed.

(** So is one of the client, with the coded text. *)
Lemma client_SendMessage_ok win32 Gbk2Utf8 fuel c m text :
  message_ok m → willing c → (50 + length (ms_text m) ≤ fuel)%nat → Gbk2Utf8 text = ms_text m →
  ∃ c', client_SendMessage win32 Gbk2Utf8 fuel (Some c) (ms_type m) (ms_id m) (ms_padding m) text = Ret (true, Some c')
  ∧ willing c' ∧ sent c' = sent c ++ frame m.
Proof.
  intros Hm Hw Hf Ht. destruct (frame_sent win32 fuel c m Hm Hw Hf) as (c1 & c2 & E1 & E2 & W & S).
  destruct Hm as [_ _ _ _ Hl]. unfold client_SendMessage. rewrite Ht.
  unfold header_of, HEADER_SIZE in *. rewrite swrap_small by lia. rewrite (Z.add_comm 44) in E1.
  destruct (Z.ltb_spec (Z.of_nat (length (ms_text m)) + 44) (44 + Z.of_nat (length (ms_text m)))); [lia|].
  rewrite E1. cbn [mbind run_bind]. rewrite Z.eqb_refl. cbn [negb]. rewrite E2. cbn [mbind run_bind].
  rewrite Z.eqb_refl. by exists c2.
Qed.

(** A frame is received, whatever the pieces it arrives in, and nothing behind
    it is touched. *)
Lemma receive_ok win32 fuel ls m rest :
  message_ok m → nonempty ls → concat ls = frame m ++ rest → (50 + length (ms_text m) ≤ fuel)%nat →
  ∃ ls', nonempty ls' ∧ concat ls' = rest ∧ ∀ ok, ok 44 = true →
    receive win32 malloc fuel ok (pieces ls) = Ret (Received (header_of m) (ms_text m ++ [0]), pieces ls').
Proof.
  intros Hm Hn Hc Hf. pose proof Hm as [Ht Hi Hp _ Hl]. unfold frame in Hc. rewrite <- !app_assoc in Hc.
  set (img := header_image (header_of m) (ms_padding m)) in *.
  assert (Lh : length img = 44%nat) by (by apply length_header_image).
  destruct (mRecv_ok win32 img fuel ls _ Hn Hc) as (l1 & R1 & N1 & C1); [lia|].
  rewrite Lh in R1. change (Z.of_nat 44) with 44 in R1.
  destruct (mRecv_ok win32 (ms_text m) fuel l1 _ N1 C1) as (l2 & R2 & N2 & C2); [lia|].
  destruct (mRecv_ok win32 MESSAGE_BUFFER_OVER fuel l2 _ N2 C2) as (l3 & R3 & N3 & C3); [cbn; lia|].
  exists l3. split; [done|]. split; [done|]. intros ok Hok.
  unfold receive. change HEADER_SIZE with 44. rewrite R1. cbn [mbind run_bind]. rewrite Hok. cbn [negb].
  unfold img. rewrite header_of_image_ok by done. cbn [header_of data_len_]. unfold HEADER_SIZE.
  replace (44 + Z.of_nat (length (ms_text m)) - 44) with (Z.of_nat (length (ms_text m))) by lia.
  assert (Sz : ∀ z, 0 <= z < 2 ^ 32 → size_t win32 z = z) by (intros z Hz; unfold size_t; destruct win32; apply wrap_small; lia).
  rewrite (Sz (Z.of_nat _)), swrap_small by lia. rewrite Sz by lia.
  destruct (Z.leb_spec (2 ^ 31) (Z.of_nat (length (ms_text m)) + 1)); [lia|].
  destruct (malloc_ok (Z.of_nat (length (ms_text m)) + 1)) as (mem & -> & _); [lia|].
  rewrite R2. cbn [mbind run_bind]. rewrite Z.eqb_refl. cbn [negb].
  change MESSAGE_BUFFER_OVER_LEN with (Z.of_nat (length MESSAGE_BUFFER_OVER)).
  rewrite R3. cbn [mbind run_bind]. by rewrite Z.eqb_refl, bool_decide_eq_true_2 by done.
Qed.

Lemma receivers_ok win32 fuel ls m rest :
  message_ok m → nonempty ls → concat ls = frame m ++ rest → (50 + length (ms_text m) ≤ fuel)%nat →
  ∃ ls', recvMessage win32 malloc fuel (pieces ls) = Ret (Some (header_of m, ms_text m), pieces ls') ∧
    client_turn win32 malloc fuel (pieces ls) = Ret (Message (header_of m) (ms_text m), pieces ls') ∧
    nonempty ls' ∧ concat ls' = rest.
Proof.
  intros Hm Hn Hc Hf. unfold recvMessage, client_turn.
  destruct (receive_ok win32 fuel ls m rest Hm Hn Hc Hf) as (l1 & N1 & C1 & E1). rewrite !E1 by done.
  cbn [mbind run_bind]. rewrite c_string_app by apply Hm. cbn [of_option mbind run_bind]. by exists l1.
Qed.
End Delivery.

(** ** A session *)

Section Session.
Context (malloc : Z → option (list Z)) (fuel : nat).

Fixpoint send_all (win32 : bool) (c : sender) (l : list message) : run sender :=
  match l with
  | [] => Ret c
  | m :: l =>
      r ← sendTyped win32 fuel c (ms_type m) (ms_id m) (ms_padding m) (ms_text m);
      let '(ok, c) := r in
      if (ok : bool) then send_all win32 c l else Ret c
  end.

(** [n] calls of [recvMessage], or [n] turns of the client's loop. *)
Fixpoint recv_all (win32 : bool) (n : nat) (c : list arrival)
    : run (list (option (SOCKET_MESSAGE_HEADER * list Z)) * list arrival) :=
  match n with
  | O => Ret ([], c)
  | S n =>
      r ← recvMessage win32 malloc fuel c;
      let '(m, c) := r in
      r ← recv_all win32 n c;
      let '(ms, c) := r in Ret (m :: ms, c)
  end.

Fixpoint client_turns (win32 : bool) (n : nat) (c : list arrival) : run (list turn * list arrival) :=
  match n with
  | O => Ret ([], c)
  | S n =>
      r ← client_turn win32 malloc fuel c;
      let '(t, c) := r in
      match t with
      | Break => Ret ([Break], c)
      | _ => r ← client_turns win32 n c; let '(ts, c) := r in Ret (t :: ts, c)
      end
  end.
End Session.

(** C13: a session delivers its messages.  Any messages without NUL bytes, sent
    over a connection that takes any number of bytes at a time, and arriving in
    any pieces, are received one by one, with header and text, in order, by the
    server and by the client; what is behind them stays in the connection. *)
Theorem messages_delivered malloc fuel win32 win32' c msgs :
  (∀ n, 0 <= n → ∃ l, malloc n = Some l ∧ Z.of_nat (length l) = n) →
  Forall message_ok msgs → willing c → Forall (λ m, (50 + length (ms_text m) ≤ fuel)%nat) msgs →
  ∃ c', send_all fuel win32 c msgs = Ret c' ∧ sent c' = sent c ++ concat (map frame msgs) ∧
    ∀ ls rest, nonempty ls → concat ls = concat (map frame msgs) ++ rest →
      ∃ ls', concat ls' = rest ∧
        recv_all malloc fuel win32' (length msgs) (pieces ls) =
          Ret (map (λ m, Some (header_of m, ms_text m)) msgs, pieces ls') ∧
        client_turns malloc fuel win32' (length msgs) (pieces ls) =
          Ret (map (λ m, Message (header_of m) (ms_text m)) msgs, pieces ls').
Proof.
  intros Hm H Hw Hf. revert c Hw. induction H as [|m msgs Hok H IH]; intros c Hw.
  { exists c. split; [done|]. split; [by rewrite app_nil_r|]. intros ls rest _ E. by exists ls. }
  apply Forall_cons in Hf as [Hf Hfs]. destruct (sendTyped_ok win32 fuel c m Hok Hw Hf) as (c1 & E1 & W1 & S1).
  destruct (IH Hfs c1 W1) as (c2 & E2 & S2 & R). exists c2. cbn [send_all map concat length]. rewrite E1.
  cbn [mbind run_bind]. split; [done|]. split; [by rewrite S2, S1, <- app_assoc|].
  intros ls rest Hn Hc. rewrite <- app_assoc in Hc.
  destruct (receivers_ok malloc Hm win32' fuel ls m _ Hok Hn Hc Hf) as (l1 & R1 & T1 & N1 & C1).
  destruct (R l1 rest N1 C1) as (l2 & C2 & R2 & T2). exists l2. split; [done|].
  cbn [recv_all client_turns]. rewrite R1, T1. cbn [mbind run_bind]. by rewrite R2, T2.
Qed.

Definition sample_message (text : list Z) : message := mk_message MSG_TYPE_HEART_BEAT (replicate 33 0) [0; 0; 0] text.

Lemma sample_message_ok text : no_nul text → (length text < 1000)%nat → message_ok (sample_message text).
Proof. intros H Hl. split; cbn; try lia; done. Qed.

Lemma messages_delivered_witness :
  let msgs := [sample_message [98; 101]; sample_message []] in
  let bytes := concat (map frame msgs) in
  ∃ c' ls', send_all 60 false (mk_sender [] [7; 20; 1]) msgs = Ret c' ∧ sent c' = bytes ∧
    recv_all (λ n, Some (replicate (Z.to_nat n) 0)) 60 true 2 (pieces [take 50 bytes; drop 50 bytes]) =
      Ret (map (λ m, Some (header_of m, ms_text m)) msgs, pieces ls').
Proof.
  cbv zeta.
  destruct (messages_delivered (λ n, Some (replicate (Z.to_nat n) 0)) 60 false true (mk_sender [] [7; 20; 1])
    [sample_message [98; 101]; sample_message []]) as (c' & E & S & R).
  - intros n Hn. eexists. split; [done|]. rewrite length_replicate. lia.
  - repeat apply Forall_cons_2; [..|apply Forall_nil_2]; (apply sample_message_ok; [repeat constructor; lia|cbn; lia]).
  - repeat constructor; lia.
  - repeat constructor; cbn; lia.
  - set (bytes := concat _) in *.
    destruct (R [take 50 bytes; drop 50 bytes] []) as (ls' & _ & R' & _);
      [repeat constructor; by vm_compute|cbn [concat]; by rewrite !app_nil_r, take_drop|].
    exists c', ls'. split; [exact E|]. split; [exact S|exact R'].
Defined.

(** The header is not complete when the pieces end. *)
Lemma recv_loop_short win32 ls fuel len buff c :
  nonempty ls → Z.of_nat (length buff + length (concat ls)) < len →
  recv_loop win32 (length ls + fuel) (pieces ls ++ c) len buff = recv_loop win32 fuel c len (buff ++ concat ls).
Proof.
  intros H. revert buff. induction H as [|l ls Hl H IH]; intros buff Hlen; cbn [concat] in *; [by rewrite app_nil_r|].
  rewrite length_app in Hlen. assert (0 < length l)%nat by (destruct l; [done|cbn; lia]).
  cbn [length Nat.add recv_loop pieces map app recv].
  destruct (Z.ltb_spec (Z.of_nat (length buff)) len); [|lia].
  destruct (Z.leb_spec (Z.of_nat (length l)) (len - Z.of_nat (length buff))); [|lia].
  destruct (Z.ltb_spec (Z.of_nat (length l)) 0); [lia|].
  destruct (Z.eqb_spec (Z.of_nat (length l)) 0); [lia|]. rewrite andb_false_r.
  rewrite app_assoc. apply IH. rewrite length_app. lia.
Qed.

(** What goes wrong between two messages.  A timeout inside a header drops
    the bytes already read, so that the next call takes the rest of the header
    for the beginning of a message; and on the server, where [recv] gives 0 when
    the peer has closed the connection, the receiving loop never ends. *)
Theorem connection_lost malloc fuel ls c :
  nonempty ls → (length (concat ls) < 44)%nat → (length ls < fuel)%nat →
  (∀ win32, recvMessage win32 malloc fuel (pieces ls ++ Timeout :: c) = Ret (None, c)) ∧
  recvMessage true malloc fuel (pieces ls) = Ret (None, []) ∧
  recvMessage false malloc fuel (pieces ls) = NoFuel.
Proof.
  intros Hn Hl Hf. unfold recvMessage, receive, mRecv, HEADER_SIZE.
  replace fuel with (length ls + S (fuel - length ls - 1))%nat by lia. set (k := (fuel - length ls - 1)%nat).
  assert (Hc : (Z.of_nat (length (concat ls)) <? 44) = true) by lia.
  split; [intros win32|split].
  - rewrite recv_loop_short by (cbn [length]; first [done|lia]). cbn [recv_loop app]. by rewrite Hc.
  - pose proof (recv_loop_short true ls (S k) 44 [] [] Hn) as E. rewrite app_nil_r in E. rewrite E by (cbn [length]; lia).
    cbn [recv_loop app]. by rewrite Hc.
  - pose proof (recv_loop_short false ls (S k) 44 [] [] Hn) as E. rewrite app_nil_r in E. rewrite E by (cbn [length]; lia).
    cbn [app]. enough (L : ∀ k b, Z.of_nat (length b) < 44 → recv_loop false k [] 44 b = NoFuel) by (by rewrite L by lia).
    clear. induction k as [|k IH]; intros b Hb; cbn [recv_loop recv]; (destruct (Z.ltb_spec (Z.of_nat (length b)) 44); [|lia]);
      [done|]. cbn. rewrite app_nil_r. by apply IH.
Qed.

Lemma connection_lost_witness :
  recvMessage false (λ _, None) 9 (pieces [[1; 2]; [3]] ++ Timeout :: pieces [[4]]) = Ret (None, pieces [[4]]) ∧
  recvMessage false (λ _, None) 9 (pieces [[1; 2]; [3]]) = NoFuel.
Proof.
  destruct (connection_lost (λ _, None) 9 [[1; 2]; [3]] (pieces [[4]])) as (E1 & _ & E2);
    [by repeat constructor|cbn; lia|cbn; lia|]. split; [apply E1|exact E2].
Defined.
