(* ===== verification/SocketServer.v ===== *)
(** The server's clients and the dispatching of messages:
    [DataSync/SocketServer.cpp], the client objects of
    [DataSync/HandlerClientSocket.cpp] and [splitStrToVector] of
    [syncshare/comm.cpp].

    A client object is named by its address.  What the code tells the outside is
    a list of effects: a message sent over a client's connection ([Messages] says
    what that does), a message pushed to the queue of failures, raw data queued
    ([SharedQueue]), a connection closed.  The functions run one at a time. *)
From S2P Require Import Prelude RowValue SharedQueue Messages.

Record HandlerClientSocket := mk_client {
  address : Z;
  m_client_id : list Z;
  m_ip : list Z;
  m_client_socket : Z;
  m_last_heartbeat_timestamp : Z;
}.

#[export] Instance client_eq_dec : EqDecision HandlerClientSocket.
Proof. solve_decision. Defined.

Inductive effect :=
  | Send (client : HandlerClientSocket) (header : SOCKET_MESSAGE_HEADER) (strData : list Z)
  | SendTyped (client : HandlerClientSocket) (type : Z) (strData : list Z)
  | PushFailed (storeCode strData : list Z)
  | QueueRaw (storeCode strData : list Z)
  | Close (client : HandlerClientSocket).

Record SocketServer := mk_server {
  m_clients : list HandlerClientSocket;
  m_disconnect_store : list (list Z);
  effects : list effect;
}.

Definition new_SocketServer : SocketServer := mk_server [] [] [].

Definition with_clients (s : SocketServer) (l : list HandlerClientSocket) : SocketServer :=
  mk_server l (m_disconnect_store s) (effects s).
Definition with_disconnect (s : SocketServer) (l : list (list Z)) : SocketServer :=
  mk_server (m_clients s) l (effects s).
Definition emit (s : SocketServer) (l : list effect) : SocketServer :=
  mk_server (m_clients s) (m_disconnect_store s) (effects s ++ l).

(** ** The client objects *)

Definition new_HandlerClientSocket (addr socket : Z) (ip : list Z) (now : Z) : HandlerClientSocket :=
  mk_client addr [] ip socket now.

Definition set_socket (c : HandlerClientSocket) (socket : Z) : HandlerClientSocket :=
  mk_client (address c) (m_client_id c) (m_ip c) socket (m_last_heartbeat_timestamp c).

Definition destorySocket (c : HandlerClientSocket) : HandlerClientSocket * list effect :=
  if negb (m_client_socket c =? 0) then (set_socket c 0, [Close c]) else (c, []).

(** [strcmp] of the two strings. *)
Definition cmpClientId (c : HandlerClientSocket) (clientid : list Z) : bool :=
  bool_decide (up_to_nul clientid = up_to_nul (m_client_id c)).

Definition addClient (s : SocketServer) (c : HandlerClientSocket) : SocketServer :=
  with_clients s (m_clients s ++ [c]).

Definition update_client (s : SocketServer) (c : HandlerClientSocket) : SocketServer :=
  with_clients s (map (λ x, if address x =? address c then c else x) (m_clients s)).

(** It looks through the clients, and says false either way. *)
Definition checkClientsIpExist (s : SocketServer) (ip : list Z) : bool :=
  match list_find (λ c, m_ip c = ip) (m_clients s) with Some _ => false | None => false end.

Definition checkClientsIdExist (s : SocketServer) (id : list Z) : bool :=
  match list_find (λ c, m_client_id c = id) (m_clients s) with Some _ => true | None => false end.

(** The [find] and [erase] of the first occurrence. *)
Definition erase_first {A} `{!EqDecision A} (x : A) (l : list A) : list A :=
  match list_find (x =.) l with Some (i, _) => delete i l | None => l end.

Definition removeDisconnectStore (s : SocketServer) (storeId : list Z) : SocketServer :=
  with_disconnect s (erase_first storeId (m_disconnect_store s)).

Definition checkDisconnectStore (s : SocketServer) (storeId : list Z) : bool :=
  bool_decide (storeId ∈ m_disconnect_store s).

(** [dealDisconnectSocket] deletes the object as well. *)
Definition addDisconnectStore (s : SocketServer) (socketId : Z) : SocketServer :=
  match list_find (λ c, m_client_socket c = socketId) (m_clients s) with
  | Some (i, c) =>
      mk_server (delete i (m_clients s)) (m_disconnect_store s ++ [m_client_id c]) (effects s)
  | None => s
  end.

Definition dealDisconnectSocket (s : SocketServer) (socketId : Z) : SocketServer := addDisconnectStore s socketId.

(** [handlerMessage] of the client at [addr], with the [time(0)] it asks for. *)
Definition handlerMessage (s : SocketServer) (c : HandlerClientSocket) (code : Z) (strMessage : list Z) (now : Z)
    : bool * SocketServer :=
  let with_heartbeat id := mk_client (address c) id (m_ip c) (m_client_socket c) now in
  if code =? MSG_TYPE_STORECODE then
    if bool_decide (strMessage = []) then (false, s)
    else if checkClientsIdExist s strMessage then (false, s)
    else (true, removeDisconnectStore (update_client s (with_heartbeat strMessage)) strMessage)
  else if code =? MSG_TYPE_HEART_BEAT then (true, update_client s (with_heartbeat (m_client_id c)))
  else if code =? MSG_TYPE_BINLOG then
    if bool_decide (strMessage = []) then (false, s)
    else (true, emit s [QueueRaw (up_to_nul (m_client_id c)) (up_to_nul strMessage)])
  else (true, s).

(** [initConnect], given what its [recvMessage] returns; and the closing of the
    socket when it fails. *)
Definition begin_text : list Z := [98; 101; 103; 105; 110].
Definition server_text : list Z := [105; 32; 97; 109; 32; 115; 101; 114; 118; 101; 114].

Definition initConnect (s : SocketServer) (c : HandlerClientSocket)
    (received : option (SOCKET_MESSAGE_HEADER * list Z)) (now : Z) : bool * SocketServer :=
  let s := emit s [SendTyped c MSG_TYPE_HEART_BEAT begin_text] in
  match received with
  | Some (header, text) =>
      if code_ header =? MSG_TYPE_STORECODE then
        let '(ok, s) := handlerMessage s c (code_ header) text now in
        if (ok : bool) then (true, emit s [SendTyped c MSG_TYPE_CONNECT_SUCCESS server_text]) else (false, s)
      else (false, s)
  | None => (false, s)
  end.

(** ** Dispatching *)

Definition dealSendFailed (s : SocketServer) (storeCode strData : list Z) : SocketServer :=
  emit s [PushFailed storeCode strData].

Definition dealDisconnectStoreData_all (s : SocketServer) (strData : list Z) : SocketServer :=
  fold_left (λ s it, dealSendFailed s it strData) (m_disconnect_store s) s.

Definition dealDisconnectStoreData_list (s : SocketServer) (storeId : list (list Z)) (strData : list Z) : SocketServer :=
  fold_left (λ s it, if bool_decide (it ∈ storeId) then dealSendFailed s it strData else s) (m_disconnect_store s) s.

Definition dealDisconnectStoreData_one (s : SocketServer) (storeId strData : list Z) : SocketServer :=
  match list_find (λ it, storeId = it) (m_disconnect_store s) with
  | Some (_, it) => dealSendFailed s it strData
  | None => s
  end.

(** The loop: [str] at [j], the piece that starts at [i]; a position outside the
    string and its terminator is undefined. *)
Fixpoint split_loop (fuel : nat) (str : list Z) (i j : nat) (result : list (list Z)) : run (list (list Z)) :=
  if (i <? length str)%nat then
    match fuel with
    | O => NoFuel
    | S fuel =>
        c ← of_option ((str ++ [0]) !! j);
        if (c =? 44) || (c =? 0)
        then split_loop fuel str (S j) (S j) (result ++ [take (j - i) (drop i str)])
        else split_loop fuel str i (S j) result
    end
  else Ret result.

Fixpoint skip_spaces (str : list Z) : nat :=
  match str with c :: str => if c =? 32 then S (skip_spaces str) else O | [] => O end.

Definition splitStrToVector (fuel : nat) (str : list Z) : run (list (list Z)) :=
  let i := skip_spaces str in split_loop fuel str i i [].

Definition dispatchMessage (fuel : nat) (s : SocketServer) (header : SOCKET_MESSAGE_HEADER)
    (type storeCode strData : list Z) : run SocketServer :=
  if bool_decide (type = [49]) then
    let s :=
      match list_find (λ c, cmpClientId c (up_to_nul storeCode) = true) (m_clients s) with
      | Some (_, pDispatch) => emit s [Send pDispatch header strData]
      | None => s
      end in
    Ret (dealDisconnectStoreData_one s storeCode strData)
  else if bool_decide (type = [50]) then
    vStore ← splitStrToVector fuel storeCode;
    let s := fold_left (λ s pDispatch,
                          if bool_decide (m_client_id pDispatch ∈ vStore) then emit s [Send pDispatch header strData]
                          else s) (m_clients s) s in
    Ret (dealDisconnectStoreData_list s vStore strData)
  else if bool_decide (type = [51]) then
    let s := fold_left (λ s pDispatch, emit s [Send pDispatch header strData]) (m_clients s) s in
    Ret (dealDisconnectStoreData_all s strData)
  else Ret s.

Definition dispatchOneMessage (s : SocketServer) (header : SOCKET_MESSAGE_HEADER) (type storeCode strData : list Z)
    : SocketServer :=
  if bool_decide (type = [49]) then
    match list_find (λ c, cmpClientId c (up_to_nul storeCode) = true) (m_clients s) with
    | Some (_, pDispatch) => emit s [Send pDispatch header strData]
    | None => emit s [PushFailed storeCode strData]
    end
  else s.

(** ** Heartbeats *)

Definition removeClient (s : SocketServer) (client : HandlerClientSocket) : SocketServer :=
  let s := emit s (snd (destorySocket client)) in
  if negb (bool_decide (m_client_id client = [])) then with_disconnect s (m_disconnect_store s ++ [m_client_id client])
  else s.

(** The text of a heartbeat is ["hello"]. *)
Definition hello_text : list Z := [104; 101; 108; 108; 111].

(** The loop over the vector: [kept] is in front of the iterator.  [established]
    is [checkSocketState]; [newTime] is read for every client. *)
Fixpoint heartbeat_loop (established : HandlerClientSocket → bool) (newTime : HandlerClientSocket → Z)
    (kept todo : list HandlerClientSocket) (s : SocketServer) : SocketServer :=
  match todo with
  | [] => with_clients s kept
  | pWork :: todo =>
      if negb (established pWork) || (18 <? newTime pWork - m_last_heartbeat_timestamp pWork) then
        heartbeat_loop established newTime kept todo (removeClient s pWork)
      else
        heartbeat_loop established newTime (kept ++ [pWork]) todo
          (removeDisconnectStore (emit s [SendTyped pWork MSG_TYPE_HEART_BEAT hello_text]) (m_client_id pWork))
  end.

Definition sendHeartbeat (established : HandlerClientSocket → bool) (newTime : HandlerClientSocket → Z)
    (s : SocketServer) : SocketServer :=
  heartbeat_loop established newTime [] (m_clients s) s.

(** ** Histories *)

Inductive event :=
  | Accept (addr socket : Z) (ip : list Z) (now : Z)
  | Connect (addr : Z) (received : option (SOCKET_MESSAGE_HEADER * list Z)) (now : Z)
  | Handle (addr : Z) (header : SOCKET_MESSAGE_HEADER) (text : list Z) (now : Z)
  | Heartbeat (established : HandlerClientSocket → bool) (newTime : HandlerClientSocket → Z)
  | Dispatch (fuel : nat) (header : SOCKET_MESSAGE_HEADER) (type storeCode strData : list Z)
  | DispatchOne (header : SOCKET_MESSAGE_HEADER) (type storeCode strData : list Z).

(** The object at an address. *)
Definition client_at (s : SocketServer) (addr : Z) : option HandlerClientSocket :=
  r ← list_find (λ c, address c = addr) (m_clients s); Some (snd r).

(** The part of [threadRunServer] behind [accept]: a new object has an address
    that no other has. *)
Definition accept_client (s : SocketServer) (addr socket : Z) (ip : list Z) (now : Z) : option SocketServer :=
  match client_at s addr with
  | Some _ => None
  | None => if checkClientsIpExist s ip then Some s else Some (addClient s (new_HandlerClientSocket addr socket ip now))
  end.

(** The beginning of [threadHandler]. *)
Definition connect_client (s : SocketServer) (addr : Z) (received : option (SOCKET_MESSAGE_HEADER * list Z)) (now : Z)
    : option SocketServer :=
  c ← client_at s addr;
  let '(ok, s) := initConnect s c received now in
  if (ok : bool) then Some s
  else let '(c, close) := destorySocket c in Some (emit (update_client s c) close).

(** A turn of its loop, in the state the other threads left: what is not a message
    is passed over, and the object must still be there. *)
Definition threadHandler_turn (malloc : Z → option (list Z)) (fuel : nat) (addr : Z) (s : SocketServer) (now : Z)
    (c : list arrival) : run (SocketServer * list arrival) :=
  '(received, c) ← recvMessage false malloc fuel c;
  match received with
  | None => Ret (s, c)
  | Some (header, text) =>
      o ← of_option (client_at s addr);
      Ret (snd (handlerMessage s o (code_ header) text now), c)
  end.

(** Turns in the states [seen], with the states they leave. *)
Fixpoint threadHandler_turns (malloc : Z → option (list Z)) (fuel : nat) (addr : Z) (seen : list (SocketServer * Z))
    (c : list arrival) : run (list SocketServer * list arrival) :=
  match seen with
  | [] => Ret ([], c)
  | (s, now) :: seen =>
      '(s, c) ← threadHandler_turn malloc fuel addr s now c;
      '(after, c) ← threadHandler_turns malloc fuel addr seen c;
      Ret (s :: after, c)
  end.

Definition exec (e : event) (s : SocketServer) : option SocketServer :=
  match e with
  | Accept addr socket ip now => accept_client s addr socket ip now
  | Connect addr received now => connect_client s addr received now
  | Handle addr header text now =>
      c ← client_at s addr; Some (snd (handlerMessage s c (code_ header) text now))
  | Heartbeat established newTime => Some (sendHeartbeat established newTime s)
  | Dispatch fuel header type storeCode strData =>
      match dispatchMessage fuel s header type storeCode strData with Ret s => Some s | _ => None end
  | DispatchOne header type storeCode strData => Some (dispatchOneMessage s header type storeCode strData)
  end.

(** The store code an event registers. *)
Definition registration (e : event) (s : SocketServer) : list (list Z) :=
  let telling code addr text :=
    match client_at s addr with
    | Some c => if (code =? MSG_TYPE_STORECODE) && fst (handlerMessage s c code text 0) then [text] else []
    | None => []
    end in
  match e with
  | Connect addr (Some (header, text)) _ => telling (code_ header) addr text
  | Handle addr header text _ => telling (code_ header) addr text
  | _ => []
  end.

(** A client tells its store code once, and the text of a message has no NUL
    bytes ([recvMessage] stops at one). *)
Definition once (e : event) (s : SocketServer) : Prop :=
  let telling code addr text :=
    no_nul text ∧ (code = MSG_TYPE_STORECODE → ∀ c, client_at s addr = Some c → m_client_id c = []) in
  match e with
  | Connect addr (Some (header, text)) _ => telling (code_ header) addr text
  | Handle addr header text _ => telling (code_ header) addr text
  | _ => True
  end.

Fixpoint exec_all (l : list event) (s : SocketServer) : option SocketServer :=
  match l with [] => Some s | e :: l => s ← exec e s; exec_all l s end.

Fixpoint registrations (l : list event) (s : SocketServer) : list (list Z) :=
  match l with
  | [] => []
  | e :: l => registration e s ++ match exec e s with Some s => registrations l s | None => [] end
  end.

Fixpoint all_once (l : list event) (s : SocketServer) : Prop :=
  match l with
  | [] => True
  | e :: l => once e s ∧ match exec e s with Some s => all_once l s | None => True end
  end.

(** ** The stores the server knows *)

Definition ids_of (l : list HandlerClientSocket) : list (list Z) := filter (.≠ []) (map m_client_id l).
Definition stores (s : SocketServer) : list (list Z) := ids_of (m_clients s) ++ m_disconnect_store s.

(** No store is known twice, by connection or as disconnected. *)
Record server_ok (s : SocketServer) : Prop := {
  sk_stores : NoDup (stores s);
  sk_nonempty : [] ∉ m_disconnect_store s;
  sk_addresses : NoDup (map address (m_clients s));
  sk_nul : Forall (λ c, no_nul (m_client_id c)) (m_clients s);
}.

Lemma ids_of_app l1 l2 : ids_of (l1 ++ l2) = ids_of l1 ++ ids_of l2.
Proof. unfold ids_of. by rewrite map_app, filter_app. Qed.

Lemma ids_of_cons c l : ids_of (c :: l) = (if bool_decide (m_client_id c = []) then [] else [m_client_id c]) ++ ids_of l.
Proof.
  unfold ids_of. cbn [map]. rewrite filter_cons. case_bool_decide; destruct (decide (m_client_id c ≠ [])); try done.
Qed.

Lemma elem_of_ids id l : id ∈ ids_of l ↔ id ≠ [] ∧ ∃ c, c ∈ l ∧ m_client_id c = id.
Proof.
  unfold ids_of. rewrite list_elem_of_filter, list_elem_of_fmap.
  split; [intros (? & c & -> & ?)|intros (? & c & ? & <-)]; (split; [done|by exists c]).
Qed.

Lemma erase_first_notin {A} `{!EqDecision A} (x : A) l : x ∉ l → erase_first x l = l.
Proof.
  intros H. unfold erase_first. destruct (list_find (x =.) l) as [[i y]|] eqn:E; [|done].
  apply list_find_Some in E as (E & <- & _). by apply list_elem_of_lookup_2 in E.
Qed.

Lemma erase_first_in {A} `{!EqDecision A} (x : A) l : x ∈ l → l ≡ₚ x :: erase_first x l.
Proof.
  intros H. unfold erase_first. destruct (list_find (x =.) l) as [[i y]|] eqn:E.
  - apply list_find_Some in E as (E & <- & _). by apply delete_Permutation.
  - apply list_find_None in E. rewrite Forall_forall in E. by destruct (E x H).
Qed.

Lemma client_at_Some s addr c :
  client_at s addr = Some c → ∃ l1 l2, m_clients s = l1 ++ c :: l2 ∧ address c = addr.
Proof.
  unfold client_at. destruct (list_find _ _) as [[i x]|] eqn:E; [|done]. intros [= ->].
  apply list_find_Some in E as (E & <- & _). apply list_elem_of_split_length in E as (l1 & l2 & E & _).
  by exists l1, l2.
Qed.

(** The object is replaced where it is. *)
Lemma update_client_at s l1 c l2 c' :
  NoDup (map address (m_clients s)) → m_clients s = l1 ++ c :: l2 → address c' = address c →
  m_clients (update_client s c') = l1 ++ c' :: l2.
Proof.
  intros Hn Hs Ha. unfold update_client. cbn [with_clients m_clients]. rewrite Hs in *.
  rewrite map_app in *. cbn [map] in *. apply NoDup_app in Hn as (_ & Hd & Hn). apply NoDup_cons in Hn as [Hc _].
  rewrite Ha, Z.eqb_refl. f_equal; [|f_equal].
  - rewrite <- (map_id l1) at 2. apply map_ext_in. intros x Hx. destruct (Z.eqb_spec (address x) (address c)) as [E|]; [|done].
    destruct (Hd (address x)); [apply list_elem_of_fmap; exists x; split; [done|by apply list_elem_of_In]|rewrite E; by left].
  - rewrite <- (map_id l2) at 2. apply map_ext_in. intros x Hx. destruct (Z.eqb_spec (address x) (address c)) as [E|]; [|done].
    destruct Hc. apply list_elem_of_fmap. exists x. split; [done|by apply list_elem_of_In].
Qed.

(** ** Every operation keeps the stores *)

(** What an event does to them: it may add the one it registers. *)
Definition keeps (new : list (list Z)) (s s' : SocketServer) : Prop :=
  server_ok s' ∧ (∀ st, st ∈ stores s' ↔ st ∈ stores s ∨ st ∈ new).

Lemma keeps_refl s : server_ok s → keeps [] s s.
Proof. split; [done|]. intros st. rewrite elem_of_nil. tauto. Qed.

Lemma keeps_emit s l : server_ok s → keeps [] s (emit s l).
Proof. intros [H1 H2 H3 H4]. split; [by split|]. intros st. rewrite elem_of_nil. tauto. Qed.

(** The heartbeat of one client, and of one that is removed. *)
Lemma removeDisconnectStore_connected s id :
  NoDup (stores s) → [] ∉ m_disconnect_store s → (id ≠ [] → id ∈ ids_of (m_clients s)) →
  m_disconnect_store (removeDisconnectStore s id) = m_disconnect_store s.
Proof.
  intros Hn Hd Hid. cbn [removeDisconnectStore with_disconnect m_disconnect_store]. apply erase_first_notin.
  destruct (decide (id = [])) as [->|Hne]; [done|]. unfold stores in Hn. apply NoDup_app in Hn as (_ & Hn & _).
  by apply Hn, Hid.
Qed.

Lemma heartbeat_keeps established newTime todo kept s :
  server_ok (with_clients s (kept ++ todo)) →
  keeps [] (with_clients s (kept ++ todo)) (heartbeat_loop established newTime kept todo s).
Proof.
  revert kept s. induction todo as [|w todo IH]; intros kept s Hok; cbn [heartbeat_loop].
  { rewrite app_nil_r in *. by apply keeps_refl. }
  assert (Hw : m_client_id w ≠ [] → m_client_id w ∈ ids_of (kept ++ w :: todo)).
  { intros Hw. apply elem_of_ids. split; [done|]. exists w. split; [|done]. apply elem_of_app. right. by left. }
  destruct Hok as [H1 H2 H3 H4]. unfold stores in H1. cbn [with_clients m_clients m_disconnect_store] in *.
  destruct (negb (established w) || _).
  - set (s1 := removeClient s w).
    assert (E1 : m_disconnect_store s1 = m_disconnect_store s ++ (if bool_decide (m_client_id w = []) then [] else [m_client_id w])).
    { unfold s1, removeClient. case_bool_decide; cbn; [by rewrite app_nil_r|done]. }
    assert (P : ids_of (kept ++ todo) ++ m_disconnect_store s1 ≡ₚ ids_of (kept ++ w :: todo) ++ m_disconnect_store s).
    { rewrite E1, !ids_of_app, ids_of_cons. case_bool_decide; cbn [app]; [by rewrite app_nil_r|]. solve_Permutation. }
    destruct (IH kept s1) as [K1 K2].
    { split; unfold stores; cbn [with_clients m_clients m_disconnect_store].
      - by rewrite P.
      - rewrite E1. case_bool_decide; [by rewrite app_nil_r|].
        intros [E|E%list_elem_of_singleton]%elem_of_app; [done|by rewrite <- E in *].
      - pose proof (Permutation_map address (Permutation_middle kept todo w)) as P'. rewrite <- P' in H3.
        cbn [map] in H3. by apply NoDup_cons in H3 as [_ H3].
      - rewrite Forall_app, Forall_cons in H4. rewrite Forall_app. tauto. }
    split; [done|]. intros st. rewrite K2. unfold stores. cbn [with_clients m_clients m_disconnect_store]. by rewrite P.
  - set (s1 := removeDisconnectStore _ _).
    assert (E1 : m_disconnect_store s1 = m_disconnect_store s).
    { apply (removeDisconnectStore_connected (with_clients (emit s [SendTyped w MSG_TYPE_HEART_BEAT hello_text])
        (kept ++ w :: todo))); [exact H1|exact H2|exact Hw]. }
    destruct (IH (kept ++ [w]) s1) as [K1 K2].
    { rewrite <- app_assoc. split; unfold stores; cbn [with_clients m_clients m_disconnect_store app]; by rewrite ?E1. }
    split; [done|]. intros st. rewrite K2, <- app_assoc. unfold stores. cbn [with_clients m_clients m_disconnect_store app].
    by rewrite E1.
Qed.

(** An object that changes, but for its store code. *)
Lemma update_keeps s addr c c' :
  server_ok s → client_at s addr = Some c → address c' = address c → m_client_id c' = m_client_id c →
  keeps [] s (update_client s c').
Proof.
  intros Hok Hc Ha Hi. pose proof Hok as [H1 H2 H3 H4]. destruct (client_at_Some s addr c Hc) as (l1 & l2 & Es & _).
  pose proof (update_client_at s l1 c l2 c' H3 Es Ha) as Eu.
  assert (E : stores (update_client s c') = stores s)
    by (unfold stores; rewrite Eu, Es; cbn [update_client with_clients m_disconnect_store];
        by rewrite !ids_of_app, !ids_of_cons, Hi).
  split; [|intros st; rewrite E, elem_of_nil; tauto]. split.
  - by rewrite E.
  - done.
  - rewrite Eu. rewrite Es in H3. rewrite !map_app in *. cbn [map] in *. by rewrite Ha.
  - rewrite Eu. rewrite Es in H4. rewrite !Forall_app, !Forall_cons in *. by rewrite Hi.
Qed.

(** A client that tells a code no other has. *)
Lemma register_keeps s addr c c' text :
  server_ok s → client_at s addr = Some c → address c' = address c → m_client_id c = [] → m_client_id c' = text →
  text ≠ [] → no_nul text → checkClientsIdExist s text = false →
  keeps [text] s (removeDisconnectStore (update_client s c') text).
Proof.
  intros Hok Hc Ha Hi Ht Hne Hnul Hx. pose proof Hok as [H1 H2 H3 H4].
  destruct (client_at_Some s addr c Hc) as (l1 & l2 & Es & _).
  pose proof (update_client_at s l1 c l2 c' H3 Es Ha) as Eu.
  assert (Hids : text ∉ ids_of (m_clients s)).
  { unfold checkClientsIdExist in Hx. destruct (list_find _ _) eqn:F; [done|]. apply list_find_None in F.
    rewrite Forall_forall in F. intros (_ & d & Hd & Ed)%elem_of_ids. by apply (F d). }
  set (s' := removeDisconnectStore _ _).
  assert (Pi : ids_of (m_clients s') ≡ₚ text :: ids_of (m_clients s)).
  { unfold s'. cbn [removeDisconnectStore with_disconnect m_clients]. rewrite Eu, Es, !ids_of_app, !ids_of_cons, Hi, Ht.
    rewrite bool_decide_eq_false_2, bool_decide_eq_true_2 by done. cbn [app]. by rewrite Permutation_middle. }
  assert (Ed : m_disconnect_store s' = erase_first text (m_disconnect_store s)) by done.
  assert (Hd : ((text ∉ m_disconnect_store s) ∧ m_disconnect_store s' = m_disconnect_store s) ∨
               (m_disconnect_store s ≡ₚ text :: m_disconnect_store s')).
  { destruct (decide (text ∈ m_disconnect_store s)) as [Hin|Hin].
    - right. rewrite Ed. by apply erase_first_in.
    - left. split; [done|]. rewrite Ed. by apply erase_first_notin. }
  assert (P : stores s' ≡ₚ (if decide (text ∈ m_disconnect_store s) then stores s else text :: stores s)).
  { unfold stores. rewrite Pi. destruct Hd as [[Hin ->]|Hd]; [by rewrite decide_False|].
    rewrite decide_True by (rewrite Hd; by left). rewrite Hd. cbn [app]. by rewrite Permutation_middle. }
  split.
  - split.
    + rewrite P. destruct (decide _) as [|Hin]; [done|]. apply NoDup_cons. split; [|done].
      unfold stores. rewrite elem_of_app. tauto.
    + destruct Hd as [[_ ->]|Hd]; [done|]. rewrite Hd in H2. by apply not_elem_of_cons in H2 as [_ ?].
    + unfold s'. cbn [removeDisconnectStore with_disconnect m_clients]. rewrite Eu. rewrite Es in H3.
      rewrite !map_app in *. cbn [map] in *. by rewrite Ha.
    + unfold s'. cbn [removeDisconnectStore with_disconnect m_clients]. rewrite Eu. rewrite Es in H4.
      rewrite !Forall_app, !Forall_cons in *. rewrite Ht. tauto.
  - intros st. rewrite P, list_elem_of_singleton. unfold stores.
    destruct (decide _) as [Hin|Hin]; [|rewrite elem_of_cons; tauto].
    split; [tauto|]. intros [?| ->]; [done|]. rewrite elem_of_app. tauto.
Qed.

Lemma handler_keeps s addr c code text now :
  server_ok s → client_at s addr = Some c → no_nul text → (code = MSG_TYPE_STORECODE → m_client_id c = []) →
  keeps (if (code =? MSG_TYPE_STORECODE) && fst (handlerMessage s c code text now) then [text] else []) s
    (snd (handlerMessage s c code text now)).
Proof.
  intros Hok Hc Hnul Honce. unfold handlerMessage. destruct (Z.eqb_spec code MSG_TYPE_STORECODE) as [Hcode|_]; cbn [andb].
  - case_bool_decide; cbn [fst snd]; [by apply keeps_refl|].
    destruct (checkClientsIdExist s text) eqn:Hx; cbn [fst snd]; [by apply keeps_refl|].
    apply (register_keeps s addr c); try done. by apply Honce.
  - destruct (code =? MSG_TYPE_HEART_BEAT); [by apply (update_keeps s addr c)|].
    destruct (code =? MSG_TYPE_BINLOG); [|by apply keeps_refl].
    case_bool_decide; [by apply keeps_refl|by apply keeps_emit].
Qed.

Lemma handler_time s c code text now now' :
  fst (handlerMessage s c code text now) = fst (handlerMessage s c code text now').
Proof. unfold handlerMessage. repeat case_match; done. Qed.

Lemma keeps_trans new1 new2 s1 s2 s3 : keeps new1 s1 s2 → keeps new2 s2 s3 → keeps (new1 ++ new2) s1 s3.
Proof. intros [_ H1] [H2 H3]. split; [done|]. intros st. rewrite H3, H1, elem_of_app. tauto. Qed.

Lemma destorySocket_same c :
  address (fst (destorySocket c)) = address c ∧ m_client_id (fst (destorySocket c)) = m_client_id c.
Proof. unfold destorySocket. by destruct (negb _). Qed.

Lemma connect_keeps s addr received now s' :
  server_ok s → connect_client s addr received now = Some s' → once (Connect addr received now) s →
  keeps (registration (Connect addr received now) s) s s'.
Proof.
  intros Hok E Ho. unfold connect_client in E. destruct (client_at s addr) as [c|] eqn:Hc; [|discriminate].
  cbn [mbind option_bind] in E.
  set (s1 := emit s [SendTyped c MSG_TYPE_HEART_BEAT begin_text]).
  pose proof (keeps_emit s [SendTyped c MSG_TYPE_HEART_BEAT begin_text] Hok) as K1. fold s1 in K1.
  assert (Hclose : ∀ s'', Some (emit (update_client s1 (fst (destorySocket c))) (snd (destorySocket c))) = Some s'' → keeps [] s s'').
  { intros s'' [= <-]. apply (keeps_trans [] [] _ s1 _ K1). assert (Hs : client_at s1 addr = Some c) by done.
    apply (keeps_trans [] [] _ (update_client s1 (fst (destorySocket c)))).
    - by apply (update_keeps s1 addr c); [apply K1| |apply destorySocket_same..].
    - by apply keeps_emit, (update_keeps s1 addr c); [apply K1| |apply destorySocket_same..]. }
  assert (Hpair : destorySocket c = (fst (destorySocket c), snd (destorySocket c))) by (by destruct (destorySocket c)).
  cbn [registration once] in *. unfold initConnect in E. fold s1 in E.
  destruct received as [[header text]|]; [|rewrite Hpair in E; by apply Hclose].
  rewrite Hc. destruct Ho as [Hnul Honce].
  destruct (code_ header =? MSG_TYPE_STORECODE) eqn:Hcode; [|rewrite Hpair in E; by apply Hclose].
  pose proof (handler_keeps s1 addr c (code_ header) text now (proj1 K1) Hc Hnul (λ h, Honce h c Hc)) as K2.
  rewrite Hcode in K2. cbn [andb] in K2.
  assert (Ef : fst (handlerMessage s c (code_ header) text 0) = fst (handlerMessage s1 c (code_ header) text now)).
  { rewrite (handler_time s c _ _ 0 now). unfold handlerMessage, checkClientsIdExist. cbn [s1 emit m_clients]. repeat case_match; done. }
  rewrite Ef. destruct (handlerMessage s1 c (code_ header) text now) as [[|] s2] eqn:E2; cbn [fst snd] in *.
  - injection E as <-. apply (keeps_trans [] [text] _ s1 _ K1).
    rewrite <- (app_nil_r [text]). eapply keeps_trans; [exact K2|]. apply keeps_emit, K2.
  - assert (s2 = s1) as ->.
    { unfold handlerMessage in E2. rewrite Hcode in E2. repeat case_match; simplify_eq; done. }
    rewrite Hpair in E. by apply Hclose.
Qed.

(** ** What a dispatch sends *)

(** The stores an effect reaches, and what it carries. *)
Definition target (e : effect) : list (list Z) :=
  match e with Send c _ _ => ids_of [c] | PushFailed st _ => [st] | _ => [] end.

Definition carries (header : SOCKET_MESSAGE_HEADER) (strData : list Z) (e : effect) : Prop :=
  match e with Send _ h d => h = header ∧ d = strData | PushFailed _ d => d = strData | _ => False end.

Definition reaches (header : SOCKET_MESSAGE_HEADER) (strData : list Z) (s s' : SocketServer) (l : list (list Z)) : Prop :=
  ∃ new, s' = emit s new ∧ Forall (carries header strData) new ∧ concat (map target new) = l.

Lemma emit_emit s l1 l2 : emit (emit s l1) l2 = emit s (l1 ++ l2).
Proof. unfold emit. cbn. by rewrite app_assoc. Qed.

Lemma emit_nil s : emit s [] = s.
Proof. destruct s. unfold emit. cbn. by rewrite app_nil_r. Qed.

Lemma reaches_nil header strData s : reaches header strData s s [].
Proof. exists []. by rewrite emit_nil. Qed.

Lemma reaches_trans header strData s1 s2 s3 l1 l2 :
  reaches header strData s1 s2 l1 → reaches header strData s2 s3 l2 → reaches header strData s1 s3 (l1 ++ l2).
Proof.
  intros (n1 & -> & F1 & <-) (n2 & -> & F2 & <-). exists (n1 ++ n2). rewrite emit_emit.
  split; [done|]. split; [by apply Forall_app|]. by rewrite map_app, concat_app.
Qed.

(** The loops over clients and stores. *)
Lemma reaches_loop {A} header strData (P : A → Prop) `{!∀ x, Decision (P x)} (f : A → effect) l s :
  (∀ x, carries header strData (f x)) →
  reaches header strData s (fold_left (λ s x, if bool_decide (P x) then emit s [f x] else s) l s)
    (concat (map (λ x, target (f x)) (filter P l))).
Proof.
  intros Hf. revert s. induction l as [|x l IH]; intros s; cbn [fold_left map concat]; [apply reaches_nil|].
  rewrite filter_cons. case_bool_decide.
  - rewrite decide_True by done. cbn [map concat]. eapply reaches_trans; [|apply IH].
    exists [f x]. split; [done|]. split; [by constructor|]. cbn. by rewrite app_nil_r.
  - rewrite decide_False by done. apply IH.
Qed.

Lemma targets_clients header strData (P : list Z → Prop) `{!∀ x, Decision (P x)} l :
  concat (map (λ c, target (Send c header strData)) (filter (λ c, P (m_client_id c)) l)) = filter P (ids_of l).
Proof.
  induction l as [|c l IH]; [done|]. rewrite ids_of_cons, filter_app, filter_cons.
  destruct (decide (P (m_client_id c))) as [Hp|Hp]; cbn [map concat]; rewrite IH.
  - f_equal. unfold target. rewrite ids_of_cons. cbn [ids_of map filter list_filter]. rewrite app_nil_r.
    case_bool_decide; [done|]. by rewrite filter_cons, decide_True.
  - case_bool_decide; [done|]. by rewrite filter_cons, decide_False.
Qed.

Lemma targets_stores strData (l : list (list Z)) : concat (map (λ st, target (PushFailed st strData)) l) = l.
Proof. induction l as [|st l IH]; [done|]. cbn. by f_equal. Qed.

Lemma filter_one {A} `{!EqDecision A} (x : A) l : NoDup l → filter (x =.) l = if decide (x ∈ l) then [x] else [].
Proof.
  intros H. induction H as [|y l Hy H IH]; [done|]. rewrite filter_cons, IH.
  destruct (decide (x = y)) as [<-|Hne].
  - rewrite decide_False by done. by rewrite decide_True by left.
  - destruct (decide (x ∈ l)); [by rewrite decide_True by (by right)|].
    rewrite decide_False; [done|]. by intros [|]%elem_of_cons.
Qed.

Lemma up_to_nul_id s : no_nul s → up_to_nul s = s.
Proof. induction 1 as [|b s Hb H IH]; [done|]. cbn. destruct (Z.eqb_spec b 0); [done|]. by rewrite IH. Qed.

Lemma disconnected_one s header storeCode strData :
  reaches header strData s (dealDisconnectStoreData_one s storeCode strData)
    (if decide (storeCode ∈ m_disconnect_store s) then [storeCode] else []).
Proof.
  unfold dealDisconnectStoreData_one.
  destruct (list_find (λ it, storeCode = it) (m_disconnect_store s)) as [[i it]|] eqn:F.
  - apply list_find_Some in F as (F & <- & _). apply list_elem_of_lookup_2 in F. rewrite decide_True by done.
    exists [PushFailed storeCode strData]. split; [done|]. split; [by constructor|done].
  - apply list_find_None in F. rewrite decide_False; [apply reaches_nil|]. intros Hin.
    rewrite Forall_forall in F. by apply (F storeCode).
Qed.

(** One store: the client that has the code, and the disconnected store. *)
Lemma dispatch_one_store s header storeCode strData fuel :
  server_ok s → storeCode ≠ [] → no_nul storeCode →
  ∃ s', dispatchMessage fuel s header [49] storeCode strData = Ret s' ∧
    reaches header strData s s' (filter (storeCode =.) (stores s)).
Proof.
  intros [H1 H2 H3 H4] Hne Hnul. unfold dispatchMessage. rewrite bool_decide_eq_true_2 by done.
  eexists. split; [done|]. unfold stores in *. apply NoDup_app in H1 as (Ni & _ & Nd). rewrite filter_app.
  assert (Hcmp : ∀ c, c ∈ m_clients s → cmpClientId c (up_to_nul storeCode) = true ↔ m_client_id c = storeCode).
  { intros c Hc. unfold cmpClientId. rewrite bool_decide_eq_true. rewrite Forall_forall in H4.
    rewrite !up_to_nul_id; [done|by apply H4|done|by rewrite up_to_nul_id]. }
  rewrite !filter_one by done.
  destruct (list_find (λ c, cmpClientId c (up_to_nul storeCode) = true) (m_clients s)) as [[i c]|] eqn:F.
  - apply list_find_Some in F as (F & Hc & _). apply list_elem_of_lookup_2 in F. apply Hcmp in Hc; [|done].
    apply (reaches_trans _ _ s (emit s [Send c header strData])).
    + rewrite decide_True by (apply elem_of_ids; split; [done|by exists c]).
      exists [Send c header strData]. split; [done|]. split; [by constructor|]. cbn [map target concat].
      by rewrite ids_of_cons, Hc, bool_decide_eq_false_2 by done.
    + apply (disconnected_one (emit s [Send c header strData])).
  - apply list_find_None in F. rewrite decide_False; [apply disconnected_one|].
    intros (_ & c & Hc & E)%elem_of_ids. rewrite Forall_forall in F. by apply (F c), Hcmp.
Qed.

(** ** The list of stores of a message *)

Fixpoint join_codes (v : list (list Z)) : list Z :=
  match v with
  | [] => []
  | [w] => w
  | w :: v => w ++ 44 :: join_codes v
  end.

Definition plain_code (w : list Z) : Prop := Forall (λ c, c ≠ 44 ∧ c ≠ 0) w.

Lemma split_word str pre w1 w2 tail fuel result :
  plain_code w2 → str = pre ++ w1 ++ w2 ++ tail → (length pre < length str)%nat →
  split_loop (length w2 + fuel) str (length pre) (length (pre ++ w1)) result =
  split_loop fuel str (length pre) (length (pre ++ w1 ++ w2)) result.
Proof.
  intros H. revert w1. induction H as [|c w2 [H1 H2] H IH]; intros w1 Hs Hl; [by rewrite app_nil_r|].
  cbn [length Nat.add split_loop]. destruct (Nat.ltb_spec (length pre) (length str)); [|lia].
  replace ((str ++ [0]) !! length (pre ++ w1)) with (Some c).
  2:{ rewrite Hs, (app_assoc pre), <- app_assoc, lookup_app_r, Nat.sub_diag by lia. done. }
  cbn [of_option mbind run_bind].
  destruct (Z.eqb_spec c 44); [done|]. destruct (Z.eqb_spec c 0); [done|]. cbn [orb].
  replace (S (length (pre ++ w1))) with (length (pre ++ w1 ++ [c])) by (rewrite !length_app; cbn; lia).
  rewrite (IH (w1 ++ [c])); [|by rewrite Hs, <- !app_assoc|done]. by rewrite <- !app_assoc.
Qed.

Lemma split_join v pre fuel result :
  v ≠ [] → Forall plain_code v → last v ≠ Some [] → (length (join_codes v) < fuel)%nat →
  split_loop fuel (pre ++ join_codes v) (length pre) (length pre) result = Ret (result ++ v).
Proof.
  intros Hne H. revert pre fuel result Hne. induction H as [|w v Hw H IH]; intros pre fuel result Hne Hl Hf; [done|].
  destruct v as [|w' v].
  - cbn [join_codes] in *. assert (w ≠ []) by (intros ->; by apply Hl).
    replace fuel with (length w + S (fuel - length w - 1))%nat by lia.
    pose proof (split_word (pre ++ w) pre [] w [] (S (fuel - length w - 1)) result Hw) as E.
    rewrite !app_nil_r in E. rewrite E.
    + cbn [app split_loop]. assert (0 < length w)%nat by (destruct w; [done|cbn; lia]). rewrite length_app.
      destruct (Nat.ltb_spec (length pre) (length pre + length w)); [|lia].
      rewrite <- length_app, lookup_app_r, Nat.sub_diag by lia. cbn [lookup list_lookup of_option mbind run_bind].
      cbn [Z.eqb orb]. rewrite drop_app_length.
      replace (length (pre ++ w) - length pre)%nat with (length w) by (rewrite length_app; lia). rewrite firstn_all.
      destruct (fuel - length w - 1)%nat; cbn [split_loop];
        (destruct (Nat.ltb_spec (S (length (pre ++ w))) (length (pre ++ w))); [lia|done]).
    + done.
    + rewrite length_app. destruct w; [done|cbn; lia].
  - set (rest := join_codes (w' :: v)) in *. change (join_codes (w :: w' :: v)) with (w ++ 44 :: rest) in *.
    rewrite length_app in Hf. cbn [length] in Hf.
    replace fuel with (length w + S (fuel - length w - 1))%nat by lia.
    pose proof (split_word (pre ++ w ++ 44 :: rest) pre [] w (44 :: rest) (S (fuel - length w - 1)) result Hw) as E.
    rewrite !app_nil_r in E. rewrite E by (rewrite ?length_app; cbn [length app]; first [done|rewrite length_app; cbn; lia|lia]).
    cbn [app split_loop]. destruct (Nat.ltb_spec (length pre) (length (pre ++ w ++ 44 :: rest)));
      [|rewrite !length_app in *; cbn [length] in *; lia].
    replace ((pre ++ w ++ 44 :: rest) ++ [0]) with ((pre ++ w) ++ (44 :: rest ++ [0])) by (by rewrite <- !app_assoc).
    rewrite lookup_app_r, Nat.sub_diag by lia. cbn [lookup list_lookup of_option mbind run_bind Z.eqb Pos.eqb orb].
    rewrite drop_app_length.
    replace (length (pre ++ w) - length pre)%nat with (length w) by (rewrite length_app; lia). rewrite take_app_length.
    pose proof (IH ((pre ++ w) ++ [44]) (fuel - length w - 1)%nat (result ++ [w])) as IH'.
    replace (S (length (pre ++ w))) with (length ((pre ++ w) ++ [44])) by (rewrite !length_app; cbn; lia).
    assert (Er : ((pre ++ w) ++ [44]) ++ rest = pre ++ w ++ 44 :: rest) by (by rewrite <- !app_assoc).
    rewrite Er in IH'. rewrite IH' by first [done|lia]. by rewrite <- app_assoc.
Qed.

Lemma splitStrToVector_join v fuel :
  v ≠ [] → Forall plain_code v → last v ≠ Some [] → head (join_codes v) ≠ Some 32 → (length (join_codes v) < fuel)%nat →
  splitStrToVector fuel (join_codes v) = Ret v.
Proof.
  intros Hne H Hl Hs Hf. unfold splitStrToVector. replace (skip_spaces (join_codes v)) with 0%nat.
  - by apply (split_join v [] fuel []).
  - destruct (join_codes v) as [|c s]; [done|]. cbn [skip_spaces]. destruct (Z.eqb_spec c 32) as [->|]; [by destruct Hs|done].
Qed.

Lemma dispatch_many s header v strData fuel :
  v ≠ [] → Forall plain_code v → last v ≠ Some [] → head (join_codes v) ≠ Some 32 → (length (join_codes v) < fuel)%nat →
  ∃ s', dispatchMessage fuel s header [50] (join_codes v) strData = Ret s' ∧
    reaches header strData s s' (filter (.∈ v) (stores s)).
Proof.
  intros H1 H2 H3 H4 H5. unfold dispatchMessage. rewrite bool_decide_eq_false_2, bool_decide_eq_true_2 by done.
  rewrite splitStrToVector_join by done. cbn [mbind run_bind]. eexists. split; [done|].
  unfold stores. rewrite filter_app. eapply reaches_trans.
  - rewrite <- (targets_clients header strData). apply (reaches_loop header strData). done.
  - unfold dealDisconnectStoreData_list.
    set (s1 := fold_left _ (m_clients s) s).
    replace (m_disconnect_store s) with (m_disconnect_store s1).
    + rewrite <- (targets_stores strData (filter _ _)). apply (reaches_loop header strData). done.
    + destruct (reaches_loop header strData (λ c, m_client_id c ∈ v) (λ c, Send c header strData) (m_clients s) s)
        as (new & E & _); [done|]. fold s1 in E. by rewrite E.
Qed.

Lemma fold_left_ext {A B} (f g : A → B → A) l a : (∀ a b, f a b = g a b) → fold_left f l a = fold_left g l a.
Proof. intros H. revert a. induction l as [|b l IH]; intros a; cbn; [done|]. by rewrite H. Qed.

Lemma dispatch_all s header storeCode strData fuel :
  ∃ s', dispatchMessage fuel s header [51] storeCode strData = Ret s' ∧ reaches header strData s s' (stores s).
Proof.
  unfold dispatchMessage. rewrite !bool_decide_eq_false_2, bool_decide_eq_true_2 by done. eexists. split; [done|].
  assert (F : ∀ (l : list (list Z)), filter (λ _, True) l = l).
  { intros l. induction l as [|x l IH]; [done|]. by rewrite filter_cons, decide_True, IH. }
  assert (D : ∀ {A} (f : A → effect) l s', fold_left (λ s x, emit s [f x]) l s' =
    fold_left (λ s x, if bool_decide True then emit s [f x] else s) l s').
  { intros A f l s'. apply fold_left_ext. intros. by rewrite bool_decide_eq_true_2. }
  unfold stores. rewrite <- (F (ids_of _)), <- (F (m_disconnect_store s)).
  apply (reaches_trans _ _ s (fold_left (λ s c, emit s [Send c header strData]) (m_clients s) s)).
  - rewrite D, <- (targets_clients header strData). apply (reaches_loop header strData). done.
  - unfold dealDisconnectStoreData_all, dealSendFailed. set (s1 := fold_left _ (m_clients s) s).
    replace (m_disconnect_store s) with (m_disconnect_store s1).
    + rewrite D, <- (targets_stores strData (filter _ _)). apply (reaches_loop header strData). done.
    + unfold s1. rewrite D.
      destruct (reaches_loop header strData (λ _, True) (λ c, Send c header strData) (m_clients s) s)
        as (new & E & _); [done|]. by rewrite E.
Qed.

(** ** Every history *)

(** The effect is a message to a client of the server, or one for the queue. *)
Definition from_server (s : SocketServer) (e : effect) : Prop :=
  match e with
  | Send c _ _ => c ∈ m_clients s
  | SendTyped _ _ _ => False
  | _ => True
  end.

Definition emits (s s' : SocketServer) : Prop := ∃ new, s' = emit s new ∧ Forall (from_server s) new.

Lemma emits_refl s : emits s s.
Proof. exists []. by rewrite emit_nil. Qed.

Lemma emits_one s e : from_server s e → emits s (emit s [e]).
Proof. intros H. exists [e]. by repeat constructor. Qed.

Lemma emits_trans s1 s2 s3 : emits s1 s2 → emits s2 s3 → emits s1 s3.
Proof.
  intros (n1 & -> & F1) (n2 & -> & F2). exists (n1 ++ n2). rewrite emit_emit. split; [done|]. by apply Forall_app.
Qed.

Lemma emits_clients s s' : emits s s' → m_clients s' = m_clients s.
Proof. by intros (n & -> & _). Qed.

Lemma emits_loop {A} (f : SocketServer → A → SocketServer) l s :
  (∀ s' x, m_clients s' = m_clients s → x ∈ l → emits s' (f s' x)) → emits s (fold_left f l s).
Proof.
  revert s. induction l as [|x l IH]; intros s Hf; [apply emits_refl|]. cbn [fold_left].
  assert (H : emits s (f s x)) by (apply Hf; [done|left]). eapply emits_trans; [exact H|]. apply IH.
  intros s' y Hs Hy. apply Hf; [by rewrite Hs, (emits_clients _ _ H)|by right].
Qed.

Lemma emits_if (b : bool) s e : from_server s e → emits s (if b then emit s [e] else s).
Proof. intros H. destruct b; [by apply emits_one|apply emits_refl]. Qed.

Lemma emits_found s (P : HandlerClientSocket → Prop) `{!∀ c, Decision (P c)} header strData s' : emits s s' →
  emits s (match list_find P (m_clients s) with Some (_, c) => emit s [Send c header strData] | None => s' end).
Proof.
  intros He. destruct (list_find P (m_clients s)) as [[i c]|] eqn:E; [|done]. apply emits_one.
  apply list_find_Some in E as (E & _). by eapply list_elem_of_lookup_2.
Qed.

Lemma disconnected_one_emits s storeId strData : emits s (dealDisconnectStoreData_one s storeId strData).
Proof.
  unfold dealDisconnectStoreData_one. destruct (list_find _ _) as [[i st]|]; [by apply emits_one|apply emits_refl].
Qed.

Lemma dispatch_emits fuel s header type storeCode strData s' :
  dispatchMessage fuel s header type storeCode strData = Ret s' → emits s s'.
Proof.
  unfold dispatchMessage. repeat case_bool_decide; intros E.
  - injection E as <-. eapply emits_trans; [apply (emits_found s (λ c, cmpClientId c (up_to_nul storeCode) = true)), emits_refl|].
    apply disconnected_one_emits.
  - destruct (splitStrToVector fuel storeCode) as [v| |]; [|discriminate..]. injection E as <-.
    eapply emits_trans; [|by apply emits_loop; intros; apply emits_if].
    apply emits_loop. intros s' x Hs Hx. apply emits_if. cbn. by rewrite Hs.
  - injection E as <-. eapply emits_trans; [|by apply emits_loop; intros; apply emits_one].
    apply emits_loop. intros s' x Hs Hx. apply emits_one. cbn. by rewrite Hs.
  - injection E as <-. apply emits_refl.
Qed.

Lemma dispatch_one_emits s header type storeCode strData : emits s (dispatchOneMessage s header type storeCode strData).
Proof.
  unfold dispatchOneMessage. case_bool_decide; [|apply emits_refl].
  apply (emits_found s (λ c, cmpClientId c (up_to_nul storeCode) = true)). by apply emits_one.
Qed.

Lemma emits_keeps s s' : server_ok s → emits s s' → keeps [] s s'.
Proof. intros H (new & -> & _). by apply keeps_emit. Qed.

Lemma exec_keeps e s s' : server_ok s → exec e s = Some s' → once e s → keeps (registration e s) s s'.
Proof.
  intros Hok E Ho. destruct e as [addr socket ip now|addr received now|addr header text now|est newTime
    |fuel header type storeCode strData|header type storeCode strData]; cbn [exec registration once] in *.
  - unfold accept_client in E. destruct (client_at s addr) eqn:Hc; [discriminate|].
    replace (checkClientsIpExist s ip) with false in E by (unfold checkClientsIpExist; by destruct (list_find _ _)).
    injection E as <-. destruct Hok as [H1 H2 H3 H4].
    assert (Es : stores (addClient s (new_HandlerClientSocket addr socket ip now)) = stores s)
      by (unfold stores; cbn [addClient with_clients m_clients m_disconnect_store];
          rewrite ids_of_app, ids_of_cons; by rewrite app_nil_r).
    split; [|intros st; rewrite Es, elem_of_nil; tauto].
    split; [by rewrite Es|done| |]; cbn [addClient with_clients m_clients].
    + rewrite map_app. apply NoDup_app. split; [done|]. split; [|apply NoDup_singleton].
      intros a Ha ->%list_elem_of_singleton. apply list_elem_of_fmap in Ha as (c & Ea & Hin).
      unfold client_at in Hc. destruct (list_find _ _) as [[]|] eqn:F; [discriminate|].
      apply list_find_None in F. rewrite Forall_forall in F. by apply (F c).
    + apply Forall_app. split; [done|]. by repeat constructor.
  - by apply (connect_keeps s addr received now).
  - destruct (client_at s addr) as [c|] eqn:Hc; [|discriminate]. injection E as <-. destruct Ho as [Hnul Honce].
    rewrite (handler_time s c _ text 0 now). apply (handler_keeps s addr); [done|done|done|]. intros. by apply Honce.
  - injection E as <-. destruct s as [l d ef]. by apply (heartbeat_keeps est newTime l [] (mk_server l d ef)).
  - destruct (dispatchMessage fuel s header type storeCode strData) as [s1| |] eqn:D; [|discriminate..].
    injection E as <-. apply emits_keeps; [done|]. by eapply dispatch_emits.
  - injection E as <-. apply emits_keeps; [done|]. apply dispatch_one_emits.
Qed.

Lemma exec_all_keeps l s s' : server_ok s → exec_all l s = Some s' → all_once l s → keeps (registrations l s) s s'.
Proof.
  revert s. induction l as [|e l IH]; intros s Hok E Ho; cbn [exec_all registrations all_once] in *.
  { injection E as <-. by apply keeps_refl. }
  destruct (exec e s) as [s1|] eqn:E1; [|discriminate]. cbn [mbind option_bind] in E. destruct Ho as [Ho1 Ho].
  pose proof (exec_keeps e s s1 Hok E1 Ho1) as K1. eapply keeps_trans; [exact K1|]. apply IH; [apply K1|done|done].
Qed.

Lemma new_server_ok : server_ok new_SocketServer.
Proof. split; cbn; [constructor|by intros ?%elem_of_nil|constructor|constructor]. Qed.

(** C9: no store that has told its code is forgotten, or counted twice.  After
    any history in which every client tells its code once, the stores that have
    told one are exactly the connected and the disconnected ones, each once; so
    a message for all stores, for a list of them or for one is sent to, or
    pushed to the queue of failures for, exactly those it is meant for. *)
Theorem stores_reached_once l s :
  exec_all l new_SocketServer = Some s → all_once l new_SocketServer →
  NoDup (stores s) ∧ (∀ st, st ∈ stores s ↔ st ∈ registrations l new_SocketServer) ∧
  (∀ fuel header storeCode strData, ∃ s', dispatchMessage fuel s header [51] storeCode strData = Ret s' ∧
     reaches header strData s s' (stores s)) ∧
  (∀ fuel header v strData, v ≠ [] → Forall plain_code v → last v ≠ Some [] → head (join_codes v) ≠ Some 32 →
     (length (join_codes v) < fuel)%nat →
     ∃ s', dispatchMessage fuel s header [50] (join_codes v) strData = Ret s' ∧
       reaches header strData s s' (filter (.∈ v) (stores s))) ∧
  (∀ fuel header storeCode strData, storeCode ≠ [] → no_nul storeCode →
     ∃ s', dispatchMessage fuel s header [49] storeCode strData = Ret s' ∧
       reaches header strData s s' (filter (storeCode =.) (stores s))).
Proof.
  intros E Ho. destruct (exec_all_keeps l _ s new_server_ok E Ho) as [Hok Hst]. split_and!.
  - apply Hok.
  - intros st. rewrite Hst. split; [intros [H|H]; [by apply elem_of_nil in H|done]|by right].
  - intros. apply dispatch_all.
  - intros. by apply dispatch_many.
  - intros. by apply dispatch_one_store.
Qed.

Definition sample_store_header (code : Z) : SOCKET_MESSAGE_HEADER := mk_message_header code 60 (replicate 33 0).

(** Two clients, of which the first is lost. *)
Definition sample_history : list event :=
  [Accept 1 5 [49] 100; Connect 1 (Some (sample_store_header 101, [65])) 100;
   Accept 2 6 [50] 101; Connect 2 (Some (sample_store_header 101, [66])) 101;
   Heartbeat (λ c, negb (address c =? 1)) (λ _, 103)].

Lemma stores_reached_once_witness :
  ∃ s s', exec_all sample_history new_SocketServer = Some s ∧
    dispatchMessage 10 s (sample_store_header 103) [50] [65; 44; 66] [7] = Ret s' ∧
    reaches (sample_store_header 103) [7] s s' [[66]; [65]].
Proof.
  destruct (exec_all sample_history new_SocketServer) as [s|] eqn:E; [|by vm_compute in E].
  destruct (stores_reached_once sample_history s E) as (_ & _ & _ & H & _).
  - cbn. split_and!; try done; repeat constructor; try lia; intros _ c [= <-]; done.
  - destruct (H 10%nat (sample_store_header 103) [[65]; [66]] [7]) as (s' & E1 & R); try done.
    + repeat constructor; lia.
    + cbn. lia.
    + exists s, s'. split; [done|]. split; [exact E1|].
      vm_compute in E. injection E as <-. exact R.
Defined.
