(* ===== verification/Md5.v ===== *)
(** [public/Md5.cpp] and [Md5.h]: the MD5 class, which names an exported batch.

    [uint32] is a macro for [unsigned long int]: 32 bits wide in the Windows
    client, 64 on Linux.  Everything below takes that width [w].  The
    reference is RFC 1321, in the formulation with rotating registers, its
    additive constants computed from the sine. *)
From S2P Require Import Prelude.

(** ** The code *)

Module MD5.
Section Code.
Variable w : Z.

Record md5_context := mk_context {
  total0 : Z;
  total1 : Z;
  state : list Z;
  buffer : list Z }.

Definition GET_UINT32 (b : list Z) (i : nat) : Z :=
  nth i b 0 .| (nth (i + 1) b 0 .<< 8) .| (nth (i + 2) b 0 .<< 16) .| (nth (i + 3) b 0 .<< 24).

Definition PUT_UINT32 (n : Z) : list Z :=
  [u8 (n .& 0xFF); u8 ((n .>> 8) .& 0xFF); u8 ((n .>> 16) .& 0xFF); u8 ((n .>> 24) .& 0xFF)].

(** [total] holds a count of bits, [buffer] is whatever the stack holds. *)
Definition md5_starts (garbage : list Z) : md5_context :=
  mk_context 0 0 [0x67452301; 0xEFCDAB89; 0x98BADCFE; 0x10325476] garbage.

(** The macros [S] and [P]; the latter gives the new value of its first register. *)
Definition S32 (x n : Z) : Z := wrap w (x .<< n) .| ((x .& 0xFFFFFFFF) .>> (32 - n)).

Definition P (F : Z → Z → Z → Z) (a b c d x s t : Z) : Z :=
  wrap w (S32 (wrap w (a + (F b c d + x + t))) s + b).

(** The four definitions of the macro [F]. *)
Definition F1 (x y z : Z) : Z := z .^ (x .& (y .^ z)).
Definition F2 (x y z : Z) : Z := y .^ (z .& (x .^ y)).
Definition F3 (x y z : Z) : Z := x .^ y .^ z.
Definition F4 (x y z : Z) : Z := y .^ (x .| wrap w (Z.lnot z)).

Record regs := mk_regs { A : Z; B : Z; C : Z; D : Z }.

(** [P( A, B, C, D, k, s, t )] and its three rotations. *)
Section Steps.
Variable F : Z → Z → Z → Z.
Variable X : list Z.
Definition P_A (k : nat) (s t : Z) (r : regs) : regs :=
  mk_regs (P F (A r) (B r) (C r) (D r) (nth k X 0) s t) (B r) (C r) (D r).
Definition P_D (k : nat) (s t : Z) (r : regs) : regs :=
  mk_regs (A r) (B r) (C r) (P F (D r) (A r) (B r) (C r) (nth k X 0) s t).
Definition P_C (k : nat) (s t : Z) (r : regs) : regs :=
  mk_regs (A r) (B r) (P F (C r) (D r) (A r) (B r) (nth k X 0) s t) (D r).
Definition P_B (k : nat) (s t : Z) (r : regs) : regs :=
  mk_regs (A r) (P F (B r) (C r) (D r) (A r) (nth k X 0) s t) (C r) (D r).
End Steps.

(** The statements of [md5_process] between the two blocks of assignments. *)
Definition process_statements (X : list Z) : list (regs → regs) :=
  [P_A F1 X  0  7 0xD76AA478; P_D F1 X  1 12 0xE8C7B756; P_C F1 X  2 17 0x242070DB; P_B F1 X  3 22 0xC1BDCEEE;
   P_A F1 X  4  7 0xF57C0FAF; P_D F1 X  5 12 0x4787C62A; P_C F1 X  6 17 0xA8304613; P_B F1 X  7 22 0xFD469501;
   P_A F1 X  8  7 0x698098D8; P_D F1 X  9 12 0x8B44F7AF; P_C F1 X 10 17 0xFFFF5BB1; P_B F1 X 11 22 0x895CD7BE;
   P_A F1 X 12  7 0x6B901122; P_D F1 X 13 12 0xFD987193; P_C F1 X 14 17 0xA679438E; P_B F1 X 15 22 0x49B40821;
   P_A F2 X  1  5 0xF61E2562; P_D F2 X  6  9 0xC040B340; P_C F2 X 11 14 0x265E5A51; P_B F2 X  0 20 0xE9B6C7AA;
   P_A F2 X  5  5 0xD62F105D; P_D F2 X 10  9 0x02441453; P_C F2 X 15 14 0xD8A1E681; P_B F2 X  4 20 0xE7D3FBC8;
   P_A F2 X  9  5 0x21E1CDE6; P_D F2 X 14  9 0xC33707D6; P_C F2 X  3 14 0xF4D50D87; P_B F2 X  8 20 0x455A14ED;
   P_A F2 X 13  5 0xA9E3E905; P_D F2 X  2  9 0xFCEFA3F8; P_C F2 X  7 14 0x676F02D9; P_B F2 X 12 20 0x8D2A4C8A;
   P_A F3 X  5  4 0xFFFA3942; P_D F3 X  8 11 0x8771F681; P_C F3 X 11 16 0x6D9D6122; P_B F3 X 14 23 0xFDE5380C;
   P_A F3 X  1  4 0xA4BEEA44; P_D F3 X  4 11 0x4BDECFA9; P_C F3 X  7 16 0xF6BB4B60; P_B F3 X 10 23 0xBEBFBC70;
   P_A F3 X 13  4 0x289B7EC6; P_D F3 X  0 11 0xEAA127FA; P_C F3 X  3 16 0xD4EF3085; P_B F3 X  6 23 0x04881D05;
   P_A F3 X  9  4 0xD9D4D039; P_D F3 X 12 11 0xE6DB99E5; P_C F3 X 15 16 0x1FA27CF8; P_B F3 X  2 23 0xC4AC5665;
   P_A F4 X  0  6 0xF4292244; P_D F4 X  7 10 0x432AFF97; P_C F4 X 14 15 0xAB9423A7; P_B F4 X  5 21 0xFC93A039;
   P_A F4 X 12  6 0x655B59C3; P_D F4 X  3 10 0x8F0CCC92; P_C F4 X 10 15 0xFFEFF47D; P_B F4 X  1 21 0x85845DD1;
   P_A F4 X  8  6 0x6FA87E4F; P_D F4 X 15 10 0xFE2CE6E0; P_C F4 X  6 15 0xA3014314; P_B F4 X 13 21 0x4E0811A1;
   P_A F4 X  4  6 0xF7537E82; P_D F4 X 11 10 0xBD3AF235; P_C F4 X  2 15 0x2AD7D2BB; P_B F4 X  9 21 0xEB86D391].

Definition run_steps (l : list (regs → regs)) (r : regs) : regs := foldl (λ r p, p r) r l.

Definition md5_process (st : list Z) (data : list Z) : list Z :=
  let X := map (GET_UINT32 data) [0; 4; 8; 12; 16; 20; 24; 28; 32; 36; 40; 44; 48; 52; 56; 60]%nat in
  let r := run_steps (process_statements X) (mk_regs (nth 0 st 0) (nth 1 st 0) (nth 2 st 0) (nth 3 st 0)) in
  [wrap w (nth 0 st 0 + A r); wrap w (nth 1 st 0 + B r);
   wrap w (nth 2 st 0 + C r); wrap w (nth 3 st 0 + D r)].

(** [memcpy(buf + off, src, n)]. *)
Definition memcpy_at (buf : list Z) (off : Z) (src : list Z) (n : Z) : list Z :=
  take (Z.to_nat off) buf ++ take (Z.to_nat n) src ++ drop (Z.to_nat (off + n)) buf.

(** [while( length >= 64 )], giving the state, [input] and [length]. *)
Fixpoint block_loop (fuel : nat) (st input : list Z) (length : Z) : run (list Z * list Z * Z) :=
  match fuel with
  | O => NoFuel
  | S fuel =>
      if 64 <=? length then block_loop fuel (md5_process st input) (input @+ 64) (length - 64)
      else Ret (st, input, length)
  end.

(** [total] and the test of a carry out of its low word. *)
Definition count_bits (ctx : md5_context) (length : Z) : Z * Z :=
  let t0 := wrap w (total0 ctx + wrap w (length .<< 3)) .& 0xFFFFFFFF in
  (t0, wrap w (wrap w (total1 ctx + (length .>> 29)) + (if t0 <? wrap w (length .<< 3) then 1 else 0))).

Definition md5_update (ctx : md5_context) (input : list Z) (length : Z) : run md5_context :=
  if length =? 0 then Ret ctx else
  let l0 := (total0 ctx .>> 3) .& 0x3F in
  let fill := 64 - l0 in
  let '(t0, t1) := count_bits ctx length in
  let '(st, buf, input, length, l0) :=
    if negb (l0 =? 0) && (fill <=? length) then
      let buf := memcpy_at (buffer ctx) l0 input fill in
      (md5_process (state ctx) buf, buf, input @+ fill, length - fill, 0)
    else (state ctx, buffer ctx, input, length, l0) in
  '(st, input, length) ← block_loop (S (Z.to_nat length)) st input length;
  mret (mk_context t0 t1 st (if length =? 0 then buf else memcpy_at buf l0 input length)).

Definition md5_padding : list Z := 0x80 :: replicate 63 0.

Definition md5_finish (ctx : md5_context) : run (list Z) :=
  let msglen := PUT_UINT32 (total0 ctx) ++ PUT_UINT32 (total1 ctx) in
  let last := (total0 ctx .>> 3) .& 0x3F in
  let padn := if last <? 56 then 56 - last else 120 - last in
  ctx ← md5_update ctx md5_padding padn;
  ctx ← md5_update ctx msglen 8;
  mret (PUT_UINT32 (nth 0 (state ctx) 0) ++ PUT_UINT32 (nth 1 (state ctx) 0) ++
        PUT_UINT32 (nth 2 (state ctx) 0) ++ PUT_UINT32 (nth 3 (state ctx) 0)).

(** The sixteen bytes written at the start of [m_data]; [bufferlen] is an [int]. *)
Definition GenerateMD5 (garbage buf : list Z) (bufferlen : Z) : run (list Z) :=
  ctx ← md5_update (md5_starts garbage) buf (wrap w bufferlen);
  md5_finish ctx.
End Code.

(** The class's [m_data]: its first sixteen bytes, the only ones the digest, its
    text and [operator==] use. *)
Definition hex_digit (d : Z) : Z := if d <? 10 then 48 + d else 87 + d.

(** [sprintf("%02x")] of each byte. *)
Definition ToString (m_data : list Z) : list Z :=
  concat (map (λ b, [hex_digit (b / 16); hex_digit (b mod 16)]) (take 16 m_data)).

(** [HexMap]: the value of a lower case digit. *)
Definition HexMap (c : Z) : option Z :=
  if (48 <=? c) && (c <=? 57) then Some (c - 48)
  else if (97 <=? c) && (c <=? 102) then Some (c - 87) else None.

(** The loop's own test compares a character with the two-character constant
    ['/0'], which none equals: the first character that is no digit ends it, the
    terminator at the latest. *)
Fixpoint httoi_loop (s : list Z) (firsttime : bool) (result : Z) : Z :=
  match s with
  | [] => result
  | c :: s =>
      match HexMap c with
      | Some v => httoi_loop s false ((if firsttime then result else s32 (result .<< 4)) .| v)
      | None => result
      end
  end.

(** [value] is a buffer; the copy [strdup] makes ends at its terminator. *)
Definition httoi (value : list Z) : run Z :=
  s ← of_option (c_string value);
  mret (httoi_loop (if bool_decide (take 2 s = [48; 88]) then drop 2 s else s) true 0).

(** [buf] has ten bytes and [strncpy] writes two: [garbage j] is what the other
    eight hold in turn [j]. *)
Fixpoint text_loop (n : nat) (j : nat) (garbage : nat → list Z) (md5src : list Z) : run (list Z) :=
  match n with
  | O => mret []
  | S n =>
      match md5src with
      | c0 :: c1 :: md5src =>
          v ← httoi ((if c0 =? 0 then [0; 0] else [c0; c1]) ++ garbage j);
          rest ← text_loop n (S j) garbage md5src;
          mret (u8 v :: rest)
      | _ => Undef
      end
  end.

(** [MD5(const char* md5src)], on a buffer that holds the string. *)
Definition MD5_text (garbage : nat → list Z) (md5src : list Z) : run (list Z) :=
  if bool_decide (head md5src = Some 0) then mret (replicate 16 0)
  else text_loop 16 0 garbage md5src.

(** [operator +] and [operator ==]. *)
Definition MD5_plus (m m' : list Z) : list Z := take 16 (zip_with Z.lxor m m').

Definition MD5_eq (m m' : list Z) : bool := bool_decide (take 16 m = take 16 m').
End MD5.

(** ** RFC 1321 *)

Module Rfc.
(** The sine in fixed point: [scale] times [sin n], by 125 terms of its series,
    whose last is below [2^-60] for [n <= 64]. *)
Definition scale : Z := 2 ^ 200.

Fixpoint sine_series (terms : nat) (k n term : Z) : Z :=
  match terms with
  | O => 0
  | S t => term + sine_series t (k + 2) n (- (term * n * n) / ((k + 1) * (k + 2)))
  end.

(** [floor(2^32 * |sin (i + 1)|)]. *)
Definition sine_constant (i : nat) : Z :=
  let n := Z.of_nat (i + 1) in
  Z.abs (sine_series 125 1 n (n * scale)) * 2 ^ 32 / scale.

Definition T : list Z := Eval vm_compute in map sine_constant (seq 0 64).

Definition low (x : Z) : Z := x mod 2 ^ 32.

Definition rotl (x n : Z) : Z := low (x .<< n) .| (x .>> (32 - n)).

Definition f (i : nat) (b c d : Z) : Z :=
  match (i / 16)%nat with
  | O => (b .& c) .| (Z.lnot b .& d)
  | 1%nat => (b .& d) .| (c .& Z.lnot d)
  | 2%nat => b .^ c .^ d
  | _ => c .^ (b .| low (Z.lnot d))
  end.

Definition g (i : nat) : nat :=
  match (i / 16)%nat with
  | O => i
  | 1%nat => (5 * i + 1) mod 16
  | 2%nat => (3 * i + 5) mod 16
  | _ => (7 * i) mod 16
  end.

Definition shift (i : nat) : Z :=
  nth (i mod 4) (nth (i / 16) [[7; 12; 17; 22]; [5; 9; 14; 20]; [4; 11; 16; 23]; [6; 10; 15; 21]] []) 0.

Definition word4 := (Z * Z * Z * Z)%type.

Definition step (X : list Z) (v : word4) (i : nat) : word4 :=
  let '(a, b, c, d) := v in
  (d, low (b + rotl (low (a + f i b c d + nth (g i) X 0 + nth i T 0)) (shift i)), b, c).

(** The sixteen little-endian words of a block. *)
Definition words (data : list Z) : list Z :=
  map (λ i, le_combine (take 4 (drop (4 * i) data))) (seq 0 16).

Definition compress (v : word4) (data : list Z) : word4 :=
  let '(a, b, c, d) := v in
  let '(a', b', c', d') := foldl (step (words data)) v (seq 0 64) in
  (low (a + a'), low (b + b'), low (c + c'), low (d + d')).

Fixpoint compress_all (n : nat) (v : word4) (data : list Z) : word4 :=
  match n with
  | O => v
  | S n => compress_all n (compress v (take 64 data)) (drop 64 data)
  end.

Definition rfc_init : word4 := (0x67452301, 0xEFCDAB89, 0x98BADCFE, 0x10325476).

(** A one bit, zeros up to eight bytes before a multiple of 64, the bit count. *)
Definition padded (m : list Z) : list Z :=
  let n := Z.of_nat (length m) in
  m ++ [0x80] ++ replicate (Z.to_nat ((55 - n) mod 64)) 0 ++ le_split 8 (8 * n).

Definition output (v : word4) : list Z :=
  let '(a, b, c, d) := v in le_split 4 a ++ le_split 4 b ++ le_split 4 c ++ le_split 4 d.

Definition md5 (m : list Z) : list Z :=
  output (compress_all (length (padded m) / 64) rfc_init (padded m)).
End Rfc.

Import MD5 Rfc.

(** ** Words *)

Section Words.
Context (w : Z) (Hw : 32 <= w).

(** Bit by bit: [low] and [wrap] keep the bits below their width. *)
Lemma low_bits x i : 0 <= i → Z.testbit (low x) i = (i <? 32) && Z.testbit x i.
Proof.
  intros Hi. unfold low. destruct (Z.ltb_spec i 32) as [H|H].
  - rewrite Z.mod_pow2_bits_low; [done|lia].
  - rewrite Z.mod_pow2_bits_high; [done|lia].
Qed.

Lemma wrap_bits x i : 0 <= i → Z.testbit (wrap w x) i = (i <? w) && Z.testbit x i.
Proof.
  intros Hi. unfold wrap. destruct (Z.ltb_spec i w) as [H|H].
  - rewrite Z.mod_pow2_bits_low; [done|lia].
  - rewrite Z.mod_pow2_bits_high; [done|lia].
Qed.

Ltac bitwise :=
  let j := fresh in let Hj := fresh in
  apply Z.bits_inj'; intros j Hj;
  repeat first [rewrite low_bits by lia | rewrite wrap_bits by lia | rewrite Z.lxor_spec | rewrite Z.land_spec
               | rewrite Z.lor_spec | rewrite Z.lnot_spec by lia ];
  repeat match goal with |- context [?a <? ?b] => destruct (Z.ltb_spec a b); [|try lia] end;
  repeat match goal with |- context [Z.testbit ?x ?j] => destruct (Z.testbit x j) end;
  try reflexivity; try lia.

Lemma low_wrap x : low (wrap w x) = low x.
Proof. bitwise. Qed.

Lemma low_low x : low (low x) = low x.
Proof. bitwise. Qed.

Lemma low_add x y : low (low x + low y) = low (x + y).
Proof. unfold low. by rewrite <- Z.add_mod by lia. Qed.

Definition F_ok (F : Z → Z → Z → Z) (i : nat) : Prop :=
  ∀ x y z, low (F x y z) = f i (low x) (low y) (low z).

Lemma F1_ok i : (i / 16 = 0)%nat → F_ok F1 i.
Proof. intros H x y z. unfold f, F1. rewrite H. bitwise. Qed.

Lemma F2_ok i : (i / 16 = 1)%nat → F_ok F2 i.
Proof. intros H x y z. unfold f, F2. rewrite H. bitwise. Qed.

Lemma F3_ok i : (i / 16 = 2)%nat → F_ok F3 i.
Proof. intros H x y z. unfold f, F3. rewrite H. bitwise. Qed.

Lemma F4_ok i : (i / 16 = 3)%nat → F_ok (F4 w) i.
Proof. intros H x y z. unfold f, F4. rewrite H. bitwise. Qed.

Lemma S32_low x n : 0 < n < 32 → low (S32 w x n) = rotl (low x) n.
Proof.
  intros Hn. unfold S32, rotl. apply Z.bits_inj'; intros i Hi.
  change 0xFFFFFFFF with (Z.ones 32).
  rewrite low_bits, !Z.lor_spec, wrap_bits, low_bits by lia.
  rewrite !Z.shiftr_spec, !Z.shiftl_spec by lia.
  rewrite Z.land_ones by lia. change (x mod 2 ^ 32) with (low x).
  rewrite (low_bits _ (i + _)) by lia.
  destruct (Z.lt_ge_cases i n) as [L|L].
  - rewrite !(Z.testbit_neg_r _ (i - n)) by lia. rewrite !andb_false_r.
    destruct (Z.ltb_spec i 32); [done|lia].
  - rewrite (low_bits _ (i - n)) by lia.
    repeat match goal with |- context [?a <? ?b] => destruct (Z.ltb_spec a b); try lia end; done.
Qed.

Lemma P_low F i a b c d x s t : F_ok F i → 0 < s < 32 →
  low (P w F a b c d x s t) =
  low (low b + rotl (low (low a + f i (low b) (low c) (low d) + x + t)) s).
Proof.
  intros HF Hs. unfold P. rewrite low_wrap, <- HF.
  assert (low (low a + low (F b c d) + x + t) = low (wrap w (a + (F b c d + x + t)))) as ->
    by (rewrite low_wrap; unfold low; zpow; zdm).
  rewrite <- S32_low by done. unfold low. zpow. zdm.
Qed.

(** ** Blocks *)

(** The registers in the order the [i]-th step of the RFC sees them. *)
Definition turned (i : nat) (r : regs) : word4 :=
  match (i mod 4)%nat with
  | O => (low (A r), low (B r), low (C r), low (D r))
  | 1%nat => (low (D r), low (A r), low (B r), low (C r))
  | 2%nat => (low (C r), low (D r), low (A r), low (B r))
  | _ => (low (B r), low (C r), low (D r), low (A r))
  end.

(** The statement [p] is the [i]-th step. *)
Definition good (X : list Z) (i : nat) (p : regs → regs) : Prop :=
  ∀ r, turned (S i) (p r) = step X (turned i r) i.

Fixpoint all_good (X : list Z) (i : nat) (l : list (regs → regs)) : Prop :=
  match l with [] => True | p :: l => good X i p ∧ all_good X (S i) l end.

Lemma run_good X l i r : all_good X i l →
  turned (i + length l) (run_steps l r) = foldl (step X) (turned i r) (seq i (length l)).
Proof.
  revert i r. induction l as [|p l IH]; intros i r; [intros _; by rewrite Nat.add_0_r|].
  intros [Hp Hl]. cbn [length seq foldl run_steps]. rewrite <- Nat.add_succ_comm.
  change (foldl _ (p r) l) with (run_steps l (p r)). rewrite IH by done. by rewrite Hp.
Qed.

(** What the macro's arguments must be at step [i], whose place in its group of
    four is [n]. *)
Definition fits (F : Z → Z → Z → Z) (i n k : nat) (s t : Z) : Prop :=
  F_ok F i ∧ (i mod 4 = n)%nat ∧ (S i mod 4 = S n mod 4)%nat ∧
  k = g i ∧ s = shift i ∧ t = nth i T 0 ∧ 0 < s < 32.

Ltac good :=
  intros (HF & Hi & Hi' & -> & Hs & -> & Hr) r; unfold turned, step; rewrite Hi, Hi'; cbn;
  erewrite P_low by done; by rewrite Hs.

Lemma good_A F X i k s t : fits F i 0 k s t → good X i (P_A w F X k s t).
Proof. good. Qed.

Lemma good_D F X i k s t : fits F i 1 k s t → good X i (P_D w F X k s t).
Proof. good. Qed.

Lemma good_C F X i k s t : fits F i 2 k s t → good X i (P_C w F X k s t).
Proof. good. Qed.

Lemma good_B F X i k s t : fits F i 3 k s t → good X i (P_B w F X k s t).
Proof. good. Qed.

Lemma process_statements_good X : all_good X 0 (process_statements w X).
Proof.
  unfold process_statements. cbn [all_good].
  repeat match goal with
  | |- _ ∧ _ => split
  | |- True => exact I
  | |- good _ _ (P_A _ _ _ _ _ _) => apply good_A
  | |- good _ _ (P_B _ _ _ _ _ _) => apply good_B
  | |- good _ _ (P_C _ _ _ _ _ _) => apply good_C
  | |- good _ _ (P_D _ _ _ _ _ _) => apply good_D
  | |- fits ?F ?i ?n ?k ?s ?t =>
      split_and!; [first [apply F1_ok; reflexivity | apply F2_ok; reflexivity
                         | apply F3_ok; reflexivity | apply F4_ok; reflexivity]
                  | reflexivity .. | lia | lia]
  end.
Qed.

Definition view (st : list Z) : word4 :=
  (low (nth 0 st 0), low (nth 1 st 0), low (nth 2 st 0), low (nth 3 st 0)).

Lemma GET_UINT32_words data i : bytes_ok data → (i + 4 <= length data)%nat →
  GET_UINT32 data i = le_combine (take 4 (drop i data)).
Proof.
  intros Hd Hi. unfold GET_UINT32. rewrite <- (Nat.add_0_r i) at 1. rewrite <- !(nth_skipn i).
  assert (bytes_ok (drop i data)) as Hb by by apply Forall_drop.
  assert (4 <= length (drop i data))%nat as Hl by (rewrite length_drop; lia).
  clear Hd Hi. destruct (drop i data) as [|b0 [|b1 [|b2 [|b3 l]]]]; cbn [length] in Hl; try lia.
  split_bytes Hb. cbn [nth take le_combine]. rewrite firstn_0. cbn [le_combine].
  unfold is_byte in *. rewrite !Z.shiftl_mul_pow2 by lia. zpow.
  rewrite (Z.lor_comm b0), (lor_add 8 (b1 * _)) by (zpow; zdm).
  rewrite (Z.lor_comm _ (b2 * _)), (lor_add 16 (b2 * _)) by (zpow; zdm).
  rewrite (Z.lor_comm _ (b3 * _)), (lor_add 24 (b3 * _)) by (zpow; zdm). lia.
Qed.

Lemma process_low st data : bytes_ok data → (64 <= length data)%nat →
  view (md5_process w st data) = compress (view st) data.
Proof.
  intros Hd Hl. unfold md5_process, compress, view at 2 3. cbn zeta.
  set (X := map (GET_UINT32 data) _).
  assert (X = words data) as EX.
  { unfold X, words. cbn [map seq]. rewrite !GET_UINT32_words by (done || lia). done. }
  rewrite <- EX.
  pose proof (run_good X (process_statements w X) 0
    (mk_regs (nth 0 st 0) (nth 1 st 0) (nth 2 st 0) (nth 3 st 0)) (process_statements_good X)) as E.
  change (length (process_statements w X)) with 64%nat in E. cbn [turned Nat.modulo Nat.divmod] in E.
  change (turned 0 ?r) with (low (A r), low (B r), low (C r), low (D r)) in E.
  cbn [A B C D] in E. rewrite <- E.
  set (r := run_steps _ _). change (turned (0 + 64) r) with (low (A r), low (B r), low (C r), low (D r)).
  unfold view. cbn [nth]. by rewrite !low_wrap, !low_add.
Qed.

Lemma compress_take v data : compress v (take 64 data) = compress v data.
Proof.
  unfold compress. destruct v as [[[a b] c] d]. replace (words (take 64 data)) with (words data); [done|].
  unfold words. apply map_ext_in. intros i Hi%in_seq.
  rewrite skipn_firstn_comm, take_take. by rewrite Nat.min_l by lia.
Qed.

Lemma compress_all_app n k v m d : length m = (64 * n)%nat →
  compress_all (n + k) v (m ++ d) = compress_all k (compress_all n v m) d.
Proof.
  revert v m. induction n as [|n IH]; intros v m Hm.
  - by destruct m.
  - cbn [Nat.add compress_all]. rewrite take_app_le, drop_app_le by lia.
    apply IH. rewrite length_drop. lia.
Qed.

Lemma compress_one v d : (64 <= length d)%nat → compress_all 1 v d = compress v d.
Proof. intros. cbn [compress_all]. apply compress_take. Qed.

Lemma compress_all_take n v d : (64 * n <= length d)%nat →
  compress_all n v (take (64 * n) d) = compress_all n v d.
Proof.
  intros H. rewrite <- (take_drop (64 * n) d) at 2.
  rewrite <- (Nat.add_0_r n) at 3. rewrite compress_all_app; [done|]. rewrite length_take. lia.
Qed.

Lemma loop_blocks fuel st input len :
  bytes_ok input → 0 <= len <= Z.of_nat (length input) → (Z.to_nat (len / 64) < fuel)%nat →
  let n := Z.to_nat (len / 64) in
  ∃ st', block_loop w fuel st input len = Ret (st', drop (64 * n) input, len mod 64) ∧
    view st' = compress_all n (view st) (take (64 * n) input).
Proof.
  revert st input len. induction fuel as [|fuel IH]; intros st input len Hb Hl Hf; [lia|].
  cbn zeta. cbn [block_loop]. destruct (Z.leb_spec 64 len) as [H|H].
  - assert (Z.to_nat (len / 64) = S (Z.to_nat ((len - 64) / 64))) as -> by zdm.
    edestruct (IH (md5_process w st input) (input @+ 64) (len - 64)) as (st' & E & V).
    { by apply Forall_drop. } { rewrite length_drop. lia. } { zdm. }
    exists st'. rewrite E, V, process_low by (done || lia). split.
    + do 2 f_equal; [|zdm]. rewrite drop_drop. f_equal. f_equal. lia.
    + set (k := Z.to_nat ((len - 64) / 64)). change (compress_all (S k) ?v ?d) with
        (compress_all k (compress v (take 64 d)) (drop 64 d)).
      replace (64 * S k)%nat with (64 + 64 * k)%nat by lia.
      rewrite <- firstn_skipn_comm, take_take, Nat.min_l, compress_take by lia. done.
  - rewrite Z.div_small, Z.mod_small by lia. exists st. split; [|done]. by rewrite drop_0.
Qed.

(** ** Messages taken in *)

(** The message [m] so far: its full blocks are in the state, the rest [tail] is
    at the start of the buffer. *)
Definition pending (st buf m : list Z) : Prop :=
  ∃ n full tail, m = full ++ tail ∧ length full = (64 * n)%nat ∧ (length tail < 64)%nat ∧
    bytes_ok tail ∧ view st = compress_all n rfc_init full ∧
    length buf = 64%nat ∧ take (length tail) buf = tail.

Record absorbed (ctx : md5_context) (m : list Z) : Prop := {
  ab_pending : pending (state ctx) (buffer ctx) m;
  ab_total0 : total0 ctx = low (8 * Z.of_nat (length m));
  ab_total1 : total1 ctx = wrap w (8 * Z.of_nat (length m) / 2 ^ 32) }.

Lemma pending_block st m n full : m = full → length full = (64 * n)%nat →
  view st = compress_all n rfc_init full → ∀ buf, length buf = 64%nat → pending st buf m.
Proof.
  intros -> Hf V buf Hb. exists n, full, []. split_and!; try done.
  - by rewrite app_nil_r.
  - cbn. lia.
Qed.

Lemma length_memcpy_at buf off src n : length buf = 64%nat → 0 <= off → 0 <= n →
  n <= Z.of_nat (length src) → off + n <= 64 → length (memcpy_at buf off src n) = 64%nat.
Proof. intros. unfold memcpy_at. rewrite !length_app, !length_take, length_drop. lia. Qed.

(** Bytes that do not fill a block are put behind those that wait. *)
Lemma pending_memcpy st buf m src n : pending st buf m → bytes_ok src →
  0 <= n <= Z.of_nat (length src) → Z.of_nat (length m) mod 64 + n < 64 →
  pending st (memcpy_at buf (Z.of_nat (length m) mod 64) src n) (m ++ take (Z.to_nat n) src).
Proof.
  intros (k & full & tail & -> & Hf & Ht & Hb & V & Hl & Htk) Hs Hn Hr.
  assert (Z.of_nat (length (full ++ tail)) mod 64 = Z.of_nat (length tail)) as El
    by (rewrite length_app; zdm).
  rewrite El in *. exists k, full, (tail ++ take (Z.to_nat n) src).
  assert (length (take (Z.to_nat n) src) = Z.to_nat n) as Lt by (rewrite length_take; lia).
  split_and!; try done.
  - by rewrite app_assoc.
  - rewrite length_app, Lt. lia.
  - apply Forall_app. split; [done|]. by apply Forall_take.
  - apply length_memcpy_at; lia.
  - unfold memcpy_at. rewrite Nat2Z.id, Htk, app_assoc. by apply take_app_length.
Qed.

(** From a block boundary on: the loop, and the copy of what is left. *)
Lemma pending_blocks st buf m n input len :
  length m = (64 * n)%nat → view st = compress_all n rfc_init m → length buf = 64%nat →
  bytes_ok input → 0 <= len <= Z.of_nat (length input) →
  ∃ st' input', block_loop w (S (Z.to_nat len)) st input len = Ret (st', input', len mod 64) ∧
    pending st' (if len mod 64 =? 0 then buf else memcpy_at buf 0 input' (len mod 64))
      (m ++ take (Z.to_nat len) input).
Proof.
  intros Hm V Hb Hi Hl.
  destruct (loop_blocks (S (Z.to_nat len)) st input len) as (st' & E & V'); [done..|zdm|].
  set (k := Z.to_nat (len / 64)) in *. exists st', (drop (64 * k) input). split; [done|].
  assert (Z.to_nat len = (64 * k + Z.to_nat (len mod 64))%nat) as El by (unfold k; zdm).
  assert (length (m ++ take (64 * k) input) = 64 * (n + k))%nat as Lb
    by (rewrite length_app, length_take; lia).
  assert (view st' = compress_all (n + k) rfc_init (m ++ take (64 * k) input)) as V''
    by (rewrite V', V; symmetry; by apply compress_all_app).
  pose proof (pending_block st' _ (n + k) _ eq_refl Lb V'' buf Hb) as Pb.
  destruct (Z.eqb_spec (len mod 64) 0) as [Hz|Hz].
  - rewrite El, Hz, Nat.add_0_r. done.
  - assert (Z.of_nat (length (m ++ take (64 * k) input)) mod 64 = 0) as R0 by (rewrite Lb; zdm).
    pose proof (pending_memcpy _ _ _ (drop (64 * k) input) (len mod 64) Pb) as Pm.
    rewrite R0 in Pm. rewrite El, <- take_take_drop, app_assoc.
    apply Pm; [by apply Forall_drop|rewrite length_drop; zdm|zdm].
Qed.

(** [length << 3] as a count below [2^32], which is what the carry test expects:
    always so in 32 bits, below 512 megabytes in 64. *)
Definition counted (len : Z) : Prop := wrap w (len .<< 3) = low (8 * len).

Lemma wrap_add_l x y : wrap w (wrap w x + y) = wrap w (x + y).
Proof. unfold wrap. apply Z.add_mod_idemp_l. apply Z.pow_nonzero; lia. Qed.

Lemma count_bits_ok ctx m len : absorbed ctx m → 0 <= len → counted len →
  count_bits w ctx len =
  (low (8 * (Z.of_nat (length m) + len)), wrap w (8 * (Z.of_nat (length m) + len) / 2 ^ 32)).
Proof.
  intros [_ E0 E1] Hl Hc. unfold count_bits. cbn zeta. rewrite E0, E1, Hc.
  change 0xFFFFFFFF with (Z.ones 32). rewrite Z.land_ones by lia.
  change (?x mod 2 ^ 32) with (low x). rewrite low_wrap, low_add.
  rewrite <- Z.mul_add_distr_l. f_equal. rewrite wrap_add_l, <- Z.add_assoc, wrap_add_l. f_equal.
  rewrite Z.shiftr_div_pow2 by lia. generalize (Z.of_nat (length m)). intros z. unfold low. zpow.
  case_match; zdm.
Qed.

Lemma waiting_bytes n : (low (8 * n) .>> 3) .& 0x3F = n mod 64.
Proof.
  change 0x3F with (Z.ones 6). rewrite Z.land_ones, Z.shiftr_div_pow2 by lia. unfold low. zpow. zdm.
Qed.

Lemma md5_update_absorbs ctx m input len :
  absorbed ctx m → bytes_ok input → 0 <= len <= Z.of_nat (length input) → counted len →
  ∃ ctx', md5_update w ctx input len = Ret ctx' ∧ absorbed ctx' (m ++ take (Z.to_nat len) input).
Proof.
  intros Ha Hi Hl Hc. unfold md5_update. destruct (Z.eqb_spec len 0) as [->|Hz].
  { exists ctx. by rewrite take_0, app_nil_r. }
  cbn zeta. rewrite (count_bits_ok ctx m), (ab_total0 _ _ Ha), waiting_bytes by (done || lia).
  set (l0 := Z.of_nat (length m) mod 64).
  assert (∀ st' buf', pending st' buf' (m ++ take (Z.to_nat len) input) →
    absorbed (mk_context (low (8 * (Z.of_nat (length m) + len)))
      (wrap w (8 * (Z.of_nat (length m) + len) / 2 ^ 32)) st' buf') (m ++ take (Z.to_nat len) input)) as K.
  { intros st' buf' Hp. assert (Z.of_nat (length m) + len =
      Z.of_nat (length (m ++ take (Z.to_nat len) input))) as ->
      by (rewrite length_app, length_take; lia). by split. }
  destruct (ab_pending _ _ Ha) as (n & full & tail & Em & Hf & Ht & Hb & V & Hbuf & Htk).
  assert (l0 = Z.of_nat (length tail)) as El by (unfold l0; rewrite Em, length_app; zdm).
  destruct (negb (l0 =? 0) && (64 - l0 <=? len)) eqn:Hcase.
  - apply andb_prop in Hcase as [Hnz%negb_true_iff%Z.eqb_neq Hfill%Z.leb_le].
    set (fill := 64 - l0) in *. set (buf := memcpy_at (buffer ctx) l0 input fill).
    assert (buf = tail ++ take (Z.to_nat fill) input) as Ebuf.
    { unfold buf, memcpy_at. rewrite El, Nat2Z.id, Htk.
      rewrite (drop_ge (buffer ctx)) by lia. by rewrite app_nil_r. }
    assert (length buf = 64%nat) as Lbuf by (unfold buf; apply length_memcpy_at; lia).
    assert (bytes_ok buf) as Bbuf by (rewrite Ebuf; apply Forall_app; split; [done|by apply Forall_take]).
    destruct (pending_blocks (md5_process w (state ctx) buf) buf (full ++ buf) (n + 1)
      (input @+ fill) (len - fill)) as (st' & input' & E & Hp).
    { rewrite length_app. lia. }
    { rewrite process_low, V, compress_all_app by (done || lia). symmetry. apply compress_one. lia. }
    { done. } { by apply Forall_drop. } { rewrite length_drop. lia. }
    rewrite E. cbn [mbind run_bind]. eexists. split; [done|]. apply K.
    replace (m ++ take (Z.to_nat len) input)
      with ((full ++ buf) ++ take (Z.to_nat (len - fill)) (input @+ fill)); [done|].
    rewrite Em, Ebuf, <- !app_assoc. do 2 f_equal.
    rewrite take_take_drop. f_equal. lia.
  - destruct (Z.eqb_spec l0 0) as [Z0|Z0].
    + assert (m = full) as Emf by (destruct tail; [by rewrite Em, app_nil_r|cbn in El; lia]).
      rewrite <- Emf in Hf, V.
      destruct (pending_blocks (state ctx) (buffer ctx) m n input len) as (st' & input' & E & Hp);
        [done..|].
      rewrite E, Z0. cbn [mbind run_bind]. eexists. split; [done|]. by apply K.
    + cbn [negb andb] in Hcase. apply Z.leb_gt in Hcase. cbn [block_loop].
      destruct (Z.leb_spec 64 len); [lia|]. cbn [mbind run_bind].
      destruct (Z.eqb_spec len 0); [done|]. eexists. split; [done|]. apply K.
      apply pending_memcpy; [apply (ab_pending _ _ Ha)|done|lia|]. fold l0. lia.
Qed.

(** ** Digests *)

Lemma le_split_low v : le_split 4 (low v) = le_split 4 v.
Proof. unfold low. cbn [le_split]. zpow. repeat (f_equal; [zdm|]). f_equal; zdm. Qed.

Lemma PUT_UINT32_split n : PUT_UINT32 n = le_split 4 n.
Proof.
  unfold PUT_UINT32. cbn [le_split]. change 0xFF with (Z.ones 8).
  rewrite !Z.land_ones, !Z.shiftr_div_pow2 by lia. unfold wrap. zpow.
  repeat (f_equal; [zdm|]). f_equal; zdm.
Qed.

Lemma le_split_8 v : le_split 8 v = le_split 4 v ++ le_split 4 (v / 2 ^ 32).
Proof.
  assert (v / 2 ^ 32 = v / 256 / 256 / 256 / 256) as -> by (zpow; zdm). done.
Qed.

Lemma counted_small len : 0 <= len < 2 ^ 29 → counted len.
Proof.
  intros H. unfold counted, low. rewrite Z.shiftl_mul_pow2 by lia.
  assert (len * 2 ^ 3 < 2 ^ 32) by (zpow; lia).
  assert (2 ^ 32 <= 2 ^ w) by (apply Z.pow_le_mono_r; lia).
  rewrite wrap_small by lia. zpow. zdm.
Qed.

Lemma length_padded m : (length (padded m) = 64 * (length (padded m) / 64))%nat.
Proof.
  unfold padded. cbn zeta. rewrite !length_app, length_replicate, length_le_split. cbn [length].
  assert (∃ k, length m + (1 + (Z.to_nat ((55 - Z.of_nat (length m)) mod 64) + 8)) = 64 * k)%nat
    as [k ->] by (exists (Z.to_nat ((Z.of_nat (length m) + 9 + (55 - Z.of_nat (length m)) mod 64) / 64)); zdm).
  rewrite Nat.mul_comm, Nat.div_mul by lia. lia.
Qed.

Lemma md5_finish_ok ctx m : absorbed ctx m → md5_finish w ctx = Ret (Rfc.md5 m).
Proof.
  intros Ha. unfold md5_finish. rewrite (ab_total0 _ _ Ha), waiting_bytes. cbn zeta.
  set (n := Z.of_nat (length m)). set (padn := if _ <? 56 then _ else _).
  assert (padn = 1 + (55 - n) mod 64) as Ep by (unfold padn; case_match; zdm).
  destruct (md5_update_absorbs ctx m md5_padding padn) as (ctx1 & E1 & Ha1).
  { done. } { apply (bool_decide_unpack _). by vm_compute. } { cbn. zdm. } { apply counted_small. zdm. }
  rewrite E1. cbn [mbind run_bind].
  assert (take (Z.to_nat padn) md5_padding = [0x80] ++ replicate (Z.to_nat ((55 - n) mod 64)) 0) as Et.
  { rewrite Ep, Z2Nat.inj_add by zdm. unfold md5_padding. change (Z.to_nat 1 + ?k)%nat with (S k).
    rewrite firstn_cons, take_replicate. cbn [app]. do 2 f_equal. zdm. }
  rewrite !PUT_UINT32_split, (ab_total1 _ _ Ha), le_split_low.
  rewrite <- (le_split_low (wrap w _)), low_wrap, le_split_low. fold n.
  rewrite <- le_split_8.
  destruct (md5_update_absorbs ctx1 _ (le_split 8 (8 * n)) 8 Ha1) as (ctx2 & E2 & Ha2).
  { apply le_split_bytes. } { rewrite length_le_split. lia. } { by apply counted_small. }
  rewrite E2. cbn [mbind run_bind mret run_ret]. f_equal.
  rewrite Et, take_ge, <- !app_assoc in Ha2 by (rewrite length_le_split; lia).
  change (m ++ [128] ++ _ ++ _) with (padded m) in Ha2.
  destruct (ab_pending _ _ Ha2) as (k & full & tail & Em & Hf & Ht & _ & V & _).
  pose proof (length_padded m) as Lp.
  assert (length (padded m) / 64 = k ∧ length tail = 0)%nat as [Ek El]
    by (rewrite Em, length_app in Lp |- *; lia).
  destruct tail; [|done]. rewrite app_nil_r in Em.
  unfold Rfc.md5. rewrite Ek, Em, <- V. unfold view, output.
  by rewrite !PUT_UINT32_split, !le_split_low.
Qed.

Lemma md5_starts_absorbed garbage : length garbage = 64%nat → absorbed (md5_starts garbage) [].
Proof.
  intros Hg. split; [|done..]. exists 0%nat, [], []. split_and!; try done. cbn. lia.
Qed.

(** However a message is cut into pieces, the digest is that of the whole. *)
Lemma md5_of_pieces garbage pieces : length garbage = 64%nat →
  Forall (λ p, bytes_ok p ∧ Z.of_nat (length p) < 2 ^ 29) pieces →
  (ctx ← foldl (λ r p, ctx ← r; md5_update w ctx p (Z.of_nat (length p)))
     (Ret (md5_starts garbage)) pieces;
   md5_finish w ctx) = Ret (Rfc.md5 (concat pieces)).
Proof.
  intros Hg Hp. pose proof (md5_starts_absorbed garbage Hg) as Ha.
  change (concat pieces) with ([] ++ concat pieces). revert Ha. generalize (md5_starts garbage).
  generalize (@nil Z). induction Hp as [|p pieces [Hb Hl] _ IH]; intros m ctx Ha.
  - cbn [foldl mbind run_bind concat]. rewrite app_nil_r. by apply md5_finish_ok.
  - cbn [foldl]. destruct (md5_update_absorbs ctx m p (Z.of_nat (length p))) as (ctx' & E & Ha').
    { done. } { done. } { lia. } { apply counted_small. lia. }
    rewrite Nat2Z.id, firstn_all in Ha'. cbn [mbind run_bind concat] in *. rewrite E.
    rewrite app_assoc. by apply IH.
Qed.
End Words.

(** C35: [GenerateMD5] computes the digest of RFC 1321, whose additive constants are
    the sine's, whatever the context's buffer held: for every buffer where [unsigned
    long] has 32 bits, and below 512 megabytes where it is wider. *)
Theorem GenerateMD5_rfc w garbage buf bufferlen :
  32 <= w → length garbage = 64%nat → bytes_ok buf →
  0 <= bufferlen <= Z.of_nat (length buf) → bufferlen < 2 ^ 31 →
  (w = 32 ∨ bufferlen < 2 ^ 29) →
  GenerateMD5 w garbage buf bufferlen = Ret (Rfc.md5 (take (Z.to_nat bufferlen) buf)).
Proof.
  intros Hw Hg Hb Hl H31 Hc. unfold GenerateMD5.
  assert (2 ^ 32 <= 2 ^ w) by (apply Z.pow_le_mono_r; lia).
  rewrite wrap_small by (zpow; lia).
  assert (counted w bufferlen) as Hcount.
  { destruct Hc as [->|Hc]; [|apply counted_small; lia].
    unfold counted, low, wrap. rewrite Z.shiftl_mul_pow2 by lia. f_equal. zpow. lia. }
  destruct (md5_update_absorbs w Hw _ [] buf bufferlen (md5_starts_absorbed w garbage Hg) Hb Hl Hcount)
    as (ctx & E & Ha).
  rewrite E. cbn [mbind run_bind app] in *. by apply (md5_finish_ok w Hw).
Qed.

Lemma GenerateMD5_rfc_witness :
  GenerateMD5 64 (replicate 64 170) [97; 98; 99; 0] 3 = Ret (Rfc.md5 [97; 98; 99]) ∧
  ToString (Rfc.md5 [97; 98; 99]) =
    map (λ c, Z.of_nat (Ascii.nat_of_ascii c))
      (String.list_ascii_of_string "900150983cd24fb0d6963f7d28e17f72").
Proof.
  split; [|vm_compute; reflexivity].
  apply (GenerateMD5_rfc 64 (replicate 64 170) [97; 98; 99; 0] 3);
    [lia|reflexivity| |cbn; lia|lia|right; lia].
  apply (bool_decide_unpack _). vm_compute. exact I.
Defined.

(** A 64-bit [unsigned long] counts the bits of half a gigabyte twice: [length << 3]
    is then not below [2^32], and the test for a carry holds. *)
Lemma wide_count garbage : count_bits 64 (md5_starts garbage) (2 ^ 29) = (0, 2) ∧
  count_bits 32 (md5_starts garbage) (2 ^ 29) = (0, 1).
Proof. by vm_compute. Qed.

(** ** Texts of digests *)

Lemma hex_digit_nonzero d : 0 <= d → hex_digit d ≠ 0.
Proof. unfold hex_digit. case_match; lia. Qed.

Lemma HexMap_digit d : 0 <= d < 16 → HexMap (hex_digit d) = Some d.
Proof.
  intros H. unfold hex_digit, HexMap. destruct (Z.ltb_spec d 10) as [L|L];
  repeat match goal with |- context [?a <=? ?b] => destruct (Z.leb_spec a b); try lia end; cbn [andb];
    f_equal; lia.
Qed.

Lemma lor_digit b : is_byte b → 0 <= b / 16 < 16 ∧ 0 <= b mod 16 < 16 ∧
  s32 ((0 .| b / 16) .<< 4) .| b mod 16 = b.
Proof.
  intros H. unfold is_byte in H. split_and!; [zdm..|].
  rewrite Z.lor_0_l, Z.shiftl_mul_pow2, (swrap_small 32) by (try lia; zpow; zdm).
  rewrite (lor_add 4) by (zpow; zdm). zpow. zdm.
Qed.

(** Two digits, and what follows them up to a terminator. *)
Lemma httoi_digits b g : is_byte b →
  httoi ([hex_digit (b / 16); hex_digit (b mod 16)] ++ g) =
  (s ← of_option (c_string g); mret (httoi_loop s false b)).
Proof.
  intros Hb. destruct (lor_digit b Hb) as (H1 & H2 & E). unfold httoi, c_string.
  cbn [app c_strlen].
  rewrite !(proj2 (Z.eqb_neq (hex_digit _) 0)) by (apply hex_digit_nonzero; lia).
  destruct (c_strlen g) as [n|] eqn:En; [|done]. cbn [mbind option_bind of_option run_bind].
  assert (0 <= n).
  { clear -En. revert n En. induction g as [|x g IH]; intros n; cbn [c_strlen]; [done|].
    destruct (x =? 0); [intros [= <-]; lia|].
    destruct (c_strlen g); cbn; [|done]. intros [= <-]. specialize (IH _ eq_refl). lia. }
  replace (Z.to_nat (1 + (1 + n))) with (S (S (Z.to_nat n))) by lia. cbn [take].
  rewrite bool_decide_eq_false_2.
  - cbn [httoi_loop]. rewrite !HexMap_digit by done. by rewrite E.
  - intros [= _ Ex]. unfold hex_digit in Ex. case_match; lia.
Qed.


Lemma c_strlen_nul l : 0 ∈ l → is_Some (c_strlen l).
Proof.
  induction l as [|x l IH]; [set_solver|]. cbn [c_strlen].
  destruct (Z.eqb_spec x 0); [done|]. intros [Hx|H]%elem_of_cons; [done|].
  destruct (IH H) as [k Ek]. rewrite Ek. by eexists.
Qed.

Lemma text_loop_digits (F : Z → Z) garbage :
  (∀ j, ∃ s, c_string (garbage j) = Some s ∧ ∀ b, is_byte b → u8 (httoi_loop s false b) = F b) →
  ∀ m j, bytes_ok m →
  text_loop (length m) j garbage
    (concat (map (λ b, [hex_digit (b / 16); hex_digit (b mod 16)]) m) ++ [0]) = Ret (map F m).
Proof.
  intros Hg m. induction m as [|b m IH]; intros j Hm; [done|].
  apply Forall_cons in Hm as [Hb Hm]. destruct (lor_digit b Hb) as (H1 & H2 & _).
  cbn [length map concat app text_loop].
  rewrite (proj2 (Z.eqb_neq (hex_digit _) 0)) by (apply hex_digit_nonzero; lia).
  rewrite httoi_digits by done. destruct (Hg j) as (s & -> & Hs).
  cbn [of_option mbind run_bind mret run_ret]. rewrite IH by done. cbn [mbind run_bind].
  by rewrite Hs.
Qed.

(** The text of a digest is read back as the digest when what the stack holds
    behind each pair of digits is no digit; the buffer of the two digits is not
    terminated, and a digit that happens to be there pushes the first one out. *)
Theorem md5_text_reads_stack m garbage :
  bytes_ok m → length m = 16%nat →
  ((∀ j, ∃ c g, garbage j = c :: g ∧ HexMap c = None ∧ 0 ∈ c :: g) →
   MD5_text garbage (ToString m ++ [0]) = Ret m) ∧
  (∀ c v, HexMap c = Some v → (∀ j, ∃ g, garbage j = c :: 0 :: g) →
   MD5_text garbage (ToString m ++ [0]) = Ret (map (λ b, 16 * (b mod 16) + v) m)).
Proof.
  intros Hm Hl.
  assert (∀ F : Z → Z,
    (∀ j, ∃ s, c_string (garbage j) = Some s ∧ ∀ b, is_byte b → u8 (httoi_loop s false b) = F b) →
    MD5_text garbage (ToString m ++ [0]) = Ret (map F m)) as K.
  { intros F HF. unfold MD5_text, ToString. rewrite take_ge by lia. rewrite bool_decide_eq_false_2.
    - rewrite <- Hl. by apply text_loop_digits.
    - destruct m as [|b m]; [done|]. apply Forall_cons in Hm as [Hb _]. intros [= E].
      apply (hex_digit_nonzero (b / 16)); [|done]. unfold is_byte in Hb. zdm. }
  split.
  - intros Hg. rewrite <- (map_id m) at 2. apply K. intros j. destruct (Hg j) as (c & g & Eg & Hc & H0).
    destruct (c_strlen_nul _ H0) as [n En].
    assert (∃ s, c_string (c :: g) = Some s ∧ (head s = None ∨ head s = Some c)) as (s & Es & Hs).
    { unfold c_string. rewrite En. eexists. split; [done|]. destruct (Z.to_nat n); auto. }
    exists s. rewrite Eg. split; [done|]. intros b Hb.
    assert (httoi_loop s false b = b) as ->.
    { destruct s as [|x s]; [done|]. cbn [head] in Hs. destruct Hs as [|[= ->]]; [done|].
      cbn [httoi_loop]. by rewrite Hc. }
    apply wrap_small. unfold is_byte in Hb. zpow. lia.
  - intros c v Hc Hg. apply K. intros j. destruct (Hg j) as (g & ->). exists [c].
    assert (c ≠ 0 ∧ 0 <= v < 16) as [Hc0 Hv].
    { unfold HexMap in Hc. repeat case_match; simplify_eq.
      all: apply andb_prop in H as [?%Z.leb_le ?%Z.leb_le] || apply andb_prop in H0 as [?%Z.leb_le ?%Z.leb_le].
      all: lia. }
    split; [by apply (c_string_app [c] g); repeat constructor|].
    intros b Hb. cbn [httoi_loop]. rewrite Hc. unfold is_byte in Hb.
    rewrite Z.shiftl_mul_pow2, (swrap_small 32) by (try lia; zpow; lia).
    rewrite (lor_add 4) by (zpow; zdm). unfold wrap. zpow. zdm.
Qed.

Lemma md5_text_reads_stack_witness :
  MD5_text (λ _, replicate 8 0) (ToString (Rfc.md5 []) ++ [0]) = Ret (Rfc.md5 []) ∧
  MD5_text (λ _, 102 :: replicate 7 0) (ToString (Rfc.md5 []) ++ [0]) =
    Ret (map (λ b, 16 * (b mod 16) + 15) (Rfc.md5 [])).
Proof.
  assert (bytes_ok (Rfc.md5 [])) as Hb by (apply (bool_decide_unpack _); vm_compute; exact I).
  assert (length (Rfc.md5 []) = 16%nat) as Hl by (vm_compute; reflexivity).
  split.
  - refine (proj1 (md5_text_reads_stack (Rfc.md5 []) (λ _, replicate 8 0) Hb Hl) _).
    intros j. exists 0, (replicate 7 0). split_and!; [done|done|by left].
  - refine (proj2 (md5_text_reads_stack (Rfc.md5 []) (λ _, 102 :: replicate 7 0) Hb Hl) 102 15 _ _); [done|].
    intros j. by exists (replicate 6 0).
Defined.
