(* ===== verification/ClientExport.v ===== *)
(** [wmsclient/wmsclient/MyslqQueue.cpp] and [increment_export.h]: one round of the
    client's export, from the answers of the database to the messages it queues.

    The answers are a parameter: [mysql k sql] is the result set of [sql] asked as
    the [k]-th query of the round, [None] when the library reports an error.  A
    value of a row is a C string or a null pointer.  An error of the database is
    an exception ([THROW_EXCEPTION] throws), and an index outside a [vector] has no
    defined behaviour. *)
From S2P Require Import Prelude.

(** ** Effects *)

Record GENERATE_DATA := mk_data {
  tableName_ : string;
  columnKey_ : list string;
  columnVal_ : list string }.

Record HEAD_GENERATE_DATA := mk_head {
  headID_ : string;
  headNumber_ : Z;
  headOrder_ : Z;
  headBody : list GENERATE_DATA }.

(** [ProductDataGenerate] of a head, [mysql_commit], and the time
    [WriteTimeUpdateXML] writes for a table. *)
Inductive effect :=
  | Product (h : HEAD_GENERATE_DATA)
  | Commit
  | WriteTime (tableName keyValues : string).

Inductive outcome (A : Type) :=
  | Returns (a : A)
  | Throws
  | Undefined.
Arguments Returns {A} a.
Arguments Throws {A}.
Arguments Undefined {A}.

(** The number of queries asked before, what has been done in the round, and the
    two [static] variables of [execMutilSql]. *)
Record world := mk_world {
  asked : nat;
  done_ : list effect;
  preVecKeysTable : list (list string);
  preVecValuesTable : list (list (list string)) }.

Definition exec (A : Type) : Type := world → world * outcome A.

#[export] Instance exec_ret : MRet exec := λ A a s, (s, Returns a).
#[export] Instance exec_bind : MBind exec := λ A B f m s,
  match m s with
  | (s, Returns a) => f a s
  | (s, Throws) => (s, Throws)
  | (s, Undefined) => (s, Undefined)
  end.

Definition throw {A} : exec A := λ s, (s, Throws).
Definition undefined {A} : exec A := λ s, (s, Undefined).
Definition perform (e : effect) : exec () := λ s,
  (mk_world (asked s) (done_ s ++ [e]) (preVecKeysTable s) (preVecValuesTable s), Returns ()).

(** [v[i]]. *)
Definition at_ {A} (v : list A) (i : nat) : exec A :=
  match v !! i with Some a => mret a | None => undefined end.

(** ** Queueing rows *)

Definition execData : nat := 2.

(** The rows from [index] on, those without a value left out. *)
Fixpoint push_rows (tableName : string) (vecKeys : list string) (vecValues : list (list string))
    (index n : nat) (body : list GENERATE_DATA) : exec (list GENERATE_DATA) :=
  match n with
  | O => mret body
  | S n =>
      row ← at_ vecValues index;
      push_rows tableName vecKeys vecValues (S index) n
        (if decide (0 < length row)%nat then body ++ [mk_data tableName vecKeys row] else body)
  end.

(** The loop on [jIndex]: the batch that holds the remainder starts at
    [(execData - iRemainder) * jIndex]. *)
Fixpoint put_batches (msgHeadKey : string) (number first : Z) (tableName : string)
    (vecKeys : list string) (vecValues : list (list string)) (lNum iRemainder jIndex n : nat) : exec () :=
  match n with
  | O => mret ()
  | S n =>
      let count := if decide (jIndex = lNum - 1 ∧ iRemainder ≠ 0)%nat
                   then (execData - iRemainder)%nat else execData in
      body ← push_rows tableName vecKeys vecValues (count * jIndex) count [];
      _ ← perform (Product (mk_head msgHeadKey number (first + Z.of_nat jIndex + 1) body));
      put_batches msgHeadKey number first tableName vecKeys vecValues lNum iRemainder (S jIndex) n
  end.

(** What the two functions on one table share: [small] is the order of the head
    when one is enough, [first] what is added to the order of the others, [number]
    the number they carry. *)
Definition put_table (msgHeadKey : string) (number : nat → Z) (small first : Z) (tableName : string)
    (vecKeys : list string) (vecValues : list (list string)) : exec bool :=
  if decide (length vecValues = 0 ∨ length vecKeys = 0)%nat then mret false else
  let lNum := (length vecValues / execData)%nat in
  let iRemainder := (length vecValues mod execData)%nat in
  if decide (length vecValues ≤ execData)%nat then
    body ← push_rows tableName vecKeys vecValues 0 (length vecValues) [];
    _ ← perform (Product (mk_head msgHeadKey (number 1%nat) small body));
    mret true
  else
    let lNum := if decide (iRemainder ≠ 0)%nat then S lNum else lNum in
    _ ← put_batches msgHeadKey (number lNum) first tableName vecKeys vecValues lNum iRemainder 0 lNum;
    mret true.

Definition PutMessageQueue (msgHeadKey tableName : string) (vecKeys : list string)
    (vecValues : list (list string)) : exec bool :=
  put_table msgHeadKey Z.of_nat 1 0 tableName vecKeys vecValues.

Definition PutOneMessageQueue (msgHeadKey : string) (totalNum theFirstFew : Z) (tableName : string)
    (vecKeys : list string) (vecValues : list (list string)) : exec bool :=
  put_table msgHeadKey (λ _, totalNum) theFirstFew theFirstFew tableName vecKeys vecValues.

(** The overloads for several tables. *)
Definition batches_of (rows : list (list string)) : nat :=
  ((if decide (length rows mod execData ≠ 0)%nat then 1 else 0) + length rows / execData)%nat.

(** [vecValues[nIndex].size() > 0] looks at a table, the rows are those of the
    first one. *)
Fixpoint push_first_table (tableName : string) (vecKeys : list string)
    (vecValues : list (list (list string))) (nIndex n : nat) (body : list GENERATE_DATA) :
    exec (list GENERATE_DATA) :=
  match n with
  | O => mret body
  | S n =>
      table ← at_ vecValues nIndex;
      body ← (if decide (0 < length table)%nat then
                first ← at_ vecValues 0; row ← at_ first nIndex;
                mret (body ++ [mk_data tableName vecKeys row])
              else mret body);
      push_first_table tableName vecKeys vecValues (S nIndex) n body
  end.

Fixpoint put_tables (msgHeadKey : string) (SendNumber : Z) (tableName : list string)
    (vecKeys : list (list string)) (vecValues : list (list (list string)))
    (lSendNum : Z) (iSendTable n : nat) : exec () :=
  match n with
  | O => mret ()
  | S n =>
      rows ← at_ vecValues iSendTable;
      keys ← at_ vecKeys iSendTable;
      name ← at_ tableName iSendTable;
      _ ← PutOneMessageQueue msgHeadKey SendNumber lSendNum name keys rows;
      put_tables msgHeadKey SendNumber tableName vecKeys vecValues
        (lSendNum + Z.of_nat (batches_of rows)) (S iSendTable) n
  end.

Definition PutMessageQueue_tables (msgHeadKey : string) (tableName : list string)
    (vecKeys : list (list string)) (vecValues : list (list (list string))) : exec bool :=
  if decide (length vecValues = 0 ∨ length vecKeys = 0)%nat then mret false else
  let SendNumber := sum_list (map batches_of vecValues) in
  if decide (SendNumber ≤ execData)%nat then
    first ← at_ vecValues 0;
    keys ← (if decide (0 < length first)%nat then at_ vecKeys 0 else mret []);
    name ← (if decide (0 < length first)%nat then at_ tableName 0 else mret EmptyString);
    body ← push_first_table name keys vecValues 0 (length first) [];
    _ ← perform (Product (mk_head msgHeadKey 1 1 body));
    mret true
  else
    _ ← put_tables msgHeadKey (Z.of_nat SendNumber) tableName vecKeys vecValues 0 0 (length vecValues);
    mret true.

(** One head for each row. *)
Fixpoint put_rows (msgHeadKey : string) (SendNumber : Z) (name : string) (keys : list string)
    (rows : list (list string)) (SendPro : Z) (nIndex n : nat) : exec Z :=
  match n with
  | O => mret SendPro
  | S n =>
      row ← at_ rows nIndex;
      _ ← perform (Product (mk_head msgHeadKey SendNumber (SendPro + 1) [mk_data name keys row]));
      put_rows msgHeadKey SendNumber name keys rows (SendPro + 1) (S nIndex) n
  end.

Fixpoint put_all_rows (msgHeadKey : string) (SendNumber : Z) (tableName : list string)
    (vecKeys : list (list string)) (vecValues : list (list (list string)))
    (SendPro : Z) (iTabl n : nat) : exec () :=
  match n with
  | O => mret ()
  | S n =>
      rows ← at_ vecValues iTabl;
      SendPro ← (if decide (0 < length rows)%nat then
                   name ← at_ tableName iTabl;
                   keys ← at_ vecKeys iTabl;
                   put_rows msgHeadKey SendNumber name keys rows SendPro 0 (length rows)
                 else mret SendPro);
      put_all_rows msgHeadKey SendNumber tableName vecKeys vecValues SendPro (S iTabl) n
  end.

Definition PutOneMessageQueue_tables (msgHeadKey : string) (tableName : list string)
    (vecKeys : list (list string)) (vecValues : list (list (list string))) : exec bool :=
  if decide (length vecValues = 0 ∨ length vecKeys = 0)%nat then mret false else
  let SendNumber := Z.of_nat (sum_list (map length vecValues)) in
  _ ← put_all_rows msgHeadKey SendNumber tableName vecKeys vecValues 0 0 (length vecValues);
  mret true.

(** ** The queries *)

Inductive return_val :=
  | mysql_success | mysql_dbError | mysql_dbDisconnection | mysql_dbExecFailed
  | mysql_dbMuilFailed | mysql_noData.

(** [s.substr(0, s.rfind(","))]: all of [s] when there is no comma. *)
Fixpoint rfind (c : Ascii.ascii) (s : string) : option nat :=
  match s with
  | EmptyString => None
  | String x s =>
      match rfind c s with
      | Some k => Some (S k)
      | None => if decide (x = c) then Some O else None
      end
  end.

Definition before_last_comma (s : string) : string :=
  match rfind (Ascii.ascii_of_nat 44) s with Some k => String.substring 0 k s | None => s end.

(** A value of a row: a null pointer gives [NULL]. *)
Definition text_of (v : option string) : string := match v with Some s => s | None => "NULL" end.

Definition keys_row (row : list (option string)) : string :=
  before_last_comma (foldl (λ strTem v, (strTem +:+ text_of v) +:+ ",")%string EmptyString row).

Definition value_of (v : option string) : string :=
  let rTem := text_of v in if decide (rTem = EmptyString) then "NULL" else rTem.

Section Round.
Variable mysql : nat → string → option (list (list (option string))).
Variable m_bConnect : bool.
(** The text of the digest of the time of the round. *)
Variable headID : string.

Definition checkConnectAlive : bool := m_bConnect.

(** [mysql_real_query] and [mysql_store_result]. *)
Definition ask (sql : string) : exec (list (list (option string))) := λ s,
  (mk_world (S (asked s)) (done_ s) (preVecKeysTable s) (preVecValuesTable s),
   match mysql (asked s) sql with Some rows => Returns rows | None => Throws end).

Definition getQueryKeysData (strColum : string) (vecColum : list string) :
    exec (return_val * list string) :=
  if negb checkConnectAlive then mret (mysql_dbDisconnection, vecColum) else
  rows ← ask strColum;
  mret (mysql_success, vecColum ++ map keys_row rows).

Definition getQueryData (strQuery tableName : string) (vecValues : list (list string)) :
    exec (return_val * list (list string)) :=
  if negb checkConnectAlive then mret (mysql_dbDisconnection, vecValues) else
  rows ← ask strQuery;
  mret (mysql_success, vecValues ++ map (map value_of) rows).

(** The three vectors a set of queries fills in parallel. *)
Record tables := mk_tables {
  t_names : list string;
  t_keys : list (list string);
  t_values : list (list (list string)) }.

Definition add_table (name : string) (keys : list string) (rows : list (list string)) (t : tables) : tables :=
  mk_tables (t_names t ++ [name]) (t_keys t ++ [keys]) (t_values t ++ [rows]).

Definition execQuerySql (strQuery strColum tableName : string) (t : tables) :
    exec (return_val * tables) :=
  '(rv, vecOneKey) ← getQueryKeysData strColum [];
  match rv with
  | mysql_success =>
      '(rv, vecOneValue) ← getQueryData strQuery tableName [];
      match rv with
      | mysql_success =>
          let t := if decide (0 < length vecOneValue)%nat
                   then add_table tableName vecOneKey vecOneValue t else t in
          _ ← perform Commit;
          mret (mysql_success, t)
      | _ => mret (mysql_dbMuilFailed, t)
      end
  | _ => mret (mysql_dbMuilFailed, t)
  end.

(** The overload for one table: its [goto error] throws, too. *)
Definition execQuerySql_one (msgHeadKey strQuery strColum tableName : string) : exec return_val :=
  '(rv, vecKeys) ← getQueryKeysData strColum [];
  match rv with
  | mysql_success =>
      '(rv, vecValues) ← getQueryData strQuery tableName [];
      match rv with
      | mysql_success =>
          _ ← perform Commit;
          _ ← PutMessageQueue msgHeadKey tableName vecKeys vecValues;
          mret mysql_success
      | _ => throw
      end
  | _ => throw
  end.

(** The queries from [i] on; a failure goes to the label [error], which throws. *)
Fixpoint query_loop (sqlSelec strColum tableName : list string) (i n : nat) (t : tables) : exec tables :=
  match n with
  | O => mret t
  | S n =>
      sql ← at_ sqlSelec i;
      col ← at_ strColum i;
      name ← at_ tableName i;
      '(rv, t) ← execQuerySql sql col name t;
      match rv with
      | mysql_success => query_loop sqlSelec strColum tableName (S i) n t
      | _ => throw
      end
  end.

(** [for (k = 0; k < v.size(); k++) if (x == v[k]) break;] *)
Fixpoint find_loop {A} `{EqDecision A} (x : A) (v : list A) : nat :=
  match v with
  | [] => O
  | y :: v => if decide (x = y) then O else S (find_loop x v)
  end.

(** [vecValuesTable[i].push_back] of every row. *)
Definition append_rows (i : nat) (rows : list (list string)) (t : tables) : exec tables :=
  if decide (length rows = 0)%nat then mret t else
  _ ← at_ (t_values t) i;
  mret (mk_tables (t_names t) (t_keys t) (alter (λ r, r ++ rows) i (t_values t))).

Definition merge_table (name : string) (keys : list string) (rows : list (list string)) (t : tables) :
    exec tables :=
  let iRet := find_loop name (t_names t) in
  if decide (iRet = length (t_names t)) then mret (add_table name keys rows t)
  else append_rows iRet rows t.

(** For every row that the table did not have in the last round, the whole table. *)
Fixpoint merge_rows (name : string) (keys : list string) (rows pre rest : list (list string))
    (t : tables) : exec tables :=
  match rest with
  | [] => mret t
  | row :: rest =>
      t ← (if decide (find_loop row pre = length pre) then merge_table name keys rows t else mret t);
      merge_rows name keys rows pre rest t
  end.

Fixpoint merge_loop (PreQeueFindTableName : list string) (pro : tables) (IProKey n : nat) (t : tables) :
    exec tables :=
  match n with
  | O => mret t
  | S n =>
      name ← at_ (t_names pro) IProKey;
      keys ← at_ (t_keys pro) IProKey;
      rows ← at_ (t_values pro) IProKey;
      let LPre := find_loop name PreQeueFindTableName in
      t ← (if decide (LPre = length PreQeueFindTableName) then merge_table name keys rows t
           else
             pre ← (λ s, at_ (preVecValuesTable s) LPre s);
             merge_rows name keys rows pre rows t);
      merge_loop PreQeueFindTableName pro (S IProKey) n t
  end.

Definition set_pre (t : tables) : exec () := λ s,
  (mk_world (asked s) (done_ s) (t_keys t) (t_values t), Returns ()).

Definition execMutilSql (sqlSelec strColum tableName : list string) : exec return_val :=
  let sqlSize := length sqlSelec in
  let PreQeueFindTableName : list string := [] in
  t ← query_loop sqlSelec strColum tableName 0 4 (mk_tables [] [] []);
  pro ← query_loop sqlSelec strColum tableName 4 (sqlSize - 4) (mk_tables [] [] []);
  t ← (if decide (0 < length PreQeueFindTableName)%nat
       then merge_loop PreQeueFindTableName pro 0 (length (t_names pro)) t else mret t);
  _ ← set_pre t;
  _ ← PutOneMessageQueue_tables headID (t_names t) (t_keys t) (t_values t);
  _ ← perform Commit;
  mret mysql_success.
End Round.

(** ** Running operations *)

Definition emit (l : list effect) (s : world) : world :=
  mk_world (asked s) (done_ s ++ l) (preVecKeysTable s) (preVecValuesTable s).

(** [m] does [l] and returns [a]. *)
Definition does {A} (m : exec A) (l : list effect) (a : A) : Prop := ∀ s, m s = (emit l s, Returns a).

Lemma emit_none s : emit [] s = s.
Proof. destruct s. unfold emit. cbn. by rewrite app_nil_r. Qed.

Lemma emit_app l l' s : emit l' (emit l s) = emit (l ++ l') s.
Proof. unfold emit. cbn. by rewrite app_assoc. Qed.

Lemma does_ret {A} (a : A) : does (mret a) [] a.
Proof. intros s. by rewrite emit_none. Qed.

Lemma does_bind {A B} (m : exec A) (f : A → exec B) l a l' b :
  does m l a → does (f a) l' b → does (m ≫= f) (l ++ l') b.
Proof. intros Hm Hf s. unfold mbind, exec_bind. by rewrite Hm, Hf, emit_app. Qed.

Lemma does_perform e : does (perform e) [e] ().
Proof. by intros s. Qed.

Lemma does_at {A} (v : list A) i a : v !! i = Some a → does (at_ v i) [] a.
Proof. intros E s. unfold at_. rewrite E. apply does_ret. Qed.

Lemma undefined_at {A B} (v : list A) i (f : A → exec B) s : v !! i = None →
  ((at_ v i ≫= f) s).2 = Undefined.
Proof. intros E. unfold mbind, exec_bind, at_. by rewrite E. Qed.

#[local] Hint Resolve does_ret does_perform does_at : core.

(** Division and remainder of naturals by numerals. *)
Ltac ndm :=
  repeat match goal with
  | H : context [(?n mod 2)%nat] |- _ =>
      lazymatch goal with _ : n = (2 * (n / 2) + n mod 2)%nat |- _ => fail | _ => idtac end;
      pose proof (Nat.div_mod_eq n 2); pose proof (Nat.mod_upper_bound n 2)
  | |- context [(?n mod 2)%nat] =>
      lazymatch goal with _ : n = (2 * (n / 2) + n mod 2)%nat |- _ => fail | _ => idtac end;
      pose proof (Nat.div_mod_eq n 2); pose proof (Nat.mod_upper_bound n 2)
  end; lia.

(** ** One table *)

Definition non_empty (rows : list (list string)) : list (list string) :=
  filter (λ r, (0 < length r)%nat) rows.

Lemma push_rows_does name keys rows index n body : (index + n <= length rows)%nat →
  does (push_rows name keys rows index n body) []
    (body ++ map (mk_data name keys) (non_empty (take n (drop index rows)))).
Proof.
  revert index body. induction n as [|n IH]; intros index body H.
  - cbn [push_rows]. rewrite take_0. cbn. rewrite app_nil_r. auto.
  - cbn [push_rows]. destruct (lookup_lt_is_Some_2 rows index) as [row E]; [lia|].
    rewrite (drop_S _ _ _ E). cbn [take]. apply (does_bind _ _ [] row []); [auto|].
    assert (S index + n <= length rows)%nat as H' by lia.
    unfold non_empty. rewrite filter_cons. destruct (decide (0 < length row)%nat) as [D|D].
    + specialize (IH (S index) (body ++ [mk_data name keys row]) H').
      rewrite <- app_assoc in IH. exact IH.
    + by apply IH.
Qed.

(** The rows of the [j]-th head, of [lNum]. *)
Definition batch (rows : list (list string)) (lNum j : nat) : list (list string) :=
  if decide (j = lNum - 1 ∧ length rows mod 2 ≠ 0)%nat then take 1 (drop j rows)
  else take 2 (drop (2 * j) rows).

Lemma put_batches_does id number first name keys rows lNum jIndex n :
  (length rows = 2 * lNum ∨ length rows + 1 = 2 * lNum)%nat → (2 < length rows)%nat →
  (jIndex + n = lNum)%nat →
  does (put_batches id number first name keys rows lNum (length rows mod 2) jIndex n)
    (map (λ j, Product (mk_head id number (first + Z.of_nat j + 1)
                          (map (mk_data name keys) (non_empty (batch rows lNum j))))) (seq jIndex n)) ().
Proof.
  intros Hl H2. revert jIndex. induction n as [|n IH]; intros jIndex Hj; cbn [put_batches seq map]; [auto|].
  eapply (does_bind _ _ [] _ (_ :: _)).
  { apply push_rows_does. case_decide as D; unfold execData.
    - destruct D as [-> D]. assert (length rows mod 2 = 1)%nat as -> by ndm. cbn. lia.
    - assert (2 * S jIndex <= length rows)%nat; [|lia]. destruct Hl as [Hl|Hl]; [lia|].
      destruct (decide (jIndex = lNum - 1)%nat); [|lia]. destruct D. split; [done|]. ndm. }
  apply (does_bind _ _ [_] () _).
  { cbn [app]. replace (map (mk_data name keys) (non_empty (take _ _)))
      with (map (mk_data name keys) (non_empty (batch rows lNum jIndex))); [auto|].
    do 2 f_equal. unfold batch. case_decide as D; [|done].
    destruct D as [-> D]. assert (length rows mod 2 = 1)%nat as -> by ndm.
    cbn [execData Nat.sub]. by rewrite Nat.mul_1_l. }
  apply IH. lia.
Qed.

Lemma non_empty_app a b : non_empty (a ++ b) = non_empty a ++ non_empty b.
Proof. apply filter_app. Qed.

Lemma non_empty_concat l : non_empty (concat l) = concat (map non_empty l).
Proof. induction l as [|a l IH]; [done|]. cbn. by rewrite non_empty_app, IH. Qed.

Lemma length_non_empty l : (length (non_empty l) <= length l)%nat.
Proof. apply length_filter. Qed.

Lemma pairs_concat {A} (l : list A) k :
  concat (map (λ j, take 2 (drop (2 * j) l)) (seq 0 k)) = take (2 * k) l.
Proof.
  induction k as [|k IH]; [done|]. rewrite seq_S, map_app, concat_app, IH. cbn [map concat].
  rewrite app_nil_r, Nat.add_0_l, take_take_drop. f_equal. lia.
Qed.

(** The rows the heads of one table carry: for an odd number above two, the row in
    the middle in place of the last. *)
Definition sent_rows (rows : list (list string)) : list (list string) :=
  if decide (length rows mod 2 = 1 ∧ 2 < length rows)%nat
  then take (length rows - 1) rows ++ take 1 (drop (length rows / 2) rows)
  else rows.

Lemma batches_concat rows lNum : (2 < length rows)%nat →
  (length rows = 2 * lNum ∨ length rows + 1 = 2 * lNum)%nat →
  concat (map (batch rows lNum) (seq 0 lNum)) = sent_rows rows.
Proof.
  intros H2 Hl. unfold sent_rows. case_decide as D.
  - destruct D as [D _]. pose proof (Nat.div_mod_eq (length rows) 2).
    destruct lNum as [|k]; [lia|]. rewrite seq_S, map_app, concat_app. cbn [map concat Nat.add].
    rewrite app_nil_r. f_equal.
    + replace (length rows - 1)%nat with (2 * k)%nat by lia. rewrite <- pairs_concat. f_equal.
      apply map_ext_in. intros j Hj%in_seq. unfold batch. case_decide; [lia|done].
    + unfold batch. rewrite decide_True by lia. do 2 f_equal. lia.
  - assert (length rows mod 2 = 0)%nat as E by ndm.
    pose proof (Nat.div_mod_eq (length rows) 2).
    rewrite <- (take_ge rows (2 * lNum)) at 2 by lia. rewrite <- pairs_concat. f_equal.
    apply map_ext_in. intros j Hj. unfold batch. case_decide; [lia|done].
Qed.

Lemma length_batch rows lNum j : (length (batch rows lNum j) <= 2)%nat.
Proof. unfold batch. case_decide; rewrite length_take; lia. Qed.

(** A head of a table's batch. *)
Definition table_head (id name : string) (keys : list string) (number : Z) (h : HEAD_GENERATE_DATA) : Prop :=
  headID_ h = id ∧ headNumber_ h = number ∧ (length (headBody h) <= 2)%nat ∧
  Forall (λ d, tableName_ d = name ∧ columnKey_ d = keys) (headBody h).

Lemma table_head_rows id name keys number order rows : (length rows <= 2)%nat →
  table_head id name keys number (mk_head id number order (map (mk_data name keys) (non_empty rows))).
Proof.
  intros H. pose proof (length_non_empty rows). split_and!; try done; cbn.
  - rewrite length_map. lia.
  - by apply Forall_map, Forall_true.
Qed.

Lemma map_columnVal name keys rows : map columnVal_ (map (mk_data name keys) rows) = rows.
Proof. rewrite map_map. apply map_id. Qed.

(** The rows of a table are queued two by two, under one identifier, the heads
    numbered from 1 and carrying their count, rows without values left out; an odd
    number of rows above two loses its last row, and a row from the middle is sent
    in its place. *)
Theorem batches_of_a_table id name keys rows :
  rows ≠ [] → keys ≠ [] →
  ∃ heads, does (PutMessageQueue id name keys rows) (map Product heads) true ∧
    concat (map (λ h, map columnVal_ (headBody h)) heads) = non_empty (sent_rows rows) ∧
    map headOrder_ heads = map (λ j, Z.of_nat j + 1) (seq 0 (length heads)) ∧
    Forall (table_head id name keys (Z.of_nat (length heads))) heads ∧
    length heads = ((length rows + 1) / 2)%nat.
Proof.
  intros Hr Hk. assert (length rows ≠ 0 ∧ length keys ≠ 0)%nat as [Lr Lk]
    by (split; by rewrite length_zero_iff_nil).
  unfold PutMessageQueue, put_table. rewrite decide_False by tauto. unfold execData.
  pose proof (Nat.div_mod_eq (length rows) 2). pose proof (Nat.mod_upper_bound (length rows) 2).
  pose proof (Nat.div_mod_eq (length rows + 1) 2). pose proof (Nat.mod_upper_bound (length rows + 1) 2).
  case_decide as L2.
  - exists [mk_head id 1 1 (map (mk_data name keys) (non_empty rows))]. split_and!.
    + eapply (does_bind _ _ [] _ [_]); [by apply push_rows_does|]. rewrite drop_0, take_ge by lia.
      eapply (does_bind _ _ [_] _ []); auto.
    + cbn. rewrite app_nil_r, map_columnVal. unfold sent_rows. rewrite decide_False by lia. done.
    + done.
    + constructor; [|done]. by apply table_head_rows.
    + cbn [length]. lia.
  - set (lNum := if decide _ then _ else _).
    assert (length rows = 2 * lNum ∨ length rows + 1 = 2 * lNum)%nat as Hl
      by (unfold lNum; case_decide; lia).
    exists (map (λ j, mk_head id (Z.of_nat lNum) (0 + Z.of_nat j + 1)
      (map (mk_data name keys) (non_empty (batch rows lNum j)))) (seq 0 lNum)).
    rewrite length_map, length_seq. split_and!.
    + rewrite <- (app_nil_r (map Product _)). eapply does_bind; [|auto].
      rewrite map_map. apply put_batches_does; lia.
    + rewrite map_map. cbn [headBody]. rewrite <- batches_concat with (lNum := lNum), non_empty_concat by lia.
      rewrite map_map. f_equal. apply map_ext. intros j. apply map_columnVal.
    + by rewrite map_map.
    + apply Forall_map, Forall_true. intros j. apply table_head_rows, length_batch.
    + lia.
Qed.

Lemma batches_of_a_table_witness :
  ∃ heads, does (PutMessageQueue "id" "t" ["c"] [["1"]; ["2"]; ["3"]]) (map Product heads) true ∧
    concat (map (λ h, map columnVal_ (headBody h)) heads) = [["1"]; ["2"]; ["2"]].
Proof.
  destruct (batches_of_a_table "id" "t" ["c"] [["1"]; ["2"]; ["3"]]) as (heads & H1 & H2 & _).
  - done.
  - done.
  - exists heads. split; [exact H1|]. rewrite H2. vm_compute. reflexivity.
Defined.

(** ** Several tables *)

Lemma lookup_map {A B} (f : A → B) l i x : l !! i = Some x → map f l !! i = Some (f x).
Proof. revert i. induction l as [|y l IH]; intros [|i] E; cbn in *; [done..|by simplify_eq|by apply IH]. Qed.

(** One head for each of [data], numbered from [start + 1]. *)
Fixpoint single_heads (id : string) (total start : Z) (data : list GENERATE_DATA) : list effect :=
  match data with
  | [] => []
  | d :: data => Product (mk_head id total (start + 1) [d]) :: single_heads id total (start + 1) data
  end.

Lemma single_heads_app id total start a b :
  single_heads id total start (a ++ b) =
  single_heads id total start a ++ single_heads id total (start + Z.of_nat (length a)) b.
Proof.
  revert start. induction a as [|d a IH]; intros start; cbn [app single_heads length].
  - by rewrite Z.add_0_r.
  - rewrite IH. do 3 f_equal. lia.
Qed.

(** A table: its name, its columns and its rows. *)
Definition table : Type := string * list string * list (list string).

Definition data_of (l : list table) : list GENERATE_DATA :=
  concat (map (λ '(name, keys, rows), map (mk_data name keys) rows) l).

Lemma put_rows_does id total name keys rows start index n : (index + n <= length rows)%nat →
  does (put_rows id total name keys rows start index n)
    (single_heads id total start (map (mk_data name keys) (take n (drop index rows))))
    (start + Z.of_nat n).
Proof.
  revert start index. induction n as [|n IH]; intros start index H; cbn [put_rows].
  - rewrite take_0, Z.add_0_r. auto.
  - destruct (lookup_lt_is_Some_2 rows index) as [row E]; [lia|].
    rewrite (drop_S _ _ _ E). cbn [take map single_heads].
    apply (does_bind _ _ [] row); [auto|]. apply (does_bind _ _ [_] ()); [auto|].
    replace (start + Z.of_nat (S n)) with (start + 1 + Z.of_nat n) by lia. apply IH. lia.
Qed.

Definition tables_of (l : list table) : tables :=
  mk_tables (map (λ x, x.1.1) l) (map (λ x, x.1.2) l) (map (λ x, x.2) l).

Lemma put_all_rows_does id total l start index :
  does (put_all_rows id total (t_names (tables_of l)) (t_keys (tables_of l)) (t_values (tables_of l))
          start index (length l - index))
    (single_heads id total start (data_of (drop index l))) ().
Proof.
  remember (length l - index)%nat as n eqn:En. revert start index En.
  induction n as [|n IH]; intros start index En; cbn [put_all_rows].
  { rewrite drop_ge by lia. auto. }
  destruct (lookup_lt_is_Some_2 l index) as [[[name keys] rows] E]; [lia|].
  rewrite (drop_S _ _ _ E). unfold data_of at 1. cbn [map concat].
  apply (does_bind _ _ [] rows).
  { exact (does_at _ _ _ (lookup_map snd _ _ _ E)). }
  rewrite single_heads_app. change (concat (map _ (drop (S index) l))) with (data_of (drop (S index) l)).
  apply (does_bind _ _ _ (start + Z.of_nat (length rows)));
    [|rewrite length_map; apply IH; lia].
  case_decide as D.
  - apply (does_bind _ _ [] name).
    { exact (does_at _ _ _ (lookup_map (λ x, x.1.1) _ _ _ E)). }
    apply (does_bind _ _ [] keys).
    { exact (does_at _ _ _ (lookup_map (λ x, x.1.2) _ _ _ E)). }
    pose proof (put_rows_does id total name keys rows start 0 (length rows)) as P.
    rewrite drop_0, firstn_all in P. apply P. lia.
  - destruct rows; [|cbn in D; lia]. rewrite Z.add_0_r. cbn. auto.
Qed.

Lemma PutOneMessageQueue_tables_does id l : ∃ b,
  does (PutOneMessageQueue_tables id (t_names (tables_of l)) (t_keys (tables_of l)) (t_values (tables_of l)))
    (single_heads id (Z.of_nat (length (data_of l))) 0 (data_of l)) b.
Proof.
  unfold PutOneMessageQueue_tables. case_decide as D.
  - exists false. cbn in D. rewrite !length_map in D. destruct l; [|cbn in D; lia]. cbn. auto.
  - exists true. rewrite <- (app_nil_r (single_heads _ _ _ _)).
    apply (does_bind _ _ _ ()); [|auto].
    assert (sum_list (map length (t_values (tables_of l))) = length (data_of l)) as ->.
    { clear D. unfold data_of. induction l as [|[[name keys] rows] l IH]; [done|].
      cbn in *. by rewrite length_app, length_map, IH. }
    pose proof (put_all_rows_does id (Z.of_nat (length (data_of l))) l 0 0) as P.
    rewrite drop_0, Nat.sub_0_r in P. cbn [tables_of t_values] in *. by rewrite length_map.
Qed.

(** ** A round *)

Section Rounds.
Context (mysql : nat → string → option (list (list (option string)))).
Context (headID : string).

Definition answer (k : nat) (sql : string) : list (list (option string)) := default [] (mysql k sql).

(** What a list of queries (the statement, that for the columns, the table) gives
    when the first is asked as the [k]-th. *)
Fixpoint fetched (k : nat) (qs : list (string * string * string)) : list table :=
  match qs with
  | [] => []
  | (sql, col, name) :: qs =>
      (name, map keys_row (answer k col), map (map value_of) (answer (S k) sql)) :: fetched (S (S k)) qs
  end.

Definition filled (l : list table) : list table := filter (λ x, (0 < length x.2)%nat) l.

(** The queries of three parallel lists from [i] on. *)
Definition queries (sqls cols names : list string) : list (string * string * string) :=
  zip (zip sqls cols) names.

Definition advance (queries commits : nat) (s : world) : world :=
  mk_world (asked s + queries) (done_ s ++ replicate commits Commit)
    (preVecKeysTable s) (preVecValuesTable s).

Lemma advance_advance q c q' c' s : advance q c (advance q' c' s) = advance (q' + q) (c' + c) s.
Proof.
  unfold advance. cbn. f_equal; [lia|]. by rewrite <- app_assoc, replicate_add.
Qed.

Definition answered (k : nat) (q : string * string * string) : Prop :=
  is_Some (mysql k q.1.2) ∧ is_Some (mysql (S k) q.1.1).

(** One query: the table is added when it has rows. *)
Lemma execQuerySql_ok sql col name l s : answered (asked s) (sql, col, name) →
  execQuerySql mysql true sql col name (tables_of l) s =
  (advance 2 1 s, Returns (mysql_success, tables_of (l ++ filled (fetched (asked s) [(sql, col, name)])))).
Proof.
  intros [[keys Ek] [rows Er]]. cbn in Ek, Er. destruct s as [k d pk pv]. cbn [asked] in *.
  unfold execQuerySql, getQueryKeysData, getQueryData, ask, mbind, exec_bind, advance. cbn.
  unfold answer. rewrite Ek. cbn. rewrite Er. cbn. replace (k + 2)%nat with (S (S k)) by lia.
  do 3 f_equal. unfold filled. cbn. case_decide as D.
  - unfold add_table, tables_of. cbn. by rewrite !map_app.
  - by rewrite app_nil_r.
Qed.

Lemma execQuerySql_fails sql col name t s : ¬ answered (asked s) (sql, col, name) →
  ∃ q, execQuerySql mysql true sql col name t s = (advance q 0 s, Throws).
Proof.
  intros H. destruct s as [k d pk pv]. unfold answered in H. cbn in H.
  unfold execQuerySql, getQueryKeysData, getQueryData, ask, mbind, exec_bind, advance. cbn.
  destruct (mysql k col) as [keys|] eqn:Ek; cbn.
  - destruct (mysql (S k) sql) as [rows|] eqn:Er; cbn; [destruct H; eauto|].
    exists 2%nat. rewrite app_nil_r. do 2 f_equal. lia.
  - exists 1%nat. rewrite app_nil_r. do 2 f_equal. lia.
Qed.

Definition at_query (sqls cols names : list string) (i : nat) (q : string * string * string) : Prop :=
  sqls !! i = Some q.1.1 ∧ cols !! i = Some q.1.2 ∧ names !! i = Some q.2.

Lemma query_loop_step sqls cols names i n t s q : at_query sqls cols names i q →
  query_loop mysql true sqls cols names i (S n) t s =
  ('(rv, t) ← execQuerySql mysql true q.1.1 q.1.2 q.2 t;
   match rv with
   | mysql_success => query_loop mysql true sqls cols names (S i) n t
   | _ => throw
   end) s.
Proof.
  intros (E1 & E2 & E3). cbn [query_loop]. unfold mbind at 1 2 3, exec_bind, at_.
  by rewrite E1, E2, E3.
Qed.

(** A run of queries that all succeed. *)
Lemma query_loop_ok sqls cols names qs i l s :
  (∀ j q, qs !! j = Some q → at_query sqls cols names (i + j) q ∧ answered (asked s + 2 * j) q) →
  query_loop mysql true sqls cols names i (length qs) (tables_of l) s =
  (advance (2 * length qs) (length qs) s, Returns (tables_of (l ++ filled (fetched (asked s) qs)))).
Proof.
  revert i l s. induction qs as [|[[sql col] name] qs IH]; intros i l s H.
  - cbn. rewrite app_nil_r. destruct s. unfold advance. cbn. by rewrite app_nil_r, Nat.add_0_r.
  - destruct (H 0%nat (sql, col, name) eq_refl) as [Ha Hs]. rewrite Nat.add_0_r in Ha, Hs.
    cbn [length]. rewrite (query_loop_step _ _ _ _ _ _ _ _ Ha). cbn [fst snd].
    unfold mbind, exec_bind. rewrite execQuerySql_ok by done. rewrite IH.
    + rewrite advance_advance. f_equal; [f_equal; lia|]. do 2 f_equal.
      cbn [advance asked fetched]. rewrite <- app_assoc. f_equal. unfold filled.
      replace (asked s + 2)%nat with (S (S (asked s))) by lia. cbn. by case_decide.
    + intros j q E. destruct (H (S j) q E) as [Hq Hm]. cbn [advance asked]. split.
      * by replace (S i + j)%nat with (i + S j)%nat by lia.
      * by replace (asked s + 2 + 2 * j)%nat with (asked s + 2 * S j)%nat by lia.
Qed.

(** A run in which some query is not answered. *)
Lemma query_loop_fails sqls cols names qs i l s :
  (∀ j q, qs !! j = Some q → at_query sqls cols names (i + j) q) →
  (∃ j q, qs !! j = Some q ∧ ¬ answered (asked s + 2 * j) q) →
  ∃ q c, query_loop mysql true sqls cols names i (length qs) (tables_of l) s = (advance q c s, Throws).
Proof.
  revert i l s. induction qs as [|[[sql col] name] qs IH]; intros i l s H (j & q & Ej & Hj); [done|].
  pose proof (H 0%nat (sql, col, name) eq_refl) as Ha. rewrite Nat.add_0_r in Ha.
  cbn [length]. rewrite (query_loop_step _ _ _ _ _ _ _ _ Ha). cbn [fst snd]. unfold mbind, exec_bind.
  destruct (decide (is_Some (mysql (asked s) col) ∧ is_Some (mysql (S (asked s)) sql))) as [D|D].
  - rewrite execQuerySql_ok by done.
    destruct (IH (S i) (l ++ filled (fetched (asked s) [(sql, col, name)])) (advance 2 1 s)) as (a & c & E).
    + intros j' q' E'. replace (S i + j')%nat with (i + S j')%nat by lia. by apply H.
    + destruct j as [|j]; cbn in Ej; simplify_eq.
      * destruct Hj. by rewrite Nat.add_0_r.
      * exists j, q. split; [done|]. cbn [advance asked].
        by replace (asked s + 2 + 2 * j)%nat with (asked s + 2 * S j)%nat by lia.
    + rewrite E, advance_advance. by eexists _, _.
  - destruct (execQuerySql_fails sql col name (tables_of l) s D) as [a ->]. by eexists _, _.
Qed.

Lemma answered_or_not k (qs : list (string * string * string)) :
  (∀ j q, qs !! j = Some q → answered (k + 2 * j) q) ∨
  (∃ j q, qs !! j = Some q ∧ ¬ answered (k + 2 * j) q).
Proof.
  revert k. induction qs as [|q qs IH]; intros k; [by left|].
  assert (Decision (answered k q)) as [D|D] by (unfold answered; apply _).
  - destruct (IH (S (S k))) as [H|(j & q' & E & H)].
    + left. intros [|j] q' E; cbn in E; simplify_eq; [by rewrite Nat.add_0_r|].
      replace (k + 2 * S j)%nat with (S (S k) + 2 * j)%nat by lia. by apply H.
    + right. exists (S j), q'. split; [done|].
      by replace (k + 2 * S j)%nat with (S (S k) + 2 * j)%nat by lia.
  - right. exists 0%nat, q. by rewrite Nat.add_0_r.
Qed.

(** A run in which a list is too short. *)
Lemma query_loop_undefined sqls cols names i n l s :
  (∀ k sql, is_Some (mysql k sql)) →
  (∃ j, i ≤ j < i + n ∧ (sqls !! j = None ∨ cols !! j = None ∨ names !! j = None))%nat →
  (query_loop mysql true sqls cols names i n (tables_of l) s).2 = Undefined.
Proof.
  intros Hm. revert i l s. induction n as [|n IH]; intros i l s (j & Hj & Hn); [lia|].
  destruct (sqls !! i) as [sql|] eqn:E1; [|cbn; by apply undefined_at].
  destruct (cols !! i) as [col|] eqn:E2;
    [|cbn; unfold mbind at 1, exec_bind, at_ at 1; rewrite E1; by apply undefined_at].
  destruct (names !! i) as [name|] eqn:E3;
    [|cbn; unfold mbind at 1 2, exec_bind, at_ at 1 2; rewrite E1, E2; by apply undefined_at].
  rewrite (query_loop_step _ _ _ _ _ _ _ (sql, col, name)) by by split_and!.
  unfold mbind, exec_bind. cbn [fst snd]. rewrite execQuerySql_ok by (split; apply Hm).
  apply IH. exists j. split; [|done]. assert (i ≠ j); [|lia]. intros ->. destruct Hn as [?|[?|?]]; congruence.
Qed.

Lemma queries_lookup sqls cols names i n j q :
  (i + n <= length sqls)%nat → (length sqls <= length cols)%nat → (length sqls <= length names)%nat →
  take n (drop i (queries sqls cols names)) !! j = Some q → at_query sqls cols names (i + j) q.
Proof.
  intros H1 H2 H3 E. apply lookup_take_Some in E as [E _]. rewrite lookup_drop in E.
  apply lookup_zip_with_Some in E as (x & y & -> & E & ?).
  apply lookup_zip_with_Some in E as (x' & y' & -> & ? & ?). by split_and!.
Qed.

Lemma length_queries sqls cols names :
  (length sqls <= length cols)%nat → (length sqls <= length names)%nat →
  length (queries sqls cols names) = length sqls.
Proof. intros. unfold queries. rewrite !length_zip. lia. Qed.

(** What is sent: the rows of the first four queries. *)
Definition round_data (k : nat) (qs : list (string * string * string)) : list GENERATE_DATA :=
  data_of (fetched k (take 4 qs)).

Lemma data_of_filled l : data_of (filled l) = data_of l.
Proof.
  unfold data_of, filled. induction l as [|[[name keys] rows] l IH]; [done|].
  cbn [filter list_filter]. case_decide as D; cbn.
  - f_equal. apply IH.
  - destruct rows; [|cbn in D; lia]. apply IH.
Qed.
End Rounds.

Lemma execMutilSql_short mysql headID sqls cols names s :
  (∀ k sql, is_Some (mysql k sql)) →
  (length cols < 4 ∨ length cols < length sqls ∨ length names < 4 ∨ length names < length sqls)%nat →
  (execMutilSql mysql true headID sqls cols names s).2 = Undefined.
Proof.
  intros Hm Hl. unfold execMutilSql. cbn zeta.
  set (t0 := mk_tables [] [] []). change t0 with (tables_of []).
  destruct (decide (length sqls < 4 ∨ length cols < 4 ∨ length names < 4)%nat) as [D|D].
  - pose proof (query_loop_undefined mysql sqls cols names 0 4 [] s Hm) as U.
    unfold mbind at 1, exec_bind. destruct (query_loop _ _ _ _ _ _ _ _ s) as [s' o].
    cbn [snd] in U. rewrite U; [done|]. exists (Nat.min (length sqls) (Nat.min (length cols) (length names))).
    split; [lia|]. rewrite !lookup_ge_None. lia.
  - pose proof (query_loop_ok mysql sqls cols names (zip (zip (take 4 sqls) (take 4 cols)) (take 4 names)) 0 [] s) as Q.
    assert (length (zip (zip (take 4 sqls) (take 4 cols)) (take 4 names)) = 4)%nat as L4
      by (rewrite !length_zip, !length_take; lia).
    rewrite L4 in Q. unfold mbind at 1, exec_bind. rewrite Q; clear Q.
    + pose proof (query_loop_undefined mysql sqls cols names 4 (length sqls - 4) []
        (advance (2 * 4) 4 s) Hm) as U. change (tables_of []) with t0 in U.
      unfold mbind at 1, exec_bind. destruct (query_loop _ _ _ _ _ _ _ _ _) as [s' o].
      cbn [snd] in U. rewrite U; [done|]. exists (Nat.min (length cols) (length names)).
      split; [lia|]. rewrite !lookup_ge_None. lia.
    + intros j q E. apply lookup_zip_with_Some in E as (x & y & -> & E & E3).
      apply lookup_zip_with_Some in E as (x' & y' & -> & E1 & E2).
      apply lookup_take_Some in E1 as [E1 _]. apply lookup_take_Some in E2 as [E2 _].
      apply lookup_take_Some in E3 as [E3 _]. split; [by split_and!|]. split; apply Hm.
Qed.

(** C33: a round whose queries are all answered queues every row of the first four
    queries, each under a head of its own, numbered from 1 with the count of all;
    nothing of the queries behind them (the rows of the time before, asked to catch
    late writes) is sent, as the comparison looks at a list that is always empty. *)
Theorem export_round_sends mysql headID sqls cols names s :
  (4 <= length sqls)%nat → (length sqls <= length cols)%nat → (length sqls <= length names)%nat →
  (∀ k sql, is_Some (mysql k sql)) →
  let data := round_data mysql (asked s) (queries sqls cols names) in
  ∃ s', execMutilSql mysql true headID sqls cols names s = (s', Returns mysql_success) ∧
    asked s' = (asked s + 2 * length sqls)%nat ∧
    done_ s' = done_ s ++ replicate (length sqls) Commit ++
      single_heads headID (Z.of_nat (length data)) 0 data ++ [Commit].
Proof.
  intros H4 Hc Hn Hm data. set (qs := queries sqls cols names) in *.
  assert (length qs = length sqls) as Lq by by apply length_queries.
  assert (∀ i n, (i + n <= length sqls)%nat → length (take n (drop i qs)) = n) as Lt
    by (intros; rewrite length_take, length_drop; lia).
  assert (∀ i n l s, (i + n <= length sqls)%nat →
    query_loop mysql true sqls cols names i n (tables_of l) s =
    (advance (2 * n) n s, Returns (tables_of (l ++ filled (fetched mysql (asked s) (take n (drop i qs))))))) as Q.
  { intros i n l s0 Hi. pose proof (query_loop_ok mysql sqls cols names (take n (drop i qs)) i l s0) as Q.
    rewrite Lt in Q by done. apply Q. intros j q E. split; [|split; apply Hm].
    eapply queries_lookup; [| |exact Hn|exact E]; done. }
  unfold execMutilSql. cbn zeta. change (mk_tables [] [] []) with (tables_of []).
  unfold mbind at 1, exec_bind. rewrite Q by lia. unfold mbind at 1, exec_bind. rewrite Q by lia.
  cbn [length]. rewrite decide_False by lia. rewrite drop_0. cbn [app].
  set (l := filled (fetched mysql (asked s) (take 4 qs))).
  destruct (PutOneMessageQueue_tables_does headID l) as [b Hb].
  assert (data_of l = data) as Ed by apply data_of_filled.
  unfold mbind, exec_bind, mret at 1, exec_ret, set_pre. rewrite Hb, Ed, advance_advance.
  eexists. split; [reflexivity|]. cbn [advance emit asked done_]. split; [lia|].
  replace (4 + (length sqls - 4))%nat with (length sqls) by lia. by rewrite <- !app_assoc.
Qed.

Definition witness_db (k : nat) (sql : string) : option (list (list (option string))) :=
  Some (if decide (Nat.odd k) then [[Some sql; None]; [Some EmptyString; Some "7"]] else [[Some "id"]; [Some "qty"]]).

Lemma export_round_sends_witness :
  ∃ s', execMutilSql witness_db true "h" ["q0"; "q1"; "q2"; "q3"; "q4"] ["c"; "c"; "c"; "c"; "c"]
      ["t0"; "t1"; "t2"; "t3"; "t0"] (mk_world 0 [] [] []) = (s', Returns mysql_success) ∧
    length (done_ s') = 14%nat ∧
    done_ s' !! 5%nat = Some (Product (mk_head "h" 8 1 [mk_data "t0" ["id"; "qty"] ["q0"; "NULL"]])).
Proof.
  destruct (export_round_sends witness_db "h" ["q0"; "q1"; "q2"; "q3"; "q4"] ["c"; "c"; "c"; "c"; "c"]
    ["t0"; "t1"; "t2"; "t3"; "t0"] (mk_world 0 [] [] [])) as (s' & E & _ & D); [cbn; lia..|by eexists|].
  exists s'. split; [exact E|]. rewrite D. vm_compute. split; reflexivity.
Defined.

(** When the connection is down, or a query of the round is not answered, the
    round ends with an exception before anything is queued; what was selected until
    then is committed and lost. *)
Theorem export_round_throws mysql m_bConnect headID sqls cols names s :
  (4 <= length sqls)%nat → (length sqls <= length cols)%nat → (length sqls <= length names)%nat →
  (m_bConnect = false ∨
   ∃ j q, queries sqls cols names !! j = Some q ∧ ¬ answered mysql (asked s + 2 * j) q) →
  ∃ q c, execMutilSql mysql m_bConnect headID sqls cols names s = (advance q c s, Throws).
Proof.
  intros H4 Hc Hn Hf. destruct m_bConnect.
  - destruct Hf as [Hf|(j & q & Ej & Hj)]; [done|]. set (qs := queries sqls cols names) in *.
    assert (length qs = length sqls) as Lq by by apply length_queries.
    assert (∀ i n, (i + n <= length sqls)%nat → length (take n (drop i qs)) = n) as Lt
      by (intros; rewrite length_take, length_drop; lia).
    assert (∀ i n j q, (i + n <= length sqls)%nat → take n (drop i qs) !! j = Some q →
      at_query sqls cols names (i + j) q) as Hq
      by (intros ???? Hi E; eapply queries_lookup; [exact Hi|exact Hc|exact Hn|exact E]).
    unfold execMutilSql. cbn zeta. change (mk_tables [] [] []) with (tables_of []).
    unfold mbind at 1, exec_bind. destruct (answered_or_not mysql (asked s) (take 4 qs)) as [H|H].
    + pose proof (query_loop_ok mysql sqls cols names (take 4 qs) 0 [] s) as Q.
      rewrite length_take, Nat.min_l in Q by lia. rewrite Q; clear Q.
      2:{ intros j' q' E'. split; [|by apply H]. eapply (Hq 0%nat 4%nat); [lia|by rewrite drop_0]. }
      unfold mbind at 1, exec_bind.
      assert (4 <= j)%nat as Lj.
      { destruct (decide (j < 4)%nat) as [D|D]; [|lia]. destruct Hj. apply H.
        rewrite lookup_take_Some. done. }
      destruct (query_loop_fails mysql sqls cols names (take (length sqls - 4) (drop 4 qs)) 4 []
        (advance (2 * 4) 4 s)) as (a & c & E).
      { intros j' q' E'. eapply (Hq 4%nat (length sqls - 4)%nat); [lia|done]. }
      { exists (j - 4)%nat, q. split.
        - rewrite lookup_take_Some, lookup_drop. apply lookup_lt_Some in Ej as Lj'.
          split; [|lia]. rewrite <- Ej. f_equal. lia.
        - cbn [advance asked]. by replace (asked s + 2 * 4 + 2 * (j - 4))%nat with (asked s + 2 * j)%nat by lia. }
      rewrite Lt in E by lia. rewrite E, advance_advance. by eexists _, _.
    + destruct (query_loop_fails mysql sqls cols names (take 4 qs) 0 [] s) as (a & c & E).
      { intros j' q' E'. eapply (Hq 0%nat 4%nat); [lia|by rewrite drop_0]. } { exact H. }
      rewrite length_take, Nat.min_l in E by lia. rewrite E. by eexists _, _.
  - exists 0%nat, 0%nat.
    destruct (lookup_lt_is_Some_2 sqls 0) as [sql E1]; [lia|].
    destruct (lookup_lt_is_Some_2 cols 0) as [col E2]; [lia|].
    destruct (lookup_lt_is_Some_2 names 0) as [name E3]; [lia|].
    unfold execMutilSql. cbn zeta. cbn [query_loop]. unfold mbind, exec_bind, at_. rewrite E1, E2, E3.
    cbn. unfold advance. cbn. rewrite app_nil_r, Nat.add_0_r. by destruct s.
Qed.

Lemma export_round_throws_witness :
  ∃ q c, execMutilSql (λ k sql, if decide (sql = "bad") then None else witness_db k sql) true "h"
    ["q0"; "q1"; "bad"; "q3"] ["c"; "c"; "c"; "c"] ["t0"; "t1"; "t2"; "t3"] (mk_world 0 [] [] []) =
    (advance q c (mk_world 0 [] [] []), Throws).
Proof.
  apply export_round_throws; [cbn; lia..|]. right. exists 2%nat, ("bad", "c", "t2"). split; [reflexivity|].
  intros [_ H]. cbn in H. destruct H as [x H]. discriminate H.
Defined.
