(* ===== verification/ExportTime.v ===== *)
(** [wmsclient/wmsclient/increment_export.cpp]: the times between which a round of
    the export selects, the statements it asks, and the round itself.

    Times are texts; [localtime] and [mktime] depend on the machine's time zone and
    are parameters.  [size_t] has 32 bits in the client. *)
From stdpp Require Import pretty.
From S2P Require Import Prelude ClientExport.

(** ** Strings *)

Definition npos : Z := 2 ^ 32 - 1.

Fixpoint find_from (k : Z) (c : Ascii.ascii) (s : string) : Z :=
  match s with
  | EmptyString => npos
  | String x s => if decide (x = c) then k else find_from (k + 1) c s
  end.

(** [s.find(c)] and [s.find_last_of(c)] of one character. *)
Definition find (c : Ascii.ascii) (s : string) : Z := find_from 0 c s.

Definition find_last_of (c : Ascii.ascii) (s : string) : Z :=
  match rfind c s with Some k => Z.of_nat k | None => npos end.

Definition str_size (s : string) : Z := Z.of_nat (String.length s).

(** [s.substr(pos, n)] throws when [pos] is behind the end. *)
Definition substr (s : string) (pos n : Z) : option string :=
  let pos := u32 pos in
  if str_size s <? pos then None
  else Some (String.substring (Z.to_nat pos) (Z.to_nat (Z.min (u32 n) (str_size s - pos))) s).

Definition chr (n : nat) : Ascii.ascii := Ascii.ascii_of_nat n.
Definition dash : Ascii.ascii := chr 45.
Definition colon : Ascii.ascii := chr 58.
Definition blank : Ascii.ascii := chr 32.

(** [if (t.size() != 2) t.insert(0,"0");] *)
Definition pad (t : string) : string := if str_size t =? 2 then t else "0" +:+ t.

(** [None]: an exception of [substr]. *)
Definition GetWriteXmlTime (sTime : string) : option string :=
  if str_size sTime =? 19 then Some sTime else
  temp ← substr sTime (find colon sTime + 1) (str_size sTime - find colon sTime - 1);
  syear ← substr sTime 0 4;
  smon ← substr sTime 5 (find_last_of dash sTime - 5);
  let smon := pad smon in
  sday ← substr sTime (find_last_of dash sTime + 1) (find blank sTime - find_last_of dash sTime - 1);
  let sday := pad sday in
  shour ← substr sTime (find blank sTime + 1) (find colon sTime - find blank sTime - 1);
  let shour := pad shour in
  smin ← substr temp 0 (find colon temp);
  let smin := pad smin in
  ssec ← substr sTime (find_last_of colon sTime + 1) (str_size sTime - find_last_of colon sTime - 1);
  let ssec := pad ssec in
  Some (syear +:+ "-" +:+ smon +:+ "-" +:+ sday +:+ " " +:+ shour +:+ ":" +:+ smin +:+ ":" +:+ ssec).

(** ** Times *)

Record tm := mk_tm {
  tm_year : Z; tm_mon : Z; tm_mday : Z; tm_hour : Z; tm_min : Z; tm_sec : Z }.

(** [atoi]: white space, a sign, digits up to the first other character. *)
Definition is_space (c : Z) : bool := (c =? 32) || ((9 <=? c) && (c <=? 13)).

Fixpoint atoi_digits (s : string) (v : Z) : Z :=
  match s with
  | EmptyString => v
  | String c s =>
      let d := Z.of_nat (Ascii.nat_of_ascii c) in
      if (48 <=? d) && (d <=? 57) then atoi_digits s (10 * v + (d - 48)) else v
  end.

Fixpoint atoi (s : string) : Z :=
  match s with
  | EmptyString => 0
  | String c s' =>
      let d := Z.of_nat (Ascii.nat_of_ascii c) in
      if is_space d then atoi s'
      else if d =? 45 then - atoi_digits s' 0
      else if d =? 43 then atoi_digits s' 0
      else atoi_digits s 0
  end.

(** The characters from [off] on, copied to a terminated array: reading behind the
    terminator of [pDate] has no defined behaviour. *)
Definition copy_chars (pDate : string) (off n : nat) : option string :=
  if decide (off + n ≤ String.length pDate + 1)%nat
  then Some (String.substring off n (pDate +:+ String (chr 0) EmptyString)) else None.

(** [GetTimeStampByStr] up to the call of [mktime]. *)
Definition read_tm (pDate : string) : option tm :=
  szYear ← copy_chars pDate 0 4;
  szMonth ← copy_chars pDate 5 2;
  szDay ← copy_chars pDate 8 2;
  szHour ← copy_chars pDate 11 2;
  szMin ← copy_chars pDate 14 2;
  szSec ← copy_chars pDate 17 2;
  Some (mk_tm (atoi szYear - 1900) (atoi szMonth - 1) (atoi szDay) (atoi szHour) (atoi szMin) (atoi szSec)).

(** [sprintf] of the six fields without padding. *)
Definition print_tm (t : tm) : string :=
  pretty (tm_year t + 1900) +:+ "-" +:+ pretty (tm_mon t + 1) +:+ "-" +:+ pretty (tm_mday t) +:+
  " " +:+ pretty (tm_hour t) +:+ ":" +:+ pretty (tm_min t) +:+ ":" +:+ pretty (tm_sec t).

(** ** The round *)

Section Round.
Variable mysql : nat → string → option (list (list (option string))).
Variable m_bConnect : bool.
Variable headID : string.
Variable localtime : Z → option tm.
Variable mktime : tm → Z.

Definition or_undefined {A} (o : option A) : exec A :=
  match o with Some a => mret a | None => undefined end.

Definition or_throw {A} (o : option A) : exec A :=
  match o with Some a => mret a | None => throw end.

Definition GetTimeStampByStr (pDate : string) : exec Z :=
  t ← or_undefined (read_tm pDate); mret (u32 (mktime t)).

(** A null pointer from [localtime] becomes a string of a null pointer. *)
Definition GetStrFromTime (iTimeStamp : Z) : exec string :=
  t ← or_undefined (localtime iTimeStamp); mret (print_tm t).

(** The two loops of [GetSelectSql]; [glb_timestamp[0]] is read for every table. *)
Fixpoint select_loop (glb_table_name glb_timestamp : list string) (glb_period_time : Z)
    (nIndex n : nat) (stamps curs : list string) : exec (list string * list string) :=
  match n with
  | O => mret (stamps, curs)
  | S n =>
      name ← at_ glb_table_name nIndex;
      first ← at_ glb_timestamp 0;
      nTime ← GetTimeStampByStr first;
      preQueryTime ← GetStrFromTime (s32 (s32 nTime - glb_period_time));
      stamp ← at_ glb_timestamp nIndex;
      select_loop glb_table_name glb_timestamp glb_period_time (S nIndex) n
        (stamps ++ ["select COLUMN_NAME from information_schema.COLUMNS where table_name='" +:+ name +:+ "'"])
        (curs ++ ["select * from " +:+ name +:+ " where hm_update_timestamp >'" +:+ preQueryTime +:+
                  "' and hm_update_timestamp <='" +:+ stamp +:+ "'"])
  end.

Fixpoint select_loop2 (glb_table_name glb_timestamp : list string) (glb_period_time : Z)
    (nndex n : nat) (curs : list string) : exec (list string) :=
  match n with
  | O => mret curs
  | S n =>
      name ← at_ glb_table_name nndex;
      first ← at_ glb_timestamp 0;
      nTime ← GetTimeStampByStr first;
      preQueryTime ← GetStrFromTime (s32 (s32 nTime - s32 (glb_period_time * 2)));
      nTime ← GetTimeStampByStr first;
      prePreQueryTime ← GetStrFromTime (s32 (s32 nTime - s32 (glb_period_time * 4)));
      select_loop2 glb_table_name glb_timestamp glb_period_time (S nndex) n
        (curs ++ ["select * from " +:+ name +:+ " where hm_update_timestamp >'" +:+ prePreQueryTime +:+
                  "' and hm_update_timestamp <='" +:+ preQueryTime +:+ "'"])
  end.

(** [selectStampSql] and [selectCurSql]. *)
Definition GetSelectSql (glb_table_name glb_timestamp : list string) (glb_period_time : Z) :
    exec (list string * list string) :=
  let n := length glb_table_name in
  '(stamps, curs) ← select_loop glb_table_name glb_timestamp glb_period_time 0 n [] [];
  curs ← select_loop2 glb_table_name glb_timestamp glb_period_time 0 n curs;
  mret (stamps, curs).

Fixpoint write_times (glb_table_name : list string) (strQueryTime : string) : exec () :=
  match glb_table_name with
  | [] => mret ()
  | name :: names => _ ← perform (WriteTime name strQueryTime); write_times names strQueryTime
  end.

(** What [readData] does with the result of its queries. *)
Definition after_queries (rv : return_val) (glb_table_name glb_timestamp : list string) (glb_period_time : Z) : exec () :=
  match rv with
  | mysql_success =>
      first ← at_ glb_timestamp 0;
      nTime ← GetTimeStampByStr first;
      strQueryTime ← GetStrFromTime (s32 (s32 nTime + glb_period_time));
      strQueryTime ← or_throw (GetWriteXmlTime strQueryTime);
      write_times glb_table_name strQueryTime
  | _ => mret ()
  end.

Definition readData (glb_table_name glb_timestamp : list string) (glb_period_time : Z) : exec () :=
  if decide (length glb_table_name = 0 ∨ length glb_timestamp = 0)%nat then mret () else
  '(strSelectKeyTemp, strSelectValuesTemp) ← GetSelectSql glb_table_name glb_timestamp glb_period_time;
  rv ← execMutilSql mysql m_bConnect headID strSelectValuesTemp strSelectKeyTemp glb_table_name;
  after_queries rv glb_table_name glb_timestamp glb_period_time.
End Round.

(** ** Lemmas on strings *)

Lemma size_app a b : str_size (a +:+ b) = str_size a + str_size b.
Proof. unfold str_size. rewrite length_app_s. lia. Qed.

Lemma substring_app a b c : String.substring (String.length a) (String.length b) (a +:+ b +:+ c) = b.
Proof.
  induction a as [|x a IH]; [|exact IH].
  induction b as [|x b IH]; [by destruct c|]. exact (f_equal (String x) IH).
Qed.

Lemma substr_mid s a b c pos n : s = a +:+ b +:+ c → pos = str_size a → n = str_size b → str_size s < 2 ^ 32 →
  substr s pos n = Some b.
Proof.
  intros -> -> -> H. rewrite !size_app in H. unfold substr.
  assert (0 <= str_size a ∧ 0 <= str_size b ∧ 0 <= str_size c) as (? & ? & ?) by (unfold str_size; lia).
  rewrite !wrap_small, !size_app by lia. destruct (Z.ltb_spec (str_size a + (str_size b + str_size c)) (str_size a)); [lia|].
  rewrite Z.min_l by lia. unfold str_size. rewrite !Nat2Z.id. by rewrite substring_app.
Qed.

(** [c] does not occur in [s]. *)
Definition free (c : Ascii.ascii) (s : string) : Prop := rfind c s = None.

Lemma find_skip c a b k : free c a → find_from k c (a +:+ b) = find_from (k + str_size a) c b.
Proof.
  unfold free. revert k. induction a as [|x a IH]; intros k H.
  - unfold str_size. cbn. by rewrite Z.add_0_r.
  - change (String x a +:+ b) with (String x (a +:+ b)). cbn in H |- *. destruct (rfind c a) eqn:E; [done|]. destruct (decide (x = c)); [done|].
    rewrite IH by done. f_equal. unfold str_size. cbn. lia.
Qed.

Lemma find_here c b k : find_from k c (String c EmptyString +:+ b) = k.
Proof. change (find_from k c (String c b) = k). cbn [find_from]. by destruct (decide (c = c)). Qed.

Lemma rfind_app c a b :
  rfind c (a +:+ b) = match rfind c b with Some k => Some (String.length a + k)%nat | None => rfind c a end.
Proof.
  induction a as [|x a IH].
  - change (EmptyString +:+ b) with b. destruct (rfind c b); reflexivity.
  - change (String x a +:+ b) with (String x (a +:+ b)). cbn. rewrite IH. destruct (rfind c b); reflexivity.
Qed.

Lemma rfind_literals :
  (rfind dash "-" = Some 0%nat ∧ rfind dash " " = None ∧ rfind dash ":" = None) ∧
  (rfind colon "-" = None ∧ rfind colon " " = None ∧ rfind colon ":" = Some 0%nat).
Proof. by vm_compute. Qed.

(** ** Fields of a time *)

(** A field without a separator, of [n] to [n'] characters. *)
Definition field (n n' : Z) (s : string) : Prop :=
  (free dash s ∧ free blank s ∧ free colon s) ∧ n <= str_size s <= n'.

(** One part of the text [t], between [a] and [c]. *)
Ltac sizes :=
  rewrite ?size_app; change (str_size EmptyString) with 0;
  change (str_size "-") with 1; change (str_size " ") with 1; change (str_size ":") with 1; lia.

Ltac part t a b c :=
  lazymatch goal with |- mbind _ (substr t ?p ?n) = _ => rewrite (substr_mid t a b c p n) end;
  [cbn [mbind option_bind]
  |subst t; rewrite ?app_nil_s, ?app_assoc_s; reflexivity
  |sizes|sizes|sizes].

Lemma GetWriteXmlTime_fields y m d h mi s :
  field 4 4 y → field 1 2 m → field 1 2 d → field 1 2 h → field 1 2 mi → field 1 2 s →
  let t := y +:+ "-" +:+ m +:+ "-" +:+ d +:+ " " +:+ h +:+ ":" +:+ mi +:+ ":" +:+ s in
  str_size t ≠ 19 →
  GetWriteXmlTime t = Some (y +:+ "-" +:+ pad m +:+ "-" +:+ pad d +:+ " " +:+ pad h +:+ ":" +:+
                            pad mi +:+ ":" +:+ pad s).
Proof.
  intros [(?&?&?) ?] [(?&?&?) ?] [(?&?&?) ?] [(?&?&?) ?] [(?&?&?) ?] [(?&?&?) ?] t Ht.
  assert (str_size t = str_size y + 1 + str_size m + 1 + str_size d + 1 + str_size h + 1 + str_size mi + 1 + str_size s) as Es.
  { unfold t. rewrite !size_app. change (str_size "-") with 1. change (str_size " ") with 1. change (str_size ":") with 1. lia. }
  assert (find colon t = str_size y + 1 + str_size m + 1 + str_size d + 1 + str_size h) as Fc.
  { unfold t, find. rewrite !find_skip by first [assumption | exact eq_refl].
    change (find_from ?k colon (":" +:+ ?b)) with (find_from k colon (String colon EmptyString +:+ b)).
    rewrite find_here. change (str_size "-") with 1. change (str_size " ") with 1. lia. }
  assert (find blank t = str_size y + 1 + str_size m + 1 + str_size d) as Fb.
  { unfold t, find. rewrite !find_skip by first [assumption | exact eq_refl].
    change (find_from ?k blank (" " +:+ ?b)) with (find_from k blank (String blank EmptyString +:+ b)).
    rewrite find_here. change (str_size "-") with 1. lia. }
  assert (find_last_of dash t = str_size y + 1 + str_size m) as Ld.
  { unfold t, find_last_of. rewrite !rfind_app. unfold free in *.
    destruct rfind_literals as [(R1 & R2 & R3) (R4 & R5 & R6)].
    repeat match goal with E : rfind ?c ?x = _ |- context [rfind ?c ?x] => rewrite E end. cbn beta iota.
    change (String.length "-") with 1%nat. change (String.length " ") with 1%nat.
    change (String.length ":") with 1%nat. unfold str_size. lia. }
  assert (find_last_of colon t = str_size y + 1 + str_size m + 1 + str_size d + 1 + str_size h + 1 + str_size mi) as Lc.
  { unfold t, find_last_of. rewrite !rfind_app. unfold free in *.
    destruct rfind_literals as [(R1 & R2 & R3) (R4 & R5 & R6)].
    repeat match goal with E : rfind ?c ?x = _ |- context [rfind ?c ?x] => rewrite E end. cbn beta iota.
    change (String.length "-") with 1%nat. change (String.length " ") with 1%nat.
    change (String.length ":") with 1%nat. unfold str_size. lia. }
  unfold GetWriteXmlTime. destruct (Z.eqb_spec (str_size t) 19); [done|].
  rewrite Fc, Fb, Ld, Lc, Es.
  set (temp := mi +:+ ":" +:+ s).
  assert (find colon temp = str_size mi) as Ft by (unfold temp, find; rewrite find_skip by assumption; exact (find_here colon s (0 + str_size mi))).
  assert (str_size temp = str_size mi + 1 + str_size s) as Etemp
    by (unfold temp; rewrite !size_app; change (str_size ":") with 1; lia).
  assert (str_size t < 2 ^ 32) as St by (rewrite Es; zpow; lia).
  rewrite <- Es.
  part t (y +:+ "-" +:+ m +:+ "-" +:+ d +:+ " " +:+ h +:+ ":") temp EmptyString.
  part t EmptyString y ("-" +:+ m +:+ "-" +:+ d +:+ " " +:+ h +:+ ":" +:+ temp).
  part t (y +:+ "-") m ("-" +:+ d +:+ " " +:+ h +:+ ":" +:+ temp).
  part t (y +:+ "-" +:+ m +:+ "-") d (" " +:+ h +:+ ":" +:+ temp).
  part t (y +:+ "-" +:+ m +:+ "-" +:+ d +:+ " ") h (":" +:+ temp).
  rewrite Ft. part temp EmptyString mi (":" +:+ s).
  part t (y +:+ "-" +:+ m +:+ "-" +:+ d +:+ " " +:+ h +:+ ":" +:+ mi +:+ ":") s EmptyString.
  reflexivity.
Qed.

(** ** Decimal fields *)

Definition dg (k : Z) : Ascii.ascii := chr (48 + Z.to_nat k).

(** Two decimal digits. *)
Definition two (n : Z) : string := String (dg (n / 10)) (String (dg (n mod 10)) EmptyString).

Definition field_ok (n n' : Z) (s : string) : bool :=
  bool_decide (rfind dash s = None) && bool_decide (rfind blank s = None) &&
  bool_decide (rfind colon s = None) && (n <=? str_size s) && (str_size s <=? n').

Lemma field_okP n n' s : field_ok n n' s = true → field n n' s.
Proof.
  unfold field_ok, field, free. rewrite !andb_true_iff, !bool_decide_eq_true, !Z.leb_le. tauto.
Qed.

Definition small_ok (n : Z) : bool :=
  field_ok 1 2 (pretty n) && bool_decide (pad (pretty n) = two n) &&
  bool_decide (str_size (pretty n) = 2 → pretty n = two n) && (atoi (two n) =? n).

Definition year_ok (y : Z) : bool := (y <? 1000) || (field_ok 4 4 (pretty y) && (atoi (pretty y) =? y)).

Lemma small_field n : 0 <= n < 100 →
  field 1 2 (pretty n) ∧ pad (pretty n) = two n ∧ (str_size (pretty n) = 2 → pretty n = two n) ∧ atoi (two n) = n.
Proof.
  intros Hn. assert (forallb small_ok (seqZ 0 100) = true) as A by (vm_compute; reflexivity).
  pose proof (forall_range 100 _ A n Hn) as H. unfold small_ok in H.
  rewrite !andb_true_iff, !bool_decide_eq_true, Z.eqb_eq in H.
  destruct H as [[[H1 H2] H3] H4]. by split_and!; [apply field_okP|..].
Qed.

Lemma year_field y : 1000 <= y < 10000 → field 4 4 (pretty y) ∧ atoi (pretty y) = y.
Proof.
  intros Hy. assert (forallb year_ok (seqZ 0 10000) = true) as A by (vm_compute; reflexivity).
  pose proof (forall_range 10000 _ A y ltac:(lia)) as H. unfold year_ok in H. destruct (Z.ltb_spec y 1000); [lia|]. cbn [orb] in H.
  rewrite andb_true_iff, Z.eqb_eq in H. destruct H as [H1 H2]. split; [by apply field_okP|done].
Qed.

(** The text of a time with every field padded: what MySQL and the reader take. *)
Definition padded_tm (t : tm) : string :=
  pretty (tm_year t + 1900) +:+ "-" +:+ two (tm_mon t + 1) +:+ "-" +:+ two (tm_mday t) +:+ " " +:+
  two (tm_hour t) +:+ ":" +:+ two (tm_min t) +:+ ":" +:+ two (tm_sec t).

Definition tm_ok (t : tm) : Prop :=
  1000 <= tm_year t + 1900 <= 9999 ∧ 0 <= tm_mon t <= 11 ∧ 1 <= tm_mday t <= 31 ∧
  0 <= tm_hour t <= 23 ∧ 0 <= tm_min t <= 59 ∧ 0 <= tm_sec t <= 60.

Lemma read_padded t : tm_ok t → read_tm (padded_tm t) = Some t.
Proof.
  intros (Hy & Hm & Hd & Hh & Hmi & Hs).
  destruct (year_field (tm_year t + 1900)) as [[_ Ly] Ay]; [lia|]. unfold padded_tm.
  destruct (small_field (tm_mon t + 1)) as (_ & _ & _ & Am); [lia|].
  destruct (small_field (tm_mday t)) as (_ & _ & _ & Ad); [lia|].
  destruct (small_field (tm_hour t)) as (_ & _ & _ & Ah); [lia|].
  destruct (small_field (tm_min t)) as (_ & _ & _ & Ami); [lia|].
  destruct (small_field (tm_sec t)) as (_ & _ & _ & As); [lia|].
  destruct (pretty (tm_year t + 1900)) as [|a [|b [|c [|d [|]]]]]; unfold str_size in Ly; cbn in Ly; try lia.
  unfold read_tm, copy_chars. unfold two in *.
  rewrite !decide_True by (rewrite !length_app_s; cbn; lia).
  cbv [mbind option_bind String.append String.substring].
  rewrite Ay, Am, Ad, Ah, Ami, As. destruct t. cbn. do 2 f_equal; lia.
Qed.

(** The time written to the configuration after a round is the padded text of
    the time that was printed without padding, has 19 characters, is left alone when
    it is padded again, and is read back as the same time. *)
Theorem time_text_roundtrip t : tm_ok t →
  GetWriteXmlTime (print_tm t) = Some (padded_tm t) ∧ str_size (padded_tm t) = 19 ∧
  GetWriteXmlTime (padded_tm t) = Some (padded_tm t) ∧ read_tm (padded_tm t) = Some t.
Proof.
  intros Ht. assert (str_size (padded_tm t) = 19 ∧ GetWriteXmlTime (print_tm t) = Some (padded_tm t)) as [E1 E2].
  { destruct Ht as (Hy & Hm & Hd & Hh & Hmi & Hs).
    destruct (year_field (tm_year t + 1900)) as [Fy _]; [lia|].
    destruct (small_field (tm_mon t + 1)) as (Fm & Pm & Em & _); [lia|].
    destruct (small_field (tm_mday t)) as (Fd & Pd & Ed & _); [lia|].
    destruct (small_field (tm_hour t)) as (Fh & Ph & Eh & _); [lia|].
    destruct (small_field (tm_min t)) as (Fmi & Pmi & Emi & _); [lia|].
    destruct (small_field (tm_sec t)) as (Fs & Ps & Es & _); [lia|].
    assert (str_size (print_tm t) = str_size (pretty (tm_year t + 1900)) + 1 + str_size (pretty (tm_mon t + 1)) + 1 +
      str_size (pretty (tm_mday t)) + 1 + str_size (pretty (tm_hour t)) + 1 + str_size (pretty (tm_min t)) + 1 +
      str_size (pretty (tm_sec t))) as Ep by (unfold print_tm; sizes).
    assert (∀ n, str_size (two n) = 2) as L2 by done.
    split.
    { unfold padded_tm. destruct Fy as [_ Fy]. rewrite ?size_app, ?L2. change (str_size "-") with 1.
      change (str_size " ") with 1. change (str_size ":") with 1. lia. }
    destruct (decide (str_size (print_tm t) = 19)) as [D|D].
    - unfold GetWriteXmlTime. rewrite (proj2 (Z.eqb_eq _ _) D). f_equal. rewrite Ep in D.
      destruct Fy as [_ ?], Fm as [_ ?], Fd as [_ ?], Fh as [_ ?], Fmi as [_ ?], Fs as [_ ?].
      unfold print_tm, padded_tm. by rewrite Em, Ed, Eh, Emi, Es by lia.
    - unfold padded_tm. rewrite <- Pm, <- Pd, <- Ph, <- Pmi, <- Ps. by apply GetWriteXmlTime_fields. }
  split_and!; [done|done| |by apply read_padded].
  unfold GetWriteXmlTime. by rewrite E1.
Qed.

Lemma time_text_roundtrip_witness :
  GetWriteXmlTime "2016-5-3 4:1:30" = Some "2016-05-03 04:01:30" ∧
  read_tm "2016-05-03 04:01:30" = Some (mk_tm 116 4 3 4 1 30).
Proof.
  destruct (time_text_roundtrip (mk_tm 116 4 3 4 1 30)) as (H1 & _ & _ & H2).
  - unfold tm_ok. cbn. lia.
  - split; [exact H1|exact H2].
Defined.

(** The first stamp of the configuration in the repository is not padded: its time
    is looked for behind the end of the text. *)
Lemma shipped_stamp_undefined : read_tm "2016-3-31 0:31:30" = None.
Proof. by vm_compute. Qed.

(** ** Rounds *)

(** [m] changes nothing, and has no defined behaviour or gives what [P] says. *)
Definition pure_or_undefined {A} (m : exec A) (P : A → Prop) : Prop :=
  ∀ s, m s = (s, Undefined) ∨ ∃ a, m s = (s, Returns a) ∧ P a.

Lemma pure_bind {A B} (m : exec A) (f : A → exec B) P Q :
  pure_or_undefined m P → (∀ a, P a → pure_or_undefined (f a) Q) → pure_or_undefined (m ≫= f) Q.
Proof.
  intros Hm Hf s. unfold mbind, exec_bind. destruct (Hm s) as [->|(a & -> & Ha)]; [by left|].
  by apply Hf.
Qed.

Lemma pure_ret {A} (a : A) (P : A → Prop) : P a → pure_or_undefined (mret a) P.
Proof. intros H s. right. by exists a. Qed.

Lemma pure_or_undefined_option {A} (o : option A) : pure_or_undefined (or_undefined o) (λ _, True).
Proof. intros s. destruct o as [a|]; [right; by exists a|by left]. Qed.

Lemma pure_at {A} (v : list A) i : pure_or_undefined (at_ v i) (λ _, True).
Proof. intros s. unfold at_. destruct (v !! i) as [a|]; [right; by exists a|by left]. Qed.

Section Select.
Context (localtime : Z → option tm) (mktime : tm → Z).
Context (names stamps : list string) (period : Z).

Lemma pure_stamp x : pure_or_undefined (GetTimeStampByStr mktime x) (λ _, True).
Proof. eapply pure_bind; [apply pure_or_undefined_option|intros ? _; by apply pure_ret]. Qed.

Lemma pure_str x : pure_or_undefined (GetStrFromTime localtime x) (λ _, True).
Proof. eapply pure_bind; [apply pure_or_undefined_option|intros ? _; by apply pure_ret]. Qed.

Hint Resolve pure_at pure_stamp pure_str : core.

(** The statements: one for the columns and one for the rows of each table. *)
Lemma select_loop_lengths i n keys curs :
  pure_or_undefined (select_loop localtime mktime names stamps period i n keys curs)
    (λ r, length r.1 = length keys + n ∧ length r.2 = length curs + n)%nat.
Proof.
  revert i keys curs. induction n as [|n IH]; intros i keys curs; cbn [select_loop].
  - apply pure_ret. cbn. lia.
  - do 5 (eapply pure_bind; [auto|intros ? _]).
    intros s. destruct (IH (S i) (keys ++ ["select COLUMN_NAME from information_schema.COLUMNS where table_name='" +:+ a +:+ "'"])
      (curs ++ ["select * from " +:+ a +:+ " where hm_update_timestamp >'" +:+ a2 +:+
                "' and hm_update_timestamp <='" +:+ a3 +:+ "'"]) s) as [E|(r & E & H)]; [by left|right].
    exists r. split; [done|]. rewrite !length_app in H. cbn [length] in H. lia.
Qed.

(** Those that ask again for the rows of the time before. *)
Lemma select_loop2_lengths i n curs :
  pure_or_undefined (select_loop2 localtime mktime names stamps period i n curs)
    (λ r, length r = length curs + n)%nat.
Proof.
  revert i curs. induction n as [|n IH]; intros i curs; cbn [select_loop2].
  - apply pure_ret. lia.
  - do 6 (eapply pure_bind; [auto|intros ? _]).
    intros s. edestruct (IH (S i)) as [E|(r & E & H)]; [left; exact E|right].
    exists r. split; [exact E|]. rewrite length_app in H. cbn [length] in H. lia.
Qed.

Lemma GetSelectSql_lengths :
  pure_or_undefined (GetSelectSql localtime mktime names stamps period)
    (λ r, length r.1 = length names ∧ length r.2 = 2 * length names)%nat.
Proof.
  eapply pure_bind; [apply select_loop_lengths|]. intros [keys curs] [Hk Hc].
  eapply pure_bind; [apply select_loop2_lengths|]. intros curs' Hc'.
  apply pure_ret. cbn in *. lia.
Qed.
End Select.

(** C32: with any tables configured, a round whose queries are all answered has no
    defined behaviour: twice as many statements for rows are asked as there are
    statements for columns, and [execMutilSql] indexes both lists, and the list of
    the tables, by the same counter. *)
Theorem readData_undefined mysql headID localtime mktime tables stamps period s :
  tables ≠ [] → stamps ≠ [] → (∀ k sql, is_Some (mysql k sql)) →
  (readData mysql true headID localtime mktime tables stamps period s).2 = Undefined.
Proof.
  intros Ht Hs Hm. assert (length tables ≠ 0 ∧ length stamps ≠ 0)%nat as [Lt Ls]
    by (split; by rewrite length_zero_iff_nil).
  unfold readData. rewrite decide_False by tauto. unfold mbind at 1, exec_bind.
  destruct (GetSelectSql_lengths localtime mktime tables stamps period s) as [->|([keys vals] & -> & Hk & Hv)];
    [done|]. cbn in Hk, Hv. unfold mbind at 1, exec_bind.
  pose proof (execMutilSql_short mysql headID vals keys tables s Hm) as U.
  destruct (execMutilSql _ _ _ _ _ _ s) as [s' o]. cbn in U. rewrite U; [done|]. lia.
Qed.

Lemma readData_undefined_witness :
  (readData witness_db true "h" (λ _, Some (mk_tm 116 2 31 0 31 30)) (λ _, 0)
     ["WM_SO_HEADER"; "WM_SO_DETAIL"; "wm_asn_header"; "wm_asn_detail"]
     ["2016-03-31 00:31:30"; "2016-05-03 04:01:30"; "2016-05-12 13:44:30"; "2016-05-12 13:44:30"] 30
     (mk_world 0 [] [] [])).2 = Undefined.
Proof.
  apply readData_undefined; [discriminate|discriminate|]. intros k sql. by eexists.
Defined.
