(* ===== verification/JsonValue.v ===== *)
(** [wmsclient/jsoncpp/src/lib_json/json_value.cpp] and [json_tool.h]: the JSON
    values of the client's messages.

    A [Json::Value] is a tree.  An array is kept as a map from indices; those the
    program builds have no gaps, so that the list of the elements stands for it.
    An object is kept as a map from names, here the list of its members in the
    order of the map.  Of a real number only the texts [printf] gives for it are
    kept, with 16 and with 17 digits.  The comments and the offsets a value carries
    are left out: the program uses neither.  Failed assertions of jsoncpp are
    exceptions; the lengths are below 2^31. *)
From Stdlib Require Import Ascii.
From S2P Require Import Prelude.

(** ** Values *)

#[local] Set Warnings "-register-all".

Inductive Value :=
  | nullValue
  | intValue (z : Z)
  | uintValue (z : Z)
  | realValue (text16 text17 : string)
  | stringValue (s : string)
  | booleanValue (b : bool)
  | arrayValue (l : list Value)
  | objectValue (m : list (string * Value)).

Fixpoint Value_ind' (P : Value → Prop)
    (Hnull : P nullValue) (Hint : ∀ z, P (intValue z)) (Huint : ∀ z, P (uintValue z))
    (Hreal : ∀ a b, P (realValue a b)) (Hstring : ∀ s, P (stringValue s))
    (Hbool : ∀ b, P (booleanValue b))
    (Harray : ∀ l, Forall P l → P (arrayValue l))
    (Hobject : ∀ m, Forall (λ x, P x.2) m → P (objectValue m)) (v : Value) : P v :=
  let rec := Value_ind' P Hnull Hint Huint Hreal Hstring Hbool Harray Hobject in
  match v with
  | nullValue => Hnull
  | intValue z => Hint z
  | uintValue z => Huint z
  | realValue a b => Hreal a b
  | stringValue s => Hstring s
  | booleanValue b => Hbool b
  | arrayValue l => Harray l
      ((fix go l : Forall P l :=
          match l with [] => Forall_nil_2 _ | x :: l => Forall_cons_2 _ _ _ (rec x) (go l) end) l)
  | objectValue m => Hobject m
      ((fix go m : Forall (λ x, P x.2) m :=
          match m with [] => Forall_nil_2 _ | x :: m => Forall_cons_2 _ _ _ (rec x.2) (go m) end) m)
  end.

(** What a function throws: the program's two exceptions, and jsoncpp's, which
    nothing catches. *)
Inductive thrown := ExceptionParsejson | ExceptionDatabase | LogicError | RuntimeError.

Definition res (A : Type) : Type := thrown + A.

#[export] Instance res_ret : MRet res := λ A, inr.
#[export] Instance res_bind : MBind res := λ A B f m,
  match m with inr a => f a | inl e => inl e end.

Definition raise {A} (e : thrown) : res A := inl e.

(** ** The order of names *)

Definition ord (c : ascii) : Z := Z.of_N (N_of_ascii c).
Definition chr (z : Z) : ascii := ascii_of_N (Z.to_N (u8 z)).

Fixpoint memcmp (a b : string) (n : nat) : comparison :=
  match n, a, b with
  | S n, String x a, String y b =>
      match ord x ?= ord y with Eq => memcmp a b n | r => r end
  | _, _, _ => Eq
  end.

(** [CZString::operator<]. *)
Definition czstring_less (a b : string) : bool :=
  let min_len := Nat.min (String.length a) (String.length b) in
  match memcmp a b min_len with
  | Lt => true
  | Gt => false
  | Eq => Nat.ltb (String.length a) (String.length b)
  end.

(** [resolveReference] for a member that is then assigned: the place of the name in
    the map is found from below. *)
Fixpoint set_member (key : string) (v : Value) (m : list (string * Value)) : list (string * Value) :=
  match m with
  | [] => [(key, v)]
  | (k, x) :: m' =>
      if czstring_less k key then (k, x) :: set_member key v m'
      else if decide (k = key) then (k, v) :: m'
      else (key, v) :: m
  end.

(** ** Operations *)

Fixpoint member (key : string) (m : list (string * Value)) : option Value :=
  match m with
  | [] => None
  | (k, v) :: m => if decide (k = key) then Some v else member key m
  end.

Definition find_member (v : Value) (key : string) : res (option Value) :=
  match v with
  | objectValue m => mret (member key m)
  | nullValue => mret None
  | _ => raise LogicError
  end.

Definition isMember (v : Value) (key : string) : res bool :=
  x ← find_member v key; mret (bool_decide (is_Some x)).

(** [v[key]] makes the member when there is none. *)
Definition at_key (v : Value) (key : string) : res Value :=
  match v with
  | objectValue m => mret (default nullValue (member key m))
  | nullValue => mret nullValue
  | _ => raise LogicError
  end.

(** [v[key] = x]. *)
Definition assign (v : Value) (key : string) (x : Value) : res Value :=
  match v with
  | objectValue m => mret (objectValue (set_member key x m))
  | nullValue => mret (objectValue [(key, x)])
  | _ => raise LogicError
  end.

Definition append (v x : Value) : res Value :=
  match v with
  | arrayValue l => mret (arrayValue (l ++ [x]))
  | nullValue => mret (arrayValue [x])
  | _ => raise LogicError
  end.

(** [v[i]] of an array makes the elements there are not. *)
Definition element (l : list Value) (i : nat) : Value := nth i l nullValue.

(** [uintToString]: the digits from the end of a buffer on; 20 are enough for 64
    bits. *)
Fixpoint uint_loop (n : nat) (value : Z) (current : string) : string :=
  match n with
  | O => current
  | S n =>
      let current := String (chr (value mod 10 + 48)) current in
      let value := value / 10 in
      if value =? 0 then current else uint_loop n value current
  end.

Definition uintToString (value : Z) : string := uint_loop 20 value EmptyString.

Definition minLargestInt : Z := - 2 ^ 63.
Definition maxLargestInt : Z := 2 ^ 63 - 1.
Definition maxLargestUInt : Z := 2 ^ 64 - 1.
Definition maxInt : Z := 2 ^ 31 - 1.

(** [valueToString] of a [LargestInt]; a [LargestUInt] has no sign. *)
Definition valueToString (value : Z) : string :=
  if value =? minLargestInt then String "-" (uintToString (maxLargestInt + 1))
  else if value <? 0 then String "-" (uintToString (- value))
  else uintToString value.

Definition asString (v : Value) : res string :=
  match v with
  | nullValue => mret EmptyString
  | stringValue s => mret s
  | booleanValue b => mret (if b then "true" else "false")
  | intValue z => mret (valueToString z)
  | uintValue z => mret (uintToString z)
  | realValue _ t => mret t
  | arrayValue _ | objectValue _ => raise LogicError
  end.

Definition value_size (v : Value) : nat :=
  match v with arrayValue l => length l | objectValue m => length m | _ => O end.

(** [codePointToUTF8]. *)
Definition codePointToUTF8 (cp : Z) : string :=
  if cp <=? 0x7f then String (chr cp) EmptyString
  else if cp <=? 0x7FF then
    String (chr (0xC0 .| (0x1f .& (cp .>> 6)))) (String (chr (0x80 .| (0x3f .& cp))) EmptyString)
  else if cp <=? 0xFFFF then
    String (chr (0xE0 .| (0xf .& (cp .>> 12))))
      (String (chr (0x80 .| (0x3f .& (cp .>> 6)))) (String (chr (0x80 .| (0x3f .& cp))) EmptyString))
  else if cp <=? 0x10FFFF then
    String (chr (0xF0 .| (0x7 .& (cp .>> 18))))
      (String (chr (0x80 .| (0x3f .& (cp .>> 12))))
        (String (chr (0x80 .| (0x3f .& (cp .>> 6)))) (String (chr (0x80 .| (0x3f .& cp))) EmptyString)))
  else EmptyString.

(** ** What holds everywhere in a value *)

Fixpoint everywhere (P : Value → Prop) (v : Value) : Prop :=
  P v ∧
  match v with
  | arrayValue l => (fix go l := match l with [] => True | x :: l => everywhere P x ∧ go l end) l
  | objectValue m => (fix go m := match m with [] => True | x :: m => everywhere P x.2 ∧ go m end) m
  | _ => True
  end.

Fixpoint depth (v : Value) : nat :=
  match v with
  | arrayValue l => S ((fix go l := match l with [] => O | x :: l => Nat.max (depth x) (go l) end) l)
  | objectValue m => S ((fix go m := match m with [] => O | x :: m => Nat.max (depth x.2) (go m) end) m)
  | _ => 1%nat
  end.

Definition depths (l : list Value) : nat := foldr (λ x n, Nat.max (depth x) n) O l.

Lemma everywhere_array P l : everywhere P (arrayValue l) ↔ P (arrayValue l) ∧ Forall (everywhere P) l.
Proof.
  cbn [everywhere]. apply and_iff_compat_l. induction l as [|x l IH]; [by split|].
  by rewrite Forall_cons, IH.
Qed.

Lemma everywhere_object P m :
  everywhere P (objectValue m) ↔ P (objectValue m) ∧ Forall (λ x, everywhere P x.2) m.
Proof.
  cbn [everywhere]. apply and_iff_compat_l. induction m as [|x m IH]; [by split|].
  by rewrite Forall_cons, IH.
Qed.

Lemma depth_array l : depth (arrayValue l) = S (depths l).
Proof. done. Qed.

Lemma depth_object m : depth (objectValue m) = S (depths m.*2).
Proof. cbn [depth]. f_equal. induction m as [|x m IH]; [done|]. cbn. by rewrite IH. Qed.

Lemma depths_app l x : depths (l ++ [x]) = Nat.max (depths l) (depth x).
Proof. induction l as [|y l IH]; cbn; [lia|]. unfold depths in IH. rewrite IH. lia. Qed.

Lemma depths_le n l : Forall (λ v, depth v <= n)%nat l → (depths l <= n)%nat.
Proof. induction 1; cbn [depths foldr] in *; [lia|]. fold (depths l). lia. Qed.

(** ** Characters *)

Lemma ord_range c : 0 <= ord c < 256.
Proof. unfold ord. pose proof (N_ascii_bounded c). lia. Qed.

Lemma chr_ord c : chr (ord c) = c.
Proof.
  pose proof (ord_range c). unfold chr. rewrite wrap_small by done. unfold ord.
  by rewrite N2Z.id, ascii_N_embedding.
Qed.

Lemma ord_chr z : 0 <= z < 256 → ord (chr z) = z.
Proof.
  intros. unfold chr, ord. rewrite wrap_small by done.
  rewrite N_ascii_embedding; lia.
Qed.

#[export] Instance ord_inj : Inj (=) (=) ord.
Proof. intros a b E. by rewrite <- (chr_ord a), E, chr_ord. Qed.

(** ** The order of names is strict and total *)

Fixpoint lex (a b : string) : bool :=
  match a, b with
  | _, EmptyString => false
  | EmptyString, _ => true
  | String x a, String y b =>
      match ord x ?= ord y with Lt => true | Gt => false | Eq => lex a b end
  end.

Lemma czstring_less_lex a b : czstring_less a b = lex a b.
Proof.
  unfold czstring_less. revert b. induction a as [|x a IH]; intros [|y b]; [done..|].
  cbn [String.length Nat.min memcmp lex]. destruct (ord x ?= ord y); [|done..].
  rewrite <- IH. done.
Qed.

Lemma lex_irrefl a : lex a a = false.
Proof. induction a as [|x a IH]; [done|]. cbn. by rewrite Z.compare_refl. Qed.

Lemma lex_trans a b c : lex a b = true → lex b c = true → lex a c = true.
Proof.
  revert b c. induction a as [|x a IH]; intros [|y b] [|z c]; cbn; try done.
  destruct (Z.compare_spec (ord x) (ord y)), (Z.compare_spec (ord y) (ord z)); try done;
    destruct (Z.compare_spec (ord x) (ord z)); try done; try lia. apply IH.
Qed.

Lemma lex_total a b : lex a b = false → a ≠ b → lex b a = true.
Proof.
  revert b. induction a as [|x a IH]; intros [|y b]; cbn; try done.
  destruct (Z.compare_spec (ord x) (ord y)) as [E| |]; try done.
  - rewrite (Z.compare_antisym (ord x) (ord y)), E, Z.compare_refl. cbn. apply (inj ord) in E as ->.
    intros H N. apply IH; [done|]. congruence.
  - intros _ _. by destruct (Z.compare_spec (ord y) (ord x)); [lia|..|lia].
Qed.

Lemma less_irrefl a : czstring_less a a = false.
Proof. rewrite czstring_less_lex. apply lex_irrefl. Qed.

Lemma less_trans a b c : czstring_less a b = true → czstring_less b c = true → czstring_less a c = true.
Proof. rewrite !czstring_less_lex. apply lex_trans. Qed.

Lemma less_total a b : czstring_less a b = false → a ≠ b → czstring_less b a = true.
Proof. rewrite !czstring_less_lex. apply lex_total. Qed.

(** ** The members of an object *)

(** The names go up, so that none comes twice. *)
Fixpoint ascending (names : list string) : Prop :=
  match names with
  | [] => True
  | k :: names => Forall (λ n, czstring_less k n = true) names ∧ ascending names
  end.

Lemma ascending_NoDup names : ascending names → NoDup names.
Proof.
  induction names as [|k names IH]; [by constructor|]. intros [Hk Hn]. constructor; [|by apply IH].
  intros Hi. rewrite Forall_forall in Hk. apply Hk in Hi. by rewrite less_irrefl in Hi.
Qed.

Lemma set_member_names key v m n : n ∈ (set_member key v m).*1 → n = key ∨ n ∈ m.*1.
Proof.
  induction m as [|[k x] m IH]; cbn.
  - rewrite list_elem_of_singleton. auto.
  - destruct (czstring_less k key); [|case_decide]; cbn; rewrite !elem_of_cons; [|tauto..].
    intros [->|H]; [auto|]. destruct (IH H); auto.
Qed.

Lemma set_member_ascending key v m : ascending m.*1 → ascending (set_member key v m).*1.
Proof.
  induction m as [|[k x] m IH]; [done|]. cbn. intros [Hk Hm].
  destruct (czstring_less k key) eqn:E; [|destruct (decide (k = key)) as [->|N]]; cbn.
  - split; [|by apply IH]. apply Forall_forall. intros n Hn. rewrite Forall_forall in Hk.
    apply set_member_names in Hn as [->|Hn]; [done|by apply Hk].
  - done.
  - apply (less_total _ _) in E; [|done]. split; [|done]. constructor; [done|].
    eapply Forall_impl; [exact Hk|]. cbn. intros n. by apply less_trans.
Qed.

Lemma set_member_last key v m :
  Forall (λ n, czstring_less n key = true) m.*1 → set_member key v m = m ++ [(key, v)].
Proof.
  induction m as [|[k x] m IH]; [done|]. cbn. rewrite Forall_cons. intros [-> H].
  by rewrite IH.
Qed.

Lemma member_set_member key v m n :
  ascending m.*1 → member n (set_member key v m) = if decide (n = key) then Some v else member n m.
Proof.
  induction m as [|[k x] m IH]; cbn.
  - intros _. repeat case_decide; congruence.
  - intros [Hk Hm]. destruct (czstring_less k key) eqn:E; [|destruct (decide (k = key)) as [->|N]]; cbn.
    + rewrite IH by done. destruct (decide (k = n)) as [->|]; [|done].
      destruct (decide (n = key)) as [->|]; [|done]. by rewrite less_irrefl in E.
    + repeat case_decide; congruence.
    + repeat case_decide; congruence.
Qed.

Lemma set_member_twice key v w m : set_member key v (set_member key w m) = set_member key v m.
Proof.
  induction m as [|[k x] m IH]; cbn.
  - by rewrite less_irrefl, decide_True.
  - destruct (czstring_less k key) eqn:E; [|case_decide]; cbn.
    + by rewrite E, IH.
    + by rewrite E, decide_True.
    + by rewrite less_irrefl, decide_True.
Qed.

Lemma set_member_Forall (P : string * Value → Prop) key v m :
  P (key, v) → Forall P m → Forall P (set_member key v m).
Proof.
  intros Hv. induction 1 as [|[k x] m Hx Hm IH]; cbn; [by constructor|].
  case_match; [by constructor|]. case_decide; subst; by constructor; try constructor.
Qed.

(** ** Digits *)

Definition is_digit (c : ascii) : bool := (48 <=? ord c) && (ord c <=? 57).

Fixpoint all_digits (s : string) : bool :=
  match s with EmptyString => true | String c s => is_digit c && all_digits s end.

Lemma all_digits_cons c s : all_digits (String c s) = is_digit c && all_digits s.
Proof. done. Qed.

Lemma all_digits_one c : is_digit c = true → all_digits (String c EmptyString) = true.
Proof. intros H. by rewrite all_digits_cons, H. Qed.

Lemma all_digits_app a b : all_digits (a +:+ b) = all_digits a && all_digits b.
Proof. induction a as [|c a IH]; [done|]. cbn [all_digits]. rewrite <- andb_assoc, <- IH. done. Qed.

(** The number some digits make, behind those of [a]. *)
Fixpoint digits_value (a : Z) (s : string) : Z :=
  match s with EmptyString => a | String c s => digits_value (a * 10 + (ord c - 48)) s end.

Lemma digits_value_le a s : 0 <= a → all_digits s = true → a <= digits_value a s.
Proof.
  revert a. induction s as [|c s IH]; intros a Ha; cbn [digits_value all_digits]; [lia|].
  rewrite andb_true_iff. unfold is_digit. intros [Hc Hs].
  specialize (IH (a * 10 + (ord c - 48)) ltac:(lia) Hs). lia.
Qed.

Lemma digit_chr d : 0 <= d < 10 → is_digit (chr (d + 48)) = true ∧ ord (chr (d + 48)) = d + 48.
Proof. intros. unfold is_digit. rewrite !ord_chr by lia. lia. Qed.

Lemma uint_loop_spec n v cur : 0 <= v < 10 ^ Z.of_nat n → all_digits cur = true → (0 < n)%nat →
  ∃ d, uint_loop n v cur = d +:+ cur ∧ d ≠ EmptyString ∧ all_digits d = true ∧
       (∀ s, digits_value 0 (d +:+ s) = digits_value v s).
Proof.
  revert v cur. induction n as [|n IH]; intros v cur Hv Hc Hn; [lia|]. clear Hn. cbn [uint_loop].
  destruct (digit_chr (v mod 10)) as [Hd Ed]; [by apply Z.mod_pos_bound|].
  destruct (Z.eqb_spec (v / 10) 0) as [E|E].
  - exists (String (chr (v mod 10 + 48)) EmptyString). split_and!; [done..| |].
    + by rewrite (all_digits_one _ Hd).
    + intros s. change (digits_value (0 * 10 + (ord (chr (v mod 10 + 48)) - 48)) s = digits_value v s).
      rewrite Ed. f_equal. zdm.
  - destruct n as [|n]; [change (10 ^ Z.of_nat 1) with 10 in Hv; zdm|].
    destruct (IH (v / 10) (String (chr (v mod 10 + 48)) cur)) as (d & E1 & E2 & E3 & E4).
    { rewrite (Nat2Z.inj_succ (S n)), Z.pow_succ_r in Hv by lia. zdm. }
    { rewrite all_digits_cons, Hd. done. }
    { lia. }
    exists (d +:+ String (chr (v mod 10 + 48)) EmptyString). split_and!.
    + by rewrite E1, app_assoc_s.
    + by destruct d.
    + rewrite all_digits_app, E3. by rewrite (all_digits_one _ Hd).
    + intros s. rewrite app_assoc_s, E4.
      change (digits_value (v / 10 * 10 + (ord (chr (v mod 10 + 48)) - 48)) s = digits_value v s).
      rewrite Ed. f_equal. zdm.
Qed.

(** What [uintToString] writes are digits, of which the number is made. *)
Lemma uintToString_spec v : 0 <= v < 2 ^ 64 →
  uintToString v ≠ EmptyString ∧ all_digits (uintToString v) = true ∧ digits_value 0 (uintToString v) = v.
Proof.
  intros Hv. destruct (uint_loop_spec 20 v EmptyString) as (d & E1 & E2 & E3 & E4); [|done|lia|].
  { change (2 ^ 64) with 18446744073709551616 in Hv.
    change (10 ^ Z.of_nat 20) with 100000000000000000000. lia. }
  unfold uintToString. rewrite E1, app_nil_s. split_and!; [done..|].
  specialize (E4 EmptyString). by rewrite app_nil_s in E4.
Qed.
