(* ===== verification/JsonWriter.v ===== *)
(** [wmsclient/jsoncpp/src/lib_json/json_writer.cpp]: [FastWriter], which writes a
    document on one line.  Its options are those of its constructor, which the
    program does not change: no placeholders are dropped, nothing is YAML, a line
    feed ends the document. *)
From Stdlib Require Import Ascii.
From S2P Require Import Prelude JsonValue.

(** [isControlCharacter]: a [char] is signed, so that those from 128 on are none. *)
Definition isControlCharacter (ch : ascii) : bool :=
  let ch := s8 (ord ch) in (0 <? ch) && (ch <=? 0x1F).

Fixpoint containsControlCharacter0 (str : string) : bool :=
  match str with
  | EmptyString => false
  | String c str => if isControlCharacter c || (ord c =? 0) then true else containsControlCharacter0 str
  end.

(** The characters with an escape of their own. *)
Definition special : list ascii := ["034"%char; "\"%char; "008"%char; "012"%char; "010"%char; "013"%char; "009"%char].

(** Whether [strnpbrk] finds one of the characters. *)
Fixpoint strnpbrk (s : string) (accept : list ascii) : bool :=
  match s with
  | EmptyString => false
  | String c s => if existsb (Ascii.eqb c) accept then true else strnpbrk s accept
  end.

Definition quote : string := String "034" EmptyString.

(** A hexadecimal digit in upper case. *)
Definition hex_upper (d : Z) : ascii := chr (if d <? 10 then 48 + d else 55 + d).

(** [std::hex << std::uppercase << std::setfill('0') << std::setw(4)] of a byte. *)
Definition hex4 (n : Z) : string :=
  String "0" (String "0" (String (hex_upper (n / 16)) (String (hex_upper (n mod 16)) EmptyString))).

Definition escape (c : ascii) : string :=
  if Ascii.eqb c "034" then String "\" (String "034" EmptyString)
  else if Ascii.eqb c "\" then "\\"
  else if Ascii.eqb c "008" then "\b"
  else if Ascii.eqb c "012" then "\f"
  else if Ascii.eqb c "010" then "\n"
  else if Ascii.eqb c "013" then "\r"
  else if Ascii.eqb c "009" then "\t"
  else if isControlCharacter c || (ord c =? 0) then "\u" +:+ hex4 (ord c)
  else String c EmptyString.

Fixpoint escaped (value : string) : string :=
  match value with EmptyString => EmptyString | String c value => escape c +:+ escaped value end.

Definition valueToQuotedStringN (value : string) : string :=
  if negb (strnpbrk value special) && negb (containsControlCharacter0 value) then quote +:+ value +:+ quote
  else quote +:+ escaped value +:+ quote.

Definition boolToString (b : bool) : string := if b then "true" else "false".

Fixpoint writeValue (value : Value) : string :=
  match value with
  | nullValue => "null"
  | intValue z => valueToString z
  | uintValue z => uintToString z
  | realValue _ t => t
  | stringValue s => valueToQuotedStringN s
  | booleanValue b => boolToString b
  | arrayValue l => "[" +:+ String.concat "," (map writeValue l) +:+ "]"
  | objectValue m =>
      "{" +:+ String.concat "," (map (λ x, valueToQuotedStringN x.1 +:+ ":" +:+ writeValue x.2) m) +:+ "}"
  end.

(** [FastWriter::write]. *)
Definition write (root : Value) : string := writeValue root +:+ String "010" EmptyString.

(** ** Lemmas *)

Lemma escape_plain c : existsb (Ascii.eqb c) special = false → isControlCharacter c || (ord c =? 0) = false →
  escape c = String c EmptyString.
Proof.
  intros H1 H2. unfold escape, special in *. cbn [existsb] in H1. rewrite !orb_false_iff in H1.
  destruct H1 as (-> & -> & -> & -> & -> & -> & -> & _). by rewrite H2.
Qed.

(** A string without anything to escape is written as the loop would write it. *)
Lemma quoted_escaped s : valueToQuotedStringN s = quote +:+ escaped s +:+ quote.
Proof.
  unfold valueToQuotedStringN. destruct (negb (strnpbrk s special) && negb (containsControlCharacter0 s)) eqn:E; [|done].
  do 2 f_equal. apply andb_true_iff in E as [E1 E2]. rewrite negb_true_iff in E1, E2.
  revert E1 E2. induction s as [|c s IH]; [done|].
  cbn [strnpbrk containsControlCharacter0 escaped].
  destruct (existsb (Ascii.eqb c) special) eqn:A; [done|].
  destruct (isControlCharacter c || (ord c =? 0)) eqn:B; [done|].
  intros E1 E2. rewrite escape_plain by done. cbn. by rewrite <- IH.
Qed.
