(* ===== verification/JsonReader.v ===== *)
(** [wmsclient/jsoncpp/src/lib_json/json_reader.cpp]: the class [Reader], which
    makes a value of a document.

    A position in the document is the text from it on; a token carries the
    characters the reader looks at: a number's whole text, what stands between the
    quotes of a string.  Comments and error messages are left out: the program asks
    for neither.  A call that fails makes every caller fail, so that the depth of the
    stack, which a syntax error leaves too high, matters only for calls that
    succeed. *)
From Stdlib Require Import Ascii.
From S2P Require Import Prelude JsonValue JsonWriter.

(** ** Outcomes *)

Inductive reading (A : Type) :=
  | Got (a : A)
  | Threw
  | OutOfFuel.
Arguments Got {A} a.
Arguments Threw {A}.
Arguments OutOfFuel {A}.

#[export] Instance reading_ret : MRet reading := @Got.
#[export] Instance reading_bind : MBind reading := λ A B f m,
  match m with Got a => f a | Threw => Threw | OutOfFuel => OutOfFuel end.

(** ** Tokens *)

Inductive token :=
  | tokenEndOfStream
  | tokenObjectBegin
  | tokenObjectEnd
  | tokenArrayBegin
  | tokenArrayEnd
  | tokenString (text : string)
  | tokenNumber (text : string)
  | tokenTrue
  | tokenFalse
  | tokenNull
  | tokenArraySeparator
  | tokenMemberSeparator
  | tokenComment
  | tokenError.

#[export] Instance token_eq_dec : EqDecision token.
Proof. solve_decision. Defined.

Definition is_space (c : ascii) : bool :=
  Ascii.eqb c " " || Ascii.eqb c "009" || Ascii.eqb c "013" || Ascii.eqb c "010".

Fixpoint skipSpaces (current : string) : string :=
  match current with
  | String c rest => if is_space c then skipSpaces rest else current
  | EmptyString => EmptyString
  end.

(** [match]: the text behind a pattern, or nothing is consumed. *)
Fixpoint match_pattern (pattern current : string) : option string :=
  match pattern, current with
  | EmptyString, _ => Some current
  | String p pattern, String c current => if Ascii.eqb c p then match_pattern pattern current else None
  | String _ _, EmptyString => None
  end.

Fixpoint readCStyleComment (current : string) : option string :=
  match current with
  | EmptyString => None
  | String c rest =>
      match (if Ascii.eqb c "*" then rest else EmptyString) with
      | String c' rest' => if Ascii.eqb c' "/" then Some rest' else readCStyleComment rest
      | EmptyString => readCStyleComment rest
      end
  end.

Fixpoint readCppStyleComment (current : string) : string :=
  match current with
  | EmptyString => EmptyString
  | String c rest =>
      if Ascii.eqb c "010" then rest
      else if Ascii.eqb c "013" then
        match rest with
        | String c' rest' => if Ascii.eqb c' "010" then rest' else rest
        | EmptyString => EmptyString
        end
      else readCppStyleComment rest
  end.

(** What follows a slash. *)
Definition readComment (current : string) : token * string :=
  match current with
  | EmptyString => (tokenError, EmptyString)
  | String c rest =>
      if Ascii.eqb c "*" then
        match readCStyleComment rest with
        | Some rest => (tokenComment, rest)
        | None => (tokenError, EmptyString)
        end
      else if Ascii.eqb c "/" then (tokenComment, readCppStyleComment rest)
      else (tokenError, rest)
  end.

Fixpoint take_digits (current : string) : string * string :=
  match current with
  | String c rest =>
      if is_digit c then let '(d, rest) := take_digits rest in (String c d, rest) else (EmptyString, current)
  | EmptyString => (EmptyString, EmptyString)
  end.

Definition fraction (current : string) : string * string :=
  match current with
  | String c rest =>
      if Ascii.eqb c "." then let '(d, rest) := take_digits rest in (String c d, rest) else (EmptyString, current)
  | EmptyString => (EmptyString, EmptyString)
  end.

Definition signed_digits (current : string) : string * string :=
  match current with
  | String c rest =>
      if Ascii.eqb c "+" || Ascii.eqb c "-"
      then let '(d, rest) := take_digits rest in (String c d, rest) else take_digits current
  | EmptyString => (EmptyString, EmptyString)
  end.

Definition exponent (current : string) : string * string :=
  match current with
  | String c rest =>
      if Ascii.eqb c "e" || Ascii.eqb c "E"
      then let '(d, rest) := signed_digits rest in (String c d, rest) else (EmptyString, current)
  | EmptyString => (EmptyString, EmptyString)
  end.

(** What follows the first character of a number. *)
Definition readNumber (current : string) : string * string :=
  let '(i, rest) := take_digits current in
  let '(f, rest) := fraction rest in
  let '(e, rest) := exponent rest in
  (i +:+ f +:+ e, rest).

(** What stands before the closing quote, and behind it. *)
Fixpoint readString (current : string) : option (string * string) :=
  match current with
  | EmptyString => None
  | String c rest =>
      if Ascii.eqb c "\" then
        match rest with
        | String c' rest' => x ← readString rest'; Some (String c (String c' x.1), x.2)
        | EmptyString => None
        end
      else if Ascii.eqb c "034" then Some (EmptyString, rest)
      else x ← readString rest; Some (String c x.1, x.2)
  end.

Definition keyword (pattern : string) (t : token) (rest : string) : token * string :=
  match match_pattern pattern rest with Some rest => (t, rest) | None => (tokenError, rest) end.

Definition readToken (current : string) : token * string :=
  match skipSpaces current with
  | EmptyString => (tokenEndOfStream, EmptyString)
  | String c rest =>
      if Ascii.eqb c "{" then (tokenObjectBegin, rest)
      else if Ascii.eqb c "}" then (tokenObjectEnd, rest)
      else if Ascii.eqb c "[" then (tokenArrayBegin, rest)
      else if Ascii.eqb c "]" then (tokenArrayEnd, rest)
      else if Ascii.eqb c "034" then
        match readString rest with
        | Some (text, rest) => (tokenString text, rest)
        | None => (tokenError, EmptyString)
        end
      else if Ascii.eqb c "/" then readComment rest
      else if is_digit c || Ascii.eqb c "-" then
        let '(text, rest) := readNumber rest in (tokenNumber (String c text), rest)
      else if Ascii.eqb c "t" then keyword "rue" tokenTrue rest
      else if Ascii.eqb c "f" then keyword "alse" tokenFalse rest
      else if Ascii.eqb c "n" then keyword "ull" tokenNull rest
      else if Ascii.eqb c "," then (tokenArraySeparator, rest)
      else if Ascii.eqb c ":" then (tokenMemberSeparator, rest)
      else if Ascii.eqb c "000" then (tokenEndOfStream, rest)
      else (tokenError, rest)
  end.

Fixpoint skipCommentTokens (fuel : nat) (current : string) : reading (token * string) :=
  match fuel with
  | O => OutOfFuel
  | S fuel =>
      match readToken current with
      | (tokenComment, rest) => skipCommentTokens fuel rest
      | x => Got x
      end
  end.

(** Always a failure; what is left of the document. *)
Fixpoint recoverFromError (fuel : nat) (skipUntilToken : token) (current : string) :
    reading (option Value * string) :=
  match fuel with
  | O => OutOfFuel
  | S fuel =>
      let '(skip, rest) := readToken current in
      if decide (skip = skipUntilToken ∨ skip = tokenEndOfStream) then Got (None, rest)
      else recoverFromError fuel skipUntilToken rest
  end.

(** ** Strings *)

Definition hex_value (c : ascii) : option Z :=
  let c := ord c in
  if (48 <=? c) && (c <=? 57) then Some (c - 48)
  else if (97 <=? c) && (c <=? 102) then Some (c - 97 + 10)
  else if (65 <=? c) && (c <=? 70) then Some (c - 65 + 10)
  else None.

Definition decodeUnicodeEscapeSequence (a b c d : ascii) : option Z :=
  x ← hex_value a; y ← hex_value b; z ← hex_value c; t ← hex_value d;
  Some (((x * 16 + y) * 16 + z) * 16 + t).

(** The characters of an escape with one letter. *)
Definition simple_escape (e : ascii) : option ascii :=
  if Ascii.eqb e "034" then Some "034"%char
  else if Ascii.eqb e "/" then Some "/"%char
  else if Ascii.eqb e "\" then Some "\"%char
  else if Ascii.eqb e "b" then Some "008"%char
  else if Ascii.eqb e "f" then Some "012"%char
  else if Ascii.eqb e "n" then Some "010"%char
  else if Ascii.eqb e "r" then Some "013"%char
  else if Ascii.eqb e "t" then Some "009"%char
  else None.

(** [decodeString] and [decodeUnicodeCodePoint]. *)
Fixpoint decodeString (current : string) : option string :=
  match current with
  | EmptyString => Some EmptyString
  | String c current =>
      if Ascii.eqb c "034" then Some EmptyString
      else if Ascii.eqb c "\" then
        match current with
        | EmptyString => None
        | String e current =>
            if Ascii.eqb e "u" then
              match current with
              | String a (String b (String c (String d current))) =>
                  unicode ← decodeUnicodeEscapeSequence a b c d;
                  if (0xD800 <=? unicode) && (unicode <=? 0xDBFF) then
                    match current with
                    | String x (String y (String a (String b (String c (String d current))))) =>
                        if Ascii.eqb x "\" && Ascii.eqb y "u" then
                          surrogatePair ← decodeUnicodeEscapeSequence a b c d;
                          rest ← decodeString current;
                          Some (codePointToUTF8 (0x10000 + ((unicode .& 0x3FF) .<< 10) + (surrogatePair .& 0x3FF)) +:+ rest)
                        else None
                    | _ => None
                    end
                  else rest ← decodeString current; Some (codePointToUTF8 unicode +:+ rest)
              | _ => None
              end
            else
              x ← simple_escape e;
              rest ← decodeString current; Some (String x rest)
        end
      else rest ← decodeString current; Some (String c rest)
  end.

(** ** Numbers *)

Section Reader.
(** [is >> value] of a double, as its two texts. *)
Variable read_double : string → option (string * string).

Definition decodeDouble (text : string) : option Value :=
  x ← read_double text; Some (realValue x.1 x.2).

(** The loop over the digits; [None] where the code goes on to [decodeDouble]. *)
Fixpoint integer_loop (maxIntegerValue : Z) (current : string) (value : Z) : option Z :=
  match current with
  | EmptyString => Some value
  | String c current =>
      if negb (is_digit c) then None else
      let digit := ord c - 48 in
      let threshold := maxIntegerValue / 10 in
      if (threshold <=? value) &&
         ((threshold <? value) || negb (String.eqb current EmptyString) || (maxIntegerValue mod 10 <? digit))
      then None
      else integer_loop maxIntegerValue current (u64 (u64 (value * 10) + digit))
  end.

Definition decodeNumber (text : string) : option Value :=
  let '(isNegative, current) :=
    match text with
    | String c rest => if Ascii.eqb c "-" then (true, rest) else (false, text)
    | EmptyString => (false, text)
    end in
  let maxIntegerValue := if isNegative then maxLargestInt + 1 else maxLargestUInt in
  match integer_loop maxIntegerValue current 0 with
  | None => decodeDouble text
  | Some value =>
      Some (if isNegative && (value =? maxIntegerValue) then intValue minLargestInt
            else if isNegative then intValue (- value)
            else if value <=? maxInt then intValue value
            else uintValue value)
  end.

(** ** Values *)

Definition stackLimit_g : nat := 1000.

(** The loop of [readObject]: [name] is the last name, [m] the members; [readValue] is
    that of the depth of the members. *)
Fixpoint object_loop (readValue : string → reading (option Value * string)) (fuel : nat)
    (name : string) (m : list (string * Value)) (current : string) : reading (option Value * string) :=
  match fuel with
  | O => OutOfFuel
  | S fuel =>
      '(tokenName, current) ← skipCommentTokens fuel current;
      if decide (tokenName = tokenObjectEnd ∧ name = EmptyString) then Got (Some (objectValue m), current) else
      match tokenName with
      | tokenString text =>
          match decodeString text with
          | None => recoverFromError fuel tokenObjectEnd current
          | Some name =>
              let '(colon, current) := readToken current in
              if decide (colon = tokenMemberSeparator) then
                '(value, current) ← readValue current;
                match value with
                | None => recoverFromError fuel tokenObjectEnd current
                | Some value =>
                    let m := set_member name value m in
                    let '(comma, rest) := readToken current in
                    if decide (comma = tokenObjectEnd ∨ comma = tokenArraySeparator ∨ comma = tokenComment) then
                      '(comma, current) ← skipCommentTokens fuel current;
                      if decide (comma = tokenObjectEnd) then Got (Some (objectValue m), current)
                      else object_loop readValue fuel name m current
                    else recoverFromError fuel tokenObjectEnd rest
                end
              else recoverFromError fuel tokenObjectEnd current
          end
      | _ => recoverFromError fuel tokenObjectEnd current
      end
  end.

(** [readObject] behind its brace. *)
Definition readObject (readValue : string → reading (option Value * string)) (fuel : nat) (current : string) :
    reading (option Value * string) := object_loop readValue fuel EmptyString [] current.

(** The loop of [readArray]: [l] are the elements. *)
Fixpoint array_loop (readValue : string → reading (option Value * string)) (fuel : nat)
    (l : list Value) (current : string) : reading (option Value * string) :=
  match fuel with
  | O => OutOfFuel
  | S fuel =>
      '(value, current) ← readValue current;
      match value with
      | None => recoverFromError fuel tokenArrayEnd current
      | Some value =>
          '(token, current) ← skipCommentTokens fuel current;
          match token with
          | tokenArrayEnd => Got (Some (arrayValue (l ++ [value])), current)
          | tokenArraySeparator => array_loop readValue fuel (l ++ [value]) current
          | _ => recoverFromError fuel tokenArrayEnd current
          end
      end
  end.

(** [readArray] behind its bracket. *)
Definition readArray (readValue : string → reading (option Value * string)) (fuel : nat) (current : string) :
    reading (option Value * string) :=
  let current := skipSpaces current in
  match current with
  | String c _ =>
      if Ascii.eqb c "]" then Got (Some (arrayValue []), (readToken current).2)
      else array_loop readValue fuel [] current
  | EmptyString => array_loop readValue fuel [] current
  end.

Fixpoint readValue (fuel stackDepth : nat) (current : string) : reading (option Value * string) :=
  match fuel with
  | O => OutOfFuel
  | S fuel =>
      if Nat.leb stackLimit_g stackDepth then Threw else
      '(token, current) ← skipCommentTokens fuel current;
      match token with
      | tokenObjectBegin => readObject (readValue fuel (S stackDepth)) fuel current
      | tokenArrayBegin => readArray (readValue fuel (S stackDepth)) fuel current
      | tokenNumber text => Got (decodeNumber text, current)
      | tokenString text => Got (stringValue <$> decodeString text, current)
      | tokenTrue => Got (Some (booleanValue true), current)
      | tokenFalse => Got (Some (booleanValue false), current)
      | tokenNull => Got (Some nullValue, current)
      | _ => Got (None, current)
      end
  end.

(** The fuel that is enough: a unit for each character and two more. *)
Definition fuel_for (document : string) : nat := String.length document + 2.

(** [parse] of a range: what follows the value is not looked at, but for the token
    that is skipped. *)
Definition parse_range (document : string) : reading (option Value) :=
  let fuel := fuel_for document in
  '(value, current) ← readValue fuel 0 document;
  _ ← skipCommentTokens fuel current;
  mret value.

(** [parse] of a string copies its whole buffer, [spare] being the bytes between its
    length and its capacity: the terminator and what is left of earlier contents. *)
Definition parse (document spare : string) : reading (option Value) := parse_range (document +:+ spare).
End Reader.

(** ** What reading consumes *)

Abbreviation len := String.length.

Lemma skipSpaces_len s : (len (skipSpaces s) <= len s)%nat.
Proof. induction s as [|c s IH]; cbn; [lia|]. case_match; cbn; lia. Qed.

Lemma match_pattern_len p s r : match_pattern p s = Some r → (len r <= len s)%nat.
Proof.
  revert s. induction p as [|x p IH]; intros [|c s]; cbn; try (intros [= <-]; cbn; lia).
  destruct (Ascii.eqb c x); [|done]. intros H%IH. lia.
Qed.

Lemma keyword_len p t s u r : keyword p t s = (u, r) → (len r <= len s)%nat.
Proof.
  unfold keyword. destruct (match_pattern p s) eqn:E; intros [= _ <-]; [|lia]. by apply match_pattern_len in E.
Qed.

Lemma c_comment_len s r : readCStyleComment s = Some r → (len r <= len s)%nat.
Proof.
  induction s as [|c s IH]; cbn [readCStyleComment]; [done|].
  destruct (Ascii.eqb c "*"); [destruct s as [|c' s']; [done|]; destruct (Ascii.eqb c' "/")|]; intros H;
    [injection H as <-; cbn; lia|apply IH in H; cbn in *; lia..].
Qed.

Lemma cpp_comment_len s : (len (readCppStyleComment s) <= len s)%nat.
Proof. induction s as [|c s IH]; cbn; [lia|]. repeat case_match; cbn in *; lia. Qed.

Lemma comment_len s t r : readComment s = (t, r) → (len r <= len s)%nat.
Proof.
  destruct s as [|c s]; cbn; [by intros [= _ <-]|].
  pose proof (cpp_comment_len s). destruct (readCStyleComment s) eqn:E; [apply c_comment_len in E|];
  repeat case_match; intros [= _ <-]; cbn; lia.
Qed.

Lemma take_digits_len s : (len (take_digits s).2 <= len s)%nat.
Proof. induction s as [|c s IH]; cbn; [lia|]. repeat case_match; cbn in *; lia. Qed.

(** Lengths of what the parts of a number leave. *)
Ltac part_len :=
  repeat case_match; simplify_eq; cbn in *; try lia;
  repeat match goal with
  | H : take_digits ?x = (_, _) |- _ =>
      let L := fresh in pose proof (take_digits_len x) as L; rewrite H in L; cbn in L; clear H
  end; lia.

Lemma fraction_len s : (len (fraction s).2 <= len s)%nat.
Proof. unfold fraction. part_len. Qed.

Lemma signed_len s : (len (signed_digits s).2 <= len s)%nat.
Proof.
  unfold signed_digits. destruct s as [|c s]; [done|]. case_match; [part_len|apply take_digits_len].
Qed.

Lemma exponent_len s : (len (exponent s).2 <= len s)%nat.
Proof.
  unfold exponent. destruct s as [|c s]; [done|]. pose proof (signed_len s) as L.
  case_match; [|done]. destruct (signed_digits s). cbn in *. lia.
Qed.

Lemma number_len s : (len (readNumber s).2 <= len s)%nat.
Proof.
  unfold readNumber. pose proof (take_digits_len s). destruct (take_digits s) as [i r1].
  pose proof (fraction_len r1). destruct (fraction r1) as [f r2].
  pose proof (exponent_len r2). destruct (exponent r2) as [e r3]. cbn in *. lia.
Qed.

Lemma string_ind2 (P : string → Prop) :
  P EmptyString → (∀ c, P (String c EmptyString)) → (∀ c d s, P s → P (String d s) → P (String c (String d s))) →
  ∀ s, P s.
Proof.
  intros H0 H1 H2 s. enough (P s ∧ ∀ c, P (String c s)) as [? _] by done.
  induction s as [|d s [IH IH']]; auto.
Qed.

Lemma readString_cons c s :
  readString (String c s) =
  if Ascii.eqb c "\" then
    match s with String d s => x ← readString s; Some (String c (String d x.1), x.2) | EmptyString => None end
  else if Ascii.eqb c "034" then Some (EmptyString, s)
  else x ← readString s; Some (String c x.1, x.2).
Proof. done. Qed.

Lemma string_len s x : readString s = Some x → (len x.2 < len s)%nat.
Proof.
  revert x. induction s as [|c|c d s IH IH'] using string_ind2; intros x; [done|..].
  - cbn. repeat case_match; intros; simplify_eq; cbn; lia.
  - rewrite readString_cons. destruct (Ascii.eqb c "\"); [|destruct (Ascii.eqb c "034")].
    + destruct (readString s) as [y|]; [|done]. intros [= <-]. specialize (IH _ eq_refl). cbn in *. lia.
    + intros [= <-]. cbn. lia.
    + destruct (readString (String d s)) as [y|]; [|done]. intros [= <-].
      specialize (IH' _ eq_refl). cbn in *. lia.
Qed.

(** A token takes at least one character, but for the end of the document. *)
Lemma readToken_len s t r : readToken s = (t, r) →
  (len r < len s)%nat ∨ (t = tokenEndOfStream ∧ r = EmptyString).
Proof.
  unfold readToken. pose proof (skipSpaces_len s) as L. destruct (skipSpaces s) as [|c s']; cbn in L.
  { intros [= <- <-]. by right. }
  repeat (case_match; [intros [= <- <-]; left; lia|]).
  destruct (Ascii.eqb c "034").
  { destruct (readString s') as [[x y]|] eqn:E; intros [= <- <-]; left; [apply string_len in E; cbn in E|cbn]; lia. }
  destruct (Ascii.eqb c "/"); [intros E%comment_len; left; lia|].
  case_match.
  { pose proof (number_len s'). destruct (readNumber s'). intros [= <- <-]. cbn in *. left; lia. }
  repeat (case_match; [intros E%keyword_len; left; lia|]).
  repeat (case_match; [intros [= <- <-]; left; lia|]). intros [= <- <-]. left; lia.
Qed.

Lemma skip_ok n s : (len s < n)%nat →
  ∃ t r, skipCommentTokens n s = Got (t, r) ∧ t ≠ tokenComment ∧
         ((len r < len s)%nat ∨ (t = tokenEndOfStream ∧ r = EmptyString)).
Proof.
  revert s. induction n as [|n IH]; intros s Hs; [lia|]. cbn [skipCommentTokens].
  destruct (readToken s) as [t r] eqn:E. apply readToken_len in E.
  destruct (decide (t = tokenComment)) as [->|N].
  - destruct E as [E|[? _]]; [|done]. destruct (IH r) as (t & r' & -> & Ht & Hr); [lia|].
    exists t, r'. split_and!; [done..|]. destruct Hr; [left; lia|by right].
  - exists t, r. split_and!; [by destruct t|done..].
Qed.

Lemma recover_ok n t s : (len s < n)%nat → ∃ r, recoverFromError n t s = Got (None, r).
Proof.
  revert s. induction n as [|n IH]; intros s Hs; [lia|]. cbn [recoverFromError].
  destruct (readToken s) as [u r] eqn:E. case_decide as D; [by eexists|].
  apply readToken_len in E as [E|[-> _]]; [apply IH; lia|]. destruct D. by right.
Qed.

(** ** Termination *)

(** A result that is not for lack of fuel; a value takes at least one character. *)
Definition settled (s : string) (r : reading (option Value * string)) : Prop :=
  match r with
  | Got (Some _, s') => (len s' < len s)%nat
  | Got (None, s') => (len s' <= len s)%nat
  | Threw => True
  | OutOfFuel => False
  end.

Lemma settled_le s s' r : (len s' <= len s)%nat → settled s' r → settled s r.
Proof. destruct r as [[[v|] r]| |]; cbn; lia. Qed.

Lemma settled_recover n t s s0 : (len s < n)%nat → (len s <= len s0)%nat → settled s0 (recoverFromError n t s).
Proof.
  intros H L. revert s H L. induction n as [|n IH]; intros s H L; [lia|]. cbn [recoverFromError].
  destruct (readToken s) as [u r] eqn:E. apply readToken_len in E.
  case_decide as D.
  - cbn. destruct E as [?|[_ ->]]; cbn; lia.
  - destruct E as [E|[-> _]]; [apply IH; lia|]. destruct D. by right.
Qed.

(** What a function gives for texts of at most [k] characters. *)
Definition settles (k : nat) (f : string → reading (option Value * string)) : Prop :=
  ∀ s, (len s <= k)%nat → settled s (f s).

Lemma array_loop_settles k rv n l : settles k rv → (k + 2 <= n)%nat → settles k (array_loop rv n l).
Proof.
  intros HV Hn s Hs. assert (len s + 2 <= n)%nat as L by lia. clear Hn. revert l s Hs L.
  induction n as [|n IH]; intros l s Hs L; [lia|]. cbn [array_loop]. specialize (HV s Hs).
  destruct (rv s) as [[[v|] r]| |]; cbn in HV; [|by apply settled_recover; lia|done..].
  cbn [mbind reading_bind]. destruct (skip_ok n r) as (t & r' & -> & _ & Lr); [lia|]. cbn [mbind reading_bind].
  assert (len r' <= len r)%nat by (destruct Lr as [?|[_ ->]]; cbn; lia).
  destruct t; try (apply settled_recover; lia); cbn; [lia|].
  eapply settled_le; [|apply IH]; lia.
Qed.

Lemma object_loop_settles k rv n name m : settles k rv → (k + 2 <= n)%nat → settles k (object_loop rv n name m).
Proof.
  intros HV Hn s Hs. assert (len s + 2 <= n)%nat as Ls by lia. clear Hn. revert name m s Hs Ls.
  induction n as [|n IH]; intros name m s Hs Ls; [lia|]. cbn [object_loop].
  destruct (skip_ok n s) as (t & r & -> & _ & L); [lia|]. cbn [mbind reading_bind].
  assert (len r <= len s)%nat by (destruct L as [?|[_ ->]]; cbn; lia).
  case_decide as D; [destruct D as [-> _], L as [L|[? _]]; [cbn; lia|done]|].
  destruct t; try (apply settled_recover; lia). destruct L as [L|[? _]]; [|done].
  case_match; [|apply settled_recover; lia].
  destruct (readToken r) as [colon r1] eqn:E1. apply readToken_len in E1.
  assert (len r1 <= len r)%nat by (destruct E1 as [?|[_ ->]]; cbn; lia).
  case_decide; [|apply settled_recover; lia].
  specialize (HV r1 ltac:(lia)).
  destruct (rv r1) as [[[v|] r2]| |]; cbn in HV; [|by apply settled_recover; lia|done..].
  cbn [mbind reading_bind]. destruct (readToken r2) as [comma r3] eqn:E3. apply readToken_len in E3.
  assert (len r3 <= len r2)%nat by (destruct E3 as [?|[_ ->]]; cbn; lia).
  case_decide; [|apply settled_recover; lia].
  destruct (skip_ok n r2) as (t & r4 & -> & _ & L4); [lia|]. cbn [mbind reading_bind].
  assert (len r4 <= len r2)%nat by (destruct L4 as [?|[_ ->]]; cbn; lia).
  case_decide; [cbn; lia|]. eapply settled_le; [|apply IH]; lia.
Qed.

Lemma readValue_settled read_double n d s : (len s + 2 <= n)%nat → settled s (readValue read_double n d s).
Proof.
  revert d s. induction n as [|n IH]; intros d s Hs; [lia|]. cbn [readValue]. case_match; [done|].
  destruct (skip_ok n s) as (t & r & -> & _ & L); [lia|]. cbn [mbind reading_bind].
  assert (len r <= len s)%nat by (destruct L as [?|[_ ->]]; cbn; lia).
  assert (len r < len s → settles (n - 2) (readValue read_double n (S d)))%nat as HV by (intros ? x Hx; apply IH; lia).
  destruct t; try (cbn; lia); destruct L as [L|[? _]]; try done; try (cbn; lia).
  - eapply settled_le; [|apply (object_loop_settles (n - 2)); [by apply HV|lia|lia]]; lia.
  - unfold readArray. pose proof (skipSpaces_len r).
    assert (settled s (array_loop (readValue read_double n (S d)) n [] (skipSpaces r))) as HL.
    { eapply settled_le; [|apply (array_loop_settles (n - 2)); [by apply HV|lia|lia]]; lia. }
    destruct (skipSpaces r) as [|c r'] eqn:E; [done|]. case_match; [|done]. cbn -[readToken].
    destruct (readToken (String c r')) as [u r2] eqn:E2. apply readToken_len in E2. cbn in *.
    destruct E2 as [?|[_ ->]]; cbn; lia.
  - unfold settled. destruct (decodeString text); cbn; lia.
  - unfold settled. destruct (decodeNumber read_double text); cbn; lia.
Qed.

(** C21: parsing ends on every document, with a unit of fuel for each character
    and two more: it gives a value, fails, or throws for the depth of the stack. *)
Theorem parse_terminates read_double document spare :
  (∃ v, parse read_double document spare = Got v) ∨ parse read_double document spare = Threw.
Proof.
  unfold parse, parse_range. set (s := document +:+ spare).
  pose proof (readValue_settled read_double (fuel_for s) 0 s ltac:(unfold fuel_for; lia)) as H.
  destruct (readValue read_double (fuel_for s) 0 s) as [[v r]| |]; [|by right|done].
  left. exists v. cbn [mbind reading_bind].
  destruct (skip_ok (fuel_for s) r) as (t & r' & -> & _); [|done].
  unfold fuel_for. destruct v; cbn in H; lia.
Qed.

(** ** Numbers are read back *)

(** What may follow a number without becoming a part of it. *)
Definition ends_number (e : string) : bool :=
  match e with
  | EmptyString => true
  | String c _ =>
      negb (is_digit c || Ascii.eqb c "." || Ascii.eqb c "e" || Ascii.eqb c "E" || Ascii.eqb c "+" || Ascii.eqb c "-")
  end.

Lemma ends_number_cases c e : ends_number (String c e) = true →
  is_digit c = false ∧ Ascii.eqb c "." = false ∧ Ascii.eqb c "e" = false ∧ Ascii.eqb c "E" = false ∧
  Ascii.eqb c "+" = false ∧ Ascii.eqb c "-" = false.
Proof. cbn. rewrite negb_true_iff, !orb_false_iff. tauto. Qed.

Lemma take_digits_app a e : ends_number e = true → take_digits (a +:+ e) = ((take_digits a).1, (take_digits a).2 +:+ e).
Proof.
  intros He. induction a as [|c a IH].
  - destruct e as [|c e]; [done|]. apply ends_number_cases in He as (H & _). change (EmptyString +:+ String c e) with (String c e). cbn [take_digits]. by rewrite H.
  - change (String c a +:+ e) with (String c (a +:+ e)). cbn [take_digits].
    destruct (is_digit c); [|done]. rewrite IH. by destruct (take_digits a).
Qed.

Lemma fraction_app a e : ends_number e = true → fraction (a +:+ e) = ((fraction a).1, (fraction a).2 +:+ e).
Proof.
  intros He. destruct a as [|c a].
  - destruct e as [|c e]; [done|]. apply ends_number_cases in He as (_ & H & _). change (EmptyString +:+ String c e) with (String c e). cbn [fraction]. by rewrite H.
  - change (String c a +:+ e) with (String c (a +:+ e)). cbn [fraction].
    destruct (Ascii.eqb c "."); [|done]. rewrite take_digits_app by done. by destruct (take_digits a).
Qed.

Lemma signed_digits_app a e : ends_number e = true →
  signed_digits (a +:+ e) = ((signed_digits a).1, (signed_digits a).2 +:+ e).
Proof.
  intros He. destruct a as [|c a].
  - destruct e as [|c e]; [done|]. apply ends_number_cases in He as (H & _ & _ & _ & H1 & H2).
    change (EmptyString +:+ String c e) with (String c e). cbn [signed_digits take_digits]. by rewrite H, H1, H2.
  - pose proof (take_digits_app (String c a) e He) as E. change (String c a +:+ e) with (String c (a +:+ e)) in *.
    cbn [signed_digits]. destruct (Ascii.eqb c "+" || Ascii.eqb c "-"); [|done].
    rewrite take_digits_app by done. by destruct (take_digits a).
Qed.

Lemma exponent_app a e : ends_number e = true → exponent (a +:+ e) = ((exponent a).1, (exponent a).2 +:+ e).
Proof.
  intros He. destruct a as [|c a].
  - destruct e as [|c e]; [done|]. apply ends_number_cases in He as (_ & _ & H1 & H2 & _).
    change (EmptyString +:+ String c e) with (String c e). cbn [exponent]. by rewrite H1, H2.
  - change (String c a +:+ e) with (String c (a +:+ e)). cbn [exponent].
    destruct (Ascii.eqb c "e" || Ascii.eqb c "E"); [|done]. rewrite signed_digits_app by done. by destruct (signed_digits a).
Qed.

Lemma readNumber_app a e : ends_number e = true → readNumber (a +:+ e) = ((readNumber a).1, (readNumber a).2 +:+ e).
Proof.
  intros He. unfold readNumber. rewrite take_digits_app by done. destruct (take_digits a) as [i r1]. cbn [fst snd].
  rewrite fraction_app by done. destruct (fraction r1) as [f r2]. cbn [fst snd].
  rewrite exponent_app by done. by destruct (exponent r2).
Qed.

Lemma take_digits_all s : all_digits s = true → take_digits s = (s, EmptyString).
Proof.
  induction s as [|c s IH]; [done|]. rewrite all_digits_cons, andb_true_iff. intros [Hc Hs].
  cbn [take_digits]. by rewrite Hc, IH.
Qed.

Lemma readNumber_digits s : all_digits s = true → readNumber s = (s, EmptyString).
Proof. intros H. unfold readNumber. rewrite take_digits_all by done. cbn. by rewrite app_nil_s. Qed.

(** The loop of [decodeNumber] gives the number the digits make when it is not
    above the limit, and nothing that is above it. *)
Lemma integer_loop_exact M s a :
  100 <= M < 2 ^ 64 → all_digits s = true → 0 <= a → digits_value a s <= M →
  integer_loop M s a = Some (digits_value a s).
Proof.
  intros HM. revert a. induction s as [|c s IH]; intros a Hs Ha Hle; [done|].
  rewrite all_digits_cons, andb_true_iff in Hs. destruct Hs as [Hc Hs].
  cbn [integer_loop digits_value] in *. rewrite Hc. cbn [negb].
  pose proof (digits_value_le (a * 10 + (ord c - 48)) s) as B.
  unfold is_digit in Hc. specialize (B ltac:(lia) Hs).
  assert (a <= M / 10) by (apply Z.div_le_lower_bound; lia).
  rewrite (proj2 (andb_false_iff _ _)).
  - rewrite (wrap_small 64 (a * 10)), wrap_small by lia. apply IH; [done|lia|done].
  - destruct (Z.leb_spec (M / 10) a); [right|by left]. rewrite !orb_false_iff. split_and!; [lia| |].
    + destruct s as [|c' s]; [done|]. exfalso. cbn [digits_value] in Hle.
      rewrite all_digits_cons, andb_true_iff in Hs. destruct Hs as [Hc' Hs]. unfold is_digit in Hc'.
      pose proof (digits_value_le ((a * 10 + (ord c - 48)) * 10 + (ord c' - 48)) s ltac:(lia) Hs). zdm.
    + zdm.
Qed.

Lemma integer_loop_sound M s a v :
  100 <= M < 2 ^ 64 → 0 <= a <= M → integer_loop M s a = Some v → v = digits_value a s ∧ 0 <= v <= M.
Proof.
  intros HM. revert a. induction s as [|c s IH]; intros a Ha; cbn [integer_loop digits_value]; [by intros [= <-]|].
  destruct (is_digit c) eqn:Hc; [|done]. cbn [negb]. unfold is_digit in Hc.
  destruct ((M / 10 <=? a) && _) eqn:E; [done|].
  assert (a * 10 + (ord c - 48) <= M) as B.
  { apply andb_false_iff in E as [E|E]; [zdm|]. rewrite !orb_false_iff in E. zdm. }
  rewrite (wrap_small 64 (a * 10)), wrap_small by lia. apply IH. lia.
Qed.

Lemma integer_loop_digits M s : 100 <= M < 2 ^ 64 → all_digits s = true →
  integer_loop M s 0 = if digits_value 0 s <=? M then Some (digits_value 0 s) else None.
Proof.
  intros HM Hs. destruct (Z.leb_spec (digits_value 0 s) M); [by apply integer_loop_exact|].
  destruct (integer_loop M s 0) as [v|] eqn:E; [|done]. apply integer_loop_sound in E; lia.
Qed.

(** C22: a text of digits, with a sign or without, is the integer it says when 64 bits
    hold it, of the signed type when it is negative or fits 31 bits, of the unsigned
    one otherwise; no product wraps; a longer one is left to the real numbers. *)
Theorem integer_texts_exact read_double c d : all_digits (String c d) = true →
  let n := digits_value 0 (String c d) in
  decodeNumber read_double (String c d) =
    (if n <=? maxLargestUInt then Some (if n <=? maxInt then intValue n else uintValue n)
     else decodeDouble read_double (String c d)) ∧
  decodeNumber read_double (String "-" (String c d)) =
    (if n <=? - minLargestInt then Some (intValue (- n)) else decodeDouble read_double (String "-" (String c d))).
Proof.
  intros H n. assert (Ascii.eqb c "-" = false) as Hc.
  { apply Ascii.eqb_neq. intros ->. by rewrite all_digits_cons in H. }
  unfold decodeNumber. rewrite Hc. change (Ascii.eqb "-" "-") with true. cbv iota beta.
  rewrite !integer_loop_digits by (done || by unfold maxLargestUInt, maxLargestInt). fold n.
  change (- minLargestInt) with (maxLargestInt + 1). split; [|].
  - destruct (n <=? maxLargestUInt); [|done]. cbn [andb]. by case_match.
  - destruct (n <=? maxLargestInt + 1); [|done]. cbn [andb].
    destruct (Z.eqb_spec n (maxLargestInt + 1)) as [->|]; done.
Qed.

Lemma integer_texts_exact_witness :
  decodeNumber (λ _, None) "18446744073709551616" = None ∧
  decodeNumber (λ _, None) "-9223372036854775808" = Some (intValue minLargestInt).
Proof.
  split.
  - exact (proj1 (integer_texts_exact (λ _, None) "1" "8446744073709551616" eq_refl)).
  - exact (proj2 (integer_texts_exact (λ _, None) "9" "223372036854775808" eq_refl)).
Defined.

(** ** Strings are read back *)

Lemma hex_value_upper d : 0 <= d < 16 → hex_value (hex_upper d) = Some d.
Proof.
  intros H. unfold hex_value, hex_upper. rewrite ord_chr by (case_match; lia).
  destruct (Z.ltb_spec d 10);
    repeat match goal with |- context [?a <=? ?b] => destruct (Z.leb_spec a b); try lia end; cbn; f_equal; lia.
Qed.

Lemma hex4_value n : 0 <= n < 256 →
  decodeUnicodeEscapeSequence "0" "0" (hex_upper (n / 16)) (hex_upper (n mod 16)) = Some n.
Proof.
  intros H. unfold decodeUnicodeEscapeSequence. rewrite !hex_value_upper by zdm.
  change (hex_value "0") with (Some 0). cbn [mbind option_bind]. f_equal. zdm.
Qed.

(** The cases of [escape]: a letter, four digits, the character itself. *)
Lemma escape_cases c :
  (∃ e, escape c = String "\" (String e EmptyString) ∧ simple_escape e = Some c ∧ Ascii.eqb e "u" = false) ∨
  (escape c = "\u" +:+ hex4 (ord c) ∧ ord c < 32) ∨
  (escape c = String c EmptyString ∧ Ascii.eqb c "\" = false ∧ Ascii.eqb c "034" = false).
Proof.
  unfold escape.
  repeat match goal with
  | |- context [if Ascii.eqb c ?x then _ else _] =>
      destruct (Ascii.eqb_spec c x) as [->|]; [left; eexists; split_and!; [reflexivity..]|]
  end.
  right. destruct (isControlCharacter c || (ord c =? 0)) eqn:E; [left|right].
  - split; [done|]. unfold isControlCharacter in E. pose proof (ord_range c). apply orb_true_iff in E as [E|E]; [|lia].
    unfold swrap in E. zpow. zdm.
  - by split_and!.
Qed.

Lemma readString_escape c t : readString (escape c +:+ t) = (x ← readString t; Some (escape c +:+ x.1, x.2)).
Proof.
  destruct (escape_cases c) as [(e & -> & _)|[[-> _]|(-> & E1 & E2)]].
  - change (String "\" (String e EmptyString) +:+ t) with (String "\" (String e t)). cbn [readString].
    by destruct (readString t).
  - assert (Ascii.eqb (hex_upper (ord c / 16)) "\" = false ∧ Ascii.eqb (hex_upper (ord c / 16)) "034" = false ∧
            Ascii.eqb (hex_upper (ord c mod 16)) "\" = false ∧ Ascii.eqb (hex_upper (ord c mod 16)) "034" = false) as (H1 & H2 & H3 & H4).
    { pose proof (hex_value_upper (ord c / 16)) as A. pose proof (hex_value_upper (ord c mod 16)) as B.
      pose proof (ord_range c). specialize (A ltac:(zdm)). specialize (B ltac:(zdm)).
      split_and!; apply Ascii.eqb_neq; intros E; rewrite E in *; done. }
    unfold hex4. set (a := hex_upper (ord c / 16)) in *. set (b := hex_upper (ord c mod 16)) in *.
    change ((("\u" +:+ String "0" (String "0" (String a (String b EmptyString)))) +:+ t))
      with (String "\" (String "u" (String "0" (String "0" (String a (String b t)))))).
    rewrite !readString_cons, H1, H2, H3, H4. by destruct (readString t).
  - change (String c EmptyString +:+ t) with (String c t). rewrite readString_cons, E1, E2.
    by destruct (readString t).
Qed.

Lemma decodeString_escape c t : decodeString (escape c +:+ t) = (x ← decodeString t; Some (String c x)).
Proof.
  destruct (escape_cases c) as [(e & -> & E1 & E2)|[[-> Hc]|(-> & E1 & E2)]].
  - change (String "\" (String e EmptyString) +:+ t) with (String "\" (String e t)).
    cbn [decodeString]. rewrite E2, E1. done.
  - pose proof (ord_range c). transitivity (unicode ← decodeUnicodeEscapeSequence "0" "0" (hex_upper (ord c / 16)) (hex_upper (ord c mod 16));
      if (0xD800 <=? unicode) && (unicode <=? 0xDBFF) then decodeString ("\u" +:+ hex4 (ord c) +:+ t)
      else rest ← decodeString t; Some (codePointToUTF8 unicode +:+ rest)).
    { unfold hex4. set (a := hex_upper (ord c / 16)). set (b := hex_upper (ord c mod 16)).
      change ((("\u" +:+ String "0" (String "0" (String a (String b EmptyString)))) +:+ t))
        with (String "\" (String "u" (String "0" (String "0" (String a (String b t)))))).
      cbn [decodeString]. subst a b. cbn -[hex_upper decodeUnicodeEscapeSequence decodeString Z.leb]. rewrite hex4_value by done. cbn [mbind option_bind].
      rewrite (proj2 (Z.leb_gt 0xD800 (ord c))) by lia. done. }
    rewrite hex4_value by done. cbn [mbind option_bind]. rewrite (proj2 (Z.leb_gt 0xD800 (ord c))) by lia. cbn [andb].
    unfold codePointToUTF8. rewrite (proj2 (Z.leb_le (ord c) 0x7f)), chr_ord by lia. done.
  - change (String c EmptyString +:+ t) with (String c t). cbn [decodeString]. by rewrite E1, E2.
Qed.

Lemma readString_escaped s e : readString (escaped s +:+ quote +:+ e) = Some (escaped s, e).
Proof.
  induction s as [|c s IH]; [done|]. cbn [escaped]. by rewrite app_assoc_s, readString_escape, IH.
Qed.

Lemma decodeString_escaped s : decodeString (escaped s) = Some s.
Proof. induction s as [|c s IH]; [done|]. cbn [escaped]. by rewrite decodeString_escape, IH. Qed.

Lemma readToken_string s e : readToken (valueToQuotedStringN s +:+ e) = (tokenString (escaped s), e).
Proof.
  rewrite quoted_escaped, !app_assoc_s.
  transitivity (match readString (escaped s +:+ quote +:+ e) with
                | Some (text, rest) => (tokenString text, rest) | None => (tokenError, EmptyString) end); [done|].
  by rewrite readString_escaped.
Qed.

(** ** Values are read back *)

Lemma readToken_number c r e : is_digit c || Ascii.eqb c "-" = true → readNumber r = (r, EmptyString) →
  ends_number e = true → readToken (String c r +:+ e) = (tokenNumber (String c r), e).
Proof.
  intros Hc Hr He. change (String c r +:+ e) with (String c (r +:+ e)).
  assert (Forall (λ x, Ascii.eqb c x = false) [" "; "009"; "013"; "010"; "{"; "}"; "["; "]"; "034"; "/"]%char) as F.
  { apply Forall_forall. intros x Hx. apply Ascii.eqb_neq. intros ->.
    repeat (apply elem_of_cons in Hx as [->|Hx]; [by vm_compute in Hc|]). by apply elem_of_nil in Hx. }
  rewrite !Forall_cons in F. destruct F as (A1 & A2 & A3 & A4 & A5 & A6 & A7 & A8 & A9 & A10 & _).
  unfold readToken. cbn [skipSpaces]. unfold is_space. rewrite A1, A2, A3, A4. cbn [orb].
  rewrite A5, A6, A7, A8, A9, A10, Hc, readNumber_app, Hr by done. done.
Qed.

Lemma readToken_uint v e : 0 <= v < 2 ^ 64 → ends_number e = true →
  readToken (uintToString v +:+ e) = (tokenNumber (uintToString v), e).
Proof.
  intros Hv He. destruct (uintToString_spec v Hv) as (N & D & _). destruct (uintToString v) as [|c r]; [done|].
  rewrite all_digits_cons, andb_true_iff in D. destruct D as [Hc Hr].
  apply readToken_number; [by rewrite Hc|by apply readNumber_digits|done].
Qed.

Section RoundTrip.
Context (read_double : string → option (string * string)).

(** A value that is written and read is the same but for the types of its numbers. *)
Fixpoint reread (v : Value) : Value :=
  match v with
  | intValue z | uintValue z => if z <=? maxInt then intValue z else uintValue z
  | realValue _ t => default nullValue (decodeNumber read_double t)
  | arrayValue l => arrayValue (map reread l)
  | objectValue m => objectValue (map (λ x, (x.1, reread x.2)) m)
  | _ => v
  end.

(** The text of a real number that is one for the reader, too; that of an infinity
    or of no number need not be. *)
Definition readable_real (t : string) : Prop :=
  match t with
  | String c r => is_digit c || Ascii.eqb c "-" = true ∧ readNumber r = (r, EmptyString)
  | EmptyString => False
  end ∧ is_Some (decodeNumber read_double t).

(** What holds of every node of a value the library can hold. *)
Definition representable (v : Value) : Prop :=
  match v with
  | intValue z => minLargestInt <= z <= maxLargestInt
  | uintValue z => 0 <= z <= maxLargestUInt
  | realValue _ t => readable_real t
  | objectValue m => ascending m.*1
  | _ => True
  end.

Lemma decode_uint v : 0 <= v <= maxLargestUInt →
  decodeNumber read_double (uintToString v) = Some (if v <=? maxInt then intValue v else uintValue v).
Proof.
  intros Hv. change maxLargestUInt with (2 ^ 64 - 1) in Hv.
  destruct (uintToString_spec v ltac:(lia)) as (N & D & E). unfold decodeNumber.
  destruct (uintToString v) as [|c r]; [done|].
  destruct (Ascii.eqb_spec c "-") as [->|_]; [done|].
  rewrite (integer_loop_exact maxLargestUInt (String c r) 0) by (try done; unfold maxLargestUInt; lia).
  rewrite E. cbn [andb]. by case_match.
Qed.

Lemma decode_negative v : 0 < v <= maxLargestInt + 1 →
  decodeNumber read_double (String "-" (uintToString v)) = Some (intValue (- v)).
Proof.
  intros Hv. change (maxLargestInt + 1) with (2 ^ 63) in Hv.
  destruct (uintToString_spec v ltac:(lia)) as (N & D & E). unfold decodeNumber. cbn [Ascii.eqb Bool.eqb].
  rewrite (integer_loop_exact (maxLargestInt + 1) (uintToString v) 0)
    by (try done; change (maxLargestInt + 1) with (2 ^ 63); lia).
  rewrite E. cbn [andb]. destruct (Z.eqb_spec v (maxLargestInt + 1)) as [->|]; done.
Qed.

(** What [readValue] does after the first token. *)
Definition value_of_token (n d : nat) (t : token) (r : string) : reading (option Value * string) :=
  match t with
  | tokenObjectBegin => readObject (readValue read_double n (S d)) n r
  | tokenArrayBegin => readArray (readValue read_double n (S d)) n r
  | tokenNumber text => Got (decodeNumber read_double text, r)
  | tokenString text => Got (stringValue <$> decodeString text, r)
  | tokenTrue => Got (Some (booleanValue true), r)
  | tokenFalse => Got (Some (booleanValue false), r)
  | tokenNull => Got (Some nullValue, r)
  | _ => Got (None, r)
  end.

(** A call with a first token that is no comment. *)
Lemma readValue_token n d s t r : readToken s = (t, r) → t ≠ tokenComment → (d < stackLimit_g)%nat → (0 < n)%nat →
  readValue read_double (S n) d s =
  value_of_token n d t r.
Proof.
  intros E N D Hn. cbn [readValue]. rewrite (proj2 (Nat.leb_gt _ _)) by done.
  destruct n as [|n]; [lia|]. assert (skipCommentTokens (S n) s = Got (t, r)) as ->.
  { cbn [skipCommentTokens]. rewrite E. by destruct t. }
  done.
Qed.

Definition within (d k : nat) {A} (x : A) : reading A := if Nat.leb (d + k) stackLimit_g then Got x else Threw.

(** What the proof shows of a value [v]. *)
Definition reads_back (v : Value) : Prop := ∀ n d e, ends_number e = true →
  (len (writeValue v +:+ e) + 2 <= n)%nat →
  readValue read_double n d (writeValue v +:+ e) = within d (depth v) (Some (reread v), e).

Lemma scalar_reads_back v w t :
  depth v = 1%nat → t ≠ tokenComment →
  (∀ e, ends_number e = true → readToken (writeValue v +:+ e) = (t, e)) →
  (∀ n d r, value_of_token n d t r = Got (Some w, r)) →
  reread v = w → reads_back v.
Proof.
  intros D N Ht Hw Er n d e He Hn. unfold within. rewrite D, Er.
  destruct n as [|[|n]]; [lia| |]. { destruct (writeValue v +:+ e); cbn in Hn; lia. }
  destruct (Nat.leb_spec (d + 1) stackLimit_g).
  - rewrite (readValue_token (S n) d _ t e); [apply Hw|by apply Ht|done|lia|lia].
  - cbn [readValue]. by rewrite (proj2 (Nat.leb_le _ _)) by lia.
Qed.

Lemma scalars_read_back v : representable v →
  match v with arrayValue _ | objectValue _ => True | _ => reads_back v end.
Proof.
  intros H. destruct v as [|z|z|a b|s|b|l|m]; cbn [representable] in H; try exact I.
  - eapply (scalar_reads_back _ nullValue tokenNull); done.
  - unfold minLargestInt, maxLargestInt in H.
    destruct (Z.ltb_spec z 0) as [L|L].
    + assert (valueToString z = String "-" (uintToString (- z))) as E.
      { unfold valueToString. destruct (Z.eqb_spec z minLargestInt) as [->|]; [done|].
        by rewrite (proj2 (Z.ltb_lt _ _) L). }
      destruct (uintToString_spec (- z) ltac:(lia)) as (_ & D & _).
      eapply (scalar_reads_back _ (intValue z) (tokenNumber (String "-" (uintToString (- z))))); try done.
      * intros e He. cbn [writeValue]. rewrite E.
        apply readToken_number; [done|by apply readNumber_digits|done].
      * intros ? ? r. unfold value_of_token. rewrite decode_negative by (unfold maxLargestInt; lia). by rewrite Z.opp_involutive.
      * cbn [reread]. by rewrite (proj2 (Z.leb_le _ _)) by (unfold maxInt; lia).
    + assert (valueToString z = uintToString z) as E.
      { unfold valueToString, minLargestInt. rewrite (proj2 (Z.eqb_neq _ _)), (proj2 (Z.ltb_ge _ _)) by lia. done. }
      eapply (scalar_reads_back _ (if z <=? maxInt then intValue z else uintValue z) (tokenNumber (uintToString z))); try done.
      * intros e He. cbn [writeValue]. rewrite E. apply readToken_uint; [lia|done].
      * intros ? ? r. unfold value_of_token. by rewrite decode_uint by (unfold maxLargestUInt; lia).
  - unfold maxLargestUInt in H.
    eapply (scalar_reads_back _ (if z <=? maxInt then intValue z else uintValue z) (tokenNumber (uintToString z))); try done.
    + intros e He. cbn [writeValue]. apply readToken_uint; [lia|done].
    + intros ? ? r. unfold value_of_token. by rewrite decode_uint by (unfold maxLargestUInt; lia).
  - destruct H as [H [w Hw]]. destruct b as [|c r]; [done|]. destruct H as [Hc Hr].
    eapply (scalar_reads_back _ w (tokenNumber (String c r))); try done.
    + intros e He. cbn [writeValue]. by apply readToken_number.
    + intros ? ? e. unfold value_of_token. by rewrite Hw.
    + cbn [reread]. by rewrite Hw.
  - eapply (scalar_reads_back _ (stringValue s) (tokenString (escaped s))); try done.
    + intros e _. apply readToken_string.
    + intros ? ? r. unfold value_of_token. by rewrite decodeString_escaped.
  - destruct b; eapply (scalar_reads_back _ (booleanValue _)); try done; done.
Qed.

Lemma write_starts v : representable v → ∃ c r, writeValue v = String c r ∧ is_space c = false ∧ Ascii.eqb c "]" = false.
Proof.
  assert (∀ t, (∃ c r, t = String c r ∧ is_digit c || Ascii.eqb c "-" = true) →
    ∃ c r, t = String c r ∧ is_space c = false ∧ Ascii.eqb c "]" = false) as N.
  { intros t (c & r & -> & H). exists c, r. split; [done|]. unfold is_space.
    split; [rewrite !orb_false_iff; split_and!|]; apply Ascii.eqb_neq; intros ->; by vm_compute in H. }
  assert (∀ z, 0 <= z < 2 ^ 64 → ∃ c r, uintToString z = String c r ∧ is_digit c || Ascii.eqb c "-" = true) as U.
  { intros z Hz. destruct (uintToString_spec z Hz) as (E & D & _). destruct (uintToString z) as [|c r]; [done|].
    exists c, r. rewrite all_digits_cons, andb_true_iff in D. by destruct D as [-> _]. }
  intros H. destruct v as [|z|z|a b|s|b|l|m]; cbn [representable writeValue] in *.
  - by do 2 eexists.
  - apply N. unfold valueToString, minLargestInt, maxLargestInt in *.
    case_match; [by do 2 eexists|]. case_match; [by do 2 eexists|]. apply U. lia.
  - apply N, U. unfold maxLargestUInt in *. lia.
  - destruct b as [|c r]; [by destruct H|]. apply N. destruct H as [[H _] _]. by exists c, r.
  - rewrite quoted_escaped. by do 2 eexists.
  - destruct b; by do 2 eexists.
  - by do 2 eexists.
  - by do 2 eexists.
Qed.

Lemma concat_cons sep x y l : String.concat sep (x :: y :: l) = x +:+ sep +:+ String.concat sep (y :: l).
Proof. done. Qed.

Lemma within_bind {A B} d k (x : A) (f : A → reading B) : within d k x ≫= f = if Nat.leb (d + k) stackLimit_g then f x else Threw.
Proof. unfold within. by case_match. Qed.

Lemma array_reads_back l acc n k d e : Forall reads_back l → l ≠ [] →
  let s := String.concat "," (map writeValue l) +:+ "]" +:+ e in
  (len s + 2 <= n)%nat → (len s + 2 <= k)%nat →
  array_loop (readValue read_double k d) n acc s = within d (depths l) (Some (arrayValue (acc ++ map reread l)), e).
Proof.
  intros H. revert acc n. induction H as [|v l Hv Hl IH]; intros acc n N s Hn Hk; [done|]. subst s. clear N.
  destruct n as [|n]; [lia|]. cbn [array_loop depths foldr map]. fold (depths l).
  destruct l as [|v' l].
  - cbn [map String.concat] in *. rewrite Hv by (done || lia). rewrite within_bind.
    unfold within. cbn [depths foldr]. rewrite Nat.max_0_r. case_match; [|done].
    rewrite length_app_s in Hn. cbn in Hn. destruct n as [|n]; [lia|]. done.
  - cbn [map] in *. rewrite concat_cons, !app_assoc_s in *. rewrite Hv by (done || lia). rewrite within_bind.
    rewrite length_app_s in Hn, Hk.
    change (len ("," +:+ ?t)) with (S (len t)) in Hn, Hk.
    destruct n as [|n]; [lia|].
    unfold within at 1. destruct (Nat.leb_spec (d + depth v) stackLimit_g) as [L|L].
    + change (skipCommentTokens (S n) ("," +:+ ?t)) with (@Got (token * string) (tokenArraySeparator, t)).
      cbn [mbind reading_bind]. rewrite IH by (done || lia). unfold within.
      rewrite <- app_assoc. cbn [app].
      destruct (Nat.leb_spec (d + depths (v' :: l)) stackLimit_g), (Nat.leb_spec (d + Nat.max (depth v) (depths (v' :: l))) stackLimit_g); try done; lia.
    + by rewrite (proj2 (Nat.leb_gt _ _)) by lia.
Qed.

Definition write_member (x : string * Value) : string := valueToQuotedStringN x.1 +:+ ":" +:+ writeValue x.2.

(** One member that is not the first of its object is read. *)
Lemma member_read n f d name m k v e : reads_back v → ends_number e = true →
  (0 < n)%nat → (len (write_member (k, v) +:+ e) + 2 <= f)%nat →
  object_loop (readValue read_double f d) (S n) name m (write_member (k, v) +:+ e) =
  if Nat.leb (d + depth v) stackLimit_g then
    let m := set_member k (reread v) m in
    let '(comma, rest) := readToken e in
    if decide (comma = tokenObjectEnd ∨ comma = tokenArraySeparator ∨ comma = tokenComment) then
      '(comma, current) ← skipCommentTokens n e;
      if decide (comma = tokenObjectEnd) then Got (Some (objectValue m), current)
      else object_loop (readValue read_double f d) n k m current
    else recoverFromError n tokenObjectEnd rest
  else Threw.
Proof.
  intros Hv He Hn Hf. unfold write_member in *. cbn [fst snd] in *. rewrite !app_assoc_s in *.
  cbn [object_loop]. destruct n as [|n]; [lia|]. cbn [skipCommentTokens]. rewrite readToken_string.
  cbn [mbind reading_bind]. rewrite decide_False by by intros [? _]. rewrite decodeString_escaped.
  change (readToken (":" +:+ ?t)) with (tokenMemberSeparator, t). cbv iota beta. rewrite decide_True by done.
  rewrite !length_app_s in Hf. rewrite Hv by (done || (rewrite length_app_s; lia)).
  unfold within. by destruct (Nat.leb (d + depth v) stackLimit_g).
Qed.

Lemma object_reads_back l n f d name m e : Forall (λ x, reads_back x.2) l → l ≠ [] →
  ascending (m.*1 ++ l.*1) →
  let s := String.concat "," (map write_member l) +:+ "}" +:+ e in
  (len s + 2 <= n)%nat → (len s + 2 <= f)%nat →
  object_loop (readValue read_double f d) n name m s =
  within d (depths l.*2) (Some (objectValue (m ++ map (λ x, (x.1, reread x.2)) l)), e).
Proof.
  intros H. revert name m n. induction H as [|[k v] l Hv Hl IH]; intros name m n N A s Hn Hf; [done|]. subst s. clear N.
  destruct n as [|n]; [lia|]. cbn [fmap list_fmap depths foldr map fst snd] in *. fold (depths l.*2).
  assert (set_member k (reread v) m = m ++ [(k, reread v)]) as E.
  { apply set_member_last. apply Forall_forall. intros x Hx. clear - A Hx.
    induction m as [|[y w] m IH]; [by apply elem_of_nil in Hx|]. cbn in A. destruct A as [A1 A2].
    apply elem_of_cons in Hx as [->|Hx]; [|by apply IH].
    rewrite Forall_app, Forall_cons in A1. by destruct A1 as (_ & ? & _). }
  destruct l as [|y l].
  - cbn [map String.concat] in *. rewrite member_read by (done || lia). rewrite E.
    unfold within. cbn [fmap list_fmap depths foldr]. rewrite Nat.max_0_r. case_match; [|done].
    rewrite length_app_s in Hn. cbn in Hn. destruct n as [|n]; [lia|]. done.
  - cbn [map] in *. rewrite concat_cons, !app_assoc_s in *. rewrite member_read by (done || lia).
    rewrite E. rewrite length_app_s in Hn, Hf.
    change (len ("," +:+ ?t)) with (S (len t)) in Hn, Hf. destruct n as [|n]; [lia|].
    unfold within. destruct (Nat.leb_spec (d + depth v) stackLimit_g) as [L|L].
    + change (readToken ("," +:+ ?t)) with (tokenArraySeparator, t).
      change (skipCommentTokens (S n) ("," +:+ ?t)) with (@Got (token * string) (tokenArraySeparator, t)).
      cbv iota beta zeta. rewrite decide_True by auto. cbn [mbind reading_bind]. rewrite decide_False by done.
      rewrite IH; [|done| |lia|lia].
      * unfold within. rewrite <- app_assoc. cbn [app fmap list_fmap].
        destruct (Nat.leb_spec (d + depths (y.2 :: l.*2)) stackLimit_g), (Nat.leb_spec (d + Nat.max (depth v) (depths (y.2 :: l.*2))) stackLimit_g); try done; lia.
      * rewrite fmap_app. cbn [fmap list_fmap fst]. by rewrite <- app_assoc.
    + by rewrite (proj2 (Nat.leb_gt _ _)) by (cbn [fmap list_fmap] in *; lia).
Qed.

Lemma writeValue_object m : writeValue (objectValue m) = "{" +:+ String.concat "," (map write_member m) +:+ "}".
Proof. done. Qed.

Lemma Forall_mp {A} (P Q : A → Prop) l : Forall (λ x, P x → Q x) l → Forall P l → Forall Q l.
Proof. intros H1 H2. rewrite Forall_forall in *. auto. Qed.

Lemma all_read_back v : everywhere representable v → reads_back v.
Proof.
  induction v as [|z|z|a b|s|b|l IH|m IH] using Value_ind'; intros H;
    try (destruct H as [H _]; exact (scalars_read_back _ H)).
  - apply everywhere_array in H as [_ H]. intros n d e He Hn. cbn [writeValue] in *. rewrite !app_assoc_s in *.
    change (len ("[" +:+ ?t)) with (S (len t)) in Hn.
    rewrite depth_array. destruct n as [|n]; [lia|].
    destruct (Nat.leb_spec stackLimit_g d) as [L|L].
    { cbn [readValue]. unfold within. by rewrite (proj2 (Nat.leb_le _ _)), (proj2 (Nat.leb_gt _ _)) by lia. }
    rewrite (readValue_token n d _ tokenArrayBegin (String.concat "," (map writeValue l) +:+ "]" +:+ e)) by (done || lia).
    unfold value_of_token, readArray.
    destruct l as [|v l].
    + unfold within. cbn [map depths foldr]. rewrite (proj2 (Nat.leb_le _ _)) by lia. done.
    + assert (∃ c r, String.concat "," (map writeValue (v :: l)) +:+ "]" +:+ e = String c r ∧
        is_space c = false ∧ Ascii.eqb c "]" = false) as (c & r & E & E1 & E2).
      { rewrite Forall_cons in H. destruct H as [Hv _]. assert (representable v) as Rv by (by destruct v, Hv).
        destruct (write_starts v Rv) as (c & r & E & Ec). destruct l as [|v' l].
        - cbn [map String.concat]. rewrite E. exists c, (r +:+ "]" +:+ e). by destruct Ec.
        - cbn [map]. rewrite concat_cons, E. eexists c, _. by destruct Ec. }
      assert (skipSpaces (String c r) = String c r) as Es by (cbn; by rewrite E1).
      rewrite E, Es, E2, <- E, array_reads_back; [|by apply (Forall_mp _ _ _ IH)|done|lia|lia].
      unfold within. by rewrite <- Nat.add_succ_comm.
  - apply everywhere_object in H as [A H]. intros n d e He Hn. rewrite writeValue_object, !app_assoc_s in *.
    change (len ("{" +:+ ?t)) with (S (len t)) in Hn.
    rewrite depth_object. destruct n as [|n]; [lia|].
    destruct (Nat.leb_spec stackLimit_g d) as [L|L].
    { cbn [readValue]. unfold within. by rewrite (proj2 (Nat.leb_le _ _)), (proj2 (Nat.leb_gt _ _)) by lia. }
    rewrite (readValue_token n d _ tokenObjectBegin (String.concat "," (map write_member m) +:+ "}" +:+ e)) by (done || lia).
    unfold value_of_token, readObject. destruct m as [|x m].
    + cbn [map String.concat fmap list_fmap depths foldr]. unfold within. rewrite (proj2 (Nat.leb_le _ _)) by lia.
      cbn in Hn. destruct n as [|[|n]]; [lia..|]. done.
    + rewrite object_reads_back; [|by apply (Forall_mp _ _ _ IH)|done|done|lia|lia].
      unfold within. by rewrite <- Nat.add_succ_comm.
Qed.
End RoundTrip.

Lemma write_parsed read_double v e : everywhere (representable read_double) v → ends_number e = true →
  parse_range read_double (writeValue v +:+ e) = within 0 (depth v) (Some (reread read_double v)).
Proof.
  intros H He. unfold parse_range. rewrite (all_read_back read_double v H) by (done || (unfold fuel_for; lia)).
  unfold within. case_match; [|done]. cbn [mbind reading_bind].
  destruct (skip_ok (fuel_for (writeValue v +:+ e)) e) as (t & r & -> & _); [|done].
  unfold fuel_for. rewrite length_app_s. lia.
Qed.

Lemma parse_write read_double v spare : everywhere (representable read_double) v → (depth v <= stackLimit_g)%nat →
  parse read_double (write v) spare = Got (Some (reread read_double v)).
Proof.
  intros H L. unfold parse, write. rewrite app_assoc_s, write_parsed by done.
  unfold within. by rewrite (proj2 (Nat.leb_le _ _)).
Qed.

(** C19: a document [FastWriter] wrote is read as the value it was written from, up to
    the types of its numbers, whatever the buffer holds behind it, when no value in
    it lies deeper than the reader's stack; when one does, the reader throws.
    Without its line feed it is read so, too, when the buffer ends with it or with a
    terminator. *)
Theorem written_value_parsed read_double v spare :
  everywhere (representable read_double) v →
  let result := if Nat.leb (depth v) stackLimit_g then Got (Some (reread read_double v)) else Threw in
  parse read_double (write v) spare = result ∧
  (ends_number spare = true → parse read_double (writeValue v) spare = result).
Proof.
  intros H. cbn zeta. split; [|by apply write_parsed].
  unfold parse, write. rewrite app_assoc_s. by apply write_parsed.
Qed.

(** ** The type of what is read *)

Section Typed.
Context (read_double : string → option (string * string)).

(** The nodes the reader makes: an integer has the signed type when it is negative
    or fits 31 bits, the unsigned one when it is above; the names of an object
    ascend. *)
Definition read_node (v : Value) : Prop :=
  match v with
  | intValue z => minLargestInt <= z <= maxInt
  | uintValue z => maxInt < z <= maxLargestUInt
  | realValue a b => ∃ text, read_double text = Some (a, b)
  | objectValue m => ascending m.*1
  | _ => True
  end.

(** What a call at depth [d] gives. *)
Definition typed (d : nat) (r : reading (option Value * string)) : Prop :=
  ∀ v s, r = Got (Some v, s) → everywhere read_node v ∧ (d + depth v <= stackLimit_g)%nat.

Lemma decodeNumber_typed text v : decodeNumber read_double text = Some v → everywhere read_node v ∧ depth v = 1%nat.
Proof.
  unfold decodeNumber, decodeDouble.
  destruct (match text with String c rest => if Ascii.eqb c "-" then (true, rest) else (false, text)
            | EmptyString => (false, text) end) as [neg cur].
  destruct (integer_loop _ cur 0) as [z|] eqn:E.
  - apply integer_loop_sound in E as [_ E]; [|by destruct neg; unfold maxLargestInt, maxLargestUInt..].
    unfold maxLargestInt, maxLargestUInt in *. intros [= <-]. destruct neg; cbn [andb].
    + case_match; cbn; unfold minLargestInt, maxInt; split; [split; [lia|done]|done|split; [lia|done]|done].
    + destruct (Z.leb_spec z maxInt) as [L|L]; cbn; unfold minLargestInt, maxInt, maxLargestUInt in *;
        split; [split; [lia|done]|done|split; [lia|done]|done].
  - destruct (read_double text) as [[a b]|] eqn:D; [|done]. intros [= <-]. cbn. split; [|done]. by split; [exists text|].
Qed.

Lemma recover_typed d n t s : typed d (recoverFromError n t s).
Proof.
  intros v r. revert s. induction n as [|n IH]; intros s; [done|]. cbn [recoverFromError].
  destruct (readToken s). case_decide; [done|apply IH].
Qed.

Lemma leaf_typed d v s : (d < stackLimit_g)%nat → everywhere read_node v → depth v = 1%nat → typed d (Got (Some v, s)).
Proof. intros L H1 H2 ? ? [= <- <-]. split; [done|]. lia. Qed.

Lemma option_typed d (o : option Value) s : (d < stackLimit_g)%nat →
  (∀ v, o = Some v → everywhere read_node v ∧ depth v = 1%nat) → typed d (Got (o, s)).
Proof. intros L H. destruct o as [v|]; [|done]. destruct (H v eq_refl). by apply leaf_typed. Qed.

(** The loops make a value of depth one more than their members. *)
Lemma deeper d l : (d < stackLimit_g)%nat → Forall (λ x, S d + depth x <= stackLimit_g)%nat l →
  (d + S (depths l) <= stackLimit_g)%nat.
Proof.
  intros Ld Hl. induction Hl as [|x l Hx Hl IH]; cbn in *; [lia|]. fold (depths l). lia.
Qed.

Definition element_typed (d : nat) (v : Value) : Prop :=
  everywhere read_node v ∧ (S d + depth v <= stackLimit_g)%nat.

Lemma object_typed d m s : (d < stackLimit_g)%nat → ascending m.*1 → Forall (λ x, element_typed d x.2) m →
  typed d (Got (Some (objectValue m), s)).
Proof.
  intros Ld Am Hm v ? [= <- _]. rewrite everywhere_object, depth_object. apply Forall_and in Hm as [H1 H2].
  split; [done|]. apply deeper; [done|]. by apply Forall_fmap.
Qed.

Lemma array_typed d l s : (d < stackLimit_g)%nat → Forall (element_typed d) l →
  typed d (Got (Some (arrayValue l), s)).
Proof.
  intros Ld Hl v ? [= <- _]. rewrite everywhere_array, depth_array. apply Forall_and in Hl as [H1 H2].
  split; [done|]. by apply deeper.
Qed.

Lemma object_loop_typed d rv n name m s : (∀ s, typed (S d) (rv s)) →
  (d < stackLimit_g)%nat → ascending m.*1 → Forall (λ x, element_typed d x.2) m →
  typed d (object_loop rv n name m s).
Proof.
  intros HV Ld. revert name m s. induction n as [|n IH]; intros name m s Am Hm; [done|]. cbn [object_loop].
  destruct (skipCommentTokens n s) as [[t r]| |]; [|done..]. cbn [mbind reading_bind].
  case_decide; [by apply object_typed|].
  destruct t; try apply recover_typed. case_match; [|apply recover_typed].
  destruct (readToken r) as [colon r1]. case_decide; [|apply recover_typed].
  destruct (rv r1) as [[[v|] r2]| |] eqn:E; [|apply recover_typed|done..].
  apply HV in E. cbn [mbind reading_bind].
  match goal with |- context [set_member ?k v m] =>
    assert (ascending (set_member k v m).*1) by (by apply set_member_ascending);
    assert (Forall (λ x, element_typed d x.2) (set_member k v m)) by (by apply set_member_Forall) end.
  destruct (readToken r2). case_decide; [|apply recover_typed].
  destruct (skipCommentTokens n r2) as [[t' r3]| |]; [|done..]. cbn [mbind reading_bind].
  case_decide; [by apply object_typed|by apply IH].
Qed.

Lemma array_loop_typed d rv n l s : (∀ s, typed (S d) (rv s)) →
  (d < stackLimit_g)%nat → Forall (element_typed d) l → typed d (array_loop rv n l s).
Proof.
  intros HV Ld. revert l s. induction n as [|n IH]; intros l s Hl; [done|]. cbn [array_loop].
  destruct (rv s) as [[[v|] r2]| |] eqn:E; [|apply recover_typed|done..].
  apply HV in E. cbn [mbind reading_bind].
  assert (Forall (element_typed d) (l ++ [v])) by (apply Forall_app; split; [done|by constructor]).
  destruct (skipCommentTokens n r2) as [[t r3]| |]; [|done..]. cbn [mbind reading_bind].
  destruct t; try apply recover_typed; [by apply array_typed|by apply IH].
Qed.

Lemma readValue_typed n d s : typed d (readValue read_double n d s).
Proof.
  revert d s. induction n as [|n IH]; intros d s; [done|]. cbn [readValue].
  destruct (Nat.leb_spec stackLimit_g d) as [|L]; [done|].
  destruct (skipCommentTokens n s) as [[t r]| |]; [|done..]. cbn [mbind reading_bind].
  destruct t; try done; try (by apply leaf_typed).
  - by apply object_loop_typed.
  - unfold readArray. destruct (skipSpaces r) as [|c r'] eqn:E; [by apply array_loop_typed|].
    case_match; [by apply leaf_typed|by apply array_loop_typed].
  - apply option_typed; [done|]. intros v. destruct (decodeString text); [|done]. by intros [= <-].
  - apply option_typed; [done|]. apply decodeNumber_typed.
Qed.
End Typed.

(** C20: whatever the document, a value that is parsed is well formed: its integers have
    the type of their range, its real numbers were read, the names of its objects
    ascend, so that none comes twice, and it is no deeper than the stack. *)
Theorem parsed_value_typed read_double document spare v :
  parse read_double document spare = Got (Some v) →
  everywhere (read_node read_double) v ∧ (depth v <= stackLimit_g)%nat.
Proof.
  unfold parse, parse_range. destruct (readValue _ _ 0 _) as [[w r]| |] eqn:E; [|done..]. cbn [mbind reading_bind].
  destruct (skipCommentTokens _ r); [|done..]. intros [= ->]. by apply readValue_typed in E.
Qed.

(** ** What follows a complete document *)

(** The buffer's bytes behind a string: none, or the terminator first. *)
Definition terminated_spare (e : string) : bool :=
  match e with EmptyString => true | String c _ => Ascii.eqb c "000" end.

Lemma terminated_ends_number e : terminated_spare e = true → ends_number e = true.
Proof. destruct e as [|c e]; [done|]. cbn. destruct (Ascii.eqb_spec c "000") as [->|]; done. Qed.

Section Extend.
Context (e : string) (He : terminated_spare e = true).

Lemma skipSpaces_app s : skipSpaces s ≠ EmptyString → skipSpaces (s +:+ e) = skipSpaces s +:+ e.
Proof.
  induction s as [|c s IH]; [done|]. change (String c s +:+ e) with (String c (s +:+ e)).
  cbn [skipSpaces]. by case_match.
Qed.

Lemma match_pattern_app p s r : match_pattern p s = Some r → match_pattern p (s +:+ e) = Some (r +:+ e).
Proof.
  revert s. induction p as [|x p IH]; intros [|c s]; try done; try (by intros [= <-]).
  change (String c s +:+ e) with (String c (s +:+ e)). cbn [match_pattern]. case_match; [apply IH|done].
Qed.

Lemma match_pattern_none p s : Forall (λ x, x ≠ "000"%char) (String.list_ascii_of_string p) →
  match_pattern p s = None → match_pattern p (s +:+ e) = None.
Proof.
  revert s. induction p as [|x p IH]; intros s; [done|]. cbn [String.list_ascii_of_string]. rewrite Forall_cons.
  intros [Hx Hp]. destruct s as [|c s].
  - intros _. change (EmptyString +:+ e) with e. destruct e as [|c e']; [done|]. cbn in He |- *.
    apply Ascii.eqb_eq in He as ->. by rewrite (proj2 (Ascii.eqb_neq _ _)).
  - change (String c s +:+ e) with (String c (s +:+ e)). cbn [match_pattern]. case_match; [by apply IH|done].
Qed.

Lemma keyword_app p t s u r : Forall (λ x, x ≠ "000"%char) (String.list_ascii_of_string p) →
  keyword p t s = (u, r) → keyword p t (s +:+ e) = (u, r +:+ e).
Proof.
  intros Hp. unfold keyword. destruct (match_pattern p s) as [x|] eqn:E; intros [= <- <-].
  - by rewrite (match_pattern_app _ _ _ E).
  - by rewrite (match_pattern_none _ _ Hp E).
Qed.

Lemma c_comment_app s r : readCStyleComment s = Some r → readCStyleComment (s +:+ e) = Some (r +:+ e).
Proof.
  induction s as [|c s IH]; [done|]. change (String c s +:+ e) with (String c (s +:+ e)). cbn [readCStyleComment].
  destruct (Ascii.eqb c "*"); [|apply IH]. destruct s as [|c' s]; [done|].
  change (String c' s +:+ e) with (String c' (s +:+ e)) in *. cbv iota. destruct (Ascii.eqb c' "/"); [by intros [= <-]|apply IH].
Qed.

Lemma cpp_comment_app s : readCppStyleComment s ≠ EmptyString →
  readCppStyleComment (s +:+ e) = readCppStyleComment s +:+ e.
Proof.
  induction s as [|c s IH]; [done|]. change (String c s +:+ e) with (String c (s +:+ e)). cbn [readCppStyleComment].
  destruct (Ascii.eqb c "010"); [done|]. destruct (Ascii.eqb c "013"); [|apply IH].
  destruct s as [|c' s]; [done|]. change (String c' s +:+ e) with (String c' (s +:+ e)). cbv iota. by case_match.
Qed.

Lemma readString_app s x : readString s = Some x → readString (s +:+ e) = Some (x.1, x.2 +:+ e).
Proof.
  revert x. induction s as [|c|c d s IH IH'] using string_ind2; intros x; [done|..].
  - rewrite readString_cons. destruct (Ascii.eqb c "\"); [done|]. change (String c EmptyString +:+ e) with (String c e).
    destruct (Ascii.eqb c "034") eqn:E; [|done]. intros [= <-]. rewrite readString_cons, E.
    apply Ascii.eqb_eq in E as ->. done.
  - change (String c (String d s) +:+ e) with (String c (String d (s +:+ e))). rewrite !(readString_cons c).
    destruct (Ascii.eqb c "\"); [|destruct (Ascii.eqb c "034")].
    + destruct (readString s) as [y|]; [|done]. intros [= <-]. by rewrite (IH _ eq_refl).
    + by intros [= <-].
    + change (String d (s +:+ e)) with (String d s +:+ e).
      destruct (readString (String d s)) as [y|]; [|done]. intros [= <-]. by rewrite (IH' _ eq_refl).
Qed.

(** A token is the same when the text goes on behind it, but for one that only the
    end of the text ends. *)
Definition inside (t : token) (r : string) : Prop :=
  r ≠ EmptyString ∨ (t ≠ tokenEndOfStream ∧ t ≠ tokenError ∧ t ≠ tokenComment).

Lemma readToken_app s t r : readToken s = (t, r) → inside t r → readToken (s +:+ e) = (t, r +:+ e).
Proof.
  intros H N.
  unfold readToken in *. destruct (skipSpaces s) as [|c s'] eqn:E.
  { injection H as <- <-. by destruct N as [|(? & ? & ?)]. }
  rewrite skipSpaces_app, E by (by rewrite E). change (String c s' +:+ e) with (String c (s' +:+ e)). cbv iota.
  repeat match goal with
  | |- (if Ascii.eqb c ?x then _ else _) = _ =>
      destruct (Ascii.eqb c x); [first
        [ by injection H as <- <-
        | (refine (keyword_app _ _ _ _ _ _ H); repeat (apply Forall_cons; split; [discriminate|]); constructor)
        | idtac]|]
  | |- (if is_digit c || ?x then _ else _) = _ =>
      destruct (is_digit c || x);
        [rewrite readNumber_app by (by apply terminated_ends_number);
         destruct (readNumber s') as [u v]; by injection H as <- <-|]
  end.
  - destruct (readString s') as [[u v]|] eqn:Es.
    + rewrite (readString_app _ _ Es). by injection H as <- <-.
    + injection H as <- <-. by destruct N as [|(? & ? & ?)].
  - unfold readComment in *. destruct s' as [|c' s'].
    { injection H as <- <-. by destruct N as [|(? & ? & ?)]. }
    change (String c' s' +:+ e) with (String c' (s' +:+ e)). cbv iota.
    destruct (Ascii.eqb c' "*"); [|destruct (Ascii.eqb c' "/")].
    + destruct (readCStyleComment s') as [u|] eqn:Es.
      * rewrite (c_comment_app _ _ Es). by injection H as <- <-.
      * injection H as <- <-. by destruct N as [|(? & ? & ?)].
    + injection H as <- <-. rewrite cpp_comment_app; [done|]. by destruct N as [|(? & ? & ?)].
    + by injection H as <- <-.
  - by injection H as <- <-.
Qed.

Lemma skip_app n m s t r : skipCommentTokens n s = Got (t, r) → (n <= m)%nat →
  inside t r → skipCommentTokens m (s +:+ e) = Got (t, r +:+ e).
Proof.
  intros H L N1. revert m s H L. induction n as [|n IH]; intros m s H L; [done|].
  destruct m as [|m]; [lia|]. cbn [skipCommentTokens] in *. destruct (readToken s) as [u v] eqn:E.
  destruct (decide (u = tokenComment)) as [->|N].
  - rewrite (readToken_app s tokenComment v); [apply IH; [done|lia]|done|left].
    intros ->. destruct n; [done|]. injection H as <- <-. by destruct N1 as [|(? & _)].
  - assert (u = t ∧ v = r) as [-> ->] by (destruct u; try done; by injection H as <- <-).
    rewrite (readToken_app s t r) by done. by destruct t.
Qed.

Section Values.
Context (read_double : string → option (string * string)).

(** A call that gave a value gives it on the longer text, too. *)
Definition extends (f g : string → reading (option Value * string)) : Prop :=
  ∀ s v r, f s = Got (Some v, r) → g (s +:+ e) = Got (Some v, r +:+ e).

Lemma recover_none n t s v r : recoverFromError n t s ≠ Got (Some v, r).
Proof.
  revert s. induction n as [|n IH]; intros s; [done|]. cbn [recoverFromError].
  destruct (readToken s). case_decide; [done|apply IH].
Qed.

(** Nothing is read at the end. *)
Lemma object_loop_end rv n name m v r : object_loop rv n name m EmptyString ≠ Got (Some v, r).
Proof.
  destruct n as [|[|n]]; [done..|]. cbn -[recoverFromError].
  rewrite decide_False by by intros [? _]. apply recover_none.
Qed.

Lemma readValue_end n d v r : readValue read_double n d EmptyString ≠ Got (Some v, r).
Proof.
  destruct n as [|[|n]]; [done| |]; cbn [readValue]; by destruct (Nat.leb stackLimit_g d).
Qed.

Lemma object_loop_extends rv rv' n m : (n <= m)%nat → extends rv rv' →
  ∀ name l, extends (object_loop rv n name l) (object_loop rv' m name l).
Proof.
  intros L HV. revert m L. induction n as [|n IH]; intros m L name l s v r; [done|]. destruct m as [|m]; [lia|].
  cbn [object_loop].
  destruct (skipCommentTokens n s) as [[t r']| |] eqn:E; [|done..]. cbn [mbind reading_bind]. intros H.
  destruct (decide (t = tokenObjectEnd ∧ name = EmptyString)) as [D|D].
  { destruct D as [-> ->]. injection H as <- <-. rewrite (skip_app _ _ _ _ _ E) by (done || lia || by right).
    cbn [mbind reading_bind]. by rewrite decide_True. }
  destruct t; try by apply recover_none in H. rewrite (skip_app _ _ _ _ _ E) by (done || lia || by right).
  cbn [mbind reading_bind]. rewrite decide_False by done.
  destruct (decodeString text) as [name'|]; [|by apply recover_none in H].
  destruct (readToken r') as [colon r1] eqn:E1. case_decide as Dc; [|by apply recover_none in H]. subst colon.
  rewrite (readToken_app _ _ _ E1) by by right. rewrite decide_True by done.
  destruct (rv r1) as [[[w|] r2]| |] eqn:E2; [|by apply recover_none in H|done..].
  rewrite (HV _ _ _ E2). cbn [mbind reading_bind] in *.
  destruct (readToken r2) as [comma r3] eqn:E3. case_decide as Dc; [|by apply recover_none in H].
  destruct (skipCommentTokens n r2) as [[t r4]| |] eqn:E4; [|done..]. cbn [mbind reading_bind] in H.
  assert (inside t r4) as N4.
  { destruct (decide (t = tokenObjectEnd)) as [->|N]; [by right|]. left. intros ->. by apply object_loop_end in H. }
  assert (inside comma r3) as N3.
  { destruct (decide (comma = tokenComment)) as [->|N]; [|right; by destruct Dc as [->|[->|?]]].
    left. intros ->. destruct n as [|[|n]]; [done|cbn [skipCommentTokens] in E4; by rewrite E3 in E4|].
    cbn [skipCommentTokens] in E4. rewrite E3 in E4. injection E4 as <- <-. by destruct N4 as [|(? & _)]. }
  rewrite (readToken_app _ _ _ E3 N3), decide_True, (skip_app _ _ _ _ _ E4) by (done || lia).
  cbn [mbind reading_bind]. case_decide; [by injection H as <- <-|]. apply IH; [lia|done].
Qed.

Lemma array_loop_extends rv rv' n m : (n <= m)%nat → extends rv rv' →
  ∀ l, extends (array_loop rv n l) (array_loop rv' m l).
Proof.
  intros L HV. revert m L. induction n as [|n IH]; intros m L l s v r; [done|]. destruct m as [|m]; [lia|].
  cbn [array_loop].
  destruct (rv s) as [[[w|] r2]| |] eqn:E2; [|by intros ?%recover_none|done..].
  rewrite (HV _ _ _ E2). cbn [mbind reading_bind].
  destruct (skipCommentTokens n r2) as [[t r4]| |] eqn:E4; [|done..]. cbn [mbind reading_bind]. intros H.
  destruct t; try by apply recover_none in H.
  - rewrite (skip_app _ _ _ _ _ E4) by (done || lia || by right). by injection H as <- <-.
  - rewrite (skip_app _ _ _ _ _ E4) by (done || lia || by right). apply IH; [lia|done].
Qed.

Lemma readValue_extends n m d : (n <= m)%nat → extends (readValue read_double n d) (readValue read_double m d).
Proof.
  revert m d. induction n as [|n IH]; intros m d L; [done|]. destruct m as [|m]; [lia|].
  assert (extends (readValue read_double n (S d)) (readValue read_double m (S d))) as HV by (apply IH; lia).
  intros s v r. cbn [readValue]. destruct (Nat.leb stackLimit_g d); [done|].
  destruct (skipCommentTokens n s) as [[t r']| |] eqn:E; [|done..]. cbn [mbind reading_bind]. intros H.
  assert (inside t r') as N by (right; by destruct t).
  rewrite (skip_app _ _ _ _ _ E) by (done || lia || by right). cbn [mbind reading_bind].
  destruct t; try done; try (by injection H as <- <-).
  - refine (object_loop_extends _ _ n m _ HV _ _ _ _ _ H). lia.
  - unfold readArray in *. destruct (skipSpaces r') as [|c r2] eqn:Es.
    { destruct n as [|n]; [done|]. cbn [array_loop] in H.
      destruct (readValue read_double (S n) (S d) EmptyString) as [[[w|] ?]| |] eqn:Er; [|by apply recover_none in H|done..].
      by apply readValue_end in Er. }
    rewrite skipSpaces_app, Es by by rewrite Es. change (String c r2 +:+ e) with (String c (r2 +:+ e)).
    cbv iota. destruct (Ascii.eqb c "]") eqn:Ec.
    + apply Ascii.eqb_eq in Ec as ->. by injection H as <- <-.
    + refine (array_loop_extends _ _ n m _ HV _ _ _ _ H). lia.
Qed.
End Values.
End Extend.

(** The reader's copy of the buffer beyond the end of a document does not change
    what a complete document means: one that is parsed on its own is parsed as the
    same value, whatever stands behind its terminator. *)
Theorem complete_document_ignores_spare read_double document spare v :
  parse read_double document EmptyString = Got (Some v) → terminated_spare spare = true →
  parse read_double document spare = Got (Some v).
Proof.
  unfold parse, parse_range. rewrite app_nil_s. intros H He.
  destruct (readValue _ _ 0 document) as [[w r]| |] eqn:E; [|done..]. cbn [mbind reading_bind] in H.
  destruct (skipCommentTokens _ r); [|done..]. injection H as ->.
  assert (fuel_for document <= fuel_for (document +:+ spare))%nat as L.
  { unfold fuel_for. rewrite length_app_s. lia. }
  pose proof (readValue_settled read_double (fuel_for document) 0 document ltac:(unfold fuel_for; lia)) as B.
  rewrite E in B. cbn in B.
  rewrite (readValue_extends spare He read_double _ _ 0 L document v r E). cbn [mbind reading_bind].
  destruct (skip_ok (fuel_for (document +:+ spare)) (r +:+ spare)) as (t & r' & -> & _); [|done].
  unfold fuel_for. rewrite !length_app_s. lia.
Qed.

Lemma readString_escaped_app a t : readString (escaped a +:+ t) = (x ← readString t; Some (escaped a +:+ x.1, x.2)).
Proof.
  induction a as [|c a IH]; cbn [escaped].
  - change (EmptyString +:+ t) with t. by destruct (readString t) as [[]|].
  - rewrite app_assoc_s, readString_escape, IH. destruct (readString t); [|done]. cbn. by rewrite app_assoc_s.
Qed.

Lemma decodeString_escaped_app a t : decodeString (escaped a +:+ t) = (x ← decodeString t; Some (a +:+ x)).
Proof.
  induction a as [|c a IH]; cbn [escaped].
  - change (EmptyString +:+ t) with t. by destruct (decodeString t).
  - rewrite app_assoc_s, decodeString_escape, IH. by destruct (decodeString t).
Qed.

(** A string the end of a document cuts off is an error on its own, but the reader
    goes on into what is left in the buffer: when a quote stands there, the document
    is parsed as a string that holds the terminator and those bytes. *)
Theorem truncated_string_completed read_double a b rest :
  let document := quote +:+ escaped a in
  parse read_double document EmptyString = Got None ∧
  parse read_double document (String "000" (escaped b +:+ quote +:+ rest)) =
    Got (Some (stringValue (a +:+ String "000" b))).
Proof.
  cbn zeta. assert (∀ s t r, readToken s = (t, r) → t ≠ tokenComment →
    parse_range read_double s = value ← value_of_token read_double (S (len s)) 0 t r;
                                _ ← skipCommentTokens (fuel_for s) value.2; mret value.1) as P.
  { intros s t r E N. unfold parse_range. replace (fuel_for s) with (S (S (len s))) by (unfold fuel_for; lia).
    rewrite (readValue_token read_double (S (len s)) 0 s t r) by (done || (unfold stackLimit_g; lia)).
    by destruct (value_of_token _ _ _ _ _) as [[v r']| |]. }
  unfold parse. split.
  - rewrite app_nil_s. rewrite (P _ tokenError EmptyString); [done| |done].
    change (quote +:+ escaped a) with (String "034" (escaped a)).
    transitivity (match readString (escaped a) with
                  | Some (text, rest) => (tokenString text, rest) | None => (tokenError, EmptyString) end); [done|].
    rewrite <- (app_nil_s (escaped a)), readString_escaped_app. done.
  - rewrite !app_assoc_s. set (s := quote +:+ escaped a +:+ String "000" (escaped b +:+ quote +:+ rest)).
    rewrite (P s (tokenString (escaped a +:+ String "000" (escaped b))) rest); [| |done].
    + unfold value_of_token. rewrite decodeString_escaped_app.
      change (String "000" (escaped b)) with (String "000" EmptyString +:+ escaped b).
      assert (decodeString (String "000" EmptyString +:+ escaped b) = Some (String "000" b)) as ->.
      { cbn [decodeString]. change (EmptyString +:+ escaped b) with (escaped b).
        transitivity (r ← decodeString (escaped b); Some (String "000" r)); [done|]. by rewrite decodeString_escaped. }
      cbn [mbind option_bind fmap option_fmap option_map reading_bind fst snd].
      destruct (skip_ok (fuel_for s) rest) as (t & r & -> & _); [|done].
      unfold fuel_for, s. rewrite !length_app_s. cbn [len]. rewrite !length_app_s. lia.
    + transitivity (match readString (escaped a +:+ String "000" (escaped b +:+ quote +:+ rest)) with
                    | Some (text, rest) => (tokenString text, rest) | None => (tokenError, EmptyString) end); [done|].
      rewrite readString_escaped_app.
      assert (readString (String "000" (escaped b +:+ quote +:+ rest)) = Some (String "000" (escaped b), rest)) as ->.
      { rewrite readString_cons. cbn [Ascii.eqb Bool.eqb]. by rewrite readString_escaped. }
      done.
Qed.

(** ** Witnesses *)

Definition witness_double (t : string) : option (string * string) := Some (t, t).

Definition witness_value : Value :=
  objectValue [("a", arrayValue [intValue (-5); uintValue 4294967296; realValue "1.5" "1.5"; nullValue]);
               ("b", stringValue (String "010" "x"))].

Lemma witness_value_ok : everywhere (representable witness_double) witness_value.
Proof. cbn. unfold minLargestInt, maxLargestInt, maxLargestUInt. repeat split; try lia; try (by vm_compute).
  - by repeat constructor.
  - eexists. vm_compute. reflexivity.
Defined.

Lemma written_value_parsed_witness :
  parse witness_double (write witness_value) "junk" = Got (Some witness_value).
Proof. exact (proj1 (written_value_parsed witness_double witness_value "junk" witness_value_ok)). Defined.

Lemma parsed_value_typed_witness :
  everywhere (read_node witness_double) witness_value ∧ (depth witness_value <= stackLimit_g)%nat.
Proof.
  apply (parsed_value_typed witness_double (write witness_value) EmptyString). vm_compute. reflexivity.
Defined.

Lemma complete_document_ignores_spare_witness :
  parse witness_double (writeValue witness_value) (String "000" "]]}") = Got (Some witness_value).
Proof. apply complete_document_ignores_spare; vm_compute; reflexivity. Defined.
