(* ===== verification/ApplyMessage.v ===== *)
(** [wmsclient/wmsclient/BuildFinally.cpp], [MysqlOperation.cpp] and the loop of
    [UpdateDbThread.cpp]: a message becomes SQL statements, which are executed in a
    transaction.

    The message's text is parsed by the reader of [JsonReader]; the database, the
    reading of real numbers and what a string's buffer holds behind its text are
    parameters. *)
From Stdlib Require Import Ascii.
From S2P Require Import Prelude JsonValue JsonWriter JsonReader.

(** ** Numbers and literals *)

(** [s.find_last_of("eE")]. *)
Fixpoint last_exponent (s : string) : option nat :=
  match s with
  | EmptyString => None
  | String c s =>
      match last_exponent s with
      | Some k => Some (S k)
      | None => if decide (c = Ascii.ascii_of_nat 101 ∨ c = Ascii.ascii_of_nat 69) then Some O else None
      end
  end.

(** [s.find_first_not_of('0', k)]. *)
Fixpoint first_not_zero (s : string) (k : nat) : option nat :=
  match s with
  | EmptyString => None
  | String c s =>
      match k with
      | S k => S <$> first_not_zero s k
      | O => if decide (c = Ascii.ascii_of_nat 48) then S <$> first_not_zero s O else Some O
      end
  end.

Definition is_sign (c : option Ascii.ascii) : bool :=
  bool_decide (c = Some (Ascii.ascii_of_nat 43) ∨ c = Some (Ascii.ascii_of_nat 45)).

Definition normalizeFloatingPointStr (s : string) : string :=
  match last_exponent s with
  | None => s
  | Some index =>
      let hasSign := if is_sign (String.get (S index) s) then 1%nat else 0%nat in
      let exponentStartIndex := (S index + hasSign)%nat in
      let normalized := String.substring 0 exponentStartIndex s in
      let exponent := match first_not_zero s exponentStartIndex with
                      | Some indexDigit => String.substring indexDigit (String.length s) s
                      | None => "0"
                      end in
      normalized +:+ exponent
  end.

Definition JsonValueToString (v : Value) : string :=
  match v with
  | stringValue s => quote +:+ s +:+ quote
  | intValue z => valueToString z
  | uintValue z => uintToString z
  | realValue t _ => normalizeFloatingPointStr t
  | _ => "null"
  end.

(** ** The statements of a table *)

(** The loop over all columns but the last. *)
Fixpoint column_loop (vColumn vValues : list Value) (colIndex n : nat)
    (strUpdate strColumn strValues : string) : res (string * string * string) :=
  match n with
  | O => mret (strUpdate, strColumn, strValues)
  | S n =>
      name ← asString (element vColumn colIndex);
      let text := JsonValueToString (element vValues colIndex) in
      column_loop vColumn vValues (S colIndex) n
        (strUpdate +:+ name +:+ "=" +:+ text +:+ ", ")
        (strColumn +:+ name +:+ ",")
        (strValues +:+ text +:+ ",")
  end.

(** The two loops over the keys, [literal] being what each writes for a value. *)
Fixpoint key_loop (literal : Value → string) (vMapKey : list (string * Value)) (str : string) : string :=
  match vMapKey with
  | [] => str
  | [(k, v)] => str +:+ k +:+ "=" +:+ literal v
  | (k, v) :: rest => key_loop literal rest (str +:+ k +:+ "=" +:+ literal v +:+ " and ")
  end.

Definition update_literal (v : Value) : string :=
  match v with
  | stringValue _ => JsonValueToString v
  | _ => quote +:+ JsonValueToString v +:+ quote
  end.

(** The last index of [columnSize] columns, an unsigned subtraction. *)
Definition last_column (columnSize : nat) : nat := Z.to_nat (u32 (Z.of_nat columnSize - 1)).

(** The body of the loop of [LoadJson] from the table's name on: the select, insert
    and update statement. *)
Definition table_statements (vTableItem : Value) : res (string * string * string) :=
  has ← isMember vTableItem "name";
  if negb has then raise ExceptionParsejson else
  vTableName ← at_key vTableItem "name";
  match vTableName with
  | stringValue name =>
      c ← isMember vTableItem "column";
      v ← isMember vTableItem "values";
      k ← isMember vTableItem "mapkey";
      if negb (c && v && k) then raise ExceptionParsejson else
      vColumn ← at_key vTableItem "column";
      vValues ← at_key vTableItem "values";
      vMapKey ← at_key vTableItem "mapkey";
      match vMapKey, vColumn, vValues with
      | objectValue keys, arrayValue cols, arrayValue vals =>
          if negb (Nat.eqb (length cols) (length vals)) then raise ExceptionParsejson else
          let l := last_column (length cols) in
          '(strUpdate, strColumn, strValues) ←
            column_loop cols vals 0 l ("update " +:+ name +:+ " set ") " (" " (";
          lastName ← asString (element cols l);
          let text := JsonValueToString (element vals l) in
          let strUpdate := strUpdate +:+ lastName +:+ "=" +:+ text +:+ ", hm_update_timestamp=0" in
          let strColumn := strColumn +:+ lastName +:+ ", hm_update_timestamp)" in
          let strValues := strValues +:+ text +:+ ", 0)" in
          if Nat.eqb (length keys) 0 then raise ExceptionParsejson else
          let strSelect := key_loop JsonValueToString keys ("select * from " +:+ name +:+ " where ") in
          let strUpdate := key_loop update_literal keys (strUpdate +:+ " where ") in
          mret (strSelect, "insert into " +:+ name +:+ strColumn +:+ " values " +:+ strValues, strUpdate)
      | _, _, _ => raise ExceptionParsejson
      end
  | _ => raise ExceptionParsejson
  end.

(** [m_sql_select], [m_sql_insert] and [m_sql_update]. *)
Record statements := mk_statements {
  m_sql_select : list string;
  m_sql_insert : list string;
  m_sql_update : list string }.

(** A null among the tables ends the loop without an exception. *)
Fixpoint table_loop (vTables : list Value) (s : statements) : res (bool * statements) :=
  match vTables with
  | [] => mret (true, s)
  | nullValue :: _ => mret (false, s)
  | vTableItem :: vTables =>
      '(sel, ins, upd) ← table_statements vTableItem;
      table_loop vTables
        (mk_statements (m_sql_select s ++ [sel]) (m_sql_insert s ++ [ins]) (m_sql_update s ++ [upd]))
  end.

Section Apply.
(** The texts of the real number a string holds, and what the string's buffer holds
    behind it. *)
Variable read_double : string → option (string * string).
Variable spare : string → string.

(** [reader.parse]; the fuel is enough by [parse_terminates]. *)
Definition document (m_json_data : string) : res (option Value) :=
  match parse read_double m_json_data (spare m_json_data) with
  | Got root => mret root
  | Threw | OutOfFuel => raise RuntimeError
  end.

Definition LoadJson (m_json_data : string) : res (bool * statements) :=
  root ← document m_json_data;
  match root with
  | None => raise ExceptionParsejson
  | Some root =>
      has ← isMember root "tables";
      if negb has then raise ExceptionParsejson else
      vTables ← at_key root "tables";
      match vTables with
      | arrayValue tables => table_loop tables (mk_statements [] [] [])
      | _ => raise ExceptionParsejson
      end
  end.

(** ** The transaction *)

(** The database: how many rows a statement selects, what a statement changes it
    to, whether a commit succeeds.  [working] is what the connection sees, with its
    changes since the last commit, [durable] what is committed. *)
Variable DB : Type.
Variable select_rows : DB → string → option nat.
Variable run_sql : DB → string → option DB.
Variable commit_succeeds : DB → bool.

Record connection := mk_connection {
  m_bConnect : bool;
  working : DB;
  durable : DB }.

Definition op (A : Type) : Type := connection → connection * res A.

#[export] Instance op_ret : MRet op := λ A a c, (c, inr a).
#[export] Instance op_bind : MBind op := λ A B f m c,
  match m c with (c, inr a) => f a c | (c, inl e) => (c, inl e) end.

Definition fail_with {A} (e : thrown) : op A := λ c, (c, inl e).

Inductive return_val := mysql_success | mysql_dbDisconnection.

Definition execOneSql (strSql : string) : op return_val := λ c,
  if negb (m_bConnect c) then (c, inr mysql_dbDisconnection) else
  match run_sql (working c) strSql with
  | Some db => (mk_connection true db (durable c), inr mysql_success)
  | None => (c, inl ExceptionDatabase)
  end.

Definition getQueryRows (strSql : string) : op (return_val * nat) := λ c,
  if negb (m_bConnect c) then (c, inr (mysql_dbDisconnection, 0%nat)) else
  match select_rows (working c) strSql with
  | Some n => (c, inr (mysql_success, n))
  | None => (c, inl ExceptionDatabase)
  end.

(** The result of [mysql_commit] is not looked at. *)
Definition mysql_commit : op () := λ c,
  (mk_connection (m_bConnect c) (working c)
     (if commit_succeeds (working c) then working c else durable c), inr ()).

(** [goto error] throws; the rollback behind the throw is not reached. *)
Fixpoint sql_loop (sqlSelect sqlInsert sqlUpdate : list string) : op () :=
  match sqlSelect, sqlInsert, sqlUpdate with
  | sel :: sqlSelect, ins :: sqlInsert, upd :: sqlUpdate =>
      '(rv, rowNum) ← getQueryRows sel;
      match rv with
      | mysql_success =>
          rv ← execOneSql (if decide (0 < rowNum)%nat then upd else ins);
          match rv with
          | mysql_success => sql_loop sqlSelect sqlInsert sqlUpdate
          | _ => fail_with ExceptionDatabase
          end
      | _ => fail_with ExceptionDatabase
      end
  | _, _, _ => mret ()
  end.

Definition execMutilSql (s : statements) : op return_val :=
  _ ← sql_loop (m_sql_select s) (m_sql_insert s) (m_sql_update s);
  _ ← mysql_commit;
  mret mysql_success.

(** One turn of [ThreadProcess]: what is logged, or [None] when an exception leaves
    the thread. *)
Definition process_message (body : string) (c : connection) : connection * option bool :=
  match (match LoadJson body with inr (_, s) => execMutilSql s c | inl e => (c, inl e) end) with
  | (c, inr _) => (c, Some true)
  | (c, inl LogicError) | (c, inl RuntimeError) => (c, None)
  | (c, inl _) => (c, Some false)
  end.
End Apply.

(** ** What a message says *)

(** A table of a message: its name, its columns with their values, the columns that
    name the row. *)
Record entry := mk_entry {
  e_name : string;
  e_columns : list (string * Value);
  e_keys : list (string * Value) }.

(** The document's form of a table; other members may be there, too. *)
Definition table_parts (v : Value) (name : string) (cols vals : list Value)
    (keys : list (string * Value)) : Prop :=
  ∃ m, v = objectValue m ∧ member "name" m = Some (stringValue name) ∧
    member "column" m = Some (arrayValue cols) ∧ member "values" m = Some (arrayValue vals) ∧
    member "mapkey" m = Some (objectValue keys).

(** A column's name is the text of its value, be it a string, a number, a boolean
    or null. *)
Definition names_column (c : Value) (x : string * Value) : Prop := asString c = inr x.1.

Definition describes (v : Value) (e : entry) : Prop :=
  ∃ cols, table_parts v (e_name e) cols (map snd (e_columns e)) (e_keys e) ∧
    Forall2 names_column cols (e_columns e) ∧
    e_columns e ≠ [] ∧ e_keys e ≠ [] ∧ Z.of_nat (length (e_columns e)) < 2 ^ 32.

(** A value with parts, which has no text. *)
Definition compound (c : Value) : Prop :=
  match c with arrayValue _ | objectValue _ => True | _ => False end.

(** What makes a value among the tables an exception. *)
Inductive malformed : Value → thrown → Prop :=
  | mf_no_object v : v ≠ nullValue → (∀ m, v ≠ objectValue m) → malformed v LogicError
  | mf_name m : (∀ s, member "name" m ≠ Some (stringValue s)) →
      malformed (objectValue m) ExceptionParsejson
  | mf_parts m s : member "name" m = Some (stringValue s) →
      (∀ cols vals keys, table_parts (objectValue m) s cols vals keys → length cols ≠ length vals) →
      malformed (objectValue m) ExceptionParsejson
  | mf_column v s cols vals keys : table_parts v s cols vals keys → length cols = length vals →
      0 < Z.of_nat (length cols) < 2 ^ 32 → Exists compound cols → malformed v LogicError
  | mf_keys v s cols vals : table_parts v s cols vals [] → length cols = length vals →
      0 < Z.of_nat (length cols) < 2 ^ 32 → Forall (λ c, ¬ compound c) cols →
      malformed v ExceptionParsejson.

(** A table whose last index, an unsigned difference, is not that of its last
    column. *)
Definition columnless (v : Value) : Prop :=
  ∃ s cols vals keys, table_parts v s cols vals keys ∧ length cols = length vals ∧
    (cols = [] ∨ 2 ^ 32 <= Z.of_nat (length cols)).

(** The statements, joined from their parts. *)
Definition equation (literal : Value → string) (x : string * Value) : string := x.1 +:+ "=" +:+ literal x.2.

Definition select_of (e : entry) : string :=
  "select * from " +:+ e_name e +:+ " where " +:+
  String.concat " and " (map (equation JsonValueToString) (e_keys e)).

Definition insert_of (e : entry) : string :=
  "insert into " +:+ e_name e +:+ " (" +:+ String.concat "," (map fst (e_columns e)) +:+
  ", hm_update_timestamp) values  (" +:+
  String.concat "," (map (λ x, JsonValueToString x.2) (e_columns e)) +:+ ", 0)".

Definition update_of (e : entry) : string :=
  "update " +:+ e_name e +:+ " set " +:+
  String.concat ", " (map (equation JsonValueToString) (e_columns e)) +:+
  ", hm_update_timestamp=0 where " +:+
  String.concat " and " (map (equation update_literal) (e_keys e)).

Definition statements_of (l : list entry) : statements :=
  mk_statements (map select_of l) (map insert_of l) (map update_of l).

(** All but the last of some strings, each with a separator behind it. *)
Fixpoint terminated (sep : string) (l : list string) : string :=
  match l with [] => EmptyString | x :: l => x +:+ sep +:+ terminated sep l end.

Lemma terminated_app sep l x : terminated sep (l ++ [x]) = terminated sep l +:+ x +:+ sep.
Proof.
  induction l as [|y l IH]; cbn [app terminated].
  - by rewrite app_nil_s.
  - by rewrite IH, !app_assoc_s.
Qed.

Lemma concat_last sep l x : String.concat sep (l ++ [x]) = terminated sep l +:+ x.
Proof.
  induction l as [|y l IH]; [done|]. cbn [app terminated].
  rewrite !app_assoc_s, <- IH. by destruct l.
Qed.

Lemma key_loop_join literal keys str :
  key_loop literal keys str = str +:+ String.concat " and " (map (equation literal) keys).
Proof.
  revert str. induction keys as [|[k v] keys IH]; intros str; cbn [key_loop map].
  - cbn. by rewrite app_nil_s.
  - destruct keys as [|kv keys]; [done|]. rewrite IH. cbn [map].
    change (String.concat " and " (equation literal (k, v) :: ?l))
      with (equation literal (k, v) +:+ " and " +:+ String.concat " and " l).
    unfold equation at 3. cbn [fst snd]. by rewrite !app_assoc_s.
Qed.

Lemma column_loop_join cols vals l i u c v :
  (∀ j x, l !! j = Some x → names_column (element cols (i + j)) x ∧ element vals (i + j) = x.2) →
  column_loop cols vals i (length l) u c v =
  inr (u +:+ terminated ", " (map (equation JsonValueToString) l),
       c +:+ terminated "," (map fst l),
       v +:+ terminated "," (map (λ x, JsonValueToString x.2) l)).
Proof.
  revert i u c v. induction l as [|[k x] l IH]; intros i u c v H.
  - cbn [length column_loop map terminated]. by rewrite !app_nil_s.
  - cbn [length column_loop]. destruct (H 0%nat (k, x) eq_refl) as [Hc Hv]. rewrite Nat.add_0_r in Hc, Hv.
    unfold names_column in Hc. rewrite Hc, Hv. cbn [mbind res_bind mret res_ret fst snd].
    rewrite IH by (intros j y Hj; specialize (H (S j) y Hj); by rewrite Nat.add_succ_r in H).
    cbn [map terminated fst snd]. unfold equation at 2. cbn [fst snd]. by rewrite !app_assoc_s.
Qed.

(** A column with parts stops the loop. *)
Lemma column_loop_compound cols vals i n u c v j :
  (j < n)%nat → compound (element cols (i + j)) → column_loop cols vals i n u c v = inl LogicError.
Proof.
  revert i n u c v. induction j as [|j IH]; intros i n u c v Hn Hc; (destruct n as [|n]; [lia|]); cbn [column_loop].
  - rewrite Nat.add_0_r in Hc. by destruct (element cols i).
  - destruct (asString (element cols i)) as [e|name] eqn:E.
    + destruct (element cols i); try discriminate; by injection E as <-.
    + cbn [mbind res_bind]. apply IH; [lia|]. by rewrite Nat.add_succ_r in Hc.
Qed.

Lemma column_loop_error cols vals i n u c v e : column_loop cols vals i n u c v = inl e → e = LogicError.
Proof.
  revert i u c v. induction n as [|n IH]; intros i u c v; cbn [column_loop]; [done|].
  destruct (asString (element cols i)) as [e'|name] eqn:E; cbn [mbind res_bind]; [|apply IH].
  intros [= <-]. destruct (element cols i); try discriminate; by injection E.
Qed.

Lemma element_lookup l i x : l !! i = Some x → element l i = x.
Proof. intros H. unfold element. by apply nth_lookup_Some. Qed.

Lemma columns_named cols l : Forall2 names_column cols l →
  ∀ j x, l !! j = Some x → names_column (element cols (0 + j)) x ∧ element (map snd l) (0 + j) = x.2.
Proof.
  intros H j x Hj. destruct (Forall2_lookup_r _ _ _ _ _ H Hj) as (c & Hc & Hn). cbn [Nat.add].
  rewrite (element_lookup _ _ _ Hc), (element_lookup _ j x.2); [done|].
  change (map snd l) with (snd <$> l). by rewrite list_lookup_fmap, Hj.
Qed.

Lemma last_column_pred n : 0 < Z.of_nat n < 2 ^ 32 → last_column n = (n - 1)%nat.
Proof. intros H. unfold last_column. rewrite wrap_small by lia. lia. Qed.

(** The lookups of a table's parts succeed. *)
Lemma table_parts_read v name cols vals keys : table_parts v name cols vals keys →
  table_statements v =
  if negb (Nat.eqb (length cols) (length vals)) then raise ExceptionParsejson else
  let l := last_column (length cols) in
  '(strUpdate, strColumn, strValues) ←
    column_loop cols vals 0 l ("update " +:+ name +:+ " set ") " (" " (";
  lastName ← asString (element cols l);
  let text := JsonValueToString (element vals l) in
  if Nat.eqb (length keys) 0 then raise ExceptionParsejson else
  mret (key_loop JsonValueToString keys ("select * from " +:+ name +:+ " where "),
        "insert into " +:+ name +:+ (strColumn +:+ lastName +:+ ", hm_update_timestamp)") +:+ " values " +:+
          (strValues +:+ text +:+ ", 0)"),
        key_loop update_literal keys
          ((strUpdate +:+ lastName +:+ "=" +:+ text +:+ ", hm_update_timestamp=0") +:+ " where ")).
Proof.
  intros (m & -> & Hn & Hc & Hv & Hk). unfold table_statements, isMember, find_member, at_key.
  cbn [mbind res_bind mret res_ret]. rewrite Hn, Hc, Hv, Hk. by rewrite !bool_decide_eq_true_2 by by eexists.
Qed.

Lemma table_statements_ok v e : describes v e →
  table_statements v = inr (select_of e, insert_of e, update_of e).
Proof.
  intros (cols & P & Hcols & Nc & Nk & Hl). rewrite (table_parts_read _ _ _ _ _ P).
  pose proof (Forall2_length _ _ _ Hcols) as L. rewrite length_map, L, Nat.eqb_refl. cbn [negb].
  destruct (exists_last Nc) as (l & [k x] & E).
  rewrite last_column_pred by (rewrite E, length_app in *; cbn [length] in *; lia).
  assert (length (e_columns e) - 1 = length l)%nat as -> by (rewrite E, length_app; cbn; lia).
  pose proof (columns_named _ _ Hcols) as N. cbv zeta.
  rewrite (column_loop_join cols _ l) by
    (intros j y Hj; apply N; rewrite E, lookup_app_l; [done|by eapply lookup_lt_Some]).
  destruct (N (length l) (k, x)) as [A B]; [by rewrite E, lookup_app_r, Nat.sub_diag|].
  unfold names_column in A. cbn [Nat.add] in A, B. rewrite A, B. cbn [mbind res_bind fst snd].
  destruct (Nat.eqb_spec (length (e_keys e)) 0) as [Z|_]; [by apply length_zero_iff_nil in Z|].
  rewrite !key_loop_join. unfold select_of, insert_of, update_of. rewrite E, !map_app. cbn [map fst snd].
  rewrite !concat_last.
  change (equation JsonValueToString (k, x)) with (k +:+ "=" +:+ JsonValueToString x).
  by rewrite !app_assoc_s.
Qed.

Lemma named_columns cols vals : length cols = length vals →
  Forall (λ c, ¬ compound c) cols → ∃ l, Forall2 names_column cols l ∧ map snd l = vals.
Proof.
  revert vals. induction cols as [|c cols IH]; intros [|v vals] L H; try discriminate.
  { by exists []. }
  injection L as L. apply Forall_cons in H as [Hc H]. destruct (IH vals L H) as (l & Hl & <-).
  destruct (asString c) as [e|s] eqn:E; [by destruct c; try discriminate; destruct Hc|].
  exists ((s, v) :: l). split; [by constructor|done].
Qed.

#[export] Instance compound_dec c : Decision (compound c).
Proof. destruct c; first [by left|by right; intros []]. Defined.

Lemma malformed_error v e : malformed v e → v ≠ nullValue ∧ table_statements v = inl e.
Proof.
  assert (P0 : ∀ v s cols vals keys, table_parts v s cols vals keys → v ≠ nullValue) by (intros v' * (m & -> & _); done).
  destruct 1 as [v Hn Ho|m Hs|m s Hs Hp|v s cols vals keys P L Hl Hc|v s cols vals P L Hl Hc].
  - split; [done|]. destruct v; try done. by edestruct Ho.
  - split; [done|]. unfold table_statements, isMember, find_member, at_key.
    cbn [mbind res_bind mret res_ret]. destruct (member "name" m) as [x|]; [|done].
    destruct x; try done. by destruct (Hs s).
  - split; [done|]. unfold table_statements, isMember, find_member, at_key.
    cbn [mbind res_bind mret res_ret]. rewrite Hs. rewrite bool_decide_eq_true_2 by by eexists.
    cbn [negb from_option mbind res_bind default].
    destruct (member "column" m) as [c|] eqn:Ec; [|done]. destruct (member "values" m) as [w|] eqn:Ew; [|done].
    destruct (member "mapkey" m) as [k|] eqn:Ek; [|done].
    rewrite !bool_decide_eq_true_2 by by eexists. cbn.
    destruct k as [| | | | | | |keys]; try done. destruct c as [| | | | | |cols|]; try done.
    destruct w as [| | | | | |vals|]; try done.
    destruct (Nat.eqb_spec (length cols) (length vals)) as [E|]; [|done].
    destruct (Hp cols vals keys); [|done]. by exists m.
  - split; [by eapply P0|]. rewrite (table_parts_read _ _ _ _ _ P), L, Nat.eqb_refl. cbn [negb]. cbv zeta.
    rewrite <- L, last_column_pred by done.
    apply Exists_exists in Hc as (c & Hin & Hc). apply list_elem_of_lookup in Hin as (j & Hj).
    pose proof (lookup_lt_Some _ _ _ Hj). rewrite <- (element_lookup _ _ _ Hj) in Hc.
    destruct (decide (j < length cols - 1)%nat).
    + by rewrite (column_loop_compound _ _ _ _ _ _ _ j).
    + replace j with (length cols - 1)%nat in Hc by lia.
      destruct (column_loop _ _ _ _ _ _ _) as [e|[[x y] z]] eqn:E; cbn [mbind res_bind].
      * by rewrite (column_loop_error _ _ _ _ _ _ _ _ E).
      * by destruct (element cols (length cols - 1)).
  - split; [by eapply P0|]. rewrite (table_parts_read _ _ _ _ _ P), L, Nat.eqb_refl. cbn [negb]. cbv zeta.
    destruct (named_columns _ _ L Hc) as (l & Hn & <-). rewrite length_map in *.
    pose proof (columns_named _ _ Hn) as N. rewrite L in Hl. rewrite last_column_pred by done.
    destruct (exists_last (l := l)) as (l' & x & ->); [intros ->; cbn in Hl; lia|]. rewrite length_app, Nat.add_sub in *.
    rewrite (column_loop_join cols _ l') by
      (intros j y Hj; apply N; rewrite lookup_app_l; [done|by eapply lookup_lt_Some]).
    destruct (N (length l') x) as [A _]; [by rewrite lookup_app_r, Nat.sub_diag|].
    unfold names_column in A. cbn [Nat.add] in A. by rewrite A.
Qed.

Lemma parts_cases v s cols vals keys : table_parts v s cols vals keys → length cols = length vals →
  (∃ e, describes v e) ∨ (∃ e, malformed v e) ∨ columnless v.
Proof.
  intros P L. destruct (decide (0 < Z.of_nat (length cols) < 2 ^ 32)) as [Hl|Hl].
  2:{ right; right. exists s, cols, vals, keys. split_and!; [done|done|].
      destruct cols; [by left|right]. cbn [length] in *. lia. }
  destruct (decide (Exists compound cols)) as [Hc|Hc].
  { right; left. eexists. by apply (mf_column v s cols vals keys). }
  apply Forall_Exists_neg in Hc. destruct keys as [|key keys].
  { right; left. eexists. by apply (mf_keys v s cols vals). }
  left. destruct (named_columns _ _ L Hc) as (l & Hn & <-). rewrite length_map in L.
  exists (mk_entry s l (key :: keys)), cols. cbn. split_and!; [done|done| |done|lia].
  intros ->. cbn in L. lia.
Qed.

(** A part that is absent or of another type. *)
Ltac part_missing :=
  right; left; eexists; eapply mf_parts; [eassumption|];
  intros ? ? ? (? & [= <-] & _ & ? & ? & ?); congruence.

(** Nothing else is among the tables. *)
Lemma table_cases v :
  v = nullValue ∨ (∃ e, describes v e) ∨ (∃ e, malformed v e) ∨ columnless v.
Proof.
  destruct v as [| | | | | | |m]; [by left|right; right; left; eexists; by apply mf_no_object..|]. right.
  assert ((∃ s, member "name" m = Some (stringValue s)) ∨ ∀ s, member "name" m ≠ Some (stringValue s)) as [[s Hs]|Hn].
  { destruct (member "name" m) as [[| | | |s| | |]|]; try (right; congruence). left. by exists s. }
  - destruct (member "column" m) as [[| | | | | |cols|]|] eqn:Ec;
      try part_missing.
    destruct (member "values" m) as [[| | | | | |vals|]|] eqn:Ev;
      try part_missing.
    destruct (member "mapkey" m) as [[| | | | | | |keys]|] eqn:Ek;
      try part_missing.
    assert (table_parts (objectValue m) s cols vals keys) as P by (by exists m).
    destruct (decide (length cols = length vals)) as [L|L]; [by eapply parts_cases|].
    right; left. eexists. apply (mf_parts m s Hs). intros cols' vals' keys' (m' & [= <-] & _ & A & B & _). congruence.
  - right; left. eexists. by apply mf_name.
Qed.

(** ** Documents *)

Lemma describes_object v e : describes v e → ∃ m, v = objectValue m.
Proof. intros (cols & (m & -> & _) & _). by exists m. Qed.

(** The tables in front of [rest] are described by [l]. *)
Lemma table_loop_app vs l rest s : Forall2 describes vs l →
  table_loop (vs ++ rest) s =
  table_loop rest (mk_statements (m_sql_select s ++ map select_of l) (m_sql_insert s ++ map insert_of l)
                     (m_sql_update s ++ map update_of l)).
Proof.
  intros H. revert s. induction H as [|v e vs l Hv _ IH]; intros s.
  - cbn. rewrite !app_nil_r. by destruct s.
  - destruct (describes_object v e Hv) as [m Em]. cbn [app map].
    transitivity ('(sel, ins, upd) ← table_statements v;
      table_loop (vs ++ rest) (mk_statements (m_sql_select s ++ [sel]) (m_sql_insert s ++ [ins])
                                 (m_sql_update s ++ [upd]))); [by rewrite Em|].
    rewrite (table_statements_ok v e Hv). cbn [mbind res_bind]. rewrite IH. cbn.
    by rewrite <- !app_assoc.
Qed.

Section Documents.
Context (read_double : string → option (string * string)) (spare : string → string).

(** A message whose member [tables] is the array [vs]. *)
Definition tables_are (body : string) (vs : list Value) : Prop :=
  ∃ m, parse read_double body (spare body) = Got (Some (objectValue m)) ∧ member "tables" m = Some (arrayValue vs).

Lemma LoadJson_tables body vs : tables_are body vs →
  LoadJson read_double spare body = table_loop vs (mk_statements [] [] []).
Proof.
  intros (m & E & Em). unfold LoadJson, document. rewrite E. cbn [mbind res_bind mret res_ret isMember find_member at_key]. rewrite Em.
  rewrite bool_decide_eq_true_2 by by eexists. done.
Qed.
End Documents.

(** C17: each table of a message gives the select, the insert and the update that its
    name, columns, values and keys make, a column being named by the text of its
    value; a null among the tables ends the list without an error, so that the
    tables in front of it are still written; a value that is no object, has no
    name, lacks a part or has one of another type or length, has a column without
    a text or has no key is the exception of its kind, and nothing of the message
    is written.  Every value is one of these, but for tables without columns. *)
Theorem statements_built read_double spare body vs l :
  Forall2 describes vs l →
  let load := LoadJson read_double spare body in
  (tables_are read_double spare body vs → load = inr (true, statements_of l)) ∧
  (∀ rest, tables_are read_double spare body (vs ++ nullValue :: rest) → load = inr (false, statements_of l)) ∧
  (∀ bad rest e, malformed bad e →
   tables_are read_double spare body (vs ++ bad :: rest) → load = inl e) ∧
  (∀ v, v = nullValue ∨ (∃ e, describes v e) ∨ (∃ e, malformed v e) ∨ columnless v).
Proof.
  intros H load. subst load. split_and!.
  - intros Ht. rewrite (LoadJson_tables _ _ _ _ Ht), <- (app_nil_r vs). by rewrite (table_loop_app _ l).
  - intros rest Ht. rewrite (LoadJson_tables _ _ _ _ Ht). by rewrite (table_loop_app _ l).
  - intros bad rest e Hb Ht. rewrite (LoadJson_tables _ _ _ _ Ht), (table_loop_app _ l) by done.
    destruct (malformed_error bad e Hb) as [Hn He]. destruct bad; try done; cbn [table_loop]; by rewrite He.
  - apply table_cases.
Qed.

(** ** The text of a message *)

(** The document of some tables, with its members in the order of a map. *)
Definition entry_value (e : entry) : Value :=
  objectValue [("column", arrayValue (map stringValue (map fst (e_columns e)))); ("mapkey", objectValue (e_keys e));
    ("name", stringValue (e_name e)); ("values", arrayValue (map snd (e_columns e)))].

Definition entry_document (l : list entry) : Value := objectValue [("tables", arrayValue (map entry_value l))].

(** The values of columns and keys that are no real numbers and have no parts. *)
Definition plain (v : Value) : Prop :=
  match v with
  | intValue z => minLargestInt <= z <= maxLargestInt
  | uintValue z => 0 <= z <= maxLargestUInt
  | realValue _ _ | arrayValue _ | objectValue _ => False
  | _ => True
  end.

Definition plain_entry (e : entry) : Prop :=
  e_columns e ≠ [] ∧ e_keys e ≠ [] ∧ Z.of_nat (length (e_columns e)) < 2 ^ 32 ∧ ascending (e_keys e).*1 ∧
  Forall (λ x, plain x.2) (e_columns e) ∧ Forall (λ x, plain x.2) (e_keys e).

Lemma entry_describes e :
  e_columns e ≠ [] → e_keys e ≠ [] → Z.of_nat (length (e_columns e)) < 2 ^ 32 → describes (entry_value e) e.
Proof.
  intros. exists (map stringValue (map fst (e_columns e))). split_and!; try done.
  - eexists. split; [reflexivity|]. by split_and!.
  - rewrite map_map. apply Forall2_fmap_l. by apply Forall_Forall2_diag, Forall_true.
Qed.

Section Text.
Context (read_double : string → option (string * string)) (spare : string → string).

Lemma plain_reread v : plain v →
  everywhere (representable read_double) v ∧ depth v = 1%nat ∧
  JsonValueToString (reread read_double v) = JsonValueToString v ∧
  update_literal (reread read_double v) = update_literal v.
Proof.
  destruct v as [|z|z|a b|t|b|l|m]; cbn [plain]; try done; intros H; cbn [reread]; (split; [by split|]); (split; [done|]).
  - destruct (Z.leb_spec z maxInt) as [L|L]; [done|].
    assert (valueToString z = uintToString z) as E.
    { unfold valueToString, minLargestInt, maxInt in *. rewrite (proj2 (Z.eqb_neq _ _)), (proj2 (Z.ltb_ge _ _)) by lia. done. }
    cbn. by rewrite E.
  - destruct (Z.leb_spec z maxInt) as [L|L]; [|done].
    assert (valueToString z = uintToString z) as E.
    { unfold valueToString, minLargestInt, maxInt in *. rewrite (proj2 (Z.eqb_neq _ _)), (proj2 (Z.ltb_ge _ _)) by lia. done. }
    cbn. by rewrite E.
Qed.

Definition reread_members (m : list (string * Value)) : list (string * Value) :=
  map (λ x, (x.1, reread read_double x.2)) m.

Definition reread_entry (e : entry) : entry :=
  mk_entry (e_name e) (reread_members (e_columns e)) (reread_members (e_keys e)).

Lemma reread_entry_value e : reread read_double (entry_value e) = entry_value (reread_entry e).
Proof.
  unfold entry_value, reread_entry, reread_members. cbn. rewrite !map_map. do 5 f_equal.
Qed.

Lemma reread_texts f m : Forall (λ x, f (reread read_double x.2) = f x.2) m →
  map (λ x, f x.2) (reread_members m) = map (λ x : string * Value, f x.2 : string) m ∧
  map (equation f) (reread_members m) = map (equation f) m.
Proof.
  unfold equation, reread_members. induction 1 as [|x m Hx Hm [IH1 IH2]]; [done|]. cbn.
  rewrite IH1, IH2, Hx. done.
Qed.

Lemma reread_statements e : plain_entry e →
  select_of (reread_entry e) = select_of e ∧ insert_of (reread_entry e) = insert_of e ∧
  update_of (reread_entry e) = update_of e.
Proof.
  intros (_ & _ & _ & _ & Hc & Hk).
  assert (∀ f m, (∀ v, plain v → f (reread read_double v) = f v) → Forall (λ x, plain x.2) m →
    Forall (λ x : string * Value, f (reread read_double x.2) = f x.2 :> string) m) as P.
  { intros f m Hf Hm. eapply Forall_impl; [exact Hm|]. cbn. auto. }
  assert (map fst (reread_members (e_columns e)) = map fst (e_columns e)) as F by (unfold reread_members; by rewrite map_map).
  unfold select_of, insert_of, update_of, reread_entry. cbn [e_name e_columns e_keys]. rewrite F.
  rewrite !(proj2 (reread_texts JsonValueToString _ (P _ _ (λ v H, proj1 (proj2 (proj2 (plain_reread v H)))) Hk))).
  rewrite !(proj2 (reread_texts update_literal _ (P _ _ (λ v H, proj2 (proj2 (proj2 (plain_reread v H)))) Hk))).
  rewrite !(proj1 (reread_texts JsonValueToString _ (P _ _ (λ v H, proj1 (proj2 (proj2 (plain_reread v H)))) Hc))).
  rewrite !(proj2 (reread_texts JsonValueToString _ (P _ _ (λ v H, proj1 (proj2 (proj2 (plain_reread v H)))) Hc))).
  done.
Qed.

Lemma everywhere_strings l : Forall (everywhere (representable read_double)) (map stringValue l).
Proof. induction l; constructor; auto. by split. Qed.

Lemma entry_value_ok e : plain_entry e →
  everywhere (representable read_double) (entry_value e) ∧ (depth (entry_value e) <= 3)%nat.
Proof.
  intros (_ & _ & _ & Hs & Hc & Hk). split.
  - apply everywhere_object. split; [cbn; repeat split; by repeat constructor|].
    rewrite !Forall_cons. split_and!; cbn [snd]; [..|done].
    + apply everywhere_array. split; [done|apply everywhere_strings].
    + apply everywhere_object. split; [done|]. eapply Forall_impl; [exact Hk|]. intros x Hx. by apply plain_reread.
    + by split.
    + apply everywhere_array. split; [done|]. apply List.Forall_map. eapply Forall_impl; [exact Hc|]. intros x Hx. by apply plain_reread.
  - assert (∀ m : list (string * Value), Forall (λ x, plain x.2) m → (depths m.*2 <= 1)%nat) as D.
    { intros m Hm. apply depths_le, Forall_fmap. eapply Forall_impl; [exact Hm|]. intros x Hx. cbn.
      destruct (plain_reread _ Hx) as (_ & -> & _). done. }
    unfold entry_value. rewrite depth_object. apply le_n_S, depths_le. cbn [fmap list_fmap snd].
    rewrite !Forall_cons. split_and!; [..|done]; rewrite ?depth_array, ?depth_object; try apply le_n_S; try by apply D.
    + apply depths_le. generalize (map fst (e_columns e)) as l. induction l; by constructor.
    + cbn. lia.
Qed.

Lemma entry_document_parsed l : Forall plain_entry l →
  tables_are read_double spare (write (entry_document l)) (map entry_value (map reread_entry l)).
Proof.
  intros H. exists [("tables", arrayValue (map entry_value (map reread_entry l)))]. split; [|done].
  rewrite parse_write.
  - unfold entry_document. cbn. do 6 f_equal. rewrite !map_map. apply map_ext. intros e. apply reread_entry_value.
  - apply everywhere_object. split; [cbn; by repeat constructor|]. rewrite Forall_cons. split; [|done]. cbn [snd].
    apply everywhere_array. split; [done|]. apply List.Forall_map. eapply Forall_impl; [exact H|].
    intros e He. by apply entry_value_ok.
  - unfold entry_document. rewrite depth_object. unfold stackLimit_g. cbn [fmap list_fmap snd].
    enough (depths [arrayValue (map entry_value l)] <= 4)%nat by lia.
    apply depths_le. constructor; [|done]. rewrite depth_array. apply le_n_S, depths_le, List.Forall_map.
    eapply Forall_impl; [exact H|]. intros e He. by apply entry_value_ok.
Qed.

Lemma plain_describes l : Forall plain_entry l →
  Forall2 describes (map entry_value (map reread_entry l)) (map reread_entry l).
Proof.
  induction 1 as [|e l (Hc & Hk & Hn & _) Hl IH]; [done|]. constructor; [|done].
  apply entry_describes; cbn; unfold reread_members.
  - by destruct (e_columns e).
  - by destruct (e_keys e).
  - by rewrite length_map.
Qed.

Lemma LoadJson_written l : Forall plain_entry l →
  LoadJson read_double spare (write (entry_document l)) = inr (true, statements_of l).
Proof.
  intros H. rewrite (LoadJson_tables _ _ _ _ (entry_document_parsed l H)).
  pose proof (table_loop_app _ _ [] (mk_statements [] [] []) (plain_describes l H)) as E. rewrite app_nil_r in E. rewrite E.
  cbn [table_loop]. unfold statements_of. cbn. do 3 f_equal; rewrite map_map;
    (apply map_ext_Forall; eapply Forall_impl; [exact H|]; intros e He; by apply reread_statements).
Qed.
End Text.

(** ** Messages on the database *)

Section Upsert.
Context (read_double : string → option (string * string)) (spare : string → string).
Context {DB : Type} (select_rows : DB → string → option nat) (run_sql : DB → string → option DB).
Context (commit_succeeds : DB → bool).

(** What a table of a message means: its row is changed when there is one, and
    inserted when there is none. *)
Definition upsert (db : DB) (e : entry) : option DB :=
  n ← select_rows db (select_of e);
  run_sql db (if decide (0 < n)%nat then update_of e else insert_of e).

Fixpoint upsert_all (db : DB) (l : list entry) : option DB :=
  match l with [] => Some db | e :: l => db ← upsert db e; upsert_all db l end.

Definition says (body : string) (l : list entry) : Prop :=
  ∃ vs, tables_are read_double spare body vs ∧ Forall2 describes vs l.

Lemma says_statements body l : says body l → LoadJson read_double spare body = inr (true, statements_of l).
Proof.
  intros (vs & Ht & H). rewrite (LoadJson_tables _ _ _ _ Ht), <- (app_nil_r vs). by rewrite (table_loop_app _ l).
Qed.

Abbreviation loop := (sql_loop DB select_rows run_sql).
Abbreviation process := (process_message read_double spare DB select_rows run_sql commit_succeeds).

Lemma sql_loop_ok l db d db' : upsert_all db l = Some db' →
  loop (map select_of l) (map insert_of l) (map update_of l) (mk_connection DB true db d) =
  (mk_connection DB true db' d, inr ()).
Proof.
  revert db. induction l as [|e l IH]; intros db; [by intros [= ->]|].
  cbn [upsert_all]. unfold upsert. intros H. invert_bind H.
  cbn [map sql_loop]. unfold mbind, op_bind, getQueryRows, execOneSql. cbn.
  destruct (select_rows db (select_of e)) as [n|]; [|done]. cbn in *. rewrite Heqo. by apply IH.
Qed.

Lemma sql_loop_fails l e l2 db d db1 : upsert_all db l = Some db1 → upsert db1 e = None →
  loop (map select_of (l ++ e :: l2)) (map insert_of (l ++ e :: l2)) (map update_of (l ++ e :: l2))
    (mk_connection DB true db d) =
  (mk_connection DB true db1 d, inl ExceptionDatabase).
Proof.
  revert db. induction l as [|x l IH]; intros db; unfold upsert.
  - intros [= ->] He. cbn [app map sql_loop]. unfold mbind, op_bind, getQueryRows, execOneSql. cbn.
    destruct (select_rows db1 (select_of e)) as [n|]; [|done]. cbn in *. by rewrite He.
  - cbn [upsert_all]. unfold upsert at 1. intros H He. invert_bind H.
    cbn [app map sql_loop]. unfold mbind, op_bind, getQueryRows, execOneSql. cbn.
    destruct (select_rows db (select_of x)) as [n|]; [|done]. cbn in *. rewrite Heqo. by apply IH.
Qed.

Lemma process_ok body l db d db' :
  LoadJson read_double spare body = inr (true, statements_of l) → upsert_all db l = Some db' →
  process body (mk_connection DB true db d) =
  (mk_connection DB true db' (if commit_succeeds db' then db' else d), Some true).
Proof.
  intros Hs Hu. unfold process_message. rewrite Hs. unfold execMutilSql.
  unfold mbind, op_bind. cbn [statements_of m_sql_select m_sql_insert m_sql_update].
  by rewrite (sql_loop_ok l db d db').
Qed.

Lemma process_fails body l e l2 db d db1 : says body (l ++ e :: l2) →
  upsert_all db l = Some db1 → upsert db1 e = None →
  process body (mk_connection DB true db d) = (mk_connection DB true db1 d, Some false).
Proof.
  intros Hs Hu He. unfold process_message. rewrite (says_statements _ _ Hs). unfold execMutilSql.
  unfold mbind, op_bind. cbn [statements_of m_sql_select m_sql_insert m_sql_update].
  by rewrite (sql_loop_fails l e l2 db d db1).
Qed.
End Upsert.

(** C18: the text of a message, as [FastWriter] writes the document of some tables, is
    parsed, made into statements and applied row by row, changing the rows there are
    and inserting the others, then committed, whatever the buffer holds behind the
    text; it is logged as successful even when the commit fails. *)
Theorem message_text_applied read_double spare {DB : Type} select_rows run_sql (commit_succeeds : DB → bool)
    l db d db' :
  Forall plain_entry l → upsert_all select_rows run_sql db l = Some db' →
  process_message read_double spare DB select_rows run_sql commit_succeeds (write (entry_document l))
    (mk_connection DB true db d) =
  (mk_connection DB true db' (if commit_succeeds db' then db' else d), Some true).
Proof. intros H. by apply process_ok, LoadJson_written. Qed.

(** C16: a message is not applied as a whole or not at all: when one of its tables
    fails, those in front of it stay in the open transaction, as nothing rolls it
    back, and the next message that succeeds commits them with its own. *)
Theorem failed_message_committed_later read_double spare {DB : Type} select_rows run_sql (commit_succeeds : DB → bool)
    body l e l2 body' l' db d db1 db2 :
  says read_double spare body (l ++ e :: l2) → upsert_all select_rows run_sql db l = Some db1 →
  upsert select_rows run_sql db1 e = None →
  says read_double spare body' l' → upsert_all select_rows run_sql db1 l' = Some db2 → commit_succeeds db2 = true →
  let process := process_message read_double spare DB select_rows run_sql commit_succeeds in
  process body (mk_connection DB true db d) = (mk_connection DB true db1 d, Some false) ∧
  (process body' (process body (mk_connection DB true db d)).1) = (mk_connection DB true db2 db2, Some true).
Proof.
  intros H1 H2 H3 H4 H5 H6. cbn zeta. pose proof (process_fails read_double spare select_rows run_sql commit_succeeds
    body l e l2 db d db1 H1 H2 H3) as E. rewrite E. split; [done|]. cbn [fst].
  by rewrite (process_ok _ _ _ _ _ body' l' db1 d db2), H6 by (done || by apply says_statements).
Qed.

(** The two exceptions of the program are caught, those of the JSON library are not:
    a document that is nested deeper than the reader's stack, one that is neither an
    object nor null, and one with a column whose name is an array, each ends the
    thread. *)
Theorem json_exceptions_end_thread read_double spare {DB : Type} select_rows run_sql (commit_succeeds : DB → bool) body c :
  let process := process_message read_double spare DB select_rows run_sql commit_succeeds in
  (∀ v, everywhere (representable read_double) v → (stackLimit_g < depth v)%nat → process (write v) c = (c, None)) ∧
  (∀ v, parse read_double body (spare body) = Got (Some v) → v ≠ nullValue → (∀ m, v ≠ objectValue m) →
     process body c = (c, None)) ∧
  (∀ vs m keys l names vals values, tables_are read_double spare body (objectValue m :: vs) →
     member "name" m = Some (stringValue names) → member "mapkey" m = Some (objectValue keys) →
     member "column" m = Some (arrayValue (arrayValue l :: vals)) → member "values" m = Some (arrayValue values) →
     length values = S (length vals) → Z.of_nat (length values) < 2 ^ 32 → process body c = (c, None)).
Proof.
  cbn zeta. split_and!.
  - intros v H L. unfold process_message, LoadJson, document.
    assert (parse read_double (write v) (spare (write v)) = Threw) as ->; [|done].
    unfold parse, write. rewrite app_assoc_s, write_parsed by done. unfold within.
    by rewrite (proj2 (Nat.leb_gt _ _)).
  - intros v E N1 N2. unfold process_message, LoadJson, document. rewrite E. destruct v; try done. by destruct (N2 m).
  - intros vs m keys l names vals values Ht E1 E2 E3 E4 E5 E6. unfold process_message.
    rewrite (LoadJson_tables _ _ _ _ Ht). cbn [table_loop]. unfold table_statements, isMember, find_member, at_key.
    rewrite E1, E2, E3, E4. cbn [mbind res_bind mret res_ret].
    rewrite !bool_decide_eq_true_2 by by eexists. cbn [negb andb from_option id length].
    rewrite E5, Nat.eqb_refl. cbn [negb].
    assert (last_column (S (length vals)) = length vals) as ->.
    { unfold last_column. rewrite E5 in E6. rewrite wrap_small by lia. lia. }
    destruct vals as [|v vals]; done.
Qed.

(** Messages and a database that keeps the statements run on it and refuses the table
    [bad]. *)
Definition witness_entry : entry :=
  mk_entry "stock" [("qty", intValue 5); ("price", stringValue "1.5")] [("id", uintValue 7); ("lot", stringValue "A")].
Definition witness_bad : entry := mk_entry "bad" [("c", nullValue)] [("id", intValue 1)].

Definition witness_run (db : list string) (sql : string) : option (list string) :=
  if decide (sql = insert_of witness_bad) then None else Some (db ++ [sql]).

Definition witness_spare (body : string) : string := String "000" "}]left over".

Definition witness_text (l : list entry) : string := write (entry_document l).

Lemma witness_entry_plain : plain_entry witness_entry.
Proof.
  refine (conj _ (conj _ (conj _ (conj _ (conj _ _))))); [done|done|by vm_compute|cbn; by repeat constructor|..];
    repeat constructor; by vm_compute.
Qed.

Lemma witness_bad_plain : plain_entry witness_bad.
Proof.
  refine (conj _ (conj _ (conj _ (conj _ (conj _ _))))); [done|done|by vm_compute|cbn; by repeat constructor|..];
    repeat constructor; by vm_compute.
Qed.

Definition witness_reread (l : list entry) : list entry := map (reread_entry witness_double) l.

Lemma witness_says l : Forall plain_entry l →
  says witness_double witness_spare (witness_text l) (witness_reread l).
Proof. intros H. eexists. split; [by apply entry_document_parsed|]. by apply plain_describes. Qed.

(** A table whose only column is named by a number, and a message with a value that
    is no table. *)
Definition witness_number : entry := mk_entry "stock" [("7", intValue 1)] [("id", intValue 2)].

Definition witness_quoted (s : string) : string := quote +:+ s +:+ quote.

Definition witness_number_text (rest : string) : string :=
  "{" +:+ witness_quoted "tables" +:+ ":[{" +:+ witness_quoted "name" +:+ ":" +:+ witness_quoted "stock" +:+
  "," +:+ witness_quoted "column" +:+ ":[7]," +:+ witness_quoted "values" +:+ ":[1]," +:+
  witness_quoted "mapkey" +:+ ":{" +:+ witness_quoted "id" +:+ ":2}}" +:+ rest +:+ "]}".

Definition witness_number_value : Value :=
  objectValue [("column", arrayValue [intValue 7]); ("mapkey", objectValue [("id", intValue 2)]);
    ("name", stringValue "stock"); ("values", arrayValue [intValue 1])].

Lemma witness_number_describes : describes witness_number_value witness_number.
Proof.
  exists [intValue 7]. split_and!; [by eexists; split_and!|by repeat constructor|done|done|by vm_compute].
Qed.

Lemma statements_built_witness :
  LoadJson witness_double witness_spare (witness_text [witness_entry]) =
    inr (true, statements_of (witness_reread [witness_entry])) ∧
  insert_of witness_entry = "insert into stock (qty,price, hm_update_timestamp) values  (5," +:+ quote +:+ "1.5" +:+ quote +:+ ", 0)" ∧
  LoadJson witness_double witness_spare (witness_number_text "") = inr (true, statements_of [witness_number]) ∧
  LoadJson witness_double witness_spare (witness_number_text ",null,1") = inr (false, statements_of [witness_number]) ∧
  LoadJson witness_double witness_spare (witness_number_text ",true") = inl LogicError.
Proof.
  assert (Forall plain_entry [witness_entry]) as H by (constructor; [apply witness_entry_plain|constructor]).
  assert (Forall2 describes [witness_number_value] [witness_number]) as N
    by (constructor; [apply witness_number_describes|constructor]).
  split_and!; [|vm_compute; reflexivity|..].
  - apply (proj1 (statements_built witness_double witness_spare (witness_text [witness_entry]) _ _
      (plain_describes witness_double _ H))).
    by apply entry_document_parsed.
  - apply (proj1 (statements_built witness_double witness_spare (witness_number_text "") _ _ N)).
    eexists. split; [vm_compute; reflexivity|reflexivity].
  - apply (proj1 (proj2 (statements_built witness_double witness_spare (witness_number_text ",null,1") _ _ N))
      [intValue 1]).
    eexists. split; [vm_compute; reflexivity|reflexivity].
  - apply (proj1 (proj2 (proj2 (statements_built witness_double witness_spare (witness_number_text ",true") _ _ N)))
      (booleanValue true) []); [by apply mf_no_object|].
    eexists. split; [vm_compute; reflexivity|reflexivity].
Defined.

Lemma message_text_applied_witness :
  process_message witness_double witness_spare (list string) (λ _ _, Some 0%nat) witness_run (λ _, true)
    (witness_text [witness_entry]) (mk_connection _ true [] []) =
  (mk_connection _ true [insert_of witness_entry] [insert_of witness_entry], Some true).
Proof.
  apply (message_text_applied witness_double witness_spare (λ _ _, Some 0%nat) witness_run (λ _, true) [witness_entry]);
    [constructor; [apply witness_entry_plain|constructor]|vm_compute; reflexivity].
Defined.

Lemma failed_message_committed_later_witness :
  let process := process_message witness_double witness_spare (list string) (λ _ _, Some 0%nat) witness_run (λ _, true) in
  (process (witness_text [witness_entry]) (process (witness_text [witness_entry; witness_bad]) (mk_connection _ true [] [])).1) =
  (mk_connection _ true [insert_of witness_entry; insert_of witness_entry]
     [insert_of witness_entry; insert_of witness_entry], Some true).
Proof.
  apply (failed_message_committed_later witness_double witness_spare (λ _ _, Some 0%nat) witness_run (λ _, true)
    (witness_text [witness_entry; witness_bad]) (witness_reread [witness_entry]) (reread_entry witness_double witness_bad) []
    (witness_text [witness_entry]) (witness_reread [witness_entry]) [] [] [insert_of witness_entry]
    [insert_of witness_entry; insert_of witness_entry]);
    [apply (witness_says [witness_entry; witness_bad])|vm_compute; reflexivity|vm_compute; reflexivity
    |apply (witness_says [witness_entry])|vm_compute; reflexivity|reflexivity];
    repeat (apply Forall_cons_2; [apply witness_entry_plain || apply witness_bad_plain|]); apply Forall_nil_2.
Defined.

Lemma json_exceptions_end_thread_witness :
  process_message witness_double witness_spare (list string) (λ _ _, Some 0%nat) witness_run (λ _, true)
    "[1]" (mk_connection _ true [] []) = (mk_connection _ true [] [], None).
Proof.
  apply (proj1 (proj2 (json_exceptions_end_thread witness_double witness_spare (λ _ _, Some 0%nat) witness_run (λ _, true)
    "[1]" (mk_connection _ true [] [])))) with (v := arrayValue [intValue 1]); [vm_compute; reflexivity|discriminate|discriminate].
Defined.
