(* ===== verification/ExportText.v ===== *)
(** [wmsclient/wmsclient/PreBinlog.cpp]: the text of a batch of rows that the client
    sends: a head of four fields and the JSON document [FastWriter] writes of the
    tables. *)
From stdpp Require Import pretty.
From Stdlib Require Import Ascii.
From S2P Require Import Prelude JsonValue JsonWriter JsonReader ClientExport.

(** ** Operations *)

(** [FindTableName]. *)
Definition FindTableName (m_careTableName : list string) (tableName : string) : bool :=
  bool_decide (tableName ∈ m_careTableName).

(** The loops over the names of the columns and over the values:
    [tables[name].append(l[i].c_str())]. *)
Fixpoint append_strings (name : string) (l : list string) (tables : Value) : res Value :=
  match l with
  | [] => mret tables
  | x :: l =>
      v ← at_key tables name;
      v ← append v (stringValue (c_str x));
      tables ← assign tables name v;
      append_strings name l tables
  end.

(** The [Json::Value tables] of one turn. *)
Definition table_of (pJsonDataChild : GENERATE_DATA) : res Value :=
  tables ← assign nullValue "name" (stringValue (tableName_ pJsonDataChild));
  tables ← append_strings "column" (columnKey_ pJsonDataChild) tables;
  append_strings "values" (columnVal_ pJsonDataChild) tables.

(** The loop over the tables of the batch. *)
Fixpoint table_rows (headBody : list GENERATE_DATA) (root : Value) : res Value :=
  match headBody with
  | [] => mret root
  | pJsonDataChild :: headBody =>
      tables ← table_of pJsonDataChild;
      tableArr ← at_key root "tables";
      tableArr ← append tableArr tables;
      root ← assign root "tables" tableArr;
      table_rows headBody root
  end.

Definition BuildSendData (m_storehouse_id : string) (pData : option HEAD_GENERATE_DATA) : res string :=
  match pData with
  | None => mret EmptyString
  | Some pData =>
      root ← table_rows (headBody pData) nullValue;
      let strJson := headID_ pData +:+ "," +:+ pretty (headNumber_ pData) +:+ "," +:+ pretty (headOrder_ pData) +:+
        "," +:+ m_storehouse_id +:+ write root in
      mret (String.substring 0 (String.length strJson - 1) strJson)
  end.

(** ** The document of a batch *)

Definition text_value (s : string) : Value := stringValue (c_str s).

(** A table without columns or without values has no such member. *)
Definition table_value (d : GENERATE_DATA) : Value :=
  objectValue
    (match columnKey_ d with [] => [] | l => [("column", arrayValue (map text_value l))] end ++
     [("name", stringValue (tableName_ d))] ++
     match columnVal_ d with [] => [] | l => [("values", arrayValue (map text_value l))] end).

(** A batch without tables is a null. *)
Definition batch_value (h : HEAD_GENERATE_DATA) : Value :=
  match headBody h with [] => nullValue | l => objectValue [("tables", arrayValue (map table_value l))] end.

Definition batch_head (m_storehouse_id : string) (h : HEAD_GENERATE_DATA) : string :=
  headID_ h +:+ "," +:+ pretty (headNumber_ h) +:+ "," +:+ pretty (headOrder_ h) +:+ "," +:+ m_storehouse_id.

Lemma append_strings_more name m a l : ascending m.*1 →
  append_strings name l (objectValue (set_member name (arrayValue a) m)) =
  inr (objectValue (set_member name (arrayValue (a ++ map text_value l)) m)).
Proof.
  intros Hm. revert a. induction l as [|x l IH]; intros a; cbn [append_strings map]; [by rewrite app_nil_r|].
  cbn [at_key]. rewrite member_set_member, decide_True by done. cbn. rewrite set_member_twice, IH.
  by rewrite <- app_assoc.
Qed.

Lemma append_strings_new name m l : ascending m.*1 → member name m = None →
  append_strings name l (objectValue m) =
  inr (objectValue (match l with [] => m | _ => set_member name (arrayValue (map text_value l)) m end)).
Proof.
  intros Hm Hn. destruct l as [|x l]; [done|]. cbn [append_strings at_key]. rewrite Hn. cbn.
  by rewrite append_strings_more.
Qed.

Lemma table_of_value d : table_of d = inr (table_value d).
Proof.
  unfold table_of. cbn [assign mbind res_bind mret res_ret]. rewrite append_strings_new by done. cbn [mbind res_bind].
  rewrite append_strings_new; [|by destruct (columnKey_ d); cbn; repeat constructor|by destruct (columnKey_ d)].
  unfold table_value. by destruct (columnKey_ d), (columnVal_ d).
Qed.

Lemma table_rows_more h l :
  table_rows l (objectValue [("tables", arrayValue h)]) = inr (objectValue [("tables", arrayValue (h ++ map table_value l))]).
Proof.
  revert h. induction l as [|d l IH]; intros h; cbn [table_rows map]; [by rewrite app_nil_r|].
  rewrite table_of_value.
  transitivity (table_rows l (objectValue [("tables", arrayValue (h ++ [table_value d]))])); [done|].
  by rewrite IH, <- app_assoc.
Qed.

Lemma table_rows_batch h : table_rows (headBody h) nullValue = inr (batch_value h).
Proof.
  unfold batch_value. destruct (headBody h) as [|d l]; [done|]. cbn [table_rows]. rewrite table_of_value.
  transitivity (table_rows l (objectValue [("tables", arrayValue [table_value d])])); [done|].
  by rewrite table_rows_more.
Qed.

Lemma BuildSendData_text id h :
  BuildSendData id (Some h) = inr (batch_head id h +:+ writeValue (batch_value h)).
Proof.
  unfold BuildSendData. rewrite table_rows_batch. cbn [mbind res_bind]. unfold mret, res_ret. f_equal.
  set (t := batch_head id h +:+ writeValue (batch_value h)).
  assert (headID_ h +:+ "," +:+ pretty (headNumber_ h) +:+ "," +:+ pretty (headOrder_ h) +:+ "," +:+ id +:+
    write (batch_value h) = t +:+ String "010" EmptyString) as ->.
  { unfold t, batch_head, write. by rewrite !app_assoc_s. }
  rewrite length_app_s. cbn [len]. rewrite Nat.add_sub. apply substring_prefix.
Qed.

(** The values of a document of texts. *)
Definition texts_only (v : Value) : Prop :=
  match v with
  | nullValue | stringValue _ | arrayValue _ => True
  | objectValue m => ascending m.*1
  | _ => False
  end.

Lemma texts_reread read_double v : everywhere texts_only v →
  everywhere (representable read_double) v ∧ reread read_double v = v.
Proof.
  induction v as [|z|z|a b|s|b|l IH|m IH] using Value_ind'; intros H; try done; try by destruct H.
  - apply everywhere_array in H as [_ H]. rewrite everywhere_array. cbn [reread].
    assert (Forall (λ x, everywhere (representable read_double) x ∧ reread read_double x = x) l) as F by by apply (Forall_mp _ _ _ IH).
    apply Forall_and in F as [F1 F2]. split; [done|]. f_equal. by induction F2 as [|x l E _ IHl]; cbn; f_equal; [|apply IHl; decompose_Forall].
  - apply everywhere_object in H as [A H]. rewrite everywhere_object. cbn [reread].
    assert (Forall (λ x, everywhere (representable read_double) x.2 ∧ reread read_double x.2 = x.2) m) as F by by apply (Forall_mp _ _ _ IH).
    apply Forall_and in F as [F1 F2]. split; [done|]. f_equal. clear - F2. induction F2 as [|[k x] m E _ IHm]; cbn in *; [done|]. by rewrite E, IHm.
Qed.

Lemma texts_of_strings l : Forall (everywhere texts_only) (map text_value l).
Proof. induction l; constructor; [by split|done]. Qed.

Lemma table_value_texts d : everywhere texts_only (table_value d) ∧ (depth (table_value d) <= 3)%nat.
Proof.
  assert (∀ l, everywhere texts_only (arrayValue (map text_value l))) as A.
  { intros l. apply everywhere_array. split; [done|apply texts_of_strings]. }
  assert (∀ l, (depth (arrayValue (map text_value l)) <= 2)%nat) as D.
  { intros l. rewrite depth_array. apply le_n_S, depths_le. induction l; by constructor. }
  assert (everywhere texts_only (stringValue (tableName_ d))) by by split.
  assert (depth (stringValue (tableName_ d)) <= 2)%nat by (cbn; lia).
  unfold table_value. rewrite everywhere_object, depth_object. split; [split|apply le_n_S, depths_le].
  - destruct (columnKey_ d), (columnVal_ d); cbn; repeat split; by repeat constructor.
  - destruct (columnKey_ d), (columnVal_ d); repeat (apply Forall_cons_2; [cbn [snd]; first [done|apply A]|]); by apply Forall_nil_2.
  - destruct (columnKey_ d), (columnVal_ d); cbn [app fmap list_fmap snd];
      repeat (apply Forall_cons_2; [first [done|apply D]|]); by apply Forall_nil_2.
Qed.

Lemma batch_value_texts h : everywhere texts_only (batch_value h) ∧ (depth (batch_value h) <= 5)%nat.
Proof.
  unfold batch_value. destruct (headBody h) as [|d l]; [by split; [split|cbn; lia]|].
  rewrite everywhere_object, depth_object. split.
  - split; [cbn; by repeat constructor|]. constructor; [|done]. cbn [snd]. apply everywhere_array. split; [done|].
    apply List.Forall_map. apply Forall_forall. intros x _. apply table_value_texts.
  - apply le_n_S, depths_le. cbn [fmap list_fmap snd]. constructor; [|done]. rewrite depth_array.
    apply le_n_S, depths_le. apply List.Forall_map. apply Forall_forall. intros x _. apply table_value_texts.
Qed.

(** ** The rows of a document *)

Definition string_of (v : Value) : option string := match v with stringValue s => Some s | _ => None end.

Definition strings_of (v : option Value) : option (list string) :=
  match v with None => Some [] | Some (arrayValue l) => mapM string_of l | _ => None end.

Definition rows_of_table (v : Value) : option GENERATE_DATA :=
  match v with
  | objectValue m =>
      name ← member "name" m; name ← string_of name;
      keys ← strings_of (member "column" m); vals ← strings_of (member "values" m);
      Some (mk_data name keys vals)
  | _ => None
  end.

Definition rows_of_document (v : Value) : option (list GENERATE_DATA) :=
  match v with
  | nullValue => Some []
  | objectValue m => match member "tables" m with Some (arrayValue l) => mapM rows_of_table l | _ => None end
  | _ => None
  end.

(** The part of a table that is sent: its texts up to their first terminators. *)
Definition sent (d : GENERATE_DATA) : GENERATE_DATA :=
  mk_data (tableName_ d) (map c_str (columnKey_ d)) (map c_str (columnVal_ d)).

Lemma strings_of_texts l : mapM string_of (map text_value l) = Some (map c_str l).
Proof. induction l as [|x l IH]; [done|]. cbn. by rewrite IH. Qed.

(** The member of a list of texts that is left out when it is empty. *)
Lemma strings_of_member l :
  strings_of (match l with [] => None | _ => Some (arrayValue (map text_value l)) end) = Some (map c_str l).
Proof. destruct l; [done|apply strings_of_texts]. Qed.

Lemma rows_of_table_value d : rows_of_table (table_value d) = Some (sent d).
Proof.
  set (field := λ l, match l with [] => None | _ => Some (arrayValue (map text_value l)) end).
  transitivity (keys ← strings_of (field (columnKey_ d)); vals ← strings_of (field (columnVal_ d));
    Some (mk_data (tableName_ d) keys vals)).
  - unfold table_value. destruct (columnKey_ d), (columnVal_ d); reflexivity.
  - unfold field. by rewrite !strings_of_member.
Qed.

(** C23: the text of a batch is its identification, its number, its order and the
    warehouse with commas between them, then a document that the reader parses,
    whatever terminator follows, and of which the tables, their columns and their
    values are those of the batch, each text up to its first terminator. *)
Theorem export_text_reads_back read_double m_storehouse_id h spare :
  ends_number spare = true →
  ∃ json v, BuildSendData m_storehouse_id (Some h) = inr (batch_head m_storehouse_id h +:+ json) ∧
    parse read_double json spare = Got (Some v) ∧ rows_of_document v = Some (map sent (headBody h)).
Proof.
  intros Hs. destruct (batch_value_texts h) as [T D]. destruct (texts_reread read_double _ T) as [R E].
  exists (writeValue (batch_value h)), (batch_value h). split_and!; [apply BuildSendData_text| |].
  - unfold parse. rewrite write_parsed, E by done. unfold within, stackLimit_g.
    by rewrite (proj2 (Nat.leb_le _ _)) by lia.
  - unfold batch_value. destruct (headBody h) as [|d l]; [done|].
    transitivity (mapM rows_of_table (map table_value (d :: l))); [done|].
    generalize (d :: l) as k. induction k as [|x k IH]; [done|]. cbn [map mapM].
    by rewrite rows_of_table_value, IH.
Qed.

Definition witness_batch : HEAD_GENERATE_DATA :=
  mk_head "7" 2 0 [mk_data "stock" ["id"; "qty"] ["1"; quote]; mk_data "lot" [] ["x"]].

Lemma export_text_reads_back_witness :
  ∃ json v, BuildSendData "W1" (Some witness_batch) = inr ("7,2,0,W1" +:+ json) ∧
    parse witness_double json (String "000" "old") = Got (Some v) ∧
    rows_of_document v = Some [mk_data "stock" ["id"; "qty"] ["1"; quote]; mk_data "lot" [] ["x"]].
Proof. exact (export_text_reads_back witness_double "W1" witness_batch (String "000" "old") eq_refl). Defined.
