(* ===== verification/Config.v ===== *)
(** [syncshare/Config.cpp]: the reader of configuration files, and the documents it
    reads as they are meant.

    A file is a string; reading it with [fgets] gives its pieces one after the
    other, and a buffer holds what a [char*] shows of the piece. *)
From Stdlib Require Import Ascii.
From S2P Require Import Prelude JsonValue.

Definition SUCCESS : Z := 0.
Definition FILENAME_NOTEXIST : Z := 2.
Definition SECTIONNAME_NOTEXIST : Z := 3.
Definition KEYNAME_NOTEXIST : Z := 4.
Definition STRING_LENNOTEQUAL : Z := 5.
Definition STRING_NOTEQUAL : Z := 6.
Definition STRING_EQUAL : Z := 0.

Definition newline : ascii := "010".
Definition is_blank (c : ascii) : bool := Ascii.eqb c " " || Ascii.eqb c "009".
Definition is_eol (c : ascii) : bool := Ascii.eqb c "013" || Ascii.eqb c newline.

(** [fgets]: up to the end of the line or [size] characters, of which [room] are
    left; the list is what the calls give until the end of the file. *)
Fixpoint pieces (size room : nat) (file : string) : list string :=
  match file with
  | EmptyString => []
  | String c file =>
      if Ascii.eqb c newline || Nat.eqb room 1
      then String c EmptyString :: pieces size size file
      else match pieces size (room - 1) file with
           | [] => [String c EmptyString]
           | piece :: fp => String c piece :: fp
           end
  end.

Definition sizeof_szBuffer : nat := 150.
Definition fopen_fgets (file : string) : list string :=
  pieces (sizeof_szBuffer - 1) (sizeof_szBuffer - 1) file.

(** ** The loops over a buffer *)

Fixpoint skip_blanks (pStr : string) : string :=
  match pStr with
  | String c rest => if is_blank c then skip_blanks rest else pStr
  | EmptyString => EmptyString
  end.

(** Up to the character [d], and what follows it; [None] at the end. *)
Fixpoint split_at (d : ascii) (pStr : string) : option (string * string) :=
  match pStr with
  | EmptyString => None
  | String c rest =>
      if Ascii.eqb c d then Some (EmptyString, rest)
      else '(p, q) ← split_at d rest; Some (String c p, q)
  end.

(** The steps back over the characters [p] at the end of a string. *)
Fixpoint trim_right (p : ascii → bool) (s : string) : string :=
  match s with
  | EmptyString => EmptyString
  | String c s =>
      match trim_right p s with
      | EmptyString => if p c then EmptyString else String c EmptyString
      | t => String c t
      end
  end.

Fixpoint last_is (d : ascii) (s : string) : bool :=
  match s with
  | EmptyString => false
  | String c EmptyString => Ascii.eqb c d
  | String _ s => last_is d s
  end.

(** [d == *pStr], and a comment's two slashes. *)
Definition begins (d : ascii) (pStr : string) : bool :=
  match pStr with String c _ => Ascii.eqb c d | EmptyString => false end.

Definition starts_comment (pStr : string) : bool :=
  match pStr with String c rest => Ascii.eqb c "/" && begins "/" rest | EmptyString => false end.

(** The value: up to the end of the line or a comment. *)
Fixpoint value_end (pStr : string) : string :=
  match pStr with
  | EmptyString => EmptyString
  | String c rest =>
      if is_eol c || starts_comment pStr then EmptyString else String c (value_end rest)
  end.

Fixpoint compare_loop (pInStr1 pInStr2 : string) : Z :=
  match pInStr1, pInStr2 with
  | EmptyString, _ => STRING_EQUAL
  | String _ _, EmptyString => STRING_NOTEQUAL
  | String c1 s1, String c2 s2 => if Ascii.eqb c1 c2 then compare_loop s1 s2 else STRING_NOTEQUAL
  end.

Definition CompareString (pInStr1 pInStr2 : string) : Z :=
  if negb (Nat.eqb (String.length pInStr1) (String.length pInStr2)) then STRING_LENNOTEQUAL
  else compare_loop pInStr1 pInStr2.

(** ** [GetKeyValue] *)

(** A turn of its loop: it goes on, leaves the loop, or returns a value. *)
Inductive turn := Continue | Break | Value (v : string).

Definition blank_line (pStr : string) : bool :=
  match pStr with EmptyString => true | String c _ => is_eol c end.

Definition section_line (pStr : string) : bool :=
  begins "[" pStr && bool_decide (is_Some (split_at "]" pStr)).

Definition key_turn (pInKeyName szBuffer : string) : turn :=
  let pStr1 := skip_blanks szBuffer in
  if begins "#" pStr1 then Continue
  else if starts_comment pStr1 then Continue
  else if blank_line pStr1 then Continue
  else if section_line pStr1 then Break
  else match split_at "=" pStr1 with
       | None => Continue
       | Some (EmptyString, _) => Continue
       | Some (key, pStr3) =>
           if CompareString (trim_right is_blank key) pInKeyName =? 0
           then Value (value_end (skip_blanks pStr3)) else Continue
       end.

Fixpoint GetKeyValue (fpConfig : list string) (pInKeyName : string) : Z * option string :=
  match fpConfig with
  | [] => (KEYNAME_NOTEXIST, None)
  | piece :: fpConfig =>
      match key_turn pInKeyName (c_str piece) with
      | Continue => GetKeyValue fpConfig pInKeyName
      | Break => (KEYNAME_NOTEXIST, None)
      | Value v => (SUCCESS, Some v)
      end
  end.

(** ** [GetConfigStringValue] *)

(** The name in a line that opens a section.  The steps back over spaces in front of
    the bracket can lead behind the start of the name, when there is none: the
    terminator then stands in front of the name, which is the rest of the line. *)
Definition section_name (szBuffer : string) : option string :=
  match skip_blanks szBuffer with
  | String c rest =>
      if negb (Ascii.eqb c "[") then None else
      let pStr2 := skip_blanks rest in
      '(name, behind) ← split_at "]" pStr2;
      let blanks := String.substring 0 (String.length rest - String.length pStr2) rest in
      match name with
      | EmptyString => if last_is " " blanks then Some (String "]" behind) else Some EmptyString
      | _ => Some (trim_right (Ascii.eqb " ") name)
      end
  | EmptyString => None
  end.

Fixpoint section_loop (fpConfig : list string) (pInSectionName pInKeyName : string) : Z * option string :=
  match fpConfig with
  | [] => (SECTIONNAME_NOTEXIST, None)
  | piece :: fpConfig =>
      match section_name (c_str piece) with
      | Some pStr2 =>
          if CompareString pStr2 pInSectionName =? 0 then GetKeyValue fpConfig pInKeyName
          else section_loop fpConfig pInSectionName pInKeyName
      | None => section_loop fpConfig pInSectionName pInKeyName
      end
  end.

(** [file] is [None] when it cannot be opened; the value, when there is one, is what
    is written behind [pOutKeyValue]. *)
Definition GetConfigStringValue (file : option string) (pInSectionName pInKeyName : string)
    : Z * option string :=
  match file with
  | None => (FILENAME_NOTEXIST, None)
  | Some file => section_loop (fopen_fgets file) pInSectionName pInKeyName
  end.

(** ** [GetConfigIntValue] *)

(** The digits of [sscanf]: the value of one, and the number they make up to the
    first character that is none. *)
Definition digit_of (base : Z) (c : ascii) : option Z :=
  let z := ord c in
  let d := if (48 <=? z) && (z <=? 57) then z - 48
           else if (97 <=? z) && (z <=? 102) then z - 87
           else if (65 <=? z) && (z <=? 70) then z - 55 else base in
  if d <? base then Some d else None.

Fixpoint scan_digits (base acc : Z) (s : string) : Z :=
  match s with
  | EmptyString => acc
  | String c s =>
      match digit_of base c with Some d => scan_digits base (acc * base + d) s | None => acc end
  end.

(** The white space of [isspace]. *)
Fixpoint skip_space (s : string) : string :=
  match s with
  | String c rest => if ((9 <=? ord c) && (ord c <=? 13)) || (ord c =? 32) then skip_space rest else s
  | EmptyString => EmptyString
  end.

(** What is behind [0x], when the text begins with it. *)
Definition hex_prefix (s : string) : option string :=
  match s with
  | String c (String x rest) =>
      if Ascii.eqb c "0" && (Ascii.eqb x "x" || Ascii.eqb x "X") then Some rest else None
  | _ => None
  end.

(** [sscanf] with "%d" or "%x": [Some None] when there is no number, [None] when it
    is not one of an [int] or, in hexadecimal, of an [unsigned int]. *)
Definition sscanf (hex : bool) (s : string) : option (option Z) :=
  let s := skip_space s in
  let '(minus, s) :=
    match s with
    | String c rest =>
        if Ascii.eqb c "-" then (true, rest) else if Ascii.eqb c "+" then (false, rest) else (false, s)
    | EmptyString => (false, s)
    end in
  let s := if hex then default s (hex_prefix s) else s in
  let base := if hex then 16 else 10 in
  match s with
  | String c _ =>
      if decide (digit_of base c = None) then Some None else
      let n := scan_digits base 0 s in
      let z := if minus : bool then - n else n in
      if hex then if n <? 2 ^ 32 then Some (Some (s32 z)) else None
      else if (- 2 ^ 31 <=? z) && (z <? 2 ^ 31) then Some (Some z) else None
  | EmptyString => Some None
  end.

Definition sizeof_szKeyValue : nat := 16.

(** The code and what is written to [pOutKeyValue], if anything; [None] when the
    value and its terminator are written behind the end of [szKeyValue], or the
    number is out of range. *)
Definition GetConfigIntValue (file : option string) (pInSectionName pInKeyName : string)
    : option (Z * option Z) :=
  let '(iRetCode, value) := GetConfigStringValue file pInSectionName pInKeyName in
  let szKeyValue := default EmptyString value in
  if (sizeof_szKeyValue <=? String.length szKeyValue)%nat then None
  else if negb (iRetCode =? 0) then Some (iRetCode, None)
  else
    let pStr := skip_blanks szKeyValue in
    n ← (match hex_prefix pStr with Some rest => sscanf true rest | None => sscanf false pStr end);
    Some (SUCCESS, n).

(** ** Documents

    A configuration as it is meant: lines that belong to no section, and sections of
    lines.  [Pair] has the blanks around its parts and what follows the value. *)
Inductive line :=
  | Blank (blanks : string)
  | Comment (blanks : string) (slashes : bool) (text : string)
  | Pair (blanks key pad1 pad2 value rest : string).

Record section := mk_section {
  sec_blanks : string;
  sec_pad : string;
  sec_name : string;
  sec_spaces : string;
  sec_rest : string;
  sec_lines : list line;
}.

Record config := mk_config { preamble : list line; sections : list section }.

Definition line_text (l : line) : string :=
  match l with
  | Blank b => b
  | Comment b slashes t => b +:+ (if slashes then "//" else "#") +:+ t
  | Pair b k p1 p2 v r => b +:+ k +:+ p1 +:+ "=" +:+ p2 +:+ v +:+ r
  end.

Definition section_text (s : section) : string :=
  sec_blanks s +:+ "[" +:+ sec_pad s +:+ sec_name s +:+ sec_spaces s +:+ "]" +:+ sec_rest s.

Definition section_texts (s : section) : list string := section_text s :: map line_text (sec_lines s).

Definition config_texts (d : config) : list string :=
  map line_text (preamble d) ++ concat (map section_texts (sections d)).

(** Lines end in a newline, or in a carriage return and one. *)
Definition line_end (crlf : bool) : string :=
  if crlf then String "013" (String newline EmptyString) else String newline EmptyString.

Fixpoint file_of (crlf : bool) (lines : list string) : string :=
  match lines with
  | [] => EmptyString
  | l :: lines => l +:+ line_end crlf +:+ file_of crlf lines
  end.

Fixpoint all_chars (p : ascii → bool) (s : string) : bool :=
  match s with EmptyString => true | String c s => p c && all_chars p s end.

Fixpoint no_comment (s : string) : bool :=
  match s with EmptyString => true | String c r => negb (starts_comment s) && no_comment r end.

(** Neither empty nor beginning with a blank. *)
Definition starts_word (s : string) : bool :=
  match s with EmptyString => false | String c _ => negb (is_blank c) end.
Definition no_space_end (p : ascii → bool) (s : string) : bool := String.eqb (trim_right p s) s.

(** The first pair of a key, in the first section of a name. *)
Fixpoint find_key (lines : list line) (key : string) : Z * option string :=
  match lines with
  | [] => (KEYNAME_NOTEXIST, None)
  | Pair _ k _ _ v _ :: lines => if String.eqb k key then (SUCCESS, Some v) else find_key lines key
  | _ :: lines => find_key lines key
  end.

Fixpoint find_section (l : list section) (name key : string) : Z * option string :=
  match l with
  | [] => (SECTIONNAME_NOTEXIST, None)
  | s :: l => if String.eqb (sec_name s) name then find_key (sec_lines s) key else find_section l name key
  end.

Definition key_start (s : string) : bool :=
  starts_word s && negb (starts_comment s) && negb (begins "#" s) && negb (begins "[" s).

Definition line_ok (l : line) : bool :=
  match l with
  | Blank b => all_chars is_blank b
  | Comment b _ _ => all_chars is_blank b
  | Pair b k p1 p2 v r =>
      all_chars is_blank b && all_chars is_blank p1 && all_chars is_blank p2
      && key_start k && no_space_end is_blank k && all_chars (λ c, negb (Ascii.eqb c "=")) k
      && negb (match v with String c _ => is_blank c | _ => false end) && no_comment v
      && (String.eqb r EmptyString || starts_comment r && negb (last_is "/" v))
  end.

Definition section_ok (s : section) : bool :=
  all_chars is_blank (sec_blanks s) && all_chars is_blank (sec_pad s)
  && starts_word (sec_name s) && no_space_end (Ascii.eqb " ") (sec_name s)
  && all_chars (λ c, negb (Ascii.eqb c "]")) (sec_name s) && all_chars (Ascii.eqb " ") (sec_spaces s)
  && forallb line_ok (sec_lines s).

(** A line is a piece of the file: no line ends or terminators in it, and short enough. *)
Definition text_ok (crlf : bool) (t : string) : bool :=
  all_chars (λ c, negb (is_eol c || Ascii.eqb c Ascii.zero)) t
  && (String.length t + String.length (line_end crlf) <? sizeof_szBuffer)%nat.

Definition config_ok (crlf : bool) (d : config) : bool :=
  forallb line_ok (preamble d) && forallb section_ok (sections d)
  && forallb (text_ok crlf) (config_texts d).

(** ** Lemmas *)

Lemma chars_app p a b : all_chars p (a +:+ b) = all_chars p a && all_chars p b.
Proof.
  induction a as [|c a IH]; [done|]. change (String c a +:+ b) with (String c (a +:+ b)).
  cbn [all_chars]. by rewrite IH, andb_assoc.
Qed.

Lemma chars_impl (p q : ascii → bool) s : (∀ c, p c = true → q c = true) → all_chars p s = true → all_chars q s = true.
Proof.
  intros H. induction s as [|c s IH]; [done|]. cbn [all_chars].
  rewrite !andb_true_iff. intros [Hc Hs]. auto.
Qed.

Lemma skip_blanks_app b s : all_chars is_blank b = true → skip_blanks (b +:+ s) = skip_blanks s.
Proof.
  induction b as [|c b IH]; [done|]. change (String c b +:+ s) with (String c (b +:+ s)).
  cbn [all_chars skip_blanks]. rewrite andb_true_iff. intros [-> H]. auto.
Qed.

Lemma skip_blanks_word s r : starts_word s = true → skip_blanks (s +:+ r) = s +:+ r.
Proof.
  destruct s as [|c s]; [done|]. change (String c s +:+ r) with (String c (s +:+ r)).
  cbn [starts_word skip_blanks]. by destruct (is_blank c).
Qed.

Lemma split_at_app d s r :
  all_chars (λ c, negb (Ascii.eqb c d)) s = true → split_at d (s +:+ String d r) = Some (s, r).
Proof.
  induction s as [|c s IH].
  { intros _. change (EmptyString +:+ String d r) with (String d r). cbn [split_at].
    by rewrite Ascii.eqb_refl. }
  change (String c s +:+ String d r) with (String c (s +:+ String d r)).
  cbn [all_chars split_at]. rewrite andb_true_iff, negb_true_iff. intros [-> H]. by rewrite IH.
Qed.

Lemma trim_right_app (p : ascii → bool) s b :
  all_chars p b = true → trim_right p s = s → trim_right p (s +:+ b) = s.
Proof.
  intros Hb. induction s as [|c s IH]; intros Hs.
  - change (EmptyString +:+ b) with b. clear Hs. induction b as [|c b IH]; [done|].
    cbn [all_chars] in Hb. apply andb_true_iff in Hb as [Hc Hb]. cbn [trim_right]. by rewrite IH, Hc.
  - change (String c s +:+ b) with (String c (s +:+ b)). cbn [trim_right] in Hs |- *.
    destruct (trim_right p s) as [|x t] eqn:E.
    + destruct (p c) eqn:Ec; [done|]. injection Hs as <-. by rewrite IH.
    + assert (String x t = s) as <- by congruence. rewrite IH by done. done.
Qed.

Lemma compare_string a b : (CompareString a b =? 0) = String.eqb a b.
Proof.
  unfold CompareString. destruct (Nat.eqb_spec (String.length a) (String.length b)) as [E|E]; cbn [negb].
  - revert b E. induction a as [|c a IH]; intros [|c' b] E; try done. cbn [compare_loop String.eqb].
    destruct (Ascii.eqb c c'); [|done]. apply IH. cbn in E. lia.
  - destruct (String.eqb_spec a b); [congruence|done].
Qed.

Lemma pieces_line size room t rest :
  all_chars (λ c, negb (Ascii.eqb c newline)) t = true → (String.length t < room)%nat →
  pieces size room (t +:+ String newline rest) = (t +:+ String newline EmptyString) :: pieces size size rest.
Proof.
  revert room. induction t as [|c t IH]; intros room Ht Hl.
  - done.
  - change (String c t +:+ String newline rest) with (String c (t +:+ String newline rest)).
    cbn [all_chars String.length pieces] in *. apply andb_true_iff in Ht as [Hc Ht].
    apply negb_true_iff in Hc. rewrite Hc. destruct (Nat.eqb_spec room 1); [lia|]. cbn [orb].
    rewrite IH by (done || lia). done.
Qed.

(** What the reader looks at in a line of a file, and what it does with it. *)
Section Lines.
Context (crlf : bool).
Local Abbreviation ending := (line_end crlf).

Lemma text_ok_inv t : text_ok crlf t = true →
  all_chars (λ c, negb (is_eol c || Ascii.eqb c Ascii.zero)) t = true
  ∧ (String.length t + String.length ending < sizeof_szBuffer)%nat.
Proof. unfold text_ok. rewrite andb_true_iff, Nat.ltb_lt. done. Qed.

Lemma pieces_file l lines : text_ok crlf l = true →
  fopen_fgets (file_of crlf (l :: lines)) = (l +:+ ending) :: fopen_fgets (file_of crlf lines).
Proof.
  intros (Hc & Hl)%text_ok_inv. unfold fopen_fgets. cbn [file_of]. rewrite <- app_assoc_s.
  assert (all_chars (λ c, negb (Ascii.eqb c newline)) l = true) as Hn.
  { revert Hc. apply chars_impl. intros c. unfold is_eol. rewrite !negb_orb, !andb_true_iff. tauto. }
  unfold sizeof_szBuffer in *. destruct crlf; cbn [line_end String.length] in *.
  - rewrite (app_assoc_s l). change (String "013" (String newline EmptyString) +:+ ?r)
      with (String "013" EmptyString +:+ String newline r).
    rewrite <- !app_assoc_s, pieces_line; [by rewrite app_assoc_s| |].
    + by rewrite chars_app, Hn.
    + rewrite length_app_s. cbn [String.length]. lia.
  - rewrite (app_assoc_s l). change (String newline EmptyString +:+ ?r) with (String newline r).
    rewrite pieces_line by (done || lia). done.
Qed.

Lemma c_str_line t : text_ok crlf t = true → c_str (t +:+ ending) = t +:+ ending.
Proof.
  intros (Hc & _)%text_ok_inv. rewrite c_str_app; [by destruct crlf|].
  induction t as [|c t IH]; [done|]. cbn [all_chars c_str] in *. apply andb_true_iff in Hc as [Hc Ht].
  apply negb_true_iff, orb_false_iff in Hc as [_ ->]. by rewrite IH.
Qed.

Lemma skip_blanks_ending : skip_blanks ending = ending.
Proof. by destruct crlf. Qed.

Lemma value_end_tail t : value_end (ending +:+ t) = EmptyString.
Proof. by destruct crlf. Qed.

Lemma value_end_app v r :
  all_chars (λ c, negb (is_eol c || Ascii.eqb c Ascii.zero)) v = true → no_comment v = true →
  String.eqb r EmptyString || starts_comment r && negb (last_is "/" v) = true →
  value_end (v +:+ r +:+ ending) = v.
Proof.
  intros Hc Hn Hr. induction v as [|c v IH].
  - change (EmptyString +:+ ?x) with x. apply orb_true_iff in Hr as [->%String.eqb_eq|Hr].
    + by destruct crlf.
    + apply andb_true_iff in Hr as [Hr _]. destruct r as [|c [|c' r]]; [done..| |].
      * by destruct (Ascii.eqb c "/") eqn:E; cbn in Hr; rewrite ?E in Hr.
      * cbn in Hr. change (String c (String c' r) +:+ ?x) with (String c (String c' (r +:+ x))).
        cbn [value_end starts_comment begins]. by rewrite Hr, orb_true_r.
  - change (String c v +:+ ?x) with (String c (v +:+ x)). cbn [all_chars no_comment value_end] in *.
    apply andb_true_iff in Hc as [Hc1 Hc]. apply andb_true_iff in Hn as [Hn1 Hn].
    apply negb_true_iff, orb_false_iff in Hc1 as [-> _]. cbn [orb].
    assert (starts_comment (String c (v +:+ r +:+ ending)) = false) as ->.
    { cbn [starts_comment]. destruct v as [|c' v]; [|by apply negb_true_iff in Hn1].
      change (EmptyString +:+ ?x) with x. apply orb_true_iff in Hr as [->%String.eqb_eq|Hr].
      - destruct crlf; apply andb_false_r.
      - cbn [last_is] in Hr. by apply andb_true_iff in Hr as [_ ->%negb_true_iff]. }
    rewrite IH; [done..|]. apply orb_true_iff in Hr as [->|Hr]; [done|].
    apply andb_true_iff in Hr as [-> Hr]. destruct v; [by rewrite orb_true_r|].
    cbn [last_is] in Hr |- *. by rewrite Hr, orb_true_r.
Qed.

(** The first characters decide whether a line is looked at for a key. *)
Lemma begins_app d a b : starts_word a = true → begins d (a +:+ b) = begins d a.
Proof. by destruct a. Qed.

Lemma key_start_app k r : key_start k = true → begins "/" r = false →
  starts_comment (k +:+ r) = false ∧ begins "#" (k +:+ r) = false ∧ begins "[" (k +:+ r) = false.
Proof.
  unfold key_start. rewrite !andb_true_iff, !negb_true_iff. intros [[[Hw Hc] Hh] Hb] Hr.
  rewrite !begins_app by done. split; [|done]. destruct k as [|c [|c' k]]; [done| |done].
  change (String c EmptyString +:+ r) with (String c r). cbn [starts_comment]. by rewrite Hr, andb_false_r.
Qed.

Lemma blanks_eq p : all_chars is_blank p = true → all_chars (λ c, negb (Ascii.eqb c "=")) p = true.
Proof.
  apply chars_impl. intros c. unfold is_blank.
  destruct (Ascii.eqb_spec c " ") as [->|]; [done|]. by destruct (Ascii.eqb_spec c "009") as [->|].
Qed.

Lemma blanks_begin p r : all_chars is_blank p = true → begins "/" r = false → begins "/" (p +:+ r) = false.
Proof.
  destruct p as [|c p]; [done|]. cbn [all_chars]. rewrite andb_true_iff. intros [Hc _] _.
  change (Ascii.eqb c "/" = false). unfold is_blank in Hc.
  by destruct (Ascii.eqb_spec c "/") as [->|].
Qed.

Lemma skip_value v r :
  negb (match v with String c _ => is_blank c | _ => false end) = true →
  String.eqb r EmptyString || starts_comment r && negb (last_is "/" v) = true →
  skip_blanks (v +:+ r +:+ ending) = v +:+ r +:+ ending.
Proof.
  intros Hv Hr. destruct v as [|c v].
  - change (EmptyString +:+ ?x) with x. apply orb_true_iff in Hr as [->%String.eqb_eq|Hr].
    + apply skip_blanks_ending.
    + destruct r as [|c r]; [done|]. change (String c r +:+ ?x) with (String c (r +:+ x)).
      cbn [starts_comment] in Hr. rewrite !andb_true_iff in Hr. destruct Hr as [[->%Ascii.eqb_eq _] _]. done.
  - apply negb_true_iff in Hv. change (String c v +:+ ?x) with (String c (v +:+ x)). cbn [skip_blanks].
    by rewrite Hv.
Qed.

Lemma key_turn_pair key b k p1 p2 v r :
  line_ok (Pair b k p1 p2 v r) = true → text_ok crlf (line_text (Pair b k p1 p2 v r)) = true →
  key_turn key (line_text (Pair b k p1 p2 v r) +:+ ending)
  = if String.eqb k key then Value v else Continue.
Proof.
  cbn [line_ok line_text]. rewrite !andb_true_iff.
  intros [[[[[[[[Hb Hp1] Hp2] Hk] Ht] He] Hv] Hn] Hr] (Hc & _)%text_ok_inv.
  rewrite !chars_app, !andb_true_iff in Hc. destruct Hc as (_ & Hck & _ & _ & _ & Hcv & _).
  unfold key_turn. rewrite !app_assoc_s, skip_blanks_app by done.
  set (tail := "=" +:+ p2 +:+ v +:+ r +:+ ending).
  assert (starts_word k = true) as Hw. { unfold key_start in Hk. rewrite !andb_true_iff in Hk. tauto. }
  rewrite skip_blanks_word by done.
  destruct (key_start_app k (p1 +:+ tail) Hk) as (E1 & E2 & E3); [by apply blanks_begin|].
  unfold section_line. rewrite E1, E2, E3. cbn [andb].
  assert (blank_line (k +:+ p1 +:+ tail) = false) as ->.
  { destruct k as [|c k]; [done|]. cbn [all_chars] in Hck. apply andb_true_iff in Hck as [Hck _].
    by apply negb_true_iff, orb_false_iff in Hck as [Hck _]. }
  rewrite <- app_assoc_s. change tail with (String "=" (p2 +:+ v +:+ r +:+ ending)).
  rewrite split_at_app by (rewrite chars_app, He, blanks_eq; done).
  assert (∃ c x, k +:+ p1 = String c x) as (c & x & E) by (destruct k; [done|by eexists _, _]).
  rewrite E, <- E, trim_right_app by (done || by apply String.eqb_eq).
  by rewrite compare_string, skip_blanks_app, skip_value, value_end_app.
Qed.

Lemma key_turn_line key l :
  line_ok l = true → text_ok crlf (line_text l) = true →
  key_turn key (line_text l +:+ ending)
  = match l with Pair _ k _ _ v _ => if String.eqb k key then Value v else Continue | _ => Continue end.
Proof.
  destruct l as [b|b [] t|b k p1 p2 v r]; [..|apply key_turn_pair]; cbn [line_ok line_text]; intros Hb _;
    unfold key_turn; rewrite ?app_assoc_s, skip_blanks_app by done; [|done..].
  by destruct crlf.
Qed.

Lemma section_name_line l :
  line_ok l = true → text_ok crlf (line_text l) = true → section_name (line_text l +:+ ending) = None.
Proof.
  intros Hl Ht. destruct l as [b|b [] t|b k p1 p2 v r]; cbn [line_ok line_text] in *.
  1-3: unfold section_name; rewrite ?app_assoc_s, skip_blanks_app by done; by destruct crlf.
  rewrite !andb_true_iff in Hl. destruct Hl as [[[[[[[[Hb _] _] Hk] _] _] _] _] _].
  unfold key_start in Hk. rewrite !andb_true_iff, !negb_true_iff in Hk. destruct Hk as [[[Hw _] _] H].
  unfold section_name. rewrite !app_assoc_s, skip_blanks_app, skip_blanks_word by done.
  destruct k as [|c k]; [done|]. cbn [begins] in H.
  change (String c k +:+ ?x) with (String c (k +:+ x)). cbv iota. by rewrite H.
Qed.

Lemma section_line_parts s : section_ok s = true →
  ∃ rest, skip_blanks (section_text s +:+ ending) = String "[" (sec_pad s +:+ sec_name s +:+ rest)
  ∧ split_at "]" (sec_name s +:+ rest) = Some (sec_name s +:+ sec_spaces s, sec_rest s +:+ ending).
Proof.
  unfold section_ok, section_text. rewrite !andb_true_iff.
  intros [[[[[[Hb Hp] Hw] He] Hn] Hs] _]. exists (sec_spaces s +:+ "]" +:+ sec_rest s +:+ ending).
  rewrite !app_assoc_s, skip_blanks_app by done. split; [done|].
  rewrite <- (app_assoc_s (sec_name s)).
  change ("]" +:+ ?x) with (String "]" x). apply split_at_app. rewrite chars_app, Hn.
  revert Hs. apply chars_impl. by intros c <-%Ascii.eqb_eq.
Qed.

Lemma section_name_section s : section_ok s = true →
  section_name (section_text s +:+ ending) = Some (sec_name s).
Proof.
  intros Hs. destruct (section_line_parts s Hs) as (rest & E1 & E2). unfold section_name.
  unfold section_ok in Hs. rewrite !andb_true_iff in Hs. destruct Hs as [[[[[[_ Hp] Hw] He] _] Hs] _].
  rewrite E1. change (negb (Ascii.eqb "[" "[")) with false. cbn [negb].
  rewrite (skip_blanks_app (sec_pad s)), skip_blanks_word by done. rewrite E2. cbn [mbind option_bind].
  assert (∃ c x, sec_name s +:+ sec_spaces s = String c x) as (c & x & E).
  { destruct (sec_name s); [done|by eexists _, _]. }
  by rewrite E, <- E, trim_right_app by (done || by apply String.eqb_eq).
Qed.

Lemma split_at_prefix d p s x y : split_at d s = Some (x, y) → ∃ q, split_at d (p +:+ s) = Some q.
Proof.
  intros E. induction p as [|c p [[q1 q2] IH]]; [by eexists|].
  change (String c p +:+ s) with (String c (p +:+ s)). cbn [split_at].
  destruct (Ascii.eqb c d); [by eexists|]. rewrite IH. by eexists.
Qed.

Lemma key_turn_section key s : section_ok s = true → key_turn key (section_text s +:+ ending) = Break.
Proof.
  intros Hs. destruct (section_line_parts s Hs) as (rest & E1 & E2). unfold key_turn. rewrite E1.
  destruct (split_at_prefix "]" (sec_pad s) _ _ _ E2) as (q & E).
  cbn. unfold section_line. rewrite bool_decide_eq_true_2; [done|].
  cbn. rewrite E. destruct q. by eexists.
Qed.
End Lines.

(** The loops over the lines of a document. *)
Lemma key_loop_found crlf key ls t : forallb line_ok ls = true →
  forallb (text_ok crlf) (map line_text ls ++ t) = true →
  (∀ x, GetKeyValue (fopen_fgets (file_of crlf t)) key = x → x = (KEYNAME_NOTEXIST, None)) →
  GetKeyValue (fopen_fgets (file_of crlf (map line_text ls ++ t))) key = find_key ls key.
Proof.
  intros Hl Ht Hend. induction ls as [|l ls IH]; [by apply Hend|].
  cbn [map app forallb] in *. apply andb_true_iff in Hl as [Hl Hls]. apply andb_true_iff in Ht as [Htl Ht].
  rewrite pieces_file by done. cbn [GetKeyValue]. rewrite c_str_line, key_turn_line by done.
  destruct l as [| |b k p1 p2 v r]; cbn [find_key]; [by apply IH..|].
  destruct (String.eqb k key); [done|by apply IH].
Qed.

Lemma skip_lines crlf name key ls t : forallb line_ok ls = true →
  forallb (text_ok crlf) (map line_text ls ++ t) = true →
  section_loop (fopen_fgets (file_of crlf (map line_text ls ++ t))) name key
  = section_loop (fopen_fgets (file_of crlf t)) name key.
Proof.
  intros Hl Ht. induction ls as [|l ls IH]; [done|].
  cbn [map app forallb] in *. apply andb_true_iff in Hl as [Hl Hls]. apply andb_true_iff in Ht as [Htl Ht].
  rewrite pieces_file by done. cbn [section_loop]. by rewrite c_str_line, section_name_line, IH by done.
Qed.

Lemma section_ok_lines s : section_ok s = true → forallb line_ok (sec_lines s) = true.
Proof. unfold section_ok. rewrite !andb_true_iff. tauto. Qed.

Lemma section_found crlf ss name key : forallb section_ok ss = true →
  forallb (text_ok crlf) (concat (map section_texts ss)) = true →
  section_loop (fopen_fgets (file_of crlf (concat (map section_texts ss)))) name key = find_section ss name key.
Proof.
  intros Hs Ht. induction ss as [|s ss IH]; [done|].
  cbn [map concat section_texts app forallb] in *.
  apply andb_true_iff in Hs as [Hs Hss]. apply andb_true_iff in Ht as [Hts Ht].
  rewrite pieces_file by done. cbn [section_loop find_section].
  rewrite c_str_line, section_name_section, compare_string by done.
  pose proof (section_ok_lines s Hs). destruct (String.eqb (sec_name s) name).
  - apply key_loop_found; [done..|]. intros x <-. destruct ss as [|s' ss]; [done|].
    cbn [map concat section_texts app forallb] in *. rewrite forallb_app in Ht.
    apply andb_true_iff in Ht as [_ Ht]. apply andb_true_iff in Ht as [Ht _].
    apply andb_true_iff in Hss as [Hs' _]. rewrite pieces_file by done. cbn [GetKeyValue].
    by rewrite c_str_line, key_turn_section.
  - rewrite skip_lines by done. rewrite forallb_app in Ht. apply andb_true_iff in Ht as [_ Ht]. by apply IH.
Qed.

Lemma config_lookup crlf d name key : config_ok crlf d = true →
  GetConfigStringValue (Some (file_of crlf (config_texts d))) name key = find_section (sections d) name key.
Proof.
  unfold config_ok, config_texts. rewrite !andb_true_iff. intros [[Hp Hs] Ht]. cbn [GetConfigStringValue].
  rewrite skip_lines by done. rewrite forallb_app in Ht. apply andb_true_iff in Ht as [_ Ht].
  by apply section_found.
Qed.

(** The value is shorter than the line it stands in. *)
Lemma pieces_short size room file : (room ≤ size)%nat → (0 < room)%nat →
  match pieces size room file with
  | [] => True
  | p :: l => (String.length p ≤ room)%nat ∧ Forall (λ p, (String.length p ≤ size)%nat) l
  end.
Proof.
  revert room. induction file as [|c file IH]; intros room Hr H0; cbn [pieces]; [done|].
  destruct (Ascii.eqb c newline || Nat.eqb room 1) eqn:E.
  - specialize (IH size). cbn [String.length]. split; [lia|].
    destruct (pieces size size file); [done|]. constructor; apply IH; lia.
  - apply orb_false_iff in E as [_ E%Nat.eqb_neq]. specialize (IH (room - 1)%nat ltac:(lia) ltac:(lia)).
    destruct (pieces size (room - 1) file); cbn [String.length]; [split; [lia|done]|].
    split; [lia|]. apply IH.
Qed.

Lemma fgets_short file : Forall (λ p, (String.length p < sizeof_szBuffer)%nat) (fopen_fgets file).
Proof.
  unfold fopen_fgets. pose proof (pieces_short 149 149 file) as H.
  change (sizeof_szBuffer - 1)%nat with 149%nat. destruct (pieces 149 149 file) as [|p l]; [done|].
  destruct H as [H1 H2]; [lia..|]. unfold sizeof_szBuffer. constructor; [lia|].
  eapply Forall_impl; [exact H2|]. cbn. lia.
Qed.

Lemma c_str_short s : (String.length (c_str s) ≤ String.length s)%nat.
Proof. induction s as [|c s IH]; cbn; [lia|]. destruct (Ascii.eqb c Ascii.zero); cbn; lia. Qed.

Lemma skip_blanks_short s : (String.length (skip_blanks s) ≤ String.length s)%nat.
Proof. induction s as [|c s IH]; cbn; [lia|]. destruct (is_blank c); cbn; lia. Qed.

Lemma value_end_short s : (String.length (value_end s) ≤ String.length s)%nat.
Proof. induction s as [|c s IH]; cbn -[starts_comment]; [lia|]. case_match; cbn; lia. Qed.

Lemma split_at_short d s p q : split_at d s = Some (p, q) →
  (String.length p + 1 + String.length q = String.length s)%nat.
Proof.
  revert p q. induction s as [|c s IH]; intros p q; cbn [split_at]; [done|].
  destruct (Ascii.eqb c d); [by intros [= <- <-]|].
  destruct (split_at d s) as [[p' q']|] eqn:E; cbn; [|done]. intros [= <- <-]. cbn.
  specialize (IH _ _ eq_refl). lia.
Qed.

Lemma key_turn_short key s v : key_turn key s = Value v → (String.length v + 2 ≤ String.length s)%nat.
Proof.
  unfold key_turn. pose proof (skip_blanks_short s). repeat (case_match; try done). intros [= <-].
  match goal with H : split_at _ _ = Some (_, ?q) |- _ =>
    apply split_at_short in H; cbn in H; pose proof (value_end_short (skip_blanks q));
    pose proof (skip_blanks_short q); lia end.
Qed.

Lemma key_value_short fp key rv v : Forall (λ p, (String.length p < sizeof_szBuffer)%nat) fp →
  GetKeyValue fp key = (rv, Some v) → rv = SUCCESS ∧ (String.length v ≤ 147)%nat.
Proof.
  induction 1 as [|p fp Hp _ IH]; cbn [GetKeyValue]; [done|]. destruct (key_turn key (c_str p)) eqn:E; [done..|].
  intros [= <- <-]. split; [done|]. apply key_turn_short in E. pose proof (c_str_short p).
  unfold sizeof_szBuffer in *. lia.
Qed.

Lemma string_value_cases file name key :
  (∃ v, GetConfigStringValue file name key = (SUCCESS, Some v) ∧ (String.length v ≤ 147)%nat) ∨
  (∃ code, GetConfigStringValue file name key = (code, None) ∧
     code ∈ [FILENAME_NOTEXIST; SECTIONNAME_NOTEXIST; KEYNAME_NOTEXIST]).
Proof.
  destruct file as [file|]; [|right; eexists; split; [done|set_solver]]. cbn [GetConfigStringValue].
  generalize (fgets_short file). induction 1 as [|p fp Hp Hf IH]; cbn [section_loop].
  { right. eexists. split; [done|set_solver]. }
  destruct (section_name (c_str p)); [|done]. destruct (_ =? 0); [|done].
  destruct (GetKeyValue fp key) as [rv [v|]] eqn:E.
  - left. destruct (key_value_short _ _ _ _ Hf E) as [-> ?]. by eexists.
  - right. exists rv. split; [done|]. clear -E. induction fp as [|p fp IH]; cbn [GetKeyValue] in E.
    + injection E as <-. set_solver.
    + destruct (key_turn key (c_str p)); [by apply IH|injection E as <-; set_solver|done].
Qed.

(** ** Numbers *)

Lemma digit_of_digit c : is_digit c = true → digit_of 10 c = Some (ord c - 48).
Proof.
  unfold is_digit, digit_of. intros H. rewrite H. cbv zeta. rewrite andb_true_iff, !Z.leb_le in H.
  destruct (Z.ltb_spec (ord c - 48) 10); [done|lia].
Qed.

Lemma scan_decimal a s : all_digits s = true → scan_digits 10 a s = digits_value a s.
Proof.
  revert a. induction s as [|c s IH]; intros a; [done|]. cbn [all_digits scan_digits digits_value].
  intros [Hc Hs]%andb_true_iff. rewrite digit_of_digit by done. by apply IH.
Qed.

Lemma uint_loop_length n m v cur : 0 <= v < 10 ^ Z.of_nat m → (0 < m)%nat →
  (String.length (uint_loop n v cur) ≤ m + String.length cur)%nat.
Proof.
  revert m v cur. induction n as [|n IH]; intros m v cur Hv Hm; cbn [uint_loop]; [lia|].
  destruct (Z.eqb_spec (v / 10) 0) as [E|E]; [cbn [String.length]; lia|].
  destruct m as [|[|m]]; [lia|change (10 ^ Z.of_nat 1) with 10 in Hv; zdm|].
  rewrite (Nat2Z.inj_succ (S m)), Z.pow_succ_r in Hv by lia.
  specialize (IH (S m) (v / 10) (String (chr (v mod 10 + 48)) cur)). cbn [String.length] in IH.
  etransitivity; [apply IH; [zdm|lia]|lia].
Qed.

(** A digit is neither a blank nor a sign, and "x" is none. *)
Lemma digit_plain c : is_digit c = true →
  is_blank c = false ∧ (9 <=? ord c) && (ord c <=? 13) || (ord c =? 32) = false ∧
  Ascii.eqb c "-" = false ∧ Ascii.eqb c "+" = false ∧ (Ascii.eqb c "x" || Ascii.eqb c "X") = false.
Proof.
  destruct c as [[] [] [] [] [] [] [] []]; intros H; first [discriminate H|by split_and!].
Qed.

Lemma hex_prefix_digits t : all_digits t = true → hex_prefix t = None.
Proof.
  destruct t as [|c [|x t]]; [done..|]. cbn [all_digits hex_prefix]. rewrite !andb_true_iff.
  intros (_ & Hx & _). destruct (digit_plain x Hx) as (_ & _ & _ & _ & ->). by rewrite andb_false_r.
Qed.

Lemma sscanf_digits t (n := digits_value 0 t) :
  t ≠ EmptyString → all_digits t = true →
  (n < 2 ^ 31 → skip_blanks t = t ∧ sscanf false t = Some (Some n)) ∧
  (n <= 2 ^ 31 → sscanf false (String "-" t) = Some (Some (- n))).
Proof.
  intros Ht Hd. assert (0 <= n) by (by apply digits_value_le).
  unfold n in *. rewrite <- scan_decimal in * by done.
  destruct t as [|c t]; [done|]. pose proof Hd as Hd'. cbn [all_digits] in Hd.
  apply andb_true_iff in Hd as [Hc _].
  destruct (digit_plain c Hc) as (E1 & E2 & E3 & E4 & _). unfold sscanf. split; intros Hn.
  - split; [by cbn [skip_blanks]; rewrite E1|]. cbn [skip_space]. rewrite E2, E3, E4. cbv iota beta.
    rewrite decide_False by (by rewrite digit_of_digit).
    rewrite (proj2 (Z.leb_le _ _)), (proj2 (Z.ltb_lt _ _)) by lia. done.
  - change (skip_space (String "-" (String c t))) with (String "-" (String c t)).
    cbn [Ascii.eqb Bool.eqb]. cbv iota beta.
    rewrite decide_False by (by rewrite digit_of_digit).
    rewrite (proj2 (Z.leb_le _ _)), (proj2 (Z.ltb_lt _ _)) by lia. done.
Qed.

Lemma int_text z : - 2 ^ 31 <= z < 2 ^ 31 →
  (String.length (valueToString z) < sizeof_szKeyValue)%nat ∧ hex_prefix (skip_blanks (valueToString z)) = None ∧
  sscanf false (skip_blanks (valueToString z)) = Some (Some z).
Proof.
  intros Hz. unfold valueToString, sizeof_szKeyValue, minLargestInt.
  destruct (Z.eqb_spec z (- 2 ^ 63)); [lia|].
  assert (L : ∀ v, 0 <= v <= 2 ^ 31 → (String.length (uintToString v) ≤ 10)%nat).
  { intros v Hv. pose proof (uint_loop_length 20 10 v EmptyString) as L. cbn [String.length] in L.
    unfold uintToString. etransitivity; [apply L|lia]; [change (10 ^ Z.of_nat 10) with 10000000000; lia|lia]. }
  destruct (Z.ltb_spec z 0).
  - destruct (uintToString_spec (- z) ltac:(lia)) as (N & D & E).
    destruct (sscanf_digits _ N D) as [_ S]. rewrite E, Z.opp_involutive in S.
    cbn [String.length skip_blanks]. change (is_blank "-") with false. cbv iota.
    specialize (L (- z) ltac:(lia)). split_and!; [lia| |apply S; lia].
    destruct (uintToString (- z)); done.
  - destruct (uintToString_spec z ltac:(lia)) as (N & D & E).
    destruct (sscanf_digits _ N D) as [S _]. rewrite E in S. destruct S as [-> S]; [lia|].
    specialize (L z ltac:(lia)). split_and!; [lia|by apply hex_prefix_digits|done].
Qed.

(** C30: looking up a name and a key in the text of a configuration gives the value of
    the first pair with that key in the first section with that name, or the code
    that says which of the two is missing; comments, blank lines, the blanks around
    names, keys and values and the kind of line end do not matter.  In any file
    there is a value with the code for success, of 147 characters at most, or no
    value and the code of an error.  [GetConfigIntValue] has the number of the
    value when the value is the numeral of an [int], and the code when there is no
    value; a value of 16 characters or more it writes behind the end of its
    buffer. *)
Theorem configuration_read :
  (∀ crlf d name key, config_ok crlf d = true →
     GetConfigStringValue (Some (file_of crlf (config_texts d))) name key = find_section (sections d) name key)
  ∧ (∀ file name key,
     (∃ v, GetConfigStringValue file name key = (SUCCESS, Some v) ∧ (String.length v ≤ 147)%nat) ∨
     (∃ code, GetConfigStringValue file name key = (code, None) ∧
        code ∈ [FILENAME_NOTEXIST; SECTIONNAME_NOTEXIST; KEYNAME_NOTEXIST] ∧
        GetConfigIntValue file name key = Some (code, None)))
  ∧ (∀ file name key v, GetConfigStringValue file name key = (SUCCESS, Some v) →
     (∀ z, - 2 ^ 31 <= z < 2 ^ 31 → v = valueToString z →
        GetConfigIntValue file name key = Some (SUCCESS, Some z)) ∧
     ((sizeof_szKeyValue ≤ String.length v)%nat → GetConfigIntValue file name key = None)).
Proof.
  split_and!; [exact config_lookup|..].
  - intros file name key. destruct (string_value_cases file name key) as [H|(code & E & Hc)]; [by left|right].
    exists code. split_and!; [done..|]. unfold GetConfigIntValue. rewrite E.
    repeat (apply elem_of_cons in Hc as [->|Hc]); [done..|]. by apply not_elem_of_nil in Hc.
  - intros file name key v E. unfold GetConfigIntValue. rewrite E. cbn [default]. split.
    + intros z Hz ->. destruct (int_text z Hz) as (L & H & S). cbv zeta. cbn [from_option id].
      rewrite H, S, (proj2 (Nat.leb_gt _ _)) by done. done.
    + intros L. by rewrite (proj2 (Nat.leb_le _ _)).
Qed.

(** The configuration of the queues in the repository, [DataSync/config/mq_config]. *)
Definition pair_line (key value : string) : line :=
  Pair EmptyString key EmptyString EmptyString value EmptyString.

Definition named_section (name : string) (lines : list line) : section :=
  mk_section EmptyString EmptyString name EmptyString EmptyString lines.

Definition mq_config : config := mk_config []
  [named_section "MQ_FINAL_TOPIC"
     [pair_line "name" "ERP_FINAL_TOPIC_PRO"; pair_line "producer" "PID_erp_final_producer";
      pair_line "consumer" "CID_erp_final_c_server_consumer"];
   named_section "MQ_EXCEPTION"
     [pair_line "name" "EXCEPTION_TOPIC_PRO"; pair_line "producer" "PID_exception_producer";
      pair_line "consumer" "CID_exception_c_server_consumer"]].

(** A section with numbers. *)
Definition number_config : config := mk_config []
  [named_section "port" [pair_line "listen" "9981"; pair_line "offset" "-20"; pair_line "mask" "0xFF";
     pair_line "none" "x"; pair_line "long" "0000000000009981"]].

Lemma configuration_read_witness :
  config_ok false mq_config = true
  ∧ GetConfigStringValue (Some (file_of false (config_texts mq_config))) "MQ_EXCEPTION" "producer"
    = (SUCCESS, Some "PID_exception_producer")
  ∧ GetConfigIntValue (Some (file_of true (config_texts number_config))) "port" "offset" = Some (SUCCESS, Some (-20))
  ∧ GetConfigIntValue (Some (file_of true (config_texts number_config))) "port" "long" = None.
Proof.
  split; [by vm_compute|]. split_and!.
  - rewrite (proj1 configuration_read false mq_config); by vm_compute.
  - apply (proj1 (proj2 (proj2 configuration_read) (Some (file_of true (config_texts number_config))) "port" "offset"
      "-20" ltac:(by vm_compute))); [lia|by vm_compute].
  - apply (proj2 (proj2 (proj2 configuration_read) (Some (file_of true (config_texts number_config))) "port" "long"
      "0000000000009981" ltac:(by vm_compute))). by apply Nat.leb_le.
Defined.

Example int_values :
  let value key := GetConfigIntValue (Some (file_of true (config_texts number_config))) "port" key in
  value "listen" = Some (SUCCESS, Some 9981) ∧ value "mask" = Some (SUCCESS, Some 255) ∧
  value "none" = Some (SUCCESS, None) ∧ value "missing" = Some (KEYNAME_NOTEXIST, None).
Proof. by vm_compute. Qed.

(** A document with everything in it. *)
Example configuration_with_blanks :
  let d := mk_config [Comment EmptyString true " settings"; Blank " "]
    [mk_section " " " " "A" "  " " # first"
       [Comment " " false "x = 0"; Pair " " "x" " " "  " "1 / 2 " "// a half"; pair_line "y" EmptyString]] in
  config_ok true d = true
  ∧ GetConfigStringValue (Some (file_of true (config_texts d))) "A" "x" = (SUCCESS, Some "1 / 2 ")
  ∧ GetConfigStringValue (Some (file_of true (config_texts d))) "A" "y" = (SUCCESS, Some EmptyString)
  ∧ GetConfigStringValue (Some (file_of true (config_texts d))) "A" "z" = (KEYNAME_NOTEXIST, None)
  ∧ GetConfigStringValue (Some (file_of true (config_texts d))) "B" "x" = (SECTIONNAME_NOTEXIST, None).
Proof. by vm_compute. Qed.
