(* ===== verification/MessageQueue.v ===== *)
(** The message queue service: [syncshare/AliMessageQueue.cpp], the listeners of
    [syncshare/MyMessageListener.cpp] and what the threads of
    [DataSync/CProcessMqData.cpp] do with a datum they take from their deque.

    The client library of the service is outside: a computation runs over the list
    of calls made to it so far, each with whether it threw, and a parameter decides
    that from the calls before and the call.  A producer or consumer is named by the
    number of the call that created it. *)
From S2P Require Import Prelude RowValue Config SharedQueue Messages SocketServer.

(** ** The data of [syncshare/defines.h] and [AliMessageQueue.h] *)

Inductive TOPIC_ENUM := erp_final_topic | exception_topic | queue_raw_topic.

Inductive QUEUE_INSTANCE :=
  | wms_producer
  | erp_producer
  | wms_consumer
  | erp_consumer
  | erp_final_consumer
  | exception_thread1_producer
  | exception_thread1_consumer.

#[export] Instance topic_eq_dec : EqDecision TOPIC_ENUM.
Proof. solve_decision. Defined.
#[export] Instance queue_instance_eq_dec : EqDecision QUEUE_INSTANCE.
Proof. solve_decision. Defined.

(** The keys of the maps are the values of the enumerators. *)
Definition topic_value (t : TOPIC_ENUM) : nat :=
  match t with erp_final_topic => 0 | exception_topic => 1 | queue_raw_topic => 2 end%nat.
Definition instance_value (q : QUEUE_INSTANCE) : nat :=
  match q with
  | wms_producer => 0 | erp_producer => 1 | wms_consumer => 2 | erp_consumer => 3
  | erp_final_consumer => 4 | exception_thread1_producer => 5 | exception_thread1_consumer => 6
  end%nat.

#[export] Instance topic_countable : Countable TOPIC_ENUM.
Proof.
  refine (inj_countable' topic_value
    (λ n, match n with 0 => erp_final_topic | 1 => exception_topic | _ => queue_raw_topic end%nat) _).
  by intros [].
Defined.
#[export] Instance queue_instance_countable : Countable QUEUE_INSTANCE.
Proof.
  refine (inj_countable' instance_value
    (λ n, match n with
          | 0 => wms_producer | 1 => erp_producer | 2 => wms_consumer | 3 => erp_consumer
          | 4 => erp_final_consumer | 5 => exception_thread1_producer | _ => exception_thread1_consumer
          end%nat) _).
  by intros [].
Defined.

Definition ONS_ACCESS_KEY : string := "0iUkPdUiWcgSsw26".
Definition ONS_SECRET_KEY : string := "85w2EneWAUHZsHVcQBUGztuKl2SA7E".
Definition ONS_WMS_TOPIC : string := "WMS_TOPIC".
Definition ONS_WMS_CONSUMER : string := "CID_wms_consumer".
Definition ONS_ERP_TOPIC : string := "ERP_TOPIC".
Definition ONS_ERP_CONSUMER : string := "CID_erp_consumer".

Record MQ_CONFIG := mk_MQ_CONFIG { name_ : string; producer_id_ : string; consumer_id_ : string }.
Definition new_MQ_CONFIG : MQ_CONFIG := mk_MQ_CONFIG EmptyString EmptyString EmptyString.

(** The properties the program sets in an [ONSFactoryProperty]. *)
Inductive property := AccessKey | SecretKey | PublishTopics | ProducerId | ConsumerId.

Record ONSFactoryProperty := mk_properties {
  access_key : string;
  secret_key : string;
  publish_topics : string;
  producer_id : string;
  consumer_id : string;
}.

Definition new_properties : ONSFactoryProperty :=
  mk_properties EmptyString EmptyString EmptyString EmptyString EmptyString.

Definition with_property (key : property) (v : string) (p : ONSFactoryProperty) : ONSFactoryProperty :=
  let '(mk_properties a s t pr co) := p in
  match key with
  | AccessKey => mk_properties v s t pr co
  | SecretKey => mk_properties a v t pr co
  | PublishTopics => mk_properties a s v pr co
  | ProducerId => mk_properties a s t v co
  | ConsumerId => mk_properties a s t pr v
  end.

Inductive MessageListener := MessageListenerErpFinal | MessageListenerException.

Record QUEUE_DATA := mk_QUEUE_DATA {
  producer_ : option nat;
  consumer_ : option nat;
  msglistener_ : option MessageListener;
  factoryInfo_ : ONSFactoryProperty;
}.

Record Message := mk_Message {
  getTag : list Z;
  getKey : list Z;
  getTopic : string;
  getBody : list Z;
}.

Record AliMessageQueue := mk_AliMessageQueue {
  m_queueInfos : gmap QUEUE_INSTANCE QUEUE_DATA;
  m_mq_config : gmap TOPIC_ENUM MQ_CONFIG;
}.

(** ** Computations over the library *)

Inductive libcall :=
  | SetFactoryProperty (key : property) (v : string)
  | CreateProducer (info : ONSFactoryProperty)
  | StartProducer (p : nat)
  | CreatePushConsumer (info : ONSFactoryProperty)
  | Subscribe (c : nat) (topics expression : string) (listener : option MessageListener)
  | StartConsumer (c : nat)
  | SendMessage (p : nat) (msg : Message).

Inductive mq_exception :=
  | ExceptionMessageQueue (what : string)
  | ONSClientException.

(** A computation ends with a value, with an exception or without defined behaviour. *)
Inductive mq_result (A : Type) :=
  | Done (a : A)
  | Raised (e : mq_exception)
  | NullPointer.
Arguments Done {A} a.
Arguments Raised {A} e.
Arguments NullPointer {A}.

Record world := mk_world { m_instance : option AliMessageQueue; calls : list (libcall * bool) }.

Definition mq (A : Type) : Type := world → mq_result A * world.

#[export] Instance mq_ret : MRet mq := λ A a w, (Done a, w).
#[export] Instance mq_bind : MBind mq := λ A B f m w,
  match m w with
  | (Done a, w) => f a w
  | (Raised e, w) => (Raised e, w)
  | (NullPointer, w) => (NullPointer, w)
  end.

Definition throw_mq {A} (e : mq_exception) : mq A := λ w, (Raised e, w).
Definition undefined {A} : mq A := λ w, (NullPointer, w).

(** [catch(ONSClientException & e)]. *)
Definition try_library {A} (m : mq A) (handler : mq A) : mq A := λ w,
  match m w with
  | (Raised ONSClientException, w) => handler w
  | r => r
  end.

(** ** [AliMessageQueue] *)

Section Service.
(** The file [config/mq_config], and when a call to the library throws. *)
Context (config_file : option string) (throws : list (libcall * bool) → libcall → bool).

(** A call to the library; the result names it. *)
Definition library (c : libcall) : mq nat := λ w,
  let t := throws (calls w) c in
  (if t then Raised ONSClientException else Done (length (calls w)),
   mk_world (m_instance w) (calls w ++ [(c, t)])).

Definition getConfig (section key : string) : mq string :=
  let '(rv, szTmp) := GetConfigStringValue config_file section key in
  if rv =? SUCCESS then mret (default EmptyString szTmp)
  else throw_mq (ExceptionMessageQueue ("config " +:+ section +:+ " " +:+ key)).

Definition getTopicConfig (section : string) : mq MQ_CONFIG :=
  name ← getConfig section "name";
  producer ← getConfig section "producer";
  consumer ← getConfig section "consumer";
  mret (mk_MQ_CONFIG name producer consumer).

Definition initConfig : mq AliMessageQueue :=
  final ← getTopicConfig "MQ_FINAL_TOPIC";
  raw ← getTopicConfig "MQ_RAW_TOPIC";
  exc ← getTopicConfig "MQ_EXCEPTION";
  mret (mk_AliMessageQueue ∅
    (<[exception_topic := exc]> (<[queue_raw_topic := raw]> (<[erp_final_topic := final]> ∅)))).

Definition set_instance (q : AliMessageQueue) : mq AliMessageQueue := λ w,
  (Done q, mk_world (Some q) (calls w)).

(** The instance, made at the first call that does not throw. *)
Definition getInstance : mq AliMessageQueue := λ w,
  match m_instance w with
  | Some q => (Done q, w)
  | None => mbind set_instance initConfig w
  end.

Definition set_property (key : property) (v : string) (info : ONSFactoryProperty) : mq ONSFactoryProperty :=
  _ ← library (SetFactoryProperty key v); mret (with_property key v info).

Definition createProducer (szTopics szProducerId : string) (factoryInfo : ONSFactoryProperty)
    : mq (nat * ONSFactoryProperty) :=
  factoryInfo ← set_property AccessKey ONS_ACCESS_KEY factoryInfo;
  factoryInfo ← set_property SecretKey ONS_SECRET_KEY factoryInfo;
  factoryInfo ← set_property PublishTopics szTopics factoryInfo;
  factoryInfo ← set_property ProducerId szProducerId factoryInfo;
  pProducer ← library (CreateProducer factoryInfo);
  _ ← library (StartProducer pProducer);
  mret (pProducer, factoryInfo).

Definition createConsumer (szTopics szConsumer : string) (factoryInfo : ONSFactoryProperty)
    : mq (nat * ONSFactoryProperty) :=
  factoryInfo ← set_property AccessKey ONS_ACCESS_KEY factoryInfo;
  factoryInfo ← set_property SecretKey ONS_SECRET_KEY factoryInfo;
  factoryInfo ← set_property PublishTopics szTopics factoryInfo;
  factoryInfo ← set_property ConsumerId szConsumer factoryInfo;
  pConsumer ← library (CreatePushConsumer factoryInfo);
  mret (pConsumer, factoryInfo).

(** [m_mq_config[topic]]. *)
Definition topic_config (q : AliMessageQueue) (t : TOPIC_ENUM) : MQ_CONFIG :=
  default new_MQ_CONFIG (m_mq_config q !! t).

Definition producer_data (topic id : string) : mq QUEUE_DATA :=
  '(p, info) ← createProducer topic id new_properties;
  mret (mk_QUEUE_DATA (Some p) None None info).

Definition consumer_data (topic id : string) (l : option MessageListener) : mq QUEUE_DATA :=
  '(c, info) ← createConsumer topic id new_properties;
  mret (mk_QUEUE_DATA None (Some c) l info).

(** The [switch] over the instances; the listener is made last. *)
Definition create_queue_data (q : AliMessageQueue) (enumState : QUEUE_INSTANCE) : mq QUEUE_DATA :=
  let producer t := let cfg := topic_config q t in producer_data (name_ cfg) (producer_id_ cfg) in
  let consumer t l := let cfg := topic_config q t in consumer_data (name_ cfg) (consumer_id_ cfg) (Some l) in
  match enumState with
  | wms_producer => producer queue_raw_topic
  | erp_producer => producer erp_final_topic
  | exception_thread1_producer => producer exception_topic
  | wms_consumer => consumer_data ONS_WMS_TOPIC ONS_WMS_CONSUMER None
  | erp_consumer => consumer_data ONS_ERP_TOPIC ONS_ERP_CONSUMER None
  | erp_final_consumer => consumer erp_final_topic MessageListenerErpFinal
  | exception_thread1_consumer => consumer exception_topic MessageListenerException
  end.

Definition producerIsExist (q : AliMessageQueue) (enumState : QUEUE_INSTANCE) : bool :=
  bool_decide (is_Some (m_queueInfos q !! enumState)).

(** [m_queueInfos.insert] into the instance. *)
Definition insert_queue (enumState : QUEUE_INSTANCE) (d : QUEUE_DATA) : mq unit := λ w,
  (Done tt,
   mk_world ((λ q, mk_AliMessageQueue (<[enumState := d]> (m_queueInfos q)) (m_mq_config q)) <$> m_instance w)
     (calls w)).

Definition getProOrCon (enumState : QUEUE_INSTANCE) : mq QUEUE_DATA :=
  q ← getInstance;
  if producerIsExist q enumState then
    match m_queueInfos q !! enumState with Some d => mret d | None => undefined end
  else
    d ← create_queue_data q enumState;
    _ ← (if bool_decide (is_Some (producer_ d)) || bool_decide (is_Some (consumer_ d))
         then insert_queue enumState d else mret tt);
    mret d.

(** The message and the two functions that send it, which have one body. *)
Definition send_message (enumState : QUEUE_INSTANCE) (strTag strKey strMessage : list Z) : mq bool :=
  pQueueData ← getProOrCon enumState;
  let msg := mk_Message strTag strKey (publish_topics (factoryInfo_ pQueueData)) strMessage in
  match producer_ pQueueData with
  | Some p => try_library (_ ← library (SendMessage p msg); mret true) (mret false)
  | None => undefined
  end.
Definition pushMessage := send_message.
Definition pushRawMessage := send_message.

Definition runServer (enumState : QUEUE_INSTANCE) : mq bool :=
  try_library
    (pQueueData ← getProOrCon enumState;
     match consumer_ pQueueData with
     | None => mret false
     | Some c =>
         _ ← library (Subscribe c (publish_topics (factoryInfo_ pQueueData)) "*" (msglistener_ pQueueData));
         _ ← library (StartConsumer c);
         mret true
     end)
    (mret false).
End Service.

(** ** The listeners *)

(** [consume] commits the message, after it queued some data; or an exception or an
    overrun of [message_id_] ends it. *)
Inductive consumed :=
  | CommitMessage (queued : list (call MqDataQueues.MQ_DATA))
  | Out_of_range
  | Overrun.

Definition is_digit (c : Z) : bool := (48 <=? c) && (c <=? 57).
Definition is_c_space (c : Z) : bool := (9 <=? c) && (c <=? 13) || (c =? 32).

(** [atoi], on a string that is too short to overflow. *)
Fixpoint atoi_digits (acc : Z) (l : list Z) : Z :=
  match l with
  | c :: l => if is_digit c then atoi_digits (10 * acc + (c - 48)) l else acc
  | [] => acc
  end.

Fixpoint atoi (l : list Z) : Z :=
  match l with
  | c :: r =>
      if is_c_space c then atoi r
      else if c =? 45 then - atoi_digits 0 r
      else if c =? 43 then atoi_digits 0 r
      else atoi_digits 0 l
  | [] => 0
  end.

(** [substr]: the arguments become [size_t]; a position behind the end throws. *)
Definition substr_n (l : list Z) (pos n : Z) : option (list Z) :=
  if Z.of_nat (length l) <? u64 pos then None 
  else Some (take (Z.to_nat (Z.min (u64 n) (Z.of_nat (length l)))) (l @+ u64 pos)).

Definition substr (l : list Z) (pos : Z) : option (list Z) :=
  if Z.of_nat (length l) <? u64 pos then None else Some (l @+ u64 pos).

(** The header of both; [message_id] is its third member. *)
Definition update_header (strBody message_id : list Z) : SOCKET_MESSAGE_HEADER :=
  mk_message_header MSG_TYPE_UPDATE_DATABASE (s32 (HEADER_SIZE + Z.of_nat (length strBody))) message_id.

(** What [consume] of the final topic takes apart; its call of the queue is
    commented out, so that nothing is done with the parts. *)
Definition MessageListenerErpFinal_consume (strMsgId strMsg : list Z) : consumed :=
  let msgLen := Z.of_nat (length strMsg) in
  if msgLen <? 5 then CommitMessage []
  else
    match substr_n strMsg 0 1, substr_n strMsg 1 4 with
    | Some strDispatchType, Some strStoreLen =>
        let iStoreLen := atoi (up_to_nul strStoreLen) in
        if msgLen <? iStoreLen + 5 then CommitMessage []
        else
          match substr_n strMsg 5 iStoreLen, substr strMsg (iStoreLen + 5) with
          | Some strStores, Some strBody =>
              if 33 <=? Z.of_nat (length strMsgId) then Overrun else CommitMessage []
          | _, _ => Out_of_range
          end
    | _, _ => Out_of_range
    end.

(** [garbage] is what the header's [message_id_] holds: it is not set. *)
Definition MessageListenerException_consume (garbage : list Z) (message : Message) : consumed :=
  let strMsg := getBody message in
  if Z.of_nat (length strMsg) <? 5 then CommitMessage []
  else
    let strStores := getKey message in
    let strBody := getBody message in
    let header := update_header strBody garbage in
    if bool_decide (strStores = []) then CommitMessage []
    else CommitMessage [MqDataQueues.ProductExceptionData header [49] strStores strBody].

(** ** The threads of [CProcessMqData] *)

(** A turn of each loop, given what its consumer returned.  Data without a header,
    which only the raw queue has, are undefined to dispatch. *)
Definition threadProcess (fuel : nat) (s : SocketServer) (pData : option MqDataQueues.MQ_DATA) : run SocketServer :=
  match pData with
  | Some d =>
      header ← of_option (MqDataQueues.header_ d);
      dispatchMessage fuel s header (MqDataQueues.dispatch_type_ d) (MqDataQueues.stores_ d) (MqDataQueues.body_ d)
  | None => Ret s
  end.

Definition threadProcessException (s : SocketServer) (pData : option MqDataQueues.MQ_DATA) : run SocketServer :=
  match pData with
  | Some d =>
      if bool_decide (MqDataQueues.stores_ d = []) then Ret s
      else
        header ← of_option (MqDataQueues.header_ d);
        Ret (dispatchOneMessage s header (MqDataQueues.dispatch_type_ d) (MqDataQueues.stores_ d)
               (MqDataQueues.body_ d))
  | None => Ret s
  end.

Section Threads.
Context (config_file : option string) (throws : list (libcall * bool) → libcall → bool).

(** [AliMessageQueue::getInstance()->pushMessage]. *)
Definition push (enumState : QUEUE_INSTANCE) (strTag strKey strMessage : list Z) : mq bool :=
  _ ← getInstance config_file; pushMessage config_file throws enumState strTag strKey strMessage.

Definition threadProcessRaw (pData : option MqDataQueues.MQ_DATA) : mq unit :=
  match pData with
  | Some d => _ ← push wms_producer (MqDataQueues.stores_ d) [] (MqDataQueues.body_ d); mret tt
  | None => mret tt
  end.

(** Turns of its loop, given what the consumer returns at each. *)
Fixpoint threadProcessRaw_turns (l : list (option MqDataQueues.MQ_DATA)) : mq unit :=
  match l with
  | [] => mret tt
  | pData :: l => _ ← threadProcessRaw pData; threadProcessRaw_turns l
  end.

(** What the server pushes for the stores that cannot be reached. *)
Definition failed_tag : list Z := string_bytes "ERP_SEND_TO_WMS_FAILED".

Fixpoint push_failed (l : list effect) : mq unit :=
  match l with
  | PushFailed storeCode strData :: l =>
      _ ← push exception_thread1_producer failed_tag storeCode strData; push_failed l
  | _ :: l => push_failed l
  | [] => mret tt
  end.
End Threads.

(** ** What the configuration must have *)

(** The pairs [initConfig] asks for, in its order. *)
Definition required : list (string * string) :=
  concat (map (λ s, [(s, "name"); (s, "producer"); (s, "consumer")])
            ["MQ_FINAL_TOPIC"; "MQ_RAW_TOPIC"; "MQ_EXCEPTION"]).

Definition section_of (t : TOPIC_ENUM) : string :=
  match t with
  | erp_final_topic => "MQ_FINAL_TOPIC" | queue_raw_topic => "MQ_RAW_TOPIC" | exception_topic => "MQ_EXCEPTION"
  end.

(** The value of a pair, and whether the configuration has it. *)
Definition configured (d : config) (p : string * string) : option string :=
  match find_section (sections d) (fst p) (snd p) with
  | (rv, Some v) => if rv =? SUCCESS then Some v else None
  | _ => None
  end.

Definition topic_of_config (d : config) (t : TOPIC_ENUM) : MQ_CONFIG :=
  let value key := default EmptyString (configured d (section_of t, key)) in
  mk_MQ_CONFIG (value "name") (value "producer") (value "consumer").

Definition first_missing (d : config) : option (string * string) :=
  snd <$> list_find (λ p, configured d p = None) required.

Lemma find_key_code ls key : find_key ls key = (KEYNAME_NOTEXIST, None) ∨ ∃ v, find_key ls key = (SUCCESS, Some v).
Proof.
  induction ls as [|[| |b k p1 p2 v r] ls IH]; cbn [find_key]; [by left|done|done|].
  destruct (String.eqb k key); [by right; eexists|done].
Qed.

Lemma find_section_code ss name key :
  (∃ rv, find_section ss name key = (rv, None) ∧ rv ≠ SUCCESS) ∨ ∃ v, find_section ss name key = (SUCCESS, Some v).
Proof.
  induction ss as [|s ss IH]; cbn [find_section]; [left; by eexists|].
  destruct (String.eqb _ _); [|done]. destruct (find_key_code (sec_lines s) key) as [->|[v ->]]; eauto.
Qed.

Lemma getConfig_config crlf d s k w : config_ok crlf d = true →
  getConfig (Some (file_of crlf (config_texts d))) s k w
  = match configured d (s, k) with
    | Some v => (Done v, w)
    | None => (Raised (ExceptionMessageQueue ("config " +:+ s +:+ " " +:+ k)), w)
    end.
Proof.
  intros Hd. unfold getConfig, configured. rewrite config_lookup by done. cbn [fst snd].
  destruct (find_section_code (sections d) s k) as [(rv & -> & H)|[v ->]]; [|done].
  by destruct (Z.eqb_spec rv SUCCESS).
Qed.

(** C28: the instance is made exactly when the configuration has a name, a producer and
    a consumer for each of the three topics, and then has them; otherwise every call
    throws, naming the first that is missing, and makes none. *)
Theorem mq_configuration crlf d calls : config_ok crlf d = true →
  getInstance (Some (file_of crlf (config_texts d))) (mk_world None calls)
  = match first_missing d with
    | Some (s, k) => (Raised (ExceptionMessageQueue ("config " +:+ s +:+ " " +:+ k)), mk_world None calls)
    | None =>
        let q := mk_AliMessageQueue ∅
          (<[exception_topic := topic_of_config d exception_topic]>
             (<[queue_raw_topic := topic_of_config d queue_raw_topic]>
                (<[erp_final_topic := topic_of_config d erp_final_topic]> ∅))) in
        (Done q, mk_world (Some q) calls)
    end.
Proof.
  intros Hd. unfold getInstance, initConfig, getTopicConfig, first_missing, topic_of_config, section_of.
  cbn [m_instance]. unfold mbind, mq_bind, mret, mq_ret.
  repeat (rewrite getConfig_config by done;
          match goal with |- context [configured d ?p] => destruct (configured d p) eqn:? end;
          [|cbn; repeat (case_decide; [congruence || done|]); congruence]).
  cbn. by repeat (case_decide; [congruence|]).
Qed.

(** The configuration in the repository has no section for the raw topic. *)
Lemma mq_configuration_witness :
  getInstance (Some (file_of false (config_texts Config.mq_config))) (mk_world None [])
  = (Raised (ExceptionMessageQueue "config MQ_RAW_TOPIC name"), mk_world None []).
Proof. rewrite mq_configuration; by vm_compute. Defined.

(** ** Any sequence of pushes *)

(** The topic of an instance's producer, if it is one. *)
Definition producer_topic (i : QUEUE_INSTANCE) : option TOPIC_ENUM :=
  match i with
  | wms_producer => Some queue_raw_topic
  | erp_producer => Some erp_final_topic
  | exception_thread1_producer => Some exception_topic
  | _ => None
  end.

Record push_request := mk_push {
  push_instance : QUEUE_INSTANCE; push_tag : list Z; push_key : list Z; push_body : list Z }.

Definition is_push (r : push_request) : Prop := is_Some (producer_topic (push_instance r)).

(** The messages the library took, the producers it started. *)
Definition sent (l : list (libcall * bool)) : list Message :=
  omap (λ c, match c with (SendMessage _ m, false) => Some m | _ => None end) l.
Definition started (l : list (libcall * bool)) : list nat :=
  omap (λ c, match c with (StartProducer p, false) => Some p | _ => None end) l.

Section Pushes.
Context (config_file : option string) (throws : list (libcall * bool) → libcall → bool).

(** The requests one after the other; an exception is the caller's. *)
Fixpoint run_pushes (l : list push_request) (w : world) : list (mq_result bool) * world :=
  match l with
  | [] => ([], w)
  | r :: l =>
      let '(res, w) := push config_file throws (push_instance r) (push_tag r) (push_key r) (push_body r) w in
      let '(rs, w) := run_pushes l w in (res :: rs, w)
  end.

Context (q0 : AliMessageQueue).

Definition info_of (i : QUEUE_INSTANCE) : ONSFactoryProperty :=
  let cfg := default new_MQ_CONFIG (topic_config q0 <$> producer_topic i) in
  mk_properties ONS_ACCESS_KEY ONS_SECRET_KEY (name_ cfg) (producer_id_ cfg) EmptyString.

Definition message_of (r : push_request) : Message :=
  mk_Message (push_tag r) (push_key r) (publish_topics (info_of (push_instance r))) (push_body r).

(** The producers of the instance are those the library made for it, and every
    message went to the producer of its topic. *)
Record serving (w : world) (q : AliMessageQueue) : Prop := {
  sv_instance : m_instance w = Some q;
  sv_config : m_mq_config q = m_mq_config q0;
  sv_data : ∀ i d, m_queueInfos q !! i = Some d → is_Some (producer_topic i) ∧
    ∃ p, d = mk_QUEUE_DATA (Some p) None None (info_of i) ∧ calls w !! p = Some (CreateProducer (info_of i), false);
  sv_started : length (started (calls w)) = size (m_queueInfos q);
  sv_sent : ∀ p m t, (SendMessage p m, t) ∈ calls w → ∃ i, is_Some (producer_topic i)
    ∧ calls w !! p = Some (CreateProducer (info_of i), false) ∧ getTopic m = publish_topics (info_of i);
}.

Lemma sent_app l l' : sent (l ++ l') = sent l ++ sent l'.
Proof. apply omap_app. Qed.
Lemma started_app l l' : started (l ++ l') = started l ++ started l'.
Proof. apply omap_app. Qed.

Definition no_send : list (libcall * bool) → Prop :=
  Forall (λ c, match fst c with SendMessage _ _ => False | _ => True end).

Lemma no_send_in cs p m t : no_send cs → (SendMessage p m, t) ∉ cs.
Proof. unfold no_send. rewrite Forall_forall. intros H Hin. exact (H _ Hin). Qed.

Lemma sent_none cs : no_send cs → sent cs = [].
Proof. induction 1 as [|[[] []] cs H _ IH]; done. Qed.

(** Calls that make a producer, or fail to. *)
Definition creating (topic id : string) (n : nat) (cs : list (libcall * bool)) (r : mq_result QUEUE_DATA) : Prop :=
  let info := mk_properties ONS_ACCESS_KEY ONS_SECRET_KEY topic id EmptyString in
  (r = Done (mk_QUEUE_DATA (Some (n + 4)%nat) None None info) ∧ cs !! 4%nat = Some (CreateProducer info, false)
     ∧ length (started cs) = 1%nat)
  ∨ (r = Raised ONSClientException ∧ started cs = []).

Lemma library_step {B} c (f : nat → mq B) w :
  (library throws c ≫= f) w
  = if throws (calls w) c then (Raised ONSClientException, mk_world (m_instance w) (calls w ++ [(c, true)]))
    else f (length (calls w)) (mk_world (m_instance w) (calls w ++ [(c, false)])).
Proof. unfold library, mbind, mq_bind. by destruct (throws (calls w) c). Qed.

Lemma mq_bind_assoc {A B C} (m : mq A) (f : A → mq B) (g : B → mq C) w :
  ((m ≫= f) ≫= g) w = (m ≫= (λ x, f x ≫= g)) w.
Proof. unfold mbind, mq_bind. by destruct (m w) as [[]]. Qed.

Lemma mq_bind_ret {A B} (x : A) (f : A → mq B) w : (mret x ≫= f) w = f x w.
Proof. done. Qed.

(** One call of the library: it throws, which ends the goal, or goes on. *)
Ltac one_call :=
  rewrite ?mq_bind_assoc, library_step; cbn [m_instance calls];
  match goal with |- context [if ?t then _ else _] => destruct t end;
  [rewrite <- ?app_assoc; eexists _, _; split; [done|split; [by right|by unfold no_send; decompose_Forall]]|];
  cbn [m_instance calls]; rewrite ?mq_bind_assoc, ?mq_bind_ret.

Lemma producer_data_calls topic id w : ∃ r cs,
  producer_data throws topic id w = (r, mk_world (m_instance w) (calls w ++ cs))
  ∧ creating topic id (length (calls w)) cs r ∧ no_send cs.
Proof.
  unfold producer_data, createProducer, set_property.
  do 6 one_call. rewrite <- ?app_assoc. eexists _, _. split; [done|]. split; [left|by unfold no_send; decompose_Forall].
  split; [|done]. by rewrite length_app.
Qed.

Lemma create_data_producer q i w : m_mq_config q = m_mq_config q0 → is_Some (producer_topic i) → ∃ r cs,
  create_queue_data throws q i w = (r, mk_world (m_instance w) (calls w ++ cs))
  ∧ creating (publish_topics (info_of i)) (producer_id (info_of i)) (length (calls w)) cs r
  ∧ no_send cs.
Proof.
  intros Hq Hi. unfold create_queue_data, topic_config. rewrite Hq.
  destruct i; cbn [producer_topic] in Hi; try by destruct Hi. all: apply producer_data_calls.
Qed.

(** What more calls leave in place. *)
Lemma serving_calls w q cs : serving w q → started cs = [] → no_send cs →
  serving (mk_world (m_instance w) (calls w ++ cs)) q.
Proof.
  intros [H1 H2 H3 H4 H5] Hs Hm. split; cbn [m_instance calls]; [done..| | |].
  - intros i d Hd. destruct (H3 i d Hd) as [? (p & ? & ?)]. split; [done|]. exists p. split; [done|].
    by apply lookup_app_l_Some.
  - by rewrite started_app, Hs, app_nil_r.
  - intros p m t [Hin|Hin]%elem_of_app; [|by destruct (no_send_in cs p m t)].
    destruct (H5 p m t Hin) as (i & ? & ? & ?). exists i. eauto using lookup_app_l_Some.
Qed.

Lemma serving_insert w q cs i : serving w q → m_queueInfos q !! i = None → is_Some (producer_topic i) →
  cs !! 4%nat = Some (CreateProducer (info_of i), false) → length (started cs) = 1%nat →
  no_send cs →
  let d := mk_QUEUE_DATA (Some (length (calls w) + 4)%nat) None None (info_of i) in
  let q' := mk_AliMessageQueue (<[i := d]> (m_queueInfos q)) (m_mq_config q) in
  serving (mk_world (Some q') (calls w ++ cs)) q'.
Proof.
  intros [H1 H2 H3 H4 H5] Hi Hp Hc Hs Hm d q'.
  assert ((calls w ++ cs) !! (length (calls w) + 4)%nat = Some (CreateProducer (info_of i), false)) as Hn.
  { rewrite lookup_app_r by lia. by replace (_ + 4 - _)%nat with 4%nat by lia. }
  split; cbn [m_instance calls m_queueInfos m_mq_config]; [done..| | |].
  - intros j e Hd. subst q'. cbn [m_queueInfos] in Hd. apply lookup_insert_Some in Hd as [[<- <-]|[_ Hd]]; [by eauto|].
    destruct (H3 j e Hd) as [? (p & ? & ?)]. split; [done|]. exists p. split; [done|]. by apply lookup_app_l_Some.
  - subst q'. cbn [m_queueInfos]. rewrite started_app, length_app, H4, Hs, map_size_insert_None by done. lia.
  - intros p m t [Hin|Hin]%elem_of_app; [|by destruct (no_send_in cs p m t)].
    destruct (H5 p m t Hin) as (j & ? & ? & ?). exists j. eauto using lookup_app_l_Some.
Qed.

(** The queue data of a producer, there or made. *)
Lemma getProOrCon_serving w q i : serving w q → is_Some (producer_topic i) → ∃ r w' q',
  getProOrCon config_file throws i w = (r, w') ∧ serving w' q' ∧ sent (calls w') = sent (calls w)
  ∧ (r = Raised ONSClientException
     ∨ ∃ p, r = Done (mk_QUEUE_DATA (Some p) None None (info_of i))
            ∧ calls w' !! p = Some (CreateProducer (info_of i), false)).
Proof.
  intros Hw Hi. unfold getProOrCon, getInstance, mbind, mq_bind, producerIsExist. rewrite (sv_instance _ _ Hw).
  destruct (m_queueInfos q !! i) as [d|] eqn:E.
  - rewrite bool_decide_eq_true_2 by by eexists. destruct (sv_data _ _ Hw i d E) as [_ (p & -> & Hp)].
    eexists _, w, q. split_and!; [done..|]. right. by eexists.
  - rewrite bool_decide_eq_false_2 by by intros [].
    destruct (create_data_producer q i w) as (r & cs & -> & Hr & Hm); [by apply Hw|done|].
    destruct Hr as [(-> & Hc & Hs)|(-> & Hs)].
    + cbn. rewrite (sv_instance _ _ Hw). eexists _, _, _. split; [done|].
      split; [by apply (serving_insert w q cs i)|]. cbn [calls]. rewrite sent_app, (sent_none cs), app_nil_r by done.
      split; [done|]. right. eexists. split; [done|]. rewrite lookup_app_r by lia.
      by replace (_ + 4 - _)%nat with 4%nat by lia.
    + eexists _, _, q. split; [done|]. split; [by apply serving_calls|]. cbn [calls].
      rewrite sent_app, (sent_none cs), app_nil_r by done. by auto.
Qed.

(** One request. *)
Lemma push_serving w q r : serving w q → is_push r → ∃ res w' q',
  push config_file throws (push_instance r) (push_tag r) (push_key r) (push_body r) w = (res, w')
  ∧ serving w' q' ∧ res ≠ NullPointer
  ∧ sent (calls w') = sent (calls w) ++ (match res with Done true => [message_of r] | _ => [] end).
Proof.
  intros Hw Hr. unfold push, pushMessage, send_message, mbind at 1, mq_bind at 1, getInstance at 1.
  rewrite (sv_instance _ _ Hw). unfold mbind at 1, mq_bind at 1.
  destruct (getProOrCon_serving w q (push_instance r) Hw Hr) as (g & w1 & q1 & -> & Hw1 & Hs & Hg).
  destruct Hg as [->|(p & -> & Hp)].
  - eexists _, w1, q1. split_and!; [done..|]. by rewrite app_nil_r.
  - cbn [producer_ factoryInfo_]. unfold try_library, library, mbind, mq_bind.
    set (m := mk_Message _ _ _ _). exists (Done (negb (throws (calls w1) (SendMessage p m)))).
    eexists (mk_world (m_instance w1) (calls w1 ++ [(SendMessage p m, throws (calls w1) (SendMessage p m))])), q1.
    split; [by destruct (throws _ _)|]. split_and!; [|done|].
    + destruct Hw1 as [H1 H2 H3 H4 H5]. split; cbn [m_instance calls]; [done..| | |].
      * intros i d Hd. destruct (H3 i d Hd) as [? (p' & ? & ?)]. split; [done|]. exists p'.
        eauto using lookup_app_l_Some.
      * by rewrite started_app, app_nil_r.
      * intros p' m' t [Hin|Hin]%elem_of_app.
        -- destruct (H5 p' m' t Hin) as (i & ? & ? & ?). exists i. eauto using lookup_app_l_Some.
        -- apply list_elem_of_singleton in Hin. injection Hin as -> -> _. exists (push_instance r).
           eauto using lookup_app_l_Some.
    + cbn [calls]. rewrite sent_app, Hs. f_equal. by destruct (throws _ _).
Qed.
End Pushes.

(** From the start: the instance is made without a call. *)
Section Start.
Context (config_file : option string) (throws : list (libcall * bool) → libcall → bool) (q0 : AliMessageQueue).
Context (Hstart : getInstance config_file (mk_world None []) = (Done q0, mk_world (Some q0) [])).

Lemma started_empty : m_queueInfos q0 = ∅.
Proof.
  revert Hstart. unfold getInstance, initConfig, mbind, mq_bind. cbn [m_instance].
  repeat match goal with
  | |- context [getTopicConfig ?f ?s ?w] => destruct (getTopicConfig f s w) as [[] ?]
  | |- (_, _) = _ → _ => try done
  end.
  by intros [= <- _].
Qed.

Lemma start_serving : serving q0 (mk_world (Some q0) []) q0.
Proof.
  split; cbn [m_instance calls]; [done..| | |]; rewrite ?started_empty.
  - intros i d. by rewrite lookup_empty.
  - done.
  - intros p m t Hin. by apply elem_of_nil in Hin.
Qed.

Lemma push_start i tag key body :
  push config_file throws i tag key body (mk_world None [])
  = push config_file throws i tag key body (mk_world (Some q0) []).
Proof. unfold push, mbind, mq_bind. by rewrite Hstart. Qed.

Lemma run_pushes_serving l w q : serving q0 w q → Forall is_push l → ∃ rs w' q',
  run_pushes config_file throws l w = (rs, w') ∧ serving q0 w' q' ∧ Forall (λ r, r ≠ NullPointer) rs
  ∧ sent (calls w')
    = sent (calls w) ++ concat (zip_with (λ r res, match res with Done true => [message_of q0 r] | _ => [] end) l rs).
Proof.
  intros Hw Hl. revert w q Hw. induction Hl as [|r l Hr _ IH]; intros w q Hw; cbn [run_pushes].
  - exists [], w, q. split_and!; [done..|]. by rewrite app_nil_r.
  - destruct (push_serving config_file throws q0 w q r Hw Hr) as (res & w1 & q1 & -> & H1 & Hn & Hs).
    destruct (IH w1 q1 H1) as (rs & w2 & q2 & -> & H2 & Hns & Hs2).
    exists (res :: rs), w2, q2. split_and!; [done..|by constructor|]. cbn [zip_with concat].
    by rewrite Hs2, Hs, app_assoc.
Qed.

Lemma started_bound w q : serving q0 w q → (length (started (calls w)) ≤ 3)%nat.
Proof.
  intros H. rewrite (sv_started _ _ _ H), <- size_dom.
  transitivity (size ({[wms_producer; erp_producer; exception_thread1_producer]} : gset QUEUE_INSTANCE)); [|done].
  apply subseteq_size. intros i [d Hd]%elem_of_dom. destruct (sv_data _ _ _ H i d Hd) as [Hi _].
  destruct i; cbn in Hi; solve [set_solver | by destruct Hi].
Qed.
End Start.

(** C26: whatever calls to the library throw, pushes to the three producers have
    defined behaviour; the messages the service takes are those of the pushes that
    return true, in order, with their tag, key and body and the topic the
    configuration has for their instance; each goes to a producer made for that
    topic, and no more than three producers are ever started. *)
Theorem pushes_sent config_file throws q0 l :
  getInstance config_file (mk_world None []) = (Done q0, mk_world (Some q0) []) → Forall is_push l →
  ∃ rs w, run_pushes config_file throws l (mk_world None []) = (rs, w)
  ∧ Forall (λ r, r ≠ NullPointer) rs
  ∧ sent (calls w)
    = concat (zip_with (λ r res, match res with Done true => [message_of q0 r] | _ => [] end) l rs)
  ∧ (∀ p m t, (SendMessage p m, t) ∈ calls w → ∃ i, is_Some (producer_topic i)
      ∧ calls w !! p = Some (CreateProducer (info_of q0 i), false) ∧ getTopic m = publish_topics (info_of q0 i))
  ∧ (length (started (calls w)) ≤ 3)%nat.
Proof.
  intros H Hl. destruct l as [|r l].
  - exists [], (mk_world None []). split_and!; [done..| |cbn; lia]. intros p m t Hin. by apply elem_of_nil in Hin.
  - destruct (run_pushes_serving config_file throws q0 (r :: l) (mk_world (Some q0) []) q0) as (rs & w & q & E & Hw & Hn & Hs);
      [by eapply start_serving|done|].
    exists rs, w. split; [|split_and!; [done..|apply Hw|by eapply started_bound]].
    rewrite <- E. cbn [run_pushes]. by rewrite (push_start _ _ _ H).
Qed.

Definition three_topics : config := mk_config []
  (map (λ s, named_section s [pair_line "name" (s +:+ "_NAME"); pair_line "producer" "PID"; pair_line "consumer" "CID"])
     ["MQ_FINAL_TOPIC"; "MQ_RAW_TOPIC"; "MQ_EXCEPTION"]).
Definition three_topics_file : option string := Some (file_of true (config_texts three_topics)).
Definition three_topics_queue : AliMessageQueue :=
  mk_AliMessageQueue ∅
    (<[exception_topic := topic_of_config three_topics exception_topic]>
       (<[queue_raw_topic := topic_of_config three_topics queue_raw_topic]>
          (<[erp_final_topic := topic_of_config three_topics erp_final_topic]> ∅))).

(** The third call throws: the first push fails, the second makes the producer. *)
Lemma pushes_sent_witness :
  let l := [mk_push wms_producer [1] [] [2]; mk_push wms_producer [1] [] [3]] in
  ∃ rs w, run_pushes three_topics_file (λ cs _, Nat.eqb (length cs) 2) l (mk_world None []) = (rs, w)
  ∧ rs = [Raised ONSClientException; Done true]
  ∧ sent (calls w) = [mk_Message [1] [] "MQ_RAW_TOPIC_NAME" [3]].
Proof.
  intros l. destruct (pushes_sent three_topics_file (λ cs _, Nat.eqb (length cs) 2) three_topics_queue l)
    as (rs & w & E & _ & Hs & _ & _).
  - by vm_compute.
  - repeat constructor; by eexists.
  - assert (rs = [Raised ONSClientException; Done true]) as ->.
    { change rs with (rs, w).1. rewrite <- E. by vm_compute. }
    exists [Raised ONSClientException; Done true], w. split; [done|]. split; [done|]. rewrite Hs. by vm_compute.
Defined.

(** ** Failed messages come back *)

Definition failed_of (l : list effect) : list (list Z * list Z) :=
  omap (λ e, match e with PushFailed st d => Some (st, d) | _ => None end) l.

Definition failed_message (q0 : AliMessageQueue) (f : list Z * list Z) : Message :=
  mk_Message failed_tag (fst f) (name_ (topic_config q0 exception_topic)) (snd f).

(** When the library does not throw, a push sends its message. *)
Lemma push_sent config_file q0 w q r : serving q0 w q → is_push r → ∃ w' q',
  push config_file (λ _ _, false) (push_instance r) (push_tag r) (push_key r) (push_body r) w = (Done true, w')
  ∧ serving q0 w' q' ∧ sent (calls w') = sent (calls w) ++ [message_of q0 r].
Proof.
  intros Hw Hr. destruct (push_serving config_file (λ _ _, false) q0 w q r Hw Hr) as (res & w1 & q1 & E & H1 & _ & Hs).
  rewrite E. assert (res = Done true) as ->; [|by exists w1, q1].
  clear H1 Hs. revert E. unfold push, pushMessage, send_message, getProOrCon, getInstance, mbind, mq_bind.
  rewrite (sv_instance _ _ _ Hw). cbn. unfold producerIsExist. rewrite (sv_instance _ _ _ Hw). cbn.
  destruct (m_queueInfos q !! push_instance r) as [d|] eqn:Ed; cbn.
  - destruct (sv_data _ _ _ Hw _ _ Ed) as [_ (p & -> & _)]. cbn. by intros [= <- _].
  - unfold is_push in Hr. destruct (push_instance r); cbn [producer_topic] in Hr; try by destruct Hr.
    all: by intros [= <- _].
Qed.

Lemma push_failed_sent config_file q0 l w q : serving q0 w q → ∃ w' q',
  push_failed config_file (λ _ _, false) l w = (Done tt, w') ∧ serving q0 w' q'
  ∧ sent (calls w') = sent (calls w) ++ map (failed_message q0) (failed_of l).
Proof.
  revert w q. induction l as [|e l IH]; intros w q Hw.
  - exists w, q. split_and!; [done..|]. by rewrite app_nil_r.
  - destruct e as [| |st d| |]; try by apply (IH w q).
    cbn [push_failed].
    destruct (push_sent config_file q0 w q (mk_push exception_thread1_producer failed_tag st d) Hw)
      as (w1 & q1 & E & H1 & Hs); [by eexists|].
    cbn [push_instance push_tag push_key push_body] in E. unfold mbind at 1, mq_bind at 1. rewrite E.
    destruct (IH w1 q1 H1) as (w2 & q2 & E2 & H2 & Hs2). rewrite E2. exists w2, q2. split_and!; [done..|].
    by rewrite Hs2, Hs, <- app_assoc.
Qed.

Lemma push_failed_start config_file throws q0 l :
  getInstance config_file (mk_world None []) = (Done q0, mk_world (Some q0) []) → failed_of l ≠ [] →
  push_failed config_file throws l (mk_world None []) = push_failed config_file throws l (mk_world (Some q0) []).
Proof.
  intros H. induction l as [|e l IH]; [done|]. destruct e; try exact IH. intros _. cbn [push_failed].
  unfold mbind, mq_bind. by rewrite (push_start _ _ _ H).
Qed.

(** C27: when the library does not throw, the messages the server pushes for stores it
    cannot reach are the service's messages for the topic of failures, in order; the
    listener of that topic drops one that is shorter than five characters or for a
    store without a name, and queues the others as they were; and a turn of the thread
    sends such a datum to the first client of that store, or pushes it once more when
    there is none. *)
Theorem failed_messages_return config_file q0 garbage l st d :
  getInstance config_file (mk_world None []) = (Done q0, mk_world (Some q0) []) → (st, d) ∈ failed_of l →
  let datum := MqDataQueues.mk_mq_data (Some (update_header d garbage)) [49] st d in
  (∃ w, push_failed config_file (λ _ _, false) l (mk_world None []) = (Done tt, w)
     ∧ sent (calls w) = map (failed_message q0) (failed_of l))
  ∧ MessageListenerException_consume garbage (failed_message q0 (st, d))
    = CommitMessage (if bool_decide (length d < 5)%nat || bool_decide (st = []) then [] else [Product 1 datum])
  ∧ (st ≠ [] → ∀ s,
     (∀ pre c post, m_clients s = pre ++ c :: post → Forall (λ c', cmpClientId c' (up_to_nul st) = false) pre →
        cmpClientId c (up_to_nul st) = true →
        threadProcessException s (Some datum) = Ret (emit s [Send c (update_header d garbage) d]))
     ∧ (Forall (λ c, cmpClientId c (up_to_nul st) = false) (m_clients s) →
        threadProcessException s (Some datum) = Ret (emit s [PushFailed st d]))).
Proof.
  intros H Hin datum. split_and!.
  - destruct (push_failed_sent config_file q0 l (mk_world (Some q0) []) q0) as (w & q & E & _ & Hs);
      [by eapply start_serving|].
    exists w. split; [|done]. rewrite <- E. apply push_failed_start; [done|]. intros E0.
    rewrite E0 in Hin. by apply elem_of_nil in Hin.
  - unfold MessageListenerException_consume. cbn [getBody getKey failed_message fst snd].
    destruct (Z.ltb_spec (Z.of_nat (length d)) 5) as [E|E].
    + rewrite bool_decide_eq_true_2 by lia. done.
    + rewrite (bool_decide_eq_false_2 (length d < 5)%nat) by lia. by destruct (bool_decide (st = [])).
  - intros Hst s. unfold threadProcessException. cbn [MqDataQueues.stores_ datum].
    rewrite bool_decide_eq_false_2 by done. cbn. unfold dispatchOneMessage. rewrite bool_decide_eq_true_2 by done.
    split.
    + intros pre c post E Hpre Hc. assert (list_find (λ c, cmpClientId c (up_to_nul st) = true) (m_clients s)
        = Some (length pre, c)) as ->; [|done].
      apply list_find_Some. rewrite E. split_and!; [by rewrite list_lookup_middle|done|].
      intros j y Hj Hlt. rewrite lookup_app_l in Hj by done. rewrite Forall_lookup in Hpre.
      by rewrite (Hpre j y Hj).
    + intros Hall. assert (list_find (λ c, cmpClientId c (up_to_nul st) = true) (m_clients s) = None) as ->; [|done].
      apply list_find_None. eapply Forall_impl; [exact Hall|]. cbn. by intros c ->.
Qed.

Lemma failed_messages_return_witness :
  let l := [Close (mk_client 1 [] [] 2 0); PushFailed [48; 49] [1; 2; 3; 4; 5]] in
  (∃ w, push_failed three_topics_file (λ _ _, false) l (mk_world None []) = (Done tt, w)
     ∧ sent (calls w) = [mk_Message failed_tag [48; 49] "MQ_EXCEPTION_NAME" [1; 2; 3; 4; 5]]).
Proof.
  intros l. destruct (failed_messages_return three_topics_file three_topics_queue [] l [48; 49] [1; 2; 3; 4; 5])
    as ((w & E & Hs) & _ & _).
  - by vm_compute.
  - by left.
  - exists w. split; [done|]. rewrite Hs. by vm_compute.
Defined.


(** ** The final topic *)

Lemma atoi_digits_range l acc : 0 <= acc →
  acc <= atoi_digits acc l < (acc + 1) * 10 ^ Z.of_nat (length l).
Proof.
  revert acc. induction l as [|c l IH]; intros acc H; cbn [atoi_digits]; [change (10 ^ Z.of_nat (length [])) with 1; lia|].
  assert (0 < 10 ^ Z.of_nat (length l)) by (apply Z.pow_pos_nonneg; lia).
  cbn [length]. rewrite Nat2Z.inj_succ, Z.pow_succ_r by lia.
  destruct (is_digit c) eqn:E; [|nia]. unfold is_digit in E. specialize (IH (10 * acc + (c - 48)) ltac:(lia)). nia.
Qed.

Lemma up_to_nul_short l : (length (up_to_nul l) ≤ length l)%nat.
Proof. induction l as [|b l IH]; cbn; [lia|]. destruct (b =? 0); cbn; lia. Qed.

Lemma atoi_range l : (length l ≤ 4)%nat → -10000 < atoi l < 10000.
Proof.
  intros Hl. enough (- 10 ^ Z.of_nat (length l) < atoi l < 10 ^ Z.of_nat (length l)) as H.
  { assert (10 ^ Z.of_nat (length l) <= 10 ^ 4) by (apply Z.pow_le_mono_r; lia). lia. }
  clear Hl. induction l as [|c l IH]; [done|]. cbn [atoi].
  assert (10 ^ Z.of_nat (length (c :: l)) = 10 * 10 ^ Z.of_nat (length l)) as E
    by (cbn [length]; by rewrite Nat2Z.inj_succ, Z.pow_succ_r by lia).
  assert (0 < 10 ^ Z.of_nat (length l)) by (apply Z.pow_pos_nonneg; lia).
  pose proof (atoi_digits_range l 0). pose proof (atoi_digits_range (c :: l) 0).
  destruct (is_c_space c); [lia|]. destruct (c =? 45); [lia|]. destruct (c =? 43); lia.
Qed.

(** The number of a message: what [atoi] makes of the four characters behind the first. *)
Definition stores_length (strMsg : list Z) : Z := atoi (up_to_nul (take 4 (drop 1 strMsg))).

(** C29: whatever a message of the final topic holds, nothing of it is queued: it is
    committed, but for a number below -5, which makes [substr] throw, and for an
    identifier of 33 characters or more, which is copied behind the end of its array
    when the number fits. *)
Theorem final_topic_discarded strMsgId strMsg : Z.of_nat (length strMsg) < 2 ^ 31 →
  MessageListenerErpFinal_consume strMsgId strMsg
  = if Z.of_nat (length strMsg) <? 5 then CommitMessage []
    else if stores_length strMsg <? -5 then Out_of_range
    else if (stores_length strMsg + 5 <=? Z.of_nat (length strMsg)) && (33 <=? Z.of_nat (length strMsgId)) then Overrun
    else CommitMessage [].
Proof.
  intros Hl. unfold MessageListenerErpFinal_consume.
  destruct (Z.ltb_spec (Z.of_nat (length strMsg)) 5) as [E|E]; [done|].
  unfold substr_n at 1 2. rewrite !wrap_small by lia.
  destruct (Z.ltb_spec (Z.of_nat (length strMsg)) 0); [lia|]. destruct (Z.ltb_spec (Z.of_nat (length strMsg)) 1); [lia|].
  rewrite !Z.min_l by lia. change (atoi _) with (stores_length strMsg).
  assert (-10000 < stores_length strMsg < 10000) as B.
  { apply atoi_range. unfold stores_length. etrans; [apply up_to_nul_short|]. rewrite length_take. lia. }
  destruct (Z.ltb_spec (Z.of_nat (length strMsg)) (stores_length strMsg + 5)) as [F|F].
  - destruct (Z.ltb_spec (stores_length strMsg) (-5)); [lia|].
    destruct (Z.leb_spec (stores_length strMsg + 5) (Z.of_nat (length strMsg))); [lia|done].
  - unfold substr_n, substr. rewrite (wrap_small _ 5) by lia.
    destruct (Z.ltb_spec (Z.of_nat (length strMsg)) 5); [lia|].
    destruct (Z.ltb_spec (stores_length strMsg) (-5)) as [G|G].
    + destruct (Z.ltb_spec (Z.of_nat (length strMsg)) (u64 (stores_length strMsg + 5))) as [K|K]; [done|].
      exfalso. revert K. unfold wrap. zpow. zdm.
    + rewrite wrap_small by lia.
      destruct (Z.ltb_spec (Z.of_nat (length strMsg)) (stores_length strMsg + 5)); [lia|].
      destruct (Z.leb_spec (stores_length strMsg + 5) (Z.of_nat (length strMsg))); [done|lia].
Qed.

Lemma final_topic_discarded_witness :
  MessageListenerErpFinal_consume [] [49; 48; 48; 48; 50; 65; 66; 67] = CommitMessage [].
Proof. rewrite final_topic_discarded; by vm_compute. Defined.
