(* ===== verification/ExportQueue.v ===== *)
(** The queues between the client's export and the thread that sends:
    the three deques of [wmsclient/wmsclient/increment_export.cpp] behind one mutex
    and its conditions, the deque of [CMysqlQueue] in [MyslqQueue.cpp], and the
    thread of [PreBinlog.cpp]. *)
From S2P Require Import Prelude JsonValue JsonWriter ClientExport ExportText Messages SharedQueue.

(** ** The deques *)

(** [glb_queue_data] (0), [glb_head_queue_data] (1) and [glb_vec_queue_data] (2).
    The consumers of the first two return an indeterminate pointer when they wake up
    to an empty deque, the third returns an empty vector. *)
Module GenerateQueues.
Inductive generated :=
  | Data (d : GENERATE_DATA)
  | Head (h : HEAD_GENERATE_DATA)
  | Heads (l : list HEAD_GENERATE_DATA).

Definition ROWS_DATA_MAX_SIZE : Z := 1000.
Definition ProductDataGenerate_vector (getDate : list HEAD_GENERATE_DATA) : call generated :=
  SharedQueue.Product 2 (Heads getDate).
Definition ProductDataGenerate_head (getDate : HEAD_GENERATE_DATA) : call generated :=
  SharedQueue.Product 1 (Head getDate).
Definition ProductDataGenerate (getDate : GENERATE_DATA) : call generated := SharedQueue.Product 0 (Data getDate).
Definition ConsumerDataGenerate : call generated := SharedQueue.Consumer 0.
Definition VectorHeadConsumerDataGenerate : call generated := SharedQueue.Consumer 1.
Definition VectorConsumerDataGenerate : call generated := SharedQueue.Consumer 2.
Definition guarded (i : nat) : bool := Nat.eqb i 2.
Definition run : list (action generated) → state generated → option (SharedQueue.outcome generated) :=
  execute ROWS_DATA_MAX_SIZE guarded.
Definition start : state generated := initial 3.
End GenerateQueues.

(** The deque of [CMysqlQueue], which has its own mutex. *)
Module MysqlDataQueue.
Definition ProductData (getDate : GENERATE_DATA) : call GENERATE_DATA := SharedQueue.Product 0 getDate.
Definition ConsumerData : call GENERATE_DATA := SharedQueue.Consumer 0.
Definition run : list (action GENERATE_DATA) → state GENERATE_DATA → option (SharedQueue.outcome GENERATE_DATA) :=
  execute GenerateQueues.ROWS_DATA_MAX_SIZE (λ _, false).
Definition start : state GENERATE_DATA := initial 1.
End MysqlDataQueue.

(** ** The thread that sends *)

(** A turn of [ProcessBinlogThread], given what the consumer returned: the text is
    sent, or not, and written to a log of its own in either case. *)
Definition ProcessBinlogThread (Gbk2Utf8 : list Z → list Z) (fuel : nat) (m_storehouse_id : string)
    (m_clientSocket : option sender) (id_garbage padding : list Z) (pData : option HEAD_GENERATE_DATA)
    : run (option sender * list (bool * string)) :=
  match pData with
  | None => Ret (m_clientSocket, [])
  | Some h =>
      match BuildSendData m_storehouse_id (Some h) with
      | inr sendMSG =>
          '(sent, m_clientSocket) ←
            client_SendMessage true Gbk2Utf8 fuel m_clientSocket MSG_TYPE_BINLOG id_garbage padding (string_bytes sendMSG);
          Ret (m_clientSocket, [(sent, sendMSG)])
      | inl _ => Undef
      end
  end.

(** Turns of its loop, each with the bytes of the header that are not set. *)
Fixpoint ProcessBinlogThread_turns (Gbk2Utf8 : list Z → list Z) (fuel : nat) (m_storehouse_id : string)
    (turns : list (list Z * list Z * option HEAD_GENERATE_DATA)) (m_clientSocket : option sender)
    : run (option sender * list (bool * string)) :=
  match turns with
  | [] => Ret (m_clientSocket, [])
  | (id_garbage, padding, pData) :: turns =>
      '(m_clientSocket, log) ←
        ProcessBinlogThread Gbk2Utf8 fuel m_storehouse_id m_clientSocket id_garbage padding pData;
      '(m_clientSocket, logs) ← ProcessBinlogThread_turns Gbk2Utf8 fuel m_storehouse_id turns m_clientSocket;
      Ret (m_clientSocket, log ++ logs)
  end.

(** ** Properties *)

(** The heads a round of the export queues. *)
Definition heads_of (l : list effect) : list HEAD_GENERATE_DATA :=
  omap (λ e, match e with ClientExport.Product h => Some h | _ => None end) l.

Definition batch_text (m_storehouse_id : string) (h : HEAD_GENERATE_DATA) : string :=
  batch_head m_storehouse_id h +:+ writeValue (batch_value h).

(** While the deque of heads is not full the heads a round queues reach the sending
    thread in order, none is lost and none waits while the thread sleeps. *)
Lemma heads_taken effects l o :
  SharedQueue.entered l = map GenerateQueues.Head (heads_of effects) →
  quiet GenerateQueues.ROWS_DATA_MAX_SIZE GenerateQueues.guarded 1 l GenerateQueues.start = true →
  GenerateQueues.run l GenerateQueues.start = Some o →
  ∃ s taken waiting, o = Next s ∧ heads_of effects = taken ++ waiting
  ∧ received 1 s = map GenerateQueues.Head taken ∧ deques s !! 1%nat = Some (map GenerateQueues.Head waiting)
  ∧ (asleep_empty s ≠ [] → waiting = []).
Proof.
  intros He Hq E. destruct (quiet_execute _ _ 1 3 l o ltac:(lia) Hq E) as (s & -> & H).
  destruct (pair_asleep _ _ _ H) as (q & Hd & Hs & Ha). rewrite He in Hs.
  apply map_eq_app in Hs as (taken & waiting & E1 & E2 & <-). exists s, taken, waiting.
  split_and!; [done..|]. intros H1. by destruct waiting; [|discriminate (Ha H1)].
Qed.

(** What the thread hands to the socket. *)
Lemma ProcessBinlogThread_text Gbk2Utf8 fuel id sock garbage padding h :
  ProcessBinlogThread Gbk2Utf8 fuel id sock garbage padding (Some h)
  = ('(sent, sock) ← client_SendMessage true Gbk2Utf8 fuel sock MSG_TYPE_BINLOG garbage padding
                       (string_bytes (batch_text id h));
     Ret (sock, [(sent, batch_text id h)])).
Proof. unfold ProcessBinlogThread. by rewrite BuildSendData_text. Qed.

(** A full deque of heads, or a datum on another deque while the sending thread
    sleeps, makes its consumer return a pointer that was never set: the producer that
    slept gives its batch up and wakes the thread, or the one condition of all deques
    wakes it.  The deque of [CMysqlQueue] comes to the first end, too. *)
Theorem export_queues_undefined h d :
  (GenerateQueues.run (fill_and_drain 1 1000 (GenerateQueues.Head h)) GenerateQueues.start = Some Undefined
   ∧ two_threads GenerateQueues.ROWS_DATA_MAX_SIZE GenerateQueues.guarded
       (fill_and_drain 1 1000 (GenerateQueues.Head h)) GenerateQueues.start = true)
  ∧ GenerateQueues.run [Enter GenerateQueues.VectorHeadConsumerDataGenerate 0;
      Enter (GenerateQueues.ProductDataGenerate d) 0; Resume 0 0] GenerateQueues.start = Some Undefined
  ∧ MysqlDataQueue.run (fill_and_drain 0 1000 d) MysqlDataQueue.start = Some Undefined.
Proof. split_and!; vm_compute; reflexivity. Qed.

(** The vectors' consumer returns an empty vector instead. *)
Lemma vector_consumer_defined i w s : GenerateQueues.guarded i = true →
  consumer_resume (A := GenerateQueues.generated) GenerateQueues.guarded i w s ≠ Some Undefined.
Proof.
  intros G. unfold consumer_resume. rewrite G.
  destruct (deques s !! i) as [[|d l]|]; cbn; [..|done]; by destruct (wakeup_full w _).
Qed.
