(* ===== verification/Dispatch.v ===== *)
(** The client's dispatch of the messages it receives: [wmsclient/wmsclient/HandlerMessage.cpp],
    and [SendStoreCode] and [SendHeartbeat] of [ClientSocketServer.cpp].

    Every message gets a thread of its own.  What a thread does is a list of effects;
    an execution receives messages and lets threads do their next effect in any
    order. *)
From S2P Require Import Prelude RowValue SharedQueue Messages.

(** ** The handler *)

Inductive client_effect :=
  | HeartbeatTimestamp
  | Heartbeat
  | StoreCode
  | QueueUpdate (header : SOCKET_MESSAGE_HEADER) (strData : list Z)
  | ConnectionState (connected : bool)
  | SocketTimer (milliseconds : Z).

Record handler := mk_handler { m_msg_header : SOCKET_MESSAGE_HEADER; m_str_data : list Z }.

Definition begin_message : list Z := string_bytes "begin".
Definition heartbeat_message : list Z := string_bytes "heartbeat".

(** The constructor, with the conversion of the text as a parameter. *)
Definition new_CHandlerMessage (Utf82Gbk : list Z → list Z) (msgHeader : SOCKET_MESSAGE_HEADER) (strData : list Z)
    : handler :=
  mk_handler msgHeader (Utf82Gbk strData).

Definition ThreadProcHandler (pInstance : handler) : list client_effect :=
  let code := code_ (m_msg_header pInstance) in
  if code =? MSG_TYPE_UPDATE_DATABASE then [Heartbeat; QueueUpdate (m_msg_header pInstance) (m_str_data pInstance)]
  else if code =? MSG_TYPE_HEART_BEAT then
    if bool_decide (m_str_data pInstance = begin_message) then [StoreCode] else [Heartbeat]
  else if code =? MSG_TYPE_CONNECT_SUCCESS then [ConnectionState true; SocketTimer 8000]
  else [].

(** The effects on the socket, and on the queue of updates. *)
Definition SendStoreCode (Gbk2Utf8 : list Z → list Z) (fuel : nat) (m_clientSocket : option sender)
    (id_garbage padding m_storehouseCode : list Z) : run (bool * option sender) :=
  client_SendMessage true Gbk2Utf8 fuel m_clientSocket MSG_TYPE_STORECODE id_garbage padding m_storehouseCode.

Definition SendHeartbeat (Gbk2Utf8 : list Z → list Z) (fuel : nat) (m_clientSocket : option sender)
    (id_garbage padding : list Z) : run (bool * option sender) :=
  match m_clientSocket with
  | None => Ret (false, None)
  | Some c => client_SendMessage true Gbk2Utf8 fuel (Some c) MSG_TYPE_HEART_BEAT id_garbage padding heartbeat_message
  end.

Definition update_call (e : client_effect) : option (call UpdateDbQueue.UPDATE_DATA) :=
  match e with QueueUpdate h d => Some (UpdateDbQueue.ProductData h d) | _ => None end.

(** ** Threads *)

(** The threads, each with the effects it has still to do, and what was done. *)
Record threads := mk_threads { running : list (list client_effect); trace : list client_effect }.

(** The receiver runs a handler, whose thread is created or not; or the [k]-th
    thread does its next effect. *)
Inductive client_step :=
  | Receive (m : handler) (created : bool)
  | Go (k : nat).

(** [Run]. *)
Definition Run (m : handler) (created : bool) (s : threads) : threads :=
  mk_threads (running s ++ if created then [ThreadProcHandler m] else []) (trace s ++ [HeartbeatTimestamp]).

Definition client_do (a : client_step) (s : threads) : option threads :=
  match a with
  | Receive m created => Some (Run m created s)
  | Go k =>
      t ← running s !! k;
      match t with
      | e :: t => Some (mk_threads (<[k := t]> (running s)) (trace s ++ [e]))
      | [] => None
      end
  end.

Fixpoint client_execute (l : list client_step) (s : threads) : option threads :=
  match l with [] => Some s | a :: l => s ← client_do a s; client_execute l s end.

Definition no_threads : threads := mk_threads [] [].

(** The updates among effects, and those of the messages whose thread was created. *)
Definition updates (l : list client_effect) : list (SOCKET_MESSAGE_HEADER * list Z) :=
  omap (λ e, match e with QueueUpdate h d => Some (h, d) | _ => None end) l.

Definition handled (l : list client_step) : list handler :=
  omap (λ a, match a with Receive m true => Some m | _ => None end) l.

Definition is_update (m : handler) : bool := code_ (m_msg_header m) =? MSG_TYPE_UPDATE_DATABASE.
Definition update_of (m : handler) : SOCKET_MESSAGE_HEADER * list Z := (m_msg_header m, m_str_data m).
Definition updates_of (l : list handler) : list (SOCKET_MESSAGE_HEADER * list Z) := map update_of (filter is_update l).

(** ** Lemmas *)

Lemma updates_app a b : updates (a ++ b) = updates a ++ updates b.
Proof. apply omap_app. Qed.

Lemma updates_handler m : updates (ThreadProcHandler m) = updates_of [m].
Proof.
  unfold ThreadProcHandler, updates_of, is_update. cbn [filter list_filter].
  destruct (code_ (m_msg_header m) =? MSG_TYPE_UPDATE_DATABASE); cbn; [done|].
  destruct (_ =? MSG_TYPE_HEART_BEAT); [by case_bool_decide|]. by destruct (_ =? MSG_TYPE_CONNECT_SUCCESS).
Qed.

Lemma updates_of_cons m l : updates_of (m :: l) = updates_of [m] ++ updates_of l.
Proof. unfold updates_of. cbn. by destruct (is_update m). Qed.

(** What the threads have done and have still to do. *)
Lemma client_do_updates a s s' : client_do a s = Some s' →
  updates (trace s') ++ updates (concat (running s'))
  ≡ₚ updates_of (handled [a]) ++ updates (trace s) ++ updates (concat (running s)).
Proof.
  destruct a as [m created|k]; cbn [client_do].
  - intros [= <-]. unfold Run. cbn [trace running]. rewrite updates_app, app_nil_r, concat_app, updates_app.
    destruct created; cbn [handled omap list_omap concat]; rewrite ?app_nil_r.
    + rewrite updates_handler. by rewrite (Permutation_app_comm (updates_of [m])), <- app_assoc.
    + done.
  - destruct (running s !! k) as [[|e t]|] eqn:E; cbn; [done| |done]. intros [= <-]. cbn [trace running].
    rewrite updates_app, <- app_assoc. apply Permutation_app_head. change (updates_of []) with (@nil (SOCKET_MESSAGE_HEADER * list Z)).
    rewrite insert_take_drop by (by eapply lookup_lt_Some).
    rewrite <- (take_drop_middle _ _ _ E) at 3. rewrite !concat_app. cbn [concat]. rewrite !updates_app. change ((e :: t) ++ ?x) with (e :: t ++ x).
    destruct e; cbn; try done. apply Permutation_middle.
Qed.

Lemma client_execute_updates l s s' : client_execute l s = Some s' →
  updates (trace s') ++ updates (concat (running s'))
  ≡ₚ updates_of (handled l) ++ updates (trace s) ++ updates (concat (running s)).
Proof.
  revert s. induction l as [|a l IH]; intros s; cbn [client_execute]; [by intros [= <-]|].
  destruct (client_do a s) as [s1|] eqn:E; cbn; [|done]. intros H. rewrite (IH s1 H).
  rewrite (client_do_updates a s s1 E), app_assoc. apply Permutation_app_tail.
  destruct a as [m []|k]; [|by rewrite app_nil_r..].
  rewrite Permutation_app_comm. apply reflexive_eq. symmetry. exact (updates_of_cons m (handled l)).
Qed.

(** ** Properties *)

(** The schedule that lets the threads end in the order [picks]: they do all but
    their last effect first. *)
Lemma run_go k e t ts tr : ts !! k = Some (e :: t) →
  client_do (Go k) (mk_threads ts tr) = Some (mk_threads (<[k := t]> ts) (tr ++ [e])).
Proof. intros E. cbn. by rewrite E. Qed.

Lemma client_execute_app l l' s : client_execute (l ++ l') s = s ← client_execute l s; client_execute l' s.
Proof.
  revert s. induction l as [|a l IH]; intros s; [done|]. cbn [app client_execute].
  destruct (client_do a s); cbn; [apply IH|done].
Qed.

(** All messages come before any thread runs. *)
Lemma receive_all ms ts tr :
  client_execute (map (λ m, Receive m true) ms) (mk_threads ts tr)
  = Some (mk_threads (ts ++ map ThreadProcHandler ms) (tr ++ replicate (length ms) HeartbeatTimestamp)).
Proof.
  revert ts tr. induction ms as [|m ms IH]; intros ts tr; cbn [map length replicate client_execute]; [by rewrite !app_nil_r|].
  cbn [client_do mbind option_bind]. unfold Run. cbn [running trace]. rewrite IH. by rewrite <- !app_assoc.
Qed.

(** The thread at [k] runs to its end. *)
Lemma run_thread k t ts tr : ts !! k = Some t →
  client_execute (replicate (length t) (Go k)) (mk_threads ts tr) = Some (mk_threads (<[k := []]> ts) (tr ++ t)).
Proof.
  revert ts tr. induction t as [|e t IH]; intros ts tr E; cbn [length replicate client_execute].
  - by rewrite list_insert_id, app_nil_r.
  - rewrite (run_go k e t) by done. cbn [mbind option_bind]. rewrite IH.
    + by rewrite list_insert_insert_eq, <- app_assoc.
    + apply list_lookup_insert_eq. by eapply lookup_lt_Some.
Qed.

(** The threads run one after the other, in the order [ks]. *)
Lemma run_threads ks ts tr : NoDup ks → (∀ k, k ∈ ks → is_Some (ts !! k)) → ∃ ts',
  client_execute (concat (map (λ k, replicate (length (default [] (ts !! k))) (Go k)) ks)) (mk_threads ts tr)
  = Some (mk_threads ts' (tr ++ concat (map (λ k, default [] (ts !! k)) ks)))
  ∧ length ts' = length ts ∧ (∀ k, ts' !! k = if bool_decide (k ∈ ks) then (λ _, []) <$> ts !! k else ts !! k).
Proof.
  revert ts tr. induction ks as [|k ks IH]; intros ts tr Hn Hk; cbn [map concat].
  { exists ts. rewrite app_nil_r. split_and!; [done..|]. intros k. by rewrite bool_decide_eq_false_2 by apply not_elem_of_nil. }
  apply NoDup_cons in Hn as [Hnin Hn]. destruct (Hk k) as [t E]; [by left|].
  rewrite client_execute_app, E. cbn [default]. rewrite (run_thread k t) by done. cbn [mbind option_bind].
  assert (∀ j, j ∈ ks → <[k := []]> ts !! j = ts !! j) as Hj
    by (intros j Hj; apply list_lookup_insert_ne; intros ->; done).
  destruct (IH (<[k := []]> ts) (tr ++ t) Hn) as (ts' & E' & L & H').
  { intros j Hjin. rewrite Hj by done. apply Hk. by right. }
  exists ts'. split_and!.
  - rewrite <- app_assoc in E'.
    assert (∀ {B} (g : nat → option (list client_effect) → B),
      map (λ j, g j (<[k := []]> ts !! j)) ks = map (λ j, g j (ts !! j)) ks) as M.
    { intros B g. apply map_ext_in. intros j Hin. rewrite Hj; [done|]. by apply list_elem_of_In. }
    rewrite (M _ (λ j t, replicate (length (default [] t)) (Go j))), (M _ (λ _ t, default [] t)) in E'. exact E'.
  - by rewrite L, length_insert.
  - intros j. rewrite H'. destruct (decide (j = k)) as [->|Hne].
    + rewrite (bool_decide_eq_false_2 (k ∈ ks)), (bool_decide_eq_true_2 (k ∈ k :: ks)) by (done || by left).
      rewrite list_lookup_insert_eq, E by (by eapply lookup_lt_Some). done.
    + rewrite list_lookup_insert_ne by done.
      rewrite (bool_decide_ext (j ∈ ks) (j ∈ k :: ks)); [done|]. rewrite elem_of_cons. tauto.
Qed.

Lemma map_lookup_seq {A} (d : A) l : map (λ k, default d (l !! k)) (seq 0 (length l)) = l.
Proof.
  induction l as [|x l IH]; [done|]. cbn [length seq map]. rewrite <- seq_shift, map_map.
  exact (f_equal (cons x) IH).
Qed.

(** An order of a list that is permuted. *)
Lemma permuted_picks {A} (d : A) (l l' : list A) : l ≡ₚ l' → ∃ ks, NoDup ks
  ∧ (∀ k, k ∈ ks ↔ (k < length l)%nat) ∧ map (λ k, default d (l !! k)) ks = l'.
Proof.
  intros H. pose proof (Permutation_length H) as Hl. symmetry in H. apply Permutation_inj in H as [_ (f & Hf & E)].
  assert (∀ i, (i < length l')%nat → (f i < length l)%nat) as Hlt.
  { intros i Hi. apply lookup_lt_is_Some. rewrite <- E. by apply lookup_lt_is_Some. }
  exists (f <$> seq 0 (length l')). assert (NoDup (f <$> seq 0 (length l'))) as Hn by (apply NoDup_fmap_2; [done|apply NoDup_seq]).
  split_and!; [done| |].
  - assert (f <$> seq 0 (length l') ≡ₚ seq 0 (length l)) as P.
    { apply submseteq_length_Permutation; [|by rewrite length_fmap, !length_seq; lia].
      apply NoDup_submseteq; [done|]. intros k (i & -> & Hi)%list_elem_of_fmap.
      apply elem_of_seq in Hi. apply elem_of_seq. specialize (Hlt i). lia. }
    intros k. rewrite P, elem_of_seq. lia.
  - change (f <$> ?s) with (map f s). rewrite map_map. etrans; [|apply (map_lookup_seq d)].
    apply map_ext. intros i. by rewrite E.
Qed.

Lemma updates_of_threads ms : updates (concat (map ThreadProcHandler ms)) = updates_of ms.
Proof.
  induction ms as [|m ms IH]; [done|]. cbn [map concat]. by rewrite updates_app, IH, updates_handler, <- updates_of_cons.
Qed.

Lemma updates_timestamps n : updates (replicate n HeartbeatTimestamp) = [].
Proof. by induction n. Qed.

Lemma handled_schedule ms l : Forall (λ a, match a with Go _ => True | _ => False end) l →
  handled (map (λ m, Receive m true) ms ++ l) = ms.
Proof.
  intros H. unfold handled. rewrite omap_app. transitivity (ms ++ []); [|apply app_nil_r]. f_equal.
  - induction ms as [|m ms IH]; [done|]. cbn. by rewrite <- IH at 2.
  - induction H as [|[] l Ha _ IH]; done.
Qed.

(** C24: a thread for every message: whatever the schedule, each update whose thread
    was created is queued exactly once when the threads have ended; but the updates
    may be queued in any order whatever of those that were received. *)
Theorem updates_reordered :
  (∀ l s, client_execute l no_threads = Some s → Forall (λ t, t = []) (running s) →
     updates (trace s) ≡ₚ updates_of (handled l))
  ∧ (∀ ms ms', ms ≡ₚ ms' → ∃ l s, client_execute l no_threads = Some s ∧ Forall (λ t, t = []) (running s)
     ∧ handled l = ms ∧ updates (trace s) = updates_of ms').
Proof.
  split.
  - intros l s E Hr. pose proof (client_execute_updates l no_threads s E) as H. cbn in H. rewrite app_nil_r in H.
    assert (concat (running s) = []) as E0. { clear -Hr. by induction Hr as [|t ts -> _ IH]. }
    by rewrite E0, app_nil_r in H.
  - intros ms ms' Hp. set (ts := map ThreadProcHandler ms).
    destruct (permuted_picks [] ts (map ThreadProcHandler ms')) as (ks & Hn & Hk & E).
    { by apply Permutation_map. }
    destruct (run_threads ks ts (replicate (length ms) HeartbeatTimestamp) Hn) as (ts' & E' & L & H').
    { intros k Hin. by apply lookup_lt_is_Some, Hk. }
    set (l := concat (map (λ k, replicate (length (default [] (ts !! k))) (Go k)) ks)) in E'.
    exists (map (λ m, Receive m true) ms ++ l). eexists. split_and!.
    + rewrite client_execute_app. unfold no_threads. rewrite receive_all. exact E'.
    + apply Forall_lookup. intros k t Ht. cbn [running] in Ht. rewrite H' in Ht.
      destruct (bool_decide_reflect (k ∈ ks)) as [Hin|Hin].
      * destruct (ts !! k); [by injection Ht as <-|done].
      * exfalso. apply Hin, Hk. by eapply lookup_lt_Some.
    + apply handled_schedule. apply Forall_concat, Forall_map, Forall_forall. intros k _. by apply Forall_replicate.
    + cbn [trace]. by rewrite updates_app, E, updates_of_threads, updates_timestamps.
Qed.

Lemma updates_reordered_witness :
  let m i := mk_handler (mk_message_header MSG_TYPE_UPDATE_DATABASE 0 []) [i] in
  ∃ l s, client_execute l no_threads = Some s ∧ handled l = [m 1; m 2]
  ∧ updates (trace s) = [(mk_message_header MSG_TYPE_UPDATE_DATABASE 0 [], [2]);
                         (mk_message_header MSG_TYPE_UPDATE_DATABASE 0 [], [1])].
Proof.
  intros m. destruct (proj2 updates_reordered [m 1; m 2] [m 2; m 1]) as (l & s & E & _ & H1 & H2).
  - apply Permutation_swap.
  - by exists l, s.
Defined.
