(* ===== verification/Connection.v ===== *)
(** The client's connection: the attempts and the loop of the receiving thread
    ([wmsclient/wmsclient/ClientSocketServer.cpp]), the time stamp and the timer of
    [RefreshUI.cpp], and the reaction to the timer in [wmsclientDlg.cpp]; and how they
    meet the server's registration of stores.

    The receiving thread, the threads of the handlers ([Dispatch]) and the window's
    thread take their steps in any order. *)
From S2P Require Import Prelude SharedQueue Messages SocketServer Dispatch.

(** ** Attempts *)

(** The seconds to sleep after a failed attempt, and those of the next. *)
Definition backoff (nsec : Z) : Z := if 32 <=? nsec then 1 else nsec.
Definition next_backoff (nsec : Z) : Z := s32 (Z.shiftl (backoff nsec) 1).

(** The loop, given whether each [connect] succeeds: the milliseconds slept, and
    whether it ended. *)
Fixpoint connect_loop (nsec : Z) (results : list bool) : list Z * bool :=
  match results with
  | [] => ([], false)
  | true :: _ => ([], true)
  | false :: results =>
      let '(slept, ok) := connect_loop (next_backoff nsec) results in (backoff nsec * 1000 :: slept, ok)
  end.

(** ** The state *)

Inductive phase :=
  | Starting
  | Connecting (nsec : Z)
  | Looping
  | Receiving
  | Ended.

(** [Looping] is in front of the test of [m_bServerRun], [Receiving] behind it;
    [terminating] while the window's thread sleeps in [TerminateServer]; the socket of
    a thread has its number, which counts the threads started. *)
Record client_state := mk_client_state {
  m_lastHeartbeatTimestamp : Z;
  socket_timer : option Z;
  shown_connected : bool;
  terminating : bool;
  m_bServerRun : bool;
  server_thread : phase;
  m_clientSocket : option nat;
  threads_started : nat;
  open_sockets : list nat;
  handlers : threads;
}.

Definition with_timestamp (tm : Z) (s : client_state) : client_state :=
  mk_client_state tm (socket_timer s) (shown_connected s) (terminating s) (m_bServerRun s) (server_thread s)
    (m_clientSocket s) (threads_started s) (open_sockets s) (handlers s).
Definition with_timer (t : option Z) (s : client_state) : client_state :=
  mk_client_state (m_lastHeartbeatTimestamp s) t (shown_connected s) (terminating s) (m_bServerRun s) (server_thread s)
    (m_clientSocket s) (threads_started s) (open_sockets s) (handlers s).
Definition with_shown (b : bool) (s : client_state) : client_state :=
  mk_client_state (m_lastHeartbeatTimestamp s) (socket_timer s) b (terminating s) (m_bServerRun s) (server_thread s)
    (m_clientSocket s) (threads_started s) (open_sockets s) (handlers s).
Definition with_thread (p : phase) (s : client_state) : client_state :=
  mk_client_state (m_lastHeartbeatTimestamp s) (socket_timer s) (shown_connected s) (terminating s) (m_bServerRun s) p
    (m_clientSocket s) (threads_started s) (open_sockets s) (handlers s).
Definition with_open (l : list nat) (s : client_state) : client_state :=
  mk_client_state (m_lastHeartbeatTimestamp s) (socket_timer s) (shown_connected s) (terminating s) (m_bServerRun s)
    (server_thread s) (m_clientSocket s) (threads_started s) l (handlers s).
Definition with_handlers (h : threads) (s : client_state) : client_state :=
  mk_client_state (m_lastHeartbeatTimestamp s) (socket_timer s) (shown_connected s) (terminating s) (m_bServerRun s)
    (server_thread s) (m_clientSocket s) (threads_started s) (open_sockets s) h.

(** ** The window *)

Definition SetHeartbeatTimestamp (tm : Z) (s : client_state) : client_state := with_timestamp tm s.
Definition ChangeConnectionState_to (isConnection : bool) (s : client_state) : client_state := with_shown isConnection s.
Definition ChangeConnectionState (newTm : Z) (s : client_state) : bool * client_state :=
  if 16 <? newTm - m_lastHeartbeatTimestamp s then (false, ChangeConnectionState_to false s)
  else (true, ChangeConnectionState_to true s).
Definition BeginSocketTimer (senconds : Z) (s : client_state) : client_state := with_timer (Some senconds) s.
Definition StopSocketTimer (s : client_state) : client_state := with_timer None s.

(** ** The receiving thread *)

(** [SetSocket] with the thread's socket, and the flag. *)
Definition connected (s : client_state) : client_state :=
  mk_client_state (m_lastHeartbeatTimestamp s) (socket_timer s) (shown_connected s) (terminating s) true Looping
    (Some (threads_started s)) (threads_started s) (open_sockets s) (handlers s).

(** The end of [ThreadProcServer]: the thread closes its own socket. *)
Definition thread_end (s : client_state) : client_state :=
  with_thread Ended (with_open (filter (λ n, n ≠ threads_started s) (open_sockets s)) s).

(** [Run] of the connection; it throws when the thread is not created. *)
Definition start_thread (created : bool) (s : client_state) : client_state :=
  if created then
    mk_client_state (m_lastHeartbeatTimestamp s) (socket_timer s) (shown_connected s) (terminating s) (m_bServerRun s) Starting
      (m_clientSocket s) (S (threads_started s)) (open_sockets s) (handlers s)
  else s.

(** [TerminateServer] before and behind its [Sleep]: a thread that is terminated does
    not close its socket. *)
Definition TerminateServer_begin (s : client_state) : client_state :=
  mk_client_state (m_lastHeartbeatTimestamp s) (socket_timer s) (shown_connected s) true false (server_thread s)
    (m_clientSocket s) (threads_started s) (open_sockets s) (handlers s).
Definition TerminateServer_end (s : client_state) : client_state :=
  mk_client_state (m_lastHeartbeatTimestamp s) (socket_timer s) (shown_connected s) false (m_bServerRun s) Ended
    (m_clientSocket s) (threads_started s) (open_sockets s) (handlers s).

(** What [SendMessage] does when it fails, whichever thread calls it ([Messages] says
    when): the socket is closed and forgotten; the receiving thread keeps its own
    copy of it. *)
Definition send_failed (s : client_state) : client_state :=
  mk_client_state (m_lastHeartbeatTimestamp s) (socket_timer s) (shown_connected s) (terminating s) (m_bServerRun s)
    (server_thread s) None (threads_started s)
    (filter (λ n, Some n ≠ m_clientSocket s) (open_sockets s)) (handlers s).

(** The message of the timer, as far as the [Sleep]. *)
Definition OnTimer (now : Z) (s : client_state) : client_state :=
  let '(ok, s) := ChangeConnectionState now s in
  if (ok : bool) then s else TerminateServer_begin (StopSocketTimer s).

(** What a handler's thread does to the window; the rest goes to the socket and the
    queue of updates. *)
Definition handler_effect (e : client_effect) (s : client_state) : client_state :=
  match e with
  | ConnectionState b => ChangeConnectionState_to b s
  | SocketTimer ms => BeginSocketTimer ms s
  | _ => s
  end.

Inductive connection_event :=
  | Timer (now : Z)
  | Terminated (created : bool)
  | Socket (ok : bool)
  | Attempt (ok : bool)
  | Test
  | Turn (t : turn) (now : Z) (created : bool)
  | HandlerStep (k : nat)
  | SendFails.

(** A step of a thread, where it stands there. *)
Definition connection_do (Utf82Gbk : list Z → list Z) (a : connection_event) (s : client_state) : option client_state :=
  match a, server_thread s with
  | Timer now, _ => if bool_decide (is_Some (socket_timer s)) && negb (terminating s) then Some (OnTimer now s) else None
  | Terminated created, _ => if terminating s then Some (start_thread created (TerminateServer_end s)) else None
  | Socket ok, Starting =>
      Some (if ok then with_thread (Connecting 1) (with_open (open_sockets s ++ [threads_started s]) s)
            else with_thread Ended s)
  | Attempt ok, Connecting nsec => Some (if ok then connected s else with_thread (Connecting (next_backoff nsec)) s)
  | Test, Looping => Some (if m_bServerRun s then with_thread Receiving s else thread_end s)
  | Turn t now created, Receiving =>
      Some (match t with
            | Break => thread_end s
            | Continue => with_thread Looping s
            | Message msgHeader pBuf =>
                SetHeartbeatTimestamp now
                  (with_handlers (Run (new_CHandlerMessage Utf82Gbk msgHeader pBuf) created (handlers s))
                    (with_thread Looping s))
            end)
  | HandlerStep k, _ =>
      t ← running (handlers s) !! k;
      e ← head t;
      h ← client_do (Go k) (handlers s);
      Some (handler_effect e (with_handlers h s))
  | SendFails, _ => Some (send_failed s)
  | _, _ => None
  end.

Fixpoint connection_run (Utf82Gbk : list Z → list Z) (l : list connection_event) (s : client_state) : option client_state :=
  match l with [] => Some s | a :: l => s ← connection_do Utf82Gbk a s; connection_run Utf82Gbk l s end.

(** ** Attempts: 1, 2, 4, 8, 16 seconds, and again *)

Lemma connect_loop_sleeps n j rest : 0 <= j <= 5 →
  connect_loop (2 ^ j) (replicate n false ++ true :: rest)
  = (map (λ i, 1000 * 2 ^ ((j + Z.of_nat i) mod 5)) (seq 0 n), true).
Proof.
  revert j. induction n as [|n IH]; intros j Hj; [done|]. cbn [replicate app connect_loop].
  assert (backoff (2 ^ j) = 2 ^ (j mod 5) ∧ next_backoff (2 ^ j) = 2 ^ (j mod 5 + 1)) as [-> ->].
  { assert (j = 0 ∨ j = 1 ∨ j = 2 ∨ j = 3 ∨ j = 4 ∨ j = 5) as H by lia.
    destruct H as [->|[->|[->|[->|[->| ->]]]]]; by vm_compute. }
  pose proof (Z.mod_pos_bound j 5 ltac:(lia)). rewrite (IH (j mod 5 + 1)) by lia.
  cbn [seq map]. f_equal. f_equal; [rewrite Z.add_0_r; lia|].
  rewrite <- seq_shift, map_map. apply map_ext. intros i. do 2 f_equal.
  rewrite <- Z.add_assoc, Zplus_mod_idemp_l. f_equal. lia.
Qed.

(** ** What reaches a client *)

(** The messages sent over an open connection of the object at an address. *)
Definition heard (addr : Z) : list effect → list (Z * list Z) :=
  omap (λ e,
    let to c m := if (address c =? addr) && negb (m_client_socket c =? 0) then Some m else None in
    match e with
    | Send c header strData => to c (code_ header, strData)
    | SendTyped c type strData => to c (type, strData)
    | _ => None
    end).

Definition closed_at (addr : Z) (s : SocketServer) : Prop :=
  Forall (λ c, address c = addr → m_client_socket c = 0) (m_clients s).

Definition silent (addr : Z) (s s' : SocketServer) : Prop :=
  closed_at addr s' ∧ ∃ new, effects s' = effects s ++ new ∧ heard addr new = [].

Definition elsewhere (addr : Z) (e : event) : Prop :=
  match e with
  | Accept a _ _ _ | Connect a _ _ | Handle a _ _ _ => a ≠ addr
  | _ => True
  end.

Lemma heard_app addr l l' : heard addr (l ++ l') = heard addr l ++ heard addr l'.
Proof. apply omap_app. Qed.

Lemma silent_refl addr s : closed_at addr s → silent addr s s.
Proof. intros H. split; [done|]. exists []. by rewrite app_nil_r. Qed.

Lemma silent_trans addr s1 s2 s3 : silent addr s1 s2 → silent addr s2 s3 → silent addr s1 s3.
Proof.
  intros [_ (n1 & E1 & H1)] [C (n2 & E2 & H2)]. split; [done|]. exists (n1 ++ n2).
  by rewrite E2, E1, <- app_assoc, heard_app, H1, H2.
Qed.

Lemma heard_closed addr s new : closed_at addr s → Forall (from_server s) new → heard addr new = [].
Proof.
  intros C. induction 1 as [|e new He _ IH]; [done|]. destruct e as [c h d| | | |]; cbn in *; try done.
  destruct (Z.eqb_spec (address c) addr) as [Ha|]; [|done].
  by rewrite (proj1 (Forall_forall _ _) C c He Ha).
Qed.

Lemma emits_silent addr s s' : closed_at addr s → emits s s' → silent addr s s'.
Proof. intros C (new & -> & F). split; [done|]. exists new. split; [done|]. by eapply heard_closed. Qed.

Lemma client_at_in s addr c : client_at s addr = Some c → c ∈ m_clients s ∧ address c = addr.
Proof. intros (l1 & l2 & -> & <-)%client_at_Some. split; [|done]. apply elem_of_app. right. left. Qed.

(** A step of the thread of another object. *)
Lemma update_closed addr s c : closed_at addr s → address c ≠ addr → closed_at addr (update_client s c).
Proof.
  intros C Hc. unfold closed_at, update_client. cbn [with_clients m_clients]. apply Forall_map.
  eapply Forall_impl; [exact C|]. cbn. intros x Hx. by destruct (Z.eqb_spec (address x) (address c)).
Qed.

Lemma update_silent addr s c : closed_at addr s → address c ≠ addr → silent addr s (update_client s c).
Proof. intros C Hc. split; [by apply update_closed|]. exists []. by rewrite app_nil_r. Qed.

Lemma emit_silent addr s new : closed_at addr s → heard addr new = [] → silent addr s (emit s new).
Proof. intros C H. split; [done|]. by exists new. Qed.

Lemma heard_other addr c type text : address c ≠ addr → heard addr [SendTyped c type text] = [].
Proof. intros H. cbn. by destruct (Z.eqb_spec (address c) addr). Qed.

Lemma handler_silent addr s c code text now : closed_at addr s → address c ≠ addr →
  silent addr s (snd (handlerMessage s c code text now)).
Proof.
  intros C Hc. assert (U : ∀ c', address c' = address c → silent addr s (update_client s c')).
  { intros c' E. apply update_silent; [done|by rewrite E]. }
  unfold handlerMessage. destruct (code =? MSG_TYPE_STORECODE).
  - case_bool_decide; [by apply silent_refl|]. destruct (checkClientsIdExist s text); [by apply silent_refl|].
    cbn [snd]. destruct (U (mk_client (address c) text (m_ip c) (m_client_socket c) now) eq_refl) as [C' He]. by split.
  - destruct (code =? MSG_TYPE_HEART_BEAT); [by apply U|]. destruct (code =? MSG_TYPE_BINLOG); [|by apply silent_refl].
    case_bool_decide; [by apply silent_refl|]. split; [done|]. by eexists.
Qed.

Lemma connect_silent addr s a received now s' : closed_at addr s → a ≠ addr →
  connect_client s a received now = Some s' → silent addr s s'.
Proof.
  intros C Ha. unfold connect_client. destruct (client_at s a) as [c|] eqn:E; cbn [mbind option_bind]; [|done].
  apply client_at_in in E as [_ E]. assert (Hc : address c ≠ addr) by congruence.
  assert (K : ∀ s1, silent addr s s1 →
    silent addr s (emit (update_client s1 (fst (destorySocket c))) (snd (destorySocket c)))).
  { intros s1 S1. eapply silent_trans; [exact S1|]. destruct S1 as [C1 _].
    eapply silent_trans; [apply (update_silent addr s1 (fst (destorySocket c))); [done|]; unfold destorySocket;
      by destruct (m_client_socket c =? 0)|].
    apply emit_silent; [apply update_closed; [done|]; unfold destorySocket; by destruct (m_client_socket c =? 0)|].
    unfold destorySocket. by destruct (m_client_socket c =? 0). }
  assert (B : silent addr s (emit s [SendTyped c MSG_TYPE_HEART_BEAT begin_text]))
    by (apply emit_silent; [done|by apply heard_other]).
  unfold initConnect. destruct received as [[header text]|].
  - destruct (code_ header =? MSG_TYPE_STORECODE).
    + pose proof (handler_silent addr (emit s [SendTyped c MSG_TYPE_HEART_BEAT begin_text]) c (code_ header) text now
        (proj1 B) Hc) as H. destruct (handlerMessage _ c (code_ header) text now) as [[] s1]; cbn [snd] in H.
      * intros [= <-]. eapply silent_trans; [exact B|]. eapply silent_trans; [exact H|].
        apply emit_silent; [apply H|by apply heard_other].
      * destruct (destorySocket c) as [c' cl] eqn:D. intros [= <-]. apply (K s1). by eapply silent_trans.
    + destruct (destorySocket c) as [c' cl] eqn:D. intros [= <-]. by apply K.
  - destruct (destorySocket c) as [c' cl] eqn:D. intros [= <-]. by apply K.
Qed.

Lemma silent_from addr s s1 s2 new : effects s1 = effects s ++ new → heard addr new = [] → silent addr s1 s2 → silent addr s s2.
Proof.
  intros E1 H1 [C (n & E2 & H2)]. split; [done|]. exists (new ++ n). by rewrite E2, E1, <- app_assoc, heard_app, H1, H2.
Qed.

Lemma heartbeat_silent addr est newTime todo kept s :
  Forall (λ c, address c = addr → m_client_socket c = 0) (kept ++ todo) →
  silent addr s (heartbeat_loop est newTime kept todo s).
Proof.
  revert kept s. induction todo as [|c todo IH]; intros kept s C; cbn [heartbeat_loop].
  - rewrite app_nil_r in C. split; [done|]. exists []. by rewrite app_nil_r.
  - pose proof C as Ck. rewrite Forall_app, Forall_cons in Ck. destruct Ck as (Ck & Cc & Ct).
    destruct (negb (est c) || _).
    + apply (silent_from addr s (removeClient s c) _ (snd (destorySocket c))).
      * unfold removeClient, destorySocket. destruct (m_client_socket c =? 0); by case_bool_decide.
      * unfold destorySocket. by destruct (m_client_socket c =? 0).
      * apply IH. by apply Forall_app.
    + apply (silent_from addr s (removeDisconnectStore (emit s [SendTyped c MSG_TYPE_HEART_BEAT hello_text]) (m_client_id c))
        _ [SendTyped c MSG_TYPE_HEART_BEAT hello_text]); [done| |].
      * cbn. destruct (Z.eqb_spec (address c) addr) as [Ha|]; [|done]. by rewrite Cc.
      * apply IH. by rewrite <- app_assoc.
Qed.

(** Nothing more comes over a closed connection. *)
Lemma exec_silent addr e s s' : closed_at addr s → elsewhere addr e → exec e s = Some s' → silent addr s s'.
Proof.
  intros C He E. destruct e as [a socket ip now|a received now|a header text now|est newTime
    |fuel header type storeCode strData|header type storeCode strData]; cbn [exec elsewhere] in *.
  - unfold accept_client in E. destruct (client_at s a); [done|].
    destruct (checkClientsIpExist s ip); injection E as <-; [by apply silent_refl|].
    split; [|exists []; by rewrite app_nil_r]. unfold closed_at, addClient. cbn. apply Forall_app. split; [done|].
    by repeat constructor.
  - by eapply connect_silent.
  - destruct (client_at s a) as [c|] eqn:Hc; [|done]. injection E as <-. apply client_at_in in Hc as [_ Hc].
    apply handler_silent; [done|congruence].
  - injection E as <-. by apply heartbeat_silent.
  - destruct (dispatchMessage fuel s header type storeCode strData) as [s1| |] eqn:D; [|done..]. injection E as <-.
    apply emits_silent; [done|]. by eapply dispatch_emits.
  - injection E as <-. apply emits_silent; [done|]. apply dispatch_one_emits.
Qed.

Lemma exec_all_silent addr l s s' : closed_at addr s → Forall (elsewhere addr) l → exec_all l s = Some s' → silent addr s s'.
Proof.
  intros C H. revert s C. induction H as [|e l He _ IH]; intros s C E; cbn [exec_all] in E.
  - injection E as <-. by apply silent_refl.
  - destruct (exec e s) as [s1|] eqn:E1; cbn in E; [|done]. pose proof (exec_silent addr e s s1 C He E1) as S1.
    eapply silent_trans; [exact S1|]. apply IH; [apply S1|done].
Qed.

(** ** A store that is still registered *)

(** The server closes the connection of a client whose store it knows already: only
    its greeting has gone to it. *)
Lemma refused s addr c header store now : client_at s addr = Some c → m_client_socket c ≠ 0 →
  code_ header = MSG_TYPE_STORECODE → store ≠ [] → checkClientsIdExist s store = true →
  ∃ s1 new, connect_client s addr (Some (header, store)) now = Some s1 ∧ closed_at addr s1
  ∧ effects s1 = effects s ++ new ∧ heard addr new = [(MSG_TYPE_HEART_BEAT, begin_text)].
Proof.
  intros Hc Hs Hh Hst Hex. apply client_at_in in Hc as Ha. destruct Ha as [_ Ha].
  unfold connect_client. rewrite Hc. cbn [mbind option_bind]. unfold initConnect. rewrite Hh. cbn [Z.eqb].
  unfold handlerMessage. rewrite bool_decide_eq_false_2 by done.
  change (checkClientsIdExist (emit s _) store) with (checkClientsIdExist s store). rewrite Hex.
  change (MSG_TYPE_STORECODE =? MSG_TYPE_STORECODE) with true. cbn match.
  unfold destorySocket. apply Z.eqb_neq in Hs as Hs'. rewrite Hs'. cbn [negb].
  eexists _, [SendTyped c MSG_TYPE_HEART_BEAT begin_text; Close c]. split; [done|]. split; [|split].
  - unfold closed_at. cbn [emit update_client with_clients m_clients]. apply Forall_map, Forall_forall. intros x _ Hx.
    destruct (Z.eqb_spec (address x) (address (set_socket c 0))) as [|Hn]; [done|]. cbn in Hn. congruence.
  - cbn. by rewrite <- app_assoc.
  - cbn. by rewrite Ha, Z.eqb_refl, Hs'.
Qed.

(** A client whose store it does not know is told that it is connected. *)
Lemma accepted s addr c header store now : client_at s addr = Some c → m_client_socket c ≠ 0 →
  code_ header = MSG_TYPE_STORECODE → store ≠ [] → checkClientsIdExist s store = false →
  ∃ s1 new, connect_client s addr (Some (header, store)) now = Some s1
  ∧ effects s1 = effects s ++ new
  ∧ heard addr new = [(MSG_TYPE_HEART_BEAT, begin_text); (MSG_TYPE_CONNECT_SUCCESS, server_text)].
Proof.
  intros Hc Hs Hh Hst Hex. apply client_at_in in Hc as Ha. destruct Ha as [_ Ha].
  unfold connect_client. rewrite Hc. cbn [mbind option_bind]. unfold initConnect. rewrite Hh. cbn [Z.eqb].
  unfold handlerMessage. rewrite bool_decide_eq_false_2 by done.
  change (checkClientsIdExist (emit s _) store) with (checkClientsIdExist s store). rewrite Hex.
  change (MSG_TYPE_STORECODE =? MSG_TYPE_STORECODE) with true. cbn match.
  eexists _, [SendTyped c MSG_TYPE_HEART_BEAT begin_text; SendTyped c MSG_TYPE_CONNECT_SUCCESS server_text].
  split; [done|]. split; [cbn; by rewrite <- app_assoc|]. apply Z.eqb_neq in Hs. cbn. by rewrite Ha, Z.eqb_refl, Hs.
Qed.

(** ** The client's timer *)

Definition sets_no_timer (e : client_effect) : Prop := match e with SocketTimer _ => False | _ => True end.

(** The timer is off and no handler is about to set it. *)
Definition timer_off (s : client_state) : Prop :=
  socket_timer s = None ∧ Forall sets_no_timer (concat (running (handlers s))).

(** The threads started, with the one that is about to be. *)
Definition threads_due (s : client_state) : nat := threads_started s + (if terminating s then 1 else 0).

(** A confirmation of the connection that is received is among [l]. *)
Definition confirmed_by (l : list (Z * list Z)) (a : connection_event) : Prop :=
  match a with
  | Turn (Message h text) _ _ => code_ h = MSG_TYPE_CONNECT_SUCCESS → (code_ h, text) ∈ l
  | _ => True
  end.

Lemma handler_sets_no_timer m : code_ (m_msg_header m) ≠ MSG_TYPE_CONNECT_SUCCESS →
  Forall sets_no_timer (ThreadProcHandler m).
Proof.
  intros H. unfold ThreadProcHandler. destruct (_ =? MSG_TYPE_UPDATE_DATABASE); [by repeat constructor|].
  destruct (_ =? MSG_TYPE_HEART_BEAT); [case_bool_decide; by repeat constructor|].
  destruct (Z.eqb_spec (code_ (m_msg_header m)) MSG_TYPE_CONNECT_SUCCESS); [done|constructor].
Qed.

Lemma handler_step_off k t e h s : Forall sets_no_timer (concat (running (handlers s))) →
  running (handlers s) !! k = Some t → head t = Some e → client_do (Go k) (handlers s) = Some h →
  sets_no_timer e ∧ Forall sets_no_timer (concat (running h)).
Proof.
  intros F Hk He. destruct t as [|e' t]; [done|]. injection He as ->. cbn [client_do]. rewrite Hk. cbn.
  intros [= <-]. cbn [running]. rewrite <- (take_drop_middle _ _ _ Hk) in F. rewrite concat_app, Forall_app in F.
  destruct F as [F1 F2]. cbn [concat] in F2. change ((e :: t) ++ ?x) with (e :: t ++ x) in F2.
  apply Forall_cons in F2 as [Fe F2]. split; [done|].
  rewrite insert_take_drop by (by eapply lookup_lt_Some). rewrite concat_app. apply Forall_app. by split.
Qed.

Lemma connection_do_off Utf82Gbk a s s' l : timer_off s → confirmed_by l a →
  (∀ text, (MSG_TYPE_CONNECT_SUCCESS, text) ∉ l) → connection_do Utf82Gbk a s = Some s' →
  timer_off s' ∧ (threads_due s' ≤ threads_due s)%nat.
Proof.
  intros [Ht Hf] Ha Hl E. unfold threads_due, timer_off in *. destruct a as [now|created|ok|ok| |t now created|k|];
    cbn [connection_do] in E.
  - rewrite Ht in E. by destruct (server_thread s).
  - destruct (terminating s) eqn:T; [|by destruct (server_thread s)].
    assert (s' = start_thread created (TerminateServer_end s)) as -> by (destruct (server_thread s); congruence).
    destruct created; cbn; split; try done; lia.
  - destruct (server_thread s); try done. injection E as <-. by destruct ok.
  - destruct (server_thread s); try done. injection E as <-. by destruct ok.
  - destruct (server_thread s); try done. injection E as <-. by destruct (m_bServerRun s).
  - destruct (server_thread s); try done. injection E as <-. destruct t as [| |h text]; try done.
    split; [|done]. split; [done|]. cbn. destruct created; rewrite ?app_nil_r; [|done].
    rewrite concat_app. apply Forall_app. split; [done|]. cbn [concat]. rewrite app_nil_r. apply handler_sets_no_timer.
    cbn. cbn in Ha. intros Hc. apply (Hl text). rewrite <- Hc at 1. by apply Ha.
  - destruct (running (handlers s) !! k) as [t|] eqn:Hk; cbn [mbind option_bind] in E; [|done].
    destruct (head t) as [e|] eqn:He; cbn [mbind option_bind] in E; [|done].
    destruct (client_do (Go k) (handlers s)) as [h|] eqn:Hd; cbn [mbind option_bind] in E; [|done]. injection E as <-.
    destruct (handler_step_off k t e h s Hf Hk He Hd) as [He' Hh]. by destruct e.
  - assert (s' = send_failed s) as -> by (destruct (server_thread s); congruence). by split.
Qed.

Lemma connection_run_off Utf82Gbk es s s' l : timer_off s → Forall (confirmed_by l) es →
  (∀ text, (MSG_TYPE_CONNECT_SUCCESS, text) ∉ l) → connection_run Utf82Gbk es s = Some s' →
  timer_off s' ∧ (threads_due s' ≤ threads_due s)%nat.
Proof.
  intros Hs Hes Hl. revert s Hs. induction Hes as [|a es Ha _ IH]; intros s Hs E; cbn [connection_run] in E.
  - by injection E as <-.
  - destruct (connection_do Utf82Gbk a s) as [s1|] eqn:E1; cbn [mbind option_bind] in E; [|done].
    destruct (connection_do_off Utf82Gbk a s s1 l Hs Ha Hl E1) as [H1 L1]. destruct (IH s1 H1 E) as [H2 L2].
    split; [done|lia].
Qed.

(** C10: a store that comes back too early is lost for good.  The client, whose timer
    sees that nothing has come for more than 16 seconds, stops the timer and starts a
    thread that connects again; if the server, which waits for 18 seconds, still has
    the store registered, it sends its greeting and closes the connection.  Whatever
    the server does afterwards nothing reaches the client; and whatever the client
    does, in any order of its threads and with any delays, it starts no other thread
    and its timer stays off, so that it never connects again. *)
Theorem refused_client_never_retries s addr c header store now :
  client_at s addr = Some c → m_client_socket c ≠ 0 →
  code_ header = MSG_TYPE_STORECODE → store ≠ [] → checkClientsIdExist s store = true →
  ∃ s1 new, connect_client s addr (Some (header, store)) now = Some s1
  ∧ effects s1 = effects s ++ new ∧ heard addr new = [(MSG_TYPE_HEART_BEAT, begin_text)]
  ∧ ∀ l s2, Forall (elsewhere addr) l → exec_all l s1 = Some s2 →
  ∃ more, effects s2 = effects s1 ++ more ∧ heard addr more = []
  ∧ ∀ Utf82Gbk tick es k k', socket_timer k ≠ None → terminating k = false →
      Forall sets_no_timer (concat (running (handlers k))) → 16 < tick - m_lastHeartbeatTimestamp k →
      Forall (confirmed_by (heard addr (new ++ more))) es →
      connection_run Utf82Gbk (Timer tick :: es) k = Some k' →
      socket_timer k' = None ∧ (threads_started k' ≤ S (threads_started k))%nat.
Proof.
  intros Hc Hs Hh Hst Hex. destruct (refused s addr c header store now Hc Hs Hh Hst Hex) as (s1 & new & E & C & En & Hn).
  exists s1, new. split_and!; [done..|]. intros l s2 Hl El.
  destruct (exec_all_silent addr l s1 s2 C Hl El) as [_ (more & Em & Hm)]. exists more. split_and!; [done..|].
  intros Utf82Gbk tick es k k' Ht Hterm Hf Hsil Hes Ek. rewrite heard_app, Hn, Hm in Hes.
  cbn [connection_run connection_do] in Ek. rewrite bool_decide_eq_true_2, Hterm in Ek by (by destruct (socket_timer k); [eexists|]).
  cbn [andb negb] in Ek. unfold OnTimer, ChangeConnectionState in Ek.
  destruct (Z.ltb_spec 16 (tick - m_lastHeartbeatTimestamp k)); [|lia]. cbn [mbind option_bind] in Ek.
  match type of Ek with connection_run _ _ ?k1 = _ => set (k0 := k1) in Ek end.
  destruct (connection_run_off Utf82Gbk es k0 k' _ (conj eq_refl Hf : timer_off k0) Hes) as [[H1 _] H2];
    [|exact Ek|].
  - intros text [[=]|[]%elem_of_nil]%elem_of_cons.
  - split; [done|]. unfold threads_due in H2. cbn in H2. lia.
Qed.

(** The server still has the store at another address; the window's thread terminates
    the old thread, whose socket stays open; the new one connects at the second
    attempt and answers the greeting. *)
Lemma refused_client_never_retries_witness :
  let store := [83; 49] in
  let s := mk_server [mk_client 1 store [] 5 100; mk_client 2 [] [] 6 122] [] [] in
  let k := mk_client_state 100 (Some 8000) true false true Receiving (Some 1%nat) 1 [1%nat] no_threads in
  let greeting := Message (mk_message_header MSG_TYPE_HEART_BEAT 49 []) begin_text in
  let es := [Terminated true; Socket true; Attempt false; Attempt true; Test; Turn greeting 124 true; HandlerStep 0;
             Test; SendFails; Turn Continue 125 true; Test] in
  ∃ s1 k', connect_client s 2 (Some (mk_message_header MSG_TYPE_STORECODE 46 [], store)) 123 = Some s1
  ∧ connection_run (λ l, l) (Timer 120 :: es) k = Some k'
  ∧ (socket_timer k' = None ∧ (threads_started k' ≤ 2)%nat) ∧ open_sockets k' = [1%nat].
Proof.
  intros store s k greeting es.
  destruct (refused_client_never_retries s 2 (mk_client 2 [] [] 6 122) (mk_message_header MSG_TYPE_STORECODE 46 []) store 123)
    as (s1 & new & E1 & En & Hn & H); [by vm_compute..|].
  destruct (H [SocketServer.Heartbeat (λ c, negb (m_client_socket c =? 0)) (λ _, 126)]
    (default s1 (exec (SocketServer.Heartbeat (λ c, negb (m_client_socket c =? 0)) (λ _, 126)) s1))) as (more & Em & Hm & K).
  - by repeat constructor.
  - by destruct s1.
  - exists s1. eexists. split; [done|]. split; [by vm_compute|]. split; [|done].
    apply (K (λ l, l) 120 es k); [by vm_compute|done|constructor|by vm_compute| |by vm_compute].
    repeat (constructor; [try done|]); done.
Defined.
