(* ===== verification/BinlogIndex.v ===== *)
(** The index file of the binary logs, as [binlog/src/BinlogMonitor.cpp] reads it,
    and the monitor's turn.

    [getBinlogIndex] compares the result of a call with a member that the call
    changes: C++ does not say which of the two operands is taken first, so that both
    orders are modelled.  The strings are C strings; a file is what it holds. *)
From Stdlib Require Import Ascii.
From S2P Require Import Prelude Config FileCache LogEvent RowsEvent ParseLog.

Record CBinlogMonitor := mk_monitor { m_binlogIndexFileLen : Z; m_binlogIndexFileName : string }.

(** The operand of [==] that is taken first. *)
Inductive evaluation := Call_first | Member_first.

Section Index.
(** What reading in text mode makes of the bytes of a file. *)
Context (text_mode : string → string).

(** The index file is [None] when it cannot be opened. *)
Definition getBinlogIndexSize (m : CBinlogMonitor) (index : option string) : Z * CBinlogMonitor :=
  match index with
  | None => (0, m)
  | Some bytes =>
      let len := u32 (Z.of_nat (String.length bytes)) in
      (len, mk_monitor len (m_binlogIndexFileName m))
  end.

(** [szBuf[len - 1]]: one newline is taken off; the empty string has no last character. *)
Definition strip_newline (szBuf : string) : option string :=
  match szBuf with
  | EmptyString => None
  | _ => Some (if last_is newline szBuf then String.substring 0 (String.length szBuf - 1) szBuf else szBuf)
  end.

(** The loop leaves the last piece in the buffer; [None] where the buffer was never
    written or is empty. *)
Definition getBinlogIndexFileName (m : CBinlogMonitor) (index : option string) : option (string * CBinlogMonitor) :=
  match index with
  | None => Some (EmptyString, m)
  | Some bytes =>
      szBuf ← last (pieces 255 255 (text_mode bytes));
      name ← strip_newline (c_str szBuf);
      Some (name, mk_monitor (u32 (Z.of_nat (String.length bytes))) name)
  end.

(** The file is opened for its size, and perhaps a second time. *)
Definition getBinlogIndex (e : evaluation) (m : CBinlogMonitor) (index index' : option string)
    : option (string * CBinlogMonitor) :=
  let '(size, m') := getBinlogIndexSize m index in
  let member := match e with Call_first => m_binlogIndexFileLen m' | Member_first => m_binlogIndexFileLen m end in
  if size =? member then Some (m_binlogIndexFileName m', m') else getBinlogIndexFileName m' index'.

Definition initBinlogInfo (m : CBinlogMonitor) (index : option string) : option (bool * CBinlogMonitor) :=
  '(name, m) ← getBinlogIndexFileName m index;
  Some (negb (String.eqb name EmptyString), m).

(** A turn of [monitorThread]: the parser opens the file of that name. *)
Definition monitor_turn {S : Type} `{!RowSink S} fopen malloc dec_garbage buff_garbage query_garbage map_garbage rows_garbage
    address_of inner fuel (e : evaluation) (m : CBinlogMonitor) (index index' : option string) (p : @parser S)
    : run (CBinlogMonitor * parser) :=
  '(name, m) ← of_option (getBinlogIndex e m index index');
  p ← on_change fopen malloc dec_garbage buff_garbage query_garbage map_garbage rows_garbage address_of inner fuel p
        (Some (string_bytes name));
  Ret (m, p).

(** ** An index that grows *)

(** The names the monitor uses at each change. *)
Fixpoint names_followed (e : evaluation) (m : CBinlogMonitor) (l : list string) : option (list string) :=
  match l with
  | [] => Some []
  | bytes :: l =>
      '(name, m) ← getBinlogIndex e m (Some bytes) (Some bytes);
      names ← names_followed e m l;
      Some (name :: names)
  end.

Definition index_text (names : list string) : string :=
  foldr (λ n t, n +:+ String newline t) EmptyString names.

(** A name: not empty, of one line, and shorter than the buffer. *)
Definition name_ok (n : string) : Prop :=
  n ≠ EmptyString ∧ all_chars (λ c, negb (Ascii.eqb c newline || Ascii.eqb c Ascii.zero)) n = true
  ∧ (String.length n < 255)%nat.

(** An index file with these names. *)
Definition index_of (bytes : string) (names : list string) (name : string) : Prop :=
  text_mode bytes = index_text names ∧ Forall name_ok names ∧ last names = Some name
  ∧ Z.of_nat (String.length bytes) < 2 ^ 32.

Lemma pieces_index names : Forall name_ok names →
  pieces 255 255 (index_text names) = map (λ n, n +:+ String newline EmptyString) names.
Proof.
  induction 1 as [|n names (H0 & Hc & Hl) _ IH]; [done|]. cbn [index_text foldr map].
  rewrite pieces_line; [by f_equal| |done]. revert Hc. apply chars_impl.
  intros c. rewrite !negb_true_iff, orb_false_iff. tauto.
Qed.

Lemma last_is_app d n : last_is d (n +:+ String d EmptyString) = true.
Proof.
  induction n as [|c n IH].
  - change (Ascii.eqb d d = true). apply Ascii.eqb_refl.
  - change (String c n +:+ ?x) with (String c (n +:+ x)). cbn [last_is].
    destruct (n +:+ String d EmptyString) eqn:E; [by destruct n|done].
Qed.

Lemma strip_name n : name_ok n → strip_newline (c_str (n +:+ String newline EmptyString)) = Some n.
Proof.
  intros (H0 & Hc & _). rewrite c_str_app.
  - unfold strip_newline. change (c_str (String newline EmptyString)) with (String newline EmptyString).
    destruct (n +:+ String newline EmptyString) eqn:E; [by destruct n|]. rewrite <- E, last_is_app.
    rewrite length_app_s. cbn [String.length]. replace (_ + 1 - 1)%nat with (String.length n) by lia.
    by rewrite substring_prefix.
  - clear H0. induction n as [|c n IH]; [done|]. cbn [all_chars c_str] in *. apply andb_true_iff in Hc as [Hc Hn].
    apply negb_true_iff, orb_false_iff in Hc as [_ ->]. by rewrite IH.
Qed.

Lemma index_name m bytes names name : index_of bytes names name →
  getBinlogIndexFileName m (Some bytes) = Some (name, mk_monitor (Z.of_nat (String.length bytes)) name).
Proof.
  intros (Ht & Hn & Hl & Hb). unfold getBinlogIndexFileName. rewrite Ht, pieces_index by done.
  change (map ?f names) with (f <$> names). rewrite fmap_last, Hl. cbn [fmap option_fmap option_map mbind option_bind].
  rewrite strip_name by (rewrite Forall_forall in Hn; by apply Hn, last_Some_elem_of). cbn. by rewrite wrap_small by lia.
Qed.

(** C25: the index at the start and at every later change, of which two that follow
    each other differ in size: when the member is taken first the monitor uses the
    last name of each index; when the call is made first, the size is compared with
    itself and the monitor uses the first log for ever. *)
Theorem index_followed_or_never (start : string * list string * string) (later : list (string * list string * string)) :
  Forall (λ '(bytes, names, name), index_of bytes names name) (start :: later) →
  (∀ i a b, (start :: later) !! i = Some a → (start :: later) !! S i = Some b →
     String.length (fst (fst a)) ≠ String.length (fst (fst b))) →
  let m := mk_monitor 0 EmptyString in
  ∃ m', getBinlogIndexFileName m (Some (fst (fst start))) = Some (snd start, m')
  ∧ names_followed Member_first m' (map (fst ∘ fst) later) = Some (map snd later)
  ∧ names_followed Call_first m' (map (fst ∘ fst) later) = Some (replicate (length later) (snd start)).
Proof.
  intros Hall Hd m. destruct start as [[bytes names] name]. cbn [fst snd] in *.
  apply Forall_cons in Hall as [H0 Hall]. eexists. split; [by eapply index_name|]. split.
  - revert bytes names name H0 Hd. induction later as [|[[bytes' names'] name'] later IH]; intros; [done|].
    apply Forall_cons in Hall as [H1 Hall]. cbn [map fst snd compose names_followed].
    unfold getBinlogIndex at 1, getBinlogIndexSize. pose proof H1 as (_ & _ & _ & Hb).
    rewrite wrap_small by lia. cbn [m_binlogIndexFileLen].
    destruct (Z.eqb_spec (Z.of_nat (String.length bytes')) (Z.of_nat (String.length bytes))) as [E|_].
    { exfalso. apply (Hd 0%nat _ _ eq_refl eq_refl). cbn. lia. }
    rewrite (index_name _ bytes' names' name') by done. cbn [mbind option_bind].
    rewrite (IH Hall bytes' names' name'); [done|done|]. intros i. apply (Hd (Datatypes.S i)).
  - clear Hd. set (k := Z.of_nat (String.length bytes)). clearbody k. clear H0 bytes names.
    revert k. induction later as [|[[bytes' names'] name'] later IH]; intros k; [done|].
    apply Forall_cons in Hall as [_ Hall]. cbn [map fst snd compose names_followed length replicate].
    unfold getBinlogIndex at 1, getBinlogIndexSize. cbn [m_binlogIndexFileLen m_binlogIndexFileName].
    rewrite Z.eqb_refl. cbn [mbind option_bind]. by rewrite IH.
Qed.
End Index.

Lemma index_followed_or_never_witness :
  let i n := (index_text n, n, default EmptyString (last n)) in
  let later := [i ["a.1"; "a.2"]; i ["a.1"; "a.2"; "a.3"]] in
  ∃ m', getBinlogIndexFileName id (mk_monitor 0 EmptyString) (Some (index_text ["a.1"])) = Some ("a.1", m')
  ∧ names_followed id Member_first m' (map (fst ∘ fst) later) = Some ["a.2"; "a.3"]
  ∧ names_followed id Call_first m' (map (fst ∘ fst) later) = Some ["a.1"; "a.1"].
Proof.
  intros i later. apply (index_followed_or_never id (i ["a.1"]) later).
  - repeat constructor; try done; vm_compute; lia.
  - intros [|[|[|k]]] a b; cbn; try done; intros [= <-] [= <-]; done.
Defined.
