(* ===== verification/LogFiles.v ===== *)
(** The log files and the texts of exceptions: [public/LogData.cpp],
    [public/LogError.cpp] and [public/MyException.cpp], as the server compiles them.

    The directories and files are those under the working directory, by the paths the
    code uses; a file is what it holds.  The two classes differ in the directory, the
    heading of a file, the record and what follows when a file cannot be opened. *)
From stdpp Require Import pretty gmap.
From Stdlib Require Import Ascii.
From S2P Require Import Prelude.

Record log_fs := mk_fs {
  dirs : list string;
  files : gmap string string;
  attempts : nat;  (** the calls of [fopen] so far *)
}.

(** What a class logs under. *)
Inductive log_class := CLogData | CLogError.

Definition tabs (n : nat) : string := foldr (λ _ s, String "009" s) EmptyString (seq 0 n).
Definition end_of_line : string := String "010" EmptyString.

Definition log_dir (c : log_class) : string :=
  match c with CLogData => "log//logData" | CLogError => "log//logError" end.

Definition heading (c : log_class) : string :=
  match c with
  | CLogData => "线程ID" +:+ tabs 2 +:+ "时间" +:+ tabs 1 +:+ " " +:+ tabs 4 +:+ "数据" +:+ end_of_line
  | CLogError => "线程ID" +:+ tabs 2 +:+ "时间" +:+ tabs 5 +:+ "错误码" +:+ tabs 2 +:+ "错误信息" +:+ end_of_line
  end.

Section Logs.
(** Whether [mkdir] of a path succeeds, whether the [n]-th [fopen] does, and the two
    texts of a time. *)
Context (mkdir_ok : string → bool) (opens : nat → string → bool) (date stamp : Z → string).

Definition access_dir (p : string) (s : log_fs) : bool := bool_decide (p ∈ dirs s).
Definition access_file (p : string) (s : log_fs) : bool := bool_decide (is_Some (files s !! p)).

Definition mkdir (p : string) (parent_exists : bool) (s : log_fs) : log_fs :=
  if parent_exists && mkdir_ok p then mk_fs (p :: dirs s) (files s) (attempts s) else s.

(** [DirIsExits] and [MakeDir]. *)
Definition MakeDir (c : log_class) (s : log_fs) : log_fs :=
  if negb (access_dir "log" s) then
    let s := mkdir "log" true s in mkdir (log_dir c) (access_dir "log" s) s
  else if negb (access_dir (log_dir c) s) then mkdir (log_dir c) true s
  else s.

(** [fopen(path, "a")]. *)
Definition fopen_a (c : log_class) (path : string) (s : log_fs) : bool * log_fs :=
  if access_dir (log_dir c) s && opens (attempts s) path
  then (true, mk_fs (dirs s) (<[path := default EmptyString (files s !! path)]> (files s)) (S (attempts s)))
  else (false, mk_fs (dirs s) (files s) (S (attempts s))).

Definition fwrite_file (path text : string) (s : log_fs) : log_fs :=
  mk_fs (dirs s) (<[path := default EmptyString (files s !! path) +:+ text]> (files s)) (attempts s).

(** [while(fd == NULL)] of [CLogData]. *)
Fixpoint fopen_loop (fuel : nat) (c : log_class) (path : string) (s : log_fs) : run log_fs :=
  match fuel with
  | O => NoFuel
  | S fuel => match fopen_a c path s with (true, s) => Ret s | (false, s) => fopen_loop fuel c path s end
  end.

(** The part under the lock: a new file gets its heading, then the record is added;
    a null stream is written to where [fopen] fails, but for the loop. *)
Definition write_record (fuel : nat) (c : log_class) (path record : string) (s : log_fs) : run log_fs :=
  s ← (if access_file path s then Ret s
       else match fopen_a c path s with (true, s) => Ret (fwrite_file path (heading c) s) | (false, _) => Undef end);
  s ← match c with
      | CLogData => fopen_loop fuel c path s
      | CLogError => match fopen_a c path s with (true, s) => Ret s | (false, _) => Undef end
      end;
  Ret (fwrite_file path record s).

Definition log_path (c : log_class) (t : Z) (name : string) : string :=
  ".//" +:+ log_dir c +:+ "//" +:+ date t +:+ "-" +:+ name +:+ ".log".

(** A record: the thread, the time, the code of an error, the text. *)
Definition data_record (thread : N) (t2 : Z) (msg : string) : string :=
  pretty thread +:+ tabs 2 +:+ stamp t2 +:+ tabs 2 +:+ msg +:+ end_of_line.
Definition error_record (thread : N) (t2 code : Z) (msg : string) : string :=
  pretty thread +:+ tabs 2 +:+ stamp t2 +:+ tabs 2 +:+ pretty code +:+ tabs 2 +:+ msg +:+ end_of_line.

(** The four functions, given the times they ask for. *)
Definition WriteLog (fuel : nat) (thread : N) (t t2 : Z) (msg : string) (s : log_fs) : run (Z * log_fs) :=
  s ← write_record fuel CLogData (log_path CLogData t "logData") (data_record thread t2 msg) (MakeDir CLogData s);
  Ret (0, s).

Definition WriteLog_file (fuel : nat) (thread : N) (t t2 : Z) (fileName msg : string) (s : log_fs)
    : run (Z * log_fs) :=
  let s := MakeDir CLogData s in
  if String.eqb fileName EmptyString then Ret (-1, s)
  else
    s ← write_record fuel CLogData (log_path CLogData t fileName) (data_record thread t2 msg) s;
    Ret (0, s).

Definition WriteErrorLog (fuel : nat) (thread : N) (t t2 code : Z) (msgError : string) (s : log_fs)
    : run (Z * log_fs) :=
  s ← write_record fuel CLogError (log_path CLogError t "logError") (error_record thread t2 code msgError)
        (MakeDir CLogError s);
  Ret (0, s).

Definition WriteErrorLog_file (fuel : nat) (thread : N) (t t2 code : Z) (msgError fileName : string) (s : log_fs)
    : run (Z * log_fs) :=
  let s := MakeDir CLogError s in
  if String.eqb fileName EmptyString then Ret (-1, s)
  else
    s ← write_record fuel CLogError (log_path CLogError t fileName) (error_record thread t2 code msgError) s;
    Ret (0, s).

(** The texts in front of the null that ends the arguments. *)
Definition WriteLogFormat (fuel : nat) (thread : N) (t t2 : Z) (fileName : string) (args : list string) (s : log_fs)
    : run (Z * log_fs) :=
  let strLog := foldl (λ strLog sz, strLog +:+ "[" +:+ sz +:+ "] ") EmptyString args in
  WriteLog_file fuel thread t t2 fileName strLog s.
End Logs.

(** ** Exceptions *)

Record ExceptionBase := mk_exception {
  m_msg : string;
  m_file : string;
  m_func : string;
  m_line : Z;
  class_name : string;  (** what [GetClassName] of its class returns *)
  m_what : string;
}.

Definition new_exception (class msg : string) : ExceptionBase :=
  mk_exception msg "<unknown file>" "<unknown func>" (-1) class EmptyString.

(** [Init], without [LOG_EXCEPTION]. *)
Definition Init (e : ExceptionBase) (file func : string) (line : Z) : ExceptionBase :=
  mk_exception (m_msg e) file func line (class_name e) (m_what e).

(** [THROW_EXCEPTION]. *)
Definition THROW_EXCEPTION (class args file func : string) (line : Z) : ExceptionBase :=
  Init (new_exception class args) file func line.

(** [ToString], which keeps its result in the exception. *)
Definition ToString (e : ExceptionBase) : string * ExceptionBase :=
  let text :=
    if String.eqb (m_what e) EmptyString then
      (if 0 <? m_line e then "file[" +:+ m_file e +:+ "]&line[" +:+ pretty (m_line e) +:+ "]" else EmptyString)
      +:+ "&func[" +:+ m_func e +:+ "]" +:+ "&exception[" +:+ class_name e +:+ "]"
      +:+ (if String.eqb (m_msg e) EmptyString then EmptyString else "&msg[" +:+ m_msg e +:+ "]")
    else m_what e in
  (text, mk_exception (m_msg e) (m_file e) (m_func e) (m_line e) (class_name e) text).

(** ** What the files hold *)

(** A call of one of the four functions, with the thread and the times it asks for. *)
Inductive log_call :=
  | Call_data (msg : string)
  | Call_data_file (fileName msg : string)
  | Call_error (code : Z) (msgError : string)
  | Call_error_file (code : Z) (msgError fileName : string).

Record log_request := mk_request { rq_call : log_call; rq_thread : N; rq_t : Z; rq_t2 : Z }.

Section Requests.
Context (mkdir_ok : string → bool) (opens : nat → string → bool) (date stamp : Z → string) (fuel : nat).

Definition log_request_run (r : log_request) (s : log_fs) : run (Z * log_fs) :=
  let '(mk_request c thread t t2) := r in
  match c with
  | Call_data msg => WriteLog mkdir_ok opens date stamp fuel thread t t2 msg s
  | Call_data_file name msg => WriteLog_file mkdir_ok opens date stamp fuel thread t t2 name msg s
  | Call_error code msg => WriteErrorLog mkdir_ok opens date stamp fuel thread t t2 code msg s
  | Call_error_file code msg name => WriteErrorLog_file mkdir_ok opens date stamp fuel thread t t2 code msg name s
  end.

Fixpoint log_requests (l : list log_request) (s : log_fs) : run log_fs :=
  match l with
  | [] => Ret s
  | r :: l => '(_, s) ← log_request_run r s; log_requests l s
  end.

(** The class, the name and the record of a request. *)
Definition rq_class (r : log_request) : log_class :=
  match rq_call r with Call_data _ | Call_data_file _ _ => CLogData | _ => CLogError end.

Definition rq_path (r : log_request) : option string :=
  match rq_call r with
  | Call_data _ => Some (log_path date CLogData (rq_t r) "logData")
  | Call_error _ _ => Some (log_path date CLogError (rq_t r) "logError")
  | Call_data_file name _ | Call_error_file _ _ name =>
      if String.eqb name EmptyString then None else Some (log_path date (rq_class r) (rq_t r) name)
  end.

Definition rq_record (r : log_request) : string :=
  match rq_call r with
  | Call_data msg | Call_data_file _ msg => data_record stamp (rq_thread r) (rq_t2 r) msg
  | Call_error code msg | Call_error_file code msg _ => error_record stamp (rq_thread r) (rq_t2 r) code msg
  end.

Definition writes_to (p : string) (r : log_request) : bool := bool_decide (rq_path r = Some p).

(** A file's heading, and the records of the requests that wrote to it. *)
Definition file_of_requests (p : string) (l : list log_request) : option string :=
  match filter (writes_to p) l with
  | [] => None
  | (r :: _) as rs => Some (heading (rq_class r) +:+ foldr (λ r t, rq_record r +:+ t) EmptyString rs)
  end.

Context (Hmkdir : ∀ p, mkdir_ok p = true) (Hopens : ∀ n p, opens n p = true) (Hfuel : (0 < fuel)%nat).

Lemma MakeDir_ok c s : log_dir c ∈ dirs (MakeDir mkdir_ok c s) ∧ files (MakeDir mkdir_ok c s) = files s.
Proof.
  unfold MakeDir, access_dir. destruct (bool_decide_reflect ("log" ∈ dirs s)) as [H|H]; cbn [negb].
  - destruct (bool_decide_reflect (log_dir c ∈ dirs s)); cbn [negb]; [done|].
    unfold mkdir. rewrite Hmkdir. cbn. split; [by left|done].
  - unfold mkdir. rewrite !Hmkdir. cbn [andb dirs]. rewrite bool_decide_eq_true_2 by by left.
    cbn. split; [by left|done].
Qed.

Lemma write_record_ok c path record s : log_dir c ∈ dirs s → ∃ s',
  write_record opens fuel c path record s = Ret s'
  ∧ files s' = <[path := default (heading c) (files s !! path) +:+ record]> (files s).
Proof.
  intros Hd. destruct fuel as [|f]; [lia|].
  assert (∀ s, log_dir c ∈ dirs s → fopen_a opens c path s
    = (true, mk_fs (dirs s) (<[path := default EmptyString (files s !! path)]> (files s)) (S (attempts s)))) as F.
  { intros s0 H0. unfold fopen_a, access_dir. by rewrite bool_decide_eq_true_2, Hopens by done. }
  unfold write_record, access_file. destruct (files s !! path) as [x|] eqn:E.
  - rewrite bool_decide_eq_true_2 by by eexists. cbn [mbind run_bind fopen_loop]. destruct c; rewrite F, E by done;
      eexists; (split; [done|]); cbn; by rewrite lookup_insert_eq, insert_insert_eq.
  - rewrite bool_decide_eq_false_2 by by intros []. rewrite F, E by done. cbn [mbind run_bind fopen_loop].
    set (s1 := fwrite_file _ _ _). assert (files s1 = <[path := heading c]> (files s)) as E1.
    { cbn. rewrite lookup_insert_eq, insert_insert_eq. done. }
    destruct c; rewrite F, E1, lookup_insert_eq by done; eexists; (split; [done|]); cbn;
      by rewrite !lookup_insert_eq, !insert_insert_eq.
Qed.

Lemma request_ok r s : ∃ n s', log_request_run r s = Ret (n, s')
  ∧ files s' = match rq_path r with
               | Some p => <[p := default (heading (rq_class r)) (files s !! p) +:+ rq_record r]> (files s)
               | None => files s
               end.
Proof.
  destruct r as [c thread t t2].
  assert (∀ c s, ∃ d, log_dir c ∈ dirs d ∧ files d = files s ∧ d = MakeDir mkdir_ok c s) as M.
  { intros c' s'. eexists. destruct (MakeDir_ok c' s'). eauto. }
  destruct c as [msg|name msg|code msg|code msg name]; cbn [log_request_run rq_path rq_call rq_class rq_record rq_t rq_thread rq_t2].
  - destruct (M CLogData s) as (d & Hd & Hf & E). unfold WriteLog. rewrite <- E, <- Hf.
    destruct (write_record_ok CLogData (log_path date CLogData t "logData") (data_record stamp thread t2 msg) d Hd)
      as (s' & -> & Hs). by eexists _, s'.
  - destruct (M CLogData s) as (d & Hd & Hf & E). unfold WriteLog_file. rewrite <- E, <- Hf.
    destruct (String.eqb name EmptyString); [by eexists _, d|].
    destruct (write_record_ok CLogData (log_path date CLogData t name) (data_record stamp thread t2 msg) d Hd)
      as (s' & -> & Hs). by eexists _, s'.
  - destruct (M CLogError s) as (d & Hd & Hf & E). unfold WriteErrorLog. rewrite <- E, <- Hf.
    destruct (write_record_ok CLogError (log_path date CLogError t "logError") (error_record stamp thread t2 code msg) d Hd)
      as (s' & -> & Hs). by eexists _, s'.
  - destruct (M CLogError s) as (d & Hd & Hf & E). unfold WriteErrorLog_file. rewrite <- E, <- Hf.
    destruct (String.eqb name EmptyString); [by eexists _, d|].
    destruct (write_record_ok CLogError (log_path date CLogError t name) (error_record stamp thread t2 code msg) d Hd)
      as (s' & -> & Hs). by eexists _, s'.
Qed.

Lemma foldr_records l x : foldr (λ r t, rq_record r +:+ t) EmptyString (l ++ [x])
  = foldr (λ r t, rq_record r +:+ t) EmptyString l +:+ rq_record x.
Proof.
  induction l as [|r l IH]; cbn [app foldr]; [by rewrite app_nil_s|]. by rewrite IH, app_assoc_s.
Qed.

Lemma file_of_snoc p l r : file_of_requests p (l ++ [r])
  = if writes_to p r then Some (default (heading (rq_class r)) (file_of_requests p l) +:+ rq_record r)
    else file_of_requests p l.
Proof.
  unfold file_of_requests. rewrite filter_app.
  assert (filter (writes_to p) [r] = if writes_to p r then [r] else []) as ->
    by (cbn [filter list_filter]; by destruct (writes_to p r)).
  destruct (writes_to p r); [|by rewrite app_nil_r].
  destruct (filter (writes_to p) l) as [|r' rs]; cbn [app default foldr]; [by rewrite app_nil_s|].
  rewrite (foldr_records rs r). cbn. by rewrite !app_assoc_s.
Qed.

Lemma requests_ok l done_ s : (∀ p, files s !! p = file_of_requests p done_) → ∃ s',
  log_requests l s = Ret s' ∧ ∀ p, files s' !! p = file_of_requests p (done_ ++ l).
Proof.
  revert done_ s. induction l as [|r l IH]; intros done_ s H; cbn [log_requests].
  - exists s. by rewrite app_nil_r.
  - destruct (request_ok r s) as (n & s1 & -> & Hs). cbn [mbind run_bind].
    destruct (IH (done_ ++ [r]) s1) as (s' & E & H'); [|exists s'; by rewrite <- app_assoc in H'].
    intros p. rewrite Hs, file_of_snoc. unfold writes_to.
    destruct (rq_path r) as [q|]; [|by rewrite bool_decide_eq_false_2, H by done].
    destruct (bool_decide_reflect (Some q = Some p)) as [[= ->]|Hne].
    + by rewrite lookup_insert_eq, H.
    + rewrite lookup_insert_ne by congruence. apply H.
Qed.
End Requests.

(** C34: where directories can be made and files opened, any sequence of calls leaves
    in every log file its heading and the records of the calls with its class, day and
    name, whole and in order; a call with an empty name writes nothing. *)
Theorem log_files_hold_records mkdir_ok opens date stamp fuel l :
  (∀ p, mkdir_ok p = true) → (∀ n p, opens n p = true) → (0 < fuel)%nat → ∃ s,
  log_requests mkdir_ok opens date stamp fuel l (mk_fs [] ∅ 0) = Ret s
  ∧ ∀ p, files s !! p = file_of_requests date stamp p l.
Proof.
  intros Hm Ho Hf. destruct (requests_ok mkdir_ok opens date stamp fuel Hm Ho Hf l [] (mk_fs [] ∅ 0)) as (s & E & H);
    [|by exists s]. intros p. apply lookup_empty.
Qed.

Lemma log_files_hold_records_witness :
  let r m := mk_request (Call_data_file "RawData" m) 7 0 0 in
  ∃ s, log_requests (λ _, true) (λ _ _, true) (λ _, "2016-04-27") (λ _, "2016/04/27 20:32:00") 1
         [r "a"; r "b"] (mk_fs [] ∅ 0) = Ret s
  ∧ files s !! ".//log//logData//2016-04-27-RawData.log"
    = Some (heading CLogData +:+ data_record (λ _, "2016/04/27 20:32:00") 7 0 "a"
            +:+ data_record (λ _, "2016/04/27 20:32:00") 7 0 "b").
Proof.
  intros r. destruct (log_files_hold_records (λ _, true) (λ _ _, true) (λ _, "2016-04-27") (λ _, "2016/04/27 20:32:00") 1
    [r "a"; r "b"]) as (s & E & H); [done|done|lia|].
  exists s. split; [exact E|]. rewrite H. by vm_compute.
Defined.

(** A file that is there and cannot be opened again: the loop of [CLogData] goes on
    until [fopen] succeeds, and holds its lock; [CLogError] writes to a null stream. *)
Theorem log_file_unopenable opens c path record s k :
  access_file path s = true → log_dir c ∈ dirs s →
  (∀ i, (i < k)%nat → opens (attempts s + i)%nat path = false) →
  (c = CLogData → ∀ fuel, (fuel ≤ k)%nat → write_record opens fuel c path record s = NoFuel)
  ∧ (c = CLogData → opens (attempts s + k)%nat path = true → ∀ fuel, (k < fuel)%nat →
      ∃ s', write_record opens fuel c path record s = Ret s'
      ∧ files s' !! path = Some (default EmptyString (files s !! path) +:+ record))
  ∧ (c = CLogError → (0 < k)%nat → ∀ fuel, write_record opens fuel c path record s = Undef).
Proof.
  intros Ha Hd Hk. unfold write_record. rewrite Ha. cbn [mbind run_bind].
  assert (F : ∀ s, log_dir c ∈ dirs s → opens (attempts s) path = false →
    fopen_a opens c path s = (false, mk_fs (dirs s) (files s) (S (attempts s)))).
  { intros s0 H0 E. unfold fopen_a. by rewrite E, andb_false_r. }
  split_and!.
  - intros -> fuel Hf. assert (fopen_loop opens fuel CLogData path s = NoFuel) as ->; [|done].
    clear Ha. revert s Hd k Hk Hf. induction fuel as [|fuel IH]; intros s Hd k Hk Hf; [done|]. cbn [fopen_loop].
    rewrite F; [|done|]; [|rewrite <- (Nat.add_0_r (attempts s)); apply Hk; lia].
    apply (IH (mk_fs (dirs s) (files s) (S (attempts s))) Hd (k - 1)%nat); [|lia]. intros i Hi. cbn [attempts].
    replace (S (attempts s) + i)%nat with (attempts s + S i)%nat by lia. apply Hk. lia.
  - intros -> Ho fuel Hf. assert (∃ s', fopen_loop opens fuel CLogData path s = Ret s'
      ∧ default EmptyString (files s' !! path) = default EmptyString (files s !! path)) as (s' & -> & E).
    { clear Ha. revert s Hd k Hk Ho Hf. induction fuel as [|fuel IH]; intros s Hd k Hk Ho Hf; [lia|]. cbn [fopen_loop].
      destruct k as [|k].
      - unfold fopen_a, access_dir. rewrite bool_decide_eq_true_2 by done. rewrite Nat.add_0_r in Ho. rewrite Ho.
        eexists. split; [done|]. cbn. by rewrite lookup_insert_eq.
      - rewrite F; [|done|]; [|rewrite <- (Nat.add_0_r (attempts s)); apply Hk; lia].
        apply (IH (mk_fs (dirs s) (files s) (S (attempts s))) Hd k); cbn [attempts]; [|by rewrite <- Nat.add_succ_comm in Ho|lia].
        intros i Hi. replace (S (attempts s) + i)%nat with (attempts s + S i)%nat by lia. apply Hk. lia. }
    eexists. split; [done|]. cbn. by rewrite lookup_insert_eq, E.
  - intros -> Hk0 fuel. rewrite F; [done|done|]. rewrite <- (Nat.add_0_r (attempts s)). by apply Hk.
Qed.

(** The text of an exception names the place it was thrown at, its class and its
    message, and is kept. *)
Lemma exception_text class msg file func line : 0 < line → msg ≠ EmptyString →
  let e := THROW_EXCEPTION class msg file func line in
  (ToString e).1 = "file[" +:+ file +:+ "]&line[" +:+ pretty line +:+ "]&func[" +:+ func +:+ "]&exception["
                   +:+ class +:+ "]&msg[" +:+ msg +:+ "]"
  ∧ (ToString (ToString e).2).1 = (ToString e).1.
Proof.
  intros Hl Hm e. unfold ToString, e. cbn [m_what THROW_EXCEPTION Init new_exception m_line m_file m_func m_msg class_name].
  change (String.eqb EmptyString EmptyString) with true. cbn [fst snd m_what].
  rewrite (proj2 (Z.ltb_lt 0 line) Hl). destruct (String.eqb_spec msg EmptyString); [done|].
  rewrite !app_assoc_s. split; reflexivity.
Qed.
