(* ===== verification/Pipeline.v ===== *)
(** From a store to the message queue service: the deque of the client's export, the
    thread that sends its batches, the connection, the thread of the server that
    receives them, the deque of raw data and the thread that drains it, composed.  Each
    part has its own file; here are the turns of the threads one after the other and
    what comes out at the end. *)
From S2P Require Import Prelude JsonWriter ClientExport ExportText Messages SharedQueue RowValue ExportQueue SocketServer Config MessageQueue.

(** ** The client *)

(** The text of a batch as it is sent. *)
Definition wire_text (Gbk2Utf8 : list Z → list Z) (m_storehouse_id : string) (h : HEAD_GENERATE_DATA) : list Z :=
  Gbk2Utf8 (string_bytes (batch_text m_storehouse_id h)).

(** A text a message can have. *)
Record sendable (fuel : nat) (text : list Z) : Prop := {
  se_no_nul : no_nul text;
  se_nonempty : text ≠ [];
  se_length : Z.of_nat (length text) < 2 ^ 31 - 45;
  se_fuel : (50 + length text ≤ fuel)%nat;
}.

Definition header_garbage (p : list Z * list Z * option HEAD_GENERATE_DATA) : Prop :=
  length (fst (fst p)) = 33%nat ∧ length (snd (fst p)) = 3%nat.

(** The messages of the turns that had a batch. *)
Definition batch_messages (Gbk2Utf8 : list Z → list Z) (m_storehouse_id : string)
    (turns : list (list Z * list Z * option HEAD_GENERATE_DATA)) : list message :=
  omap (λ p, h ← snd p;
    Some (mk_message MSG_TYPE_BINLOG (fst (fst p)) (snd (fst p)) (wire_text Gbk2Utf8 m_storehouse_id h))) turns.

Lemma batch_messages_texts Gbk2Utf8 id turns :
  map ms_text (batch_messages Gbk2Utf8 id turns) = map (wire_text Gbk2Utf8 id) (omap snd turns).
Proof.
  unfold batch_messages. induction turns as [|[[g p] [h|]] turns IH]; [done|..]; cbn in *; [by rewrite IH|exact IH].
Qed.

Lemma batch_message_ok Gbk2Utf8 id fuel turns : Forall header_garbage turns →
  Forall (λ h, sendable fuel (wire_text Gbk2Utf8 id h)) (omap snd turns) →
  Forall (λ m, message_ok m ∧ ms_type m = MSG_TYPE_BINLOG ∧ sendable fuel (ms_text m)) (batch_messages Gbk2Utf8 id turns).
Proof.
  unfold batch_messages. induction 1 as [|[[g p] [h|]] turns [Hg Hp] _ IH]; cbn in *; [constructor| |exact IH].
  intros Hs. apply Forall_cons in Hs as [Hs Hr]. constructor; [|by apply IH].
  split_and!; [|done..]. by destruct Hs; split; cbn; try lia.
Qed.

(** The thread sends the frames of its batches one after the other. *)
Lemma batches_sent Gbk2Utf8 id fuel turns c : Forall header_garbage turns →
  Forall (λ h, sendable fuel (wire_text Gbk2Utf8 id h)) (omap snd turns) → willing c →
  ∃ c', ProcessBinlogThread_turns Gbk2Utf8 fuel id turns (Some c)
        = Ret (Some c', map (λ h, (true, batch_text id h)) (omap snd turns))
  ∧ Messages.sent c' = Messages.sent c ++ concat (map frame (batch_messages Gbk2Utf8 id turns)).
Proof.
  intros Hg. revert c. induction Hg as [|[[g p] [h|]] turns [H1 H2] Hg IH]; intros c Hs Hw; cbn [ProcessBinlogThread_turns].
  - exists c. by rewrite app_nil_r.
  - change (omap snd ((g, p, Some h) :: turns)) with (h :: omap snd turns) in *. apply Forall_cons in Hs as [Hs Hr].
    set (m := mk_message MSG_TYPE_BINLOG g p (wire_text Gbk2Utf8 id h)).
    change (batch_messages Gbk2Utf8 id (_ :: turns)) with (m :: batch_messages Gbk2Utf8 id turns).
    destruct (client_SendMessage_ok true Gbk2Utf8 fuel c m (string_bytes (batch_text id h))) as (c1 & E1 & W1 & S1);
      [by destruct Hs; split; cbn; try lia|done|apply Hs|done|].
    rewrite ProcessBinlogThread_text. cbn [m ms_type ms_id ms_padding] in E1. rewrite E1. cbn [mbind run_bind].
    destruct (IH c1 Hr W1) as (c2 & -> & S2). exists c2. split; [done|]. cbn [map concat].
    by rewrite S2, S1, <- app_assoc.
  - destruct (IH c Hs Hw) as (c2 & E2 & S2). exists c2. cbn [ProcessBinlogThread mbind run_bind]. by rewrite E2.
Qed.

(** ** The server's thread *)

(** The data an effect puts into the deque of raw data; those of a turn. *)
Definition raw_datum (e : effect) : option MqDataQueues.MQ_DATA :=
  match e with
  | QueueRaw storeCode strData => Some (MqDataQueues.mk_mq_data None [] storeCode strData)
  | _ => None
  end.

Definition raw_data (before after : SocketServer) : list MqDataQueues.MQ_DATA :=
  omap raw_datum (drop (length (effects before)) (effects after)).

Definition all_raw_data (seen : list (SocketServer * Z)) (after : list SocketServer) : list MqDataQueues.MQ_DATA :=
  concat (zip_with (λ p s, raw_data (fst p) s) seen after).

(** The object at the address is that of the store. *)
Definition connected_as (addr : Z) (store : list Z) (p : SocketServer * Z) : Prop :=
  ∃ o, client_at (fst p) addr = Some o ∧ up_to_nul (m_client_id o) = store.

Lemma batches_received malloc fuel addr store seen msgs ls rest :
  (∀ n, 0 <= n → ∃ l, malloc n = Some l ∧ Z.of_nat (length l) = n) →
  Forall (λ m, message_ok m ∧ ms_type m = MSG_TYPE_BINLOG ∧ sendable fuel (ms_text m)) msgs →
  nonempty ls → concat ls = concat (map frame msgs) ++ rest → (length seen ≤ length msgs)%nat →
  Forall (connected_as addr store) seen →
  ∃ after ls', threadHandler_turns malloc fuel addr seen (Messages.pieces ls) = Ret (after, Messages.pieces ls')
  ∧ all_raw_data seen after
    = map (λ m, MqDataQueues.mk_mq_data None [] store (ms_text m)) (take (length seen) msgs)
  ∧ nonempty ls' ∧ concat ls' = concat (map frame (drop (length seen) msgs)) ++ rest.
Proof.
  intros Hm Hok Hn Hc Hl Hs. revert msgs ls Hok Hn Hc Hl.
  induction Hs as [|[s now] seen (o & Ho & Hi) Hs IH]; intros msgs ls Hok Hn Hc Hl.
  { exists [], ls. by rewrite drop_0. }
  destruct msgs as [|m msgs]; [cbn in Hl; lia|]. apply Forall_cons in Hok as [(Hmo & Ht & Hse) Hok].
  cbn [map concat] in Hc. rewrite <- app_assoc in Hc.
  destruct (receivers_ok malloc Hm false fuel ls m _ Hmo Hn Hc (se_fuel _ _ Hse)) as (l1 & R & _ & N1 & C1).
  cbn [length] in Hl. destruct (IH msgs l1 Hok N1 C1 ltac:(lia)) as (after & l2 & E & D & N2 & C2).
  exists (emit s [QueueRaw store (ms_text m)] :: after), l2. cbn [threadHandler_turns threadHandler_turn].
  unfold threadHandler_turn. rewrite R. cbn [mbind run_bind]. cbn [fst] in Ho. rewrite Ho. cbn [of_option mbind run_bind].
  cbn [header_of code_]. rewrite Ht. cbn. rewrite bool_decide_eq_false_2 by apply Hse. cbn [snd].
  rewrite Hi, up_to_nul_id by apply Hse. rewrite E. cbn [mbind run_bind]. split_and!; [done| |done..].
  unfold all_raw_data in *. cbn [zip_with concat take map]. rewrite D. unfold raw_data. cbn [fst emit effects].
  by rewrite drop_app_length.
Qed.

(** ** The service *)

Definition raw_message (q0 : AliMessageQueue) (d : MqDataQueues.MQ_DATA) : Message :=
  mk_Message (MqDataQueues.stores_ d) [] (name_ (topic_config q0 queue_raw_topic)) (MqDataQueues.body_ d).

Lemma raw_turns_sent config_file q0 l w q : serving q0 w q → ∃ w' q',
  threadProcessRaw_turns config_file (λ _ _, false) l w = (Done tt, w') ∧ serving q0 w' q'
  ∧ sent (calls w') = sent (calls w) ++ map (raw_message q0) (omap id l).
Proof.
  revert w q. induction l as [|[d|] l IH]; intros w q Hw; cbn [threadProcessRaw_turns].
  - exists w, q. by rewrite app_nil_r.
  - destruct (push_sent config_file q0 w q (mk_push wms_producer (MqDataQueues.stores_ d) [] (MqDataQueues.body_ d)) Hw)
      as (w1 & q1 & E & H1 & S1); [by eexists|].
    cbn [push_instance push_tag push_key push_body] in E.
    unfold threadProcessRaw, mbind, mq_bind. rewrite E. cbn.
    destruct (IH w1 q1 H1) as (w2 & q2 & E2 & H2 & S2). rewrite E2. exists w2, q2. split_and!; [done..|].
    by rewrite S2, S1, <- app_assoc.
  - exact (IH w q Hw).
Qed.

Lemma raw_turns_start config_file q0 l :
  getInstance config_file (mk_world None []) = (Done q0, mk_world (Some q0) []) → ∃ w,
  threadProcessRaw_turns config_file (λ _ _, false) l (mk_world None []) = (Done tt, w)
  ∧ sent (calls w) = map (raw_message q0) (omap id l).
Proof.
  intros H. induction l as [|[d|] l IH]; [by eexists| |exact IH].
  destruct (raw_turns_sent config_file q0 (Some d :: l) (mk_world (Some q0) []) q0) as (w & q & E & _ & S);
    [by eapply start_serving|].
  exists w. split; [|exact S]. rewrite <- E. cbn [threadProcessRaw_turns threadProcessRaw].
  unfold mbind, mq_bind. by rewrite (push_start _ _ _ H).
Qed.

(** ** From end to end *)

(** What is handled for a store while other threads queue for other stores. *)
Definition of_store (store : list Z) : list MqDataQueues.MQ_DATA → list MqDataQueues.MQ_DATA :=
  filter (λ d, MqDataQueues.stores_ d = store).
Definition tagged (store : list Z) : list Message → list Message := filter (λ m, getTag m = store).

Lemma tagged_messages q0 store l : tagged store (map (raw_message q0) l) = map (raw_message q0) (of_store store l).
Proof.
  unfold tagged, of_store. induction l as [|d l IH]; [done|]. cbn [map]. rewrite !filter_cons. cbn [raw_message getTag].
  destruct (decide (MqDataQueues.stores_ d = store)); cbn [map]; by rewrite IH.
Qed.

Lemma raw_queue_sent config_file q0 l o :
  getInstance config_file (mk_world None []) = (Done q0, mk_world (Some q0) []) →
  quiet MqDataQueues.MAX_QUEUE_DATA (λ _, false) 0 l MqDataQueues.start_raw = true →
  MqDataQueues.run_raw l MqDataQueues.start_raw = Some o →
  ∃ s w queued, o = Next s ∧ deques s !! 0%nat = Some queued ∧ (asleep_empty s ≠ [] → queued = [])
  ∧ threadProcessRaw_turns config_file (λ _ _, false) (of_deque 0 (returned s)) (mk_world None []) = (Done tt, w)
  ∧ ∃ handled, entered l = handled ++ queued ∧ sent (calls w) = map (raw_message q0) handled.
Proof.
  intros Hq Hqu E. destruct (quiet_execute _ _ 0 1 l o ltac:(lia) Hqu E) as (s & -> & H).
  destruct (pair_asleep _ _ _ H) as (q & Hd & Hs & Ha).
  destruct (raw_turns_start config_file q0 (of_deque 0 (returned s)) Hq) as (w & Ew & Sw).
  exists s, w, q. split_and!; [done..|]. by exists (received 0 s).
Qed.

(** C2: batches reach the message queue service.  For the heads a round of the export
    queues: those the sending thread takes it sends, and says so, in order; the bytes,
    in whatever pieces they arrive, the server's thread for that store turns into data
    for the deque, whatever state the other threads left it for each turn; the thread
    that drains the deque, to which the threads of other stores add their data
    anywhere, makes of them messages of the topic of raw data under the tag of the
    store.  So while no deque is full and the library does not throw, the heads of the
    round are, in this order, those the service has, those in the server's deque, those
    in the connection and those in the client's deque: none is lost, doubled or
    overtaken, and a thread sleeps only in front of an empty deque. *)
Theorem batches_reach_service malloc Gbk2Utf8 fuel id config_file q0 effects l1 o1 :
  (∀ n, 0 <= n → ∃ l, malloc n = Some l ∧ Z.of_nat (length l) = n) →
  getInstance config_file (mk_world None []) = (Done q0, mk_world (Some q0) []) →
  Forall (λ h, sendable fuel (wire_text Gbk2Utf8 id h)) (heads_of effects) →
  entered l1 = map GenerateQueues.Head (heads_of effects) →
  quiet GenerateQueues.ROWS_DATA_MAX_SIZE GenerateQueues.guarded 1 l1 GenerateQueues.start = true →
  GenerateQueues.run l1 GenerateQueues.start = Some o1 →
  ∃ s1 taken waiting, o1 = Next s1 ∧ received 1 s1 = map GenerateQueues.Head taken
  ∧ deques s1 !! 1%nat = Some (map GenerateQueues.Head waiting) ∧ (asleep_empty s1 ≠ [] → waiting = [])
  ∧ ∀ turns c, omap snd turns = taken → Forall header_garbage turns → willing c → Messages.sent c = [] →
  ∃ c', ProcessBinlogThread_turns Gbk2Utf8 fuel id turns (Some c)
        = Ret (Some c', map (λ h, (true, batch_text id h)) taken)
  ∧ ∀ ls addr store seen, nonempty ls → concat ls = Messages.sent c' → (length seen ≤ length taken)%nat →
      Forall (connected_as addr store) seen →
  ∃ after ls', threadHandler_turns malloc fuel addr seen (Messages.pieces ls) = Ret (after, Messages.pieces ls')
  ∧ ∀ l2 o2, of_store store (entered l2) = all_raw_data seen after →
      quiet MqDataQueues.MAX_QUEUE_DATA (λ _, false) 0 l2 MqDataQueues.start_raw = true →
      MqDataQueues.run_raw l2 MqDataQueues.start_raw = Some o2 →
  ∃ s2 w queued, o2 = Next s2 ∧ deques s2 !! 0%nat = Some queued ∧ (asleep_empty s2 ≠ [] → queued = [])
  ∧ threadProcessRaw_turns config_file (λ _ _, false) (of_deque 0 (returned s2)) (mk_world None []) = (Done tt, w)
  ∧ ∃ arrived held unread, heads_of effects = arrived ++ held ++ unread ++ waiting
  ∧ tagged store (sent (calls w))
    = map (λ h, mk_Message store [] (name_ (topic_config q0 queue_raw_topic)) (wire_text Gbk2Utf8 id h)) arrived
  ∧ of_store store queued = map (λ h, MqDataQueues.mk_mq_data None [] store (wire_text Gbk2Utf8 id h)) held
  ∧ ∃ msgs, map ms_text msgs = map (wire_text Gbk2Utf8 id) unread ∧ concat ls' = concat (map frame msgs).
Proof.
  intros Hm Hq Hsend He Hqu E. destruct (heads_taken effects l1 o1 He Hqu E) as (s1 & taken & waiting & -> & Eh & Hr & Hd & Ha).
  exists s1, taken, waiting. split_and!; [done..|]. intros turns c <- Hg Hw Hc.
  rewrite Eh in Hsend. apply Forall_app in Hsend as [Hsend _].
  destruct (batches_sent Gbk2Utf8 id fuel turns c Hg Hsend Hw) as (c' & -> & S). exists c'. split; [done|].
  rewrite Hc in S. cbn [app] in S. intros ls addr store seen Hn Hls Hl Hs.
  pose proof (batch_messages_texts Gbk2Utf8 id turns) as Ht.
  set (msgs := batch_messages Gbk2Utf8 id turns) in *. assert (Hlen : length msgs = length (omap snd turns))
    by (by rewrite <- (length_map ms_text), Ht, length_map).
  destruct (batches_received malloc fuel addr store seen msgs ls [] Hm) as (after & ls' & -> & Hraw & _ & Hrest);
    [by apply batch_message_ok|done|by rewrite app_nil_r, Hls|by rewrite Hlen|done|].
  exists after, ls'. split; [done|]. intros l2 o2 He2 Hqu2 E2.
  destruct (raw_queue_sent config_file q0 l2 o2 Hq Hqu2 E2) as (s2 & w & queued & -> & Hd2 & Ha2 & Ew & handled & Eh2 & Sw).
  exists s2, w, queued. split_and!; [done..|]. rewrite Eh2 in He2. unfold of_store in He2. rewrite filter_app in He2.
  fold (of_store store handled) (of_store store queued) in He2.
  rewrite Hraw, <- (map_map ms_text (MqDataQueues.mk_mq_data None [] store)), <- firstn_map, Ht, firstn_map, map_map in He2.
  symmetry in He2. apply map_eq_app in He2 as (arrived & held & E3 & E4 & E5).
  exists arrived, held, (drop (length seen) (omap snd turns)). rewrite Sw, tagged_messages, <- E4, <- E5, map_map.
  split_and!; [|done..|]; [by rewrite Eh, (app_assoc arrived), <- E3, app_assoc, take_drop|].
  exists (drop (length seen) msgs). rewrite Hrest, app_nil_r. split; [|done]. by rewrite <- !skipn_map, Ht, skipn_map.
Qed.

(** Two batches, of which the server has read one, with a datum of another store in
    front of it. *)
Definition sample_store : list Z := [83; 49].
Definition sample_seen : list (SocketServer * Z) :=
  [(mk_server [mk_client 7 sample_store [] 3 0] [] [Close (mk_client 1 [] [] 2 0)], 60)].
Definition sample_malloc (n : Z) : option (list Z) := Some (replicate (Z.to_nat n) 0).
Definition sample_round : list (action GenerateQueues.generated) :=
  let p := Enter (GenerateQueues.ProductDataGenerate_head witness_batch) 0 in
  let c := Enter GenerateQueues.VectorHeadConsumerDataGenerate 0 in [c; p; p; Resume 0 0; c].

Lemma batches_reach_service_witness :
  let text := wire_text (λ l, l) "W1" witness_batch in
  let turn := (replicate 33 1, [0; 0; 0], Some witness_batch) in
  let datum := MqDataQueues.mk_mq_data None [] sample_store text in
  let l2 := [Enter (MqDataQueues.ProductRawData [83; 50] [120]) 0; Enter MqDataQueues.ConsumerRawData 0;
             Enter (SharedQueue.Product 0 datum) 0; Enter MqDataQueues.ConsumerRawData 0] in
  ∃ c' w s2, ProcessBinlogThread_turns (λ l, l) 1000 "W1" [turn; turn] (Some (mk_sender [] [7; 20; 1]))
          = Ret (Some c', replicate 2 (true, batch_text "W1" witness_batch))
  ∧ MqDataQueues.run_raw l2 MqDataQueues.start_raw = Some (Next s2)
  ∧ threadProcessRaw_turns three_topics_file (λ _ _, false) (of_deque 0 (returned s2)) (mk_world None []) = (Done tt, w)
  ∧ tagged sample_store (sent (calls w)) = [mk_Message sample_store [] "MQ_RAW_TOPIC_NAME" text].
Proof.
  intros text turn datum l2.
  destruct (batches_reach_service sample_malloc (λ l, l) 1000 "W1" three_topics_file three_topics_queue
    [ClientExport.Product witness_batch; Commit; ClientExport.Product witness_batch] sample_round
    (default Undefined (GenerateQueues.run sample_round GenerateQueues.start)))
    as (s1 & taken & waiting & E1 & R1 & D1 & _ & H).
  - intros n Hn. eexists. split; [done|]. rewrite length_replicate. lia.
  - by vm_compute.
  - assert (sendable 1000 (wire_text (λ l, l) "W1" witness_batch)) as S; [|by repeat constructor].
    split; [apply (bool_decide_eq_true_1 _); by vm_compute|by vm_compute|by vm_compute|].
    apply Nat.leb_le. by vm_compute.
  - done.
  - by vm_compute.
  - by vm_compute.
  - assert (taken = [witness_batch; witness_batch]) as ->.
    { vm_compute in E1. injection E1 as <-. destruct taken as [|a [|b [|? ?]]]; vm_compute in R1; try done.
      by injection R1 as <- <-. }
    destruct (H [turn; turn] (mk_sender [] [7; 20; 1])) as (c' & E2 & H2);
      [done|by repeat constructor|by repeat constructor|done|].
    pose (bytes := match ProcessBinlogThread_turns (λ l, l) 1000 "W1" [turn; turn] (Some (mk_sender [] [7; 20; 1]))
      with Ret (Some c, _) => Messages.sent c | _ => [] end).
    assert (Messages.sent c' = bytes) as Sc by (unfold bytes; by rewrite E2). vm_compute in bytes.
    destruct (H2 [Messages.sent c'] 7 sample_store sample_seen) as (after & ls' & E3 & H3).
    + constructor; [by rewrite Sc|done].
    + cbn [concat]. by rewrite app_nil_r.
    + cbn. lia.
    + constructor; [|constructor]. eexists. split; vm_compute; reflexivity.
    + rewrite Sc in E3. pose (left := match threadHandler_turns sample_malloc 1000 7 sample_seen (Messages.pieces [bytes])
        with Ret (a, _) => a | _ => [] end).
      assert (after = left) as Sa by (unfold left; by rewrite E3). vm_compute in left.
      destruct (H3 l2 (default Undefined (MqDataQueues.run_raw l2 MqDataQueues.start_raw)))
        as (s2 & w & queued & E4 & _ & _ & E5 & _).
      * rewrite Sa. by vm_compute.
      * by vm_compute.
      * by vm_compute.
      * exists c', w, s2. split; [exact E2|]. split; [rewrite <- E4; by vm_compute|]. split; [exact E5|].
        assert (w = snd (threadProcessRaw_turns three_topics_file (λ _ _, false) (of_deque 0 (returned s2)) (mk_world None [])))
          as -> by by rewrite E5.
        vm_compute in E4. injection E4 as <-. by vm_compute.
Defined.
