(* ===== verification/TableConfig.v ===== *)
(** The client's table configuration, [config/tableinfo.xml]: [InitConfig] and
    [WriteTimeUpdateXML] of [wmsclient/wmsclient/increment_export.cpp], [InitConfig] of
    [PreBinlog.cpp], over the elements of tinyxml ([include/tinyxml/tinyxml.cpp]), and
    the statements of the export for what is read. *)
From stdpp Require Import pretty.
From S2P Require Import Prelude ClientExport ExportTime.

(** ** Documents *)

(** The nodes of a document; of an element, its attributes in their order and its
    children. *)
Inductive node :=
  | Element (value : string) (attributeSet : list (string * string)) (children : list node)
  | Declaration (version encoding standalone : string)
  | OtherNode (value : string).

Record document := mk_document { useMicrosoftBOM : bool; doc_children : list node }.

Fixpoint Attribute (name : string) (attributeSet : list (string * string)) : option string :=
  match attributeSet with
  | [] => None
  | (n, v) :: l => if decide (n = name) then Some v else Attribute name l
  end.

Fixpoint SetAttribute (name value : string) (attributeSet : list (string * string)) : list (string * string) :=
  match attributeSet with
  | [] => [(name, value)]
  | (n, v) :: l => if decide (n = name) then (n, value) :: l else (n, v) :: SetAttribute name value l
  end.

(** The first element: its attributes and its children. *)
Fixpoint FirstChildElement (l : list node) : option (list (string * string) * list node) :=
  match l with
  | [] => None
  | Element _ a c :: _ => Some (a, c)
  | _ :: l => FirstChildElement l
  end.

Definition RootElement (d : document) : option (list (string * string) * list node) :=
  FirstChildElement (doc_children d).

(** ** Reading *)

Definition NAME : string := "name".
Definition STAMP : string := "hm_update_timestamp".

Record globals := mk_globals {
  glb_table_name : list string;
  glb_timestamp : list string;
  glb_period_time : Z }.

(** The loop over the elements; [None]: a string of the null pointer of an attribute
    that is not there. *)
Fixpoint read_tables (l : list node) (g : globals) : option globals :=
  match l with
  | [] => Some g
  | Element _ a _ :: l =>
      name ← Attribute NAME a;
      timetasp ← Attribute STAMP a;
      read_tables l (mk_globals (glb_table_name g ++ [name]) (glb_timestamp g ++ [timetasp]) (glb_period_time g))
  | _ :: l => read_tables l g
  end.

(** The lists are cleared before the file is read. *)
Definition InitConfig (file : option document) (g : globals) : option (bool * globals) :=
  let g := mk_globals [] [] (glb_period_time g) in
  match file with
  | None => Some (false, g)
  | Some doc =>
      match RootElement doc with
      | None => Some (false, g)
      | Some (a, children) =>
          time_break ← Attribute "period_time" a;
          g ← read_tables children (mk_globals [] [] (atoi time_break));
          Some (negb (bool_decide (length (glb_table_name g) = 0 ∨ length (glb_timestamp g) = 0)%nat), g)
      end
  end.

(** [CPreBinlog::InitConfig]: a file without a root leaves the list as it was. *)
Fixpoint care_tables (l : list node) (m_careTableName : list string) : option (list string) :=
  match l with
  | [] => Some m_careTableName
  | Element _ a _ :: l => name ← Attribute NAME a; care_tables l (m_careTableName ++ [name])
  | _ :: l => care_tables l m_careTableName
  end.

Definition CPreBinlog_InitConfig (file : option document) (m_careTableName : list string) : option (bool * list string) :=
  match file with
  | None => Some (false, m_careTableName)
  | Some doc =>
      match RootElement doc with
      | None => Some (false, m_careTableName)
      | Some (_, children) => care ← care_tables children []; Some (negb (bool_decide (length care = 0)%nat), care)
      end
  end.

(** ** Writing *)

(** The loop of [WriteTimeUpdateXML] over the elements. *)
Fixpoint write_tables (tableName keyValues : string) (l : list node) : option (list node) :=
  match l with
  | [] => Some []
  | Element v a c :: l =>
      name ← Attribute NAME a;
      l' ← write_tables tableName keyValues l;
      Some (Element v (if decide (name = tableName) then SetAttribute STAMP keyValues a else a) c :: l')
  | x :: l => l' ← write_tables tableName keyValues l; Some (x :: l')
  end.

Fixpoint write_root (tableName keyValues : string) (l : list node) : option (list node) :=
  match l with
  | [] => Some []
  | Element v a c :: l => c' ← write_tables tableName keyValues c; Some (Element v a c' :: l)
  | x :: l => l' ← write_root tableName keyValues l; Some (x :: l')
  end.

Section File.
(** The file, what [LoadFile] makes of it and what [SaveFile], whose result is not
    looked at, makes it. *)
Context {F : Type} (LoadFile : F → option document) (SaveFile : F → document → F).
Definition WriteTimeUpdateXML (tableName keyValues : string) (f : F) : option (bool * F) :=
  match LoadFile f with
  | None => Some (false, f)
  | Some doc =>
      match RootElement doc with
      | None => Some (false, f)
      | Some _ =>
          l ← write_root tableName keyValues (doc_children doc);
          Some (true, SaveFile f (mk_document (useMicrosoftBOM doc) l))
      end
  end.

(** The times among the effects of a round, written one after the other. *)
Fixpoint perform_times (l : list effect) (f : F) : option F :=
  match l with
  | [] => Some f
  | WriteTime name v :: l => '(_, f) ← WriteTimeUpdateXML name v f; perform_times l f
  | _ :: l => perform_times l f
  end.

End File.

(** ** Lemmas on documents *)

Lemma Attribute_SetAttribute name value a : Attribute name (SetAttribute name value a) = Some value.
Proof.
  induction a as [|[n v] a IH]; cbn [SetAttribute Attribute].
  - by rewrite decide_True.
  - destruct (decide (n = name)) as [->|]; cbn [Attribute]; [by rewrite decide_True|by rewrite decide_False].
Qed.

Lemma Attribute_SetAttribute_ne n name value a : n ≠ name → Attribute n (SetAttribute name value a) = Attribute n a.
Proof.
  intros H. induction a as [|[m v] a IH]; cbn [SetAttribute Attribute].
  - by destruct (decide (name = n)).
  - destruct (decide (m = name)) as [->|]; cbn [Attribute]; [by destruct (decide (name = n))|]. by destruct (decide (m = n)).
Qed.

(** Setting an attribute that is there keeps the names. *)
Lemma SetAttribute_names name value a v : Attribute name a = Some v →
  map fst (SetAttribute name value a) = map fst a.
Proof.
  induction a as [|[n x] a IH]; cbn [SetAttribute Attribute]; [done|].
  destruct (decide (n = name)); [done|]. intros H. cbn. by rewrite IH.
Qed.

(** The tables of a list of nodes: names and time stamps. *)
Fixpoint table_rows (l : list node) : option (list (string * string)) :=
  match l with
  | [] => Some []
  | Element _ a _ :: l =>
      name ← Attribute NAME a; stamp ← Attribute STAMP a; rows ← table_rows l; Some ((name, stamp) :: rows)
  | _ :: l => table_rows l
  end.

(** The text of the period, and the tables. *)
Definition tables_of (d : document) : option (string * list (string * string)) :=
  '(a, c) ← RootElement d; t ← Attribute "period_time" a; rows ← table_rows c; Some (t, rows).

Lemma read_tables_rows l g rows : table_rows l = Some rows →
  read_tables l g = Some (mk_globals (glb_table_name g ++ map fst rows) (glb_timestamp g ++ map snd rows) (glb_period_time g)).
Proof.
  revert g rows. induction l as [|[v a c|ve e st|o] l IH]; intros g rows H; cbn [table_rows read_tables] in *;
    try by apply IH.
  - injection H as <-. destruct g. cbn. by rewrite !app_nil_r.
  - destruct (Attribute NAME a) as [name|], (Attribute STAMP a) as [stamp|], (table_rows l) as [rows'|];
      try discriminate H. injection H as <-. cbn [mbind option_bind]. rewrite (IH _ rows') by done.
    cbn. by rewrite <- !app_assoc.
Qed.

Lemma InitConfig_tables d g t rows : tables_of d = Some (t, rows) →
  InitConfig (Some d) g
  = Some (negb (bool_decide (rows = [])), mk_globals (map fst rows) (map snd rows) (atoi t)).
Proof.
  unfold tables_of, InitConfig. destruct (RootElement d) as [[a c]|]; cbn [mbind option_bind]; [|done].
  destruct (Attribute "period_time" a) as [t'|]; cbn [mbind option_bind]; [|done].
  destruct (table_rows c) as [rows'|] eqn:E; cbn [mbind option_bind]; [|done]. intros [= <- <-].
  rewrite (read_tables_rows _ _ _ E). cbn. rewrite !length_map. do 3 f_equal.
  apply bool_decide_ext. rewrite <- length_zero_iff_nil. tauto.
Qed.

(** ** Documents that are read back

    tinyxml reads back what it writes, if names are names and values have no characters
    it writes in another way. *)
Definition plain_char (c : Ascii.ascii) : bool :=
  let n := Ascii.nat_of_ascii c in
  (32 <=? n)%nat && (n <? 127)%nat && negb (bool_decide (n ∈ [34; 38; 39; 60; 62]%nat)).

Definition name_char (c : Ascii.ascii) : bool :=
  let n := Ascii.nat_of_ascii c in
  ((48 <=? n)%nat && (n <=? 57)%nat) || ((65 <=? n)%nat && (n <=? 90)%nat) || ((97 <=? n)%nat && (n <=? 122)%nat)
  || bool_decide (n ∈ [45; 46; 95]%nat).

Definition plain (s : string) : bool := forallb plain_char (String.list_ascii_of_string s).

Definition name_ok (s : string) : bool :=
  match String.list_ascii_of_string s with
  | [] => false
  | c :: l => name_char c && negb ((Ascii.nat_of_ascii c <=? 57)%nat) && forallb name_char l
  end.

Definition attributes_ok (a : list (string * string)) : bool :=
  bool_decide (NoDup (map fst a)) && forallb (λ '(n, v), name_ok n && plain v) a.

Definition table_ok (x : node) : bool :=
  match x with Element v a [] => name_ok v && attributes_ok a | _ => false end.

(** Declarations, and behind them one element whose children are elements without
    children. *)
Fixpoint config_nodes (l : list node) : bool :=
  match l with
  | [Element v a c] => name_ok v && attributes_ok a && forallb table_ok c
  | Declaration ve e s :: l => plain ve && plain e && plain s && config_nodes l
  | _ => false
  end.

Definition config_document (d : document) : bool := config_nodes (doc_children d).

Lemma plain_app s1 s2 : plain (s1 +:+ s2) = plain s1 && plain s2.
Proof.
  unfold plain. induction s1 as [|c s1 IH]; [done|].
  change (String c s1 +:+ s2) with (String c (s1 +:+ s2)). cbn [String.list_ascii_of_string forallb].
  by rewrite IH, andb_assoc.
Qed.

Lemma SetAttribute_ok name value a v : Attribute name a = Some v → plain value = true → attributes_ok a = true →
  attributes_ok (SetAttribute name value a) = true.
Proof.
  unfold attributes_ok. rewrite !andb_true_iff. intros Ha Hv [Hn Hf].
  rewrite (SetAttribute_names _ _ _ _ Ha). split; [done|]. clear Hn.
  induction a as [|[n x] a IH]; cbn [SetAttribute Attribute] in *; [discriminate Ha|].
  cbn [forallb] in Hf. apply andb_true_iff in Hf as [H1 H2].
  destruct (decide (n = name)); cbn [forallb]; apply andb_true_iff; split; try by auto.
  apply andb_true_iff in H1 as [H1 _]. by rewrite H1.
Qed.

(** A table with a new time stamp. *)
Definition restamp (tableName keyValues : string) (r : string * string) : string * string :=
  if decide (fst r = tableName) then (fst r, keyValues) else r.

Lemma write_tables_rows tableName keyValues l rows : table_rows l = Some rows →
  ∃ l', write_tables tableName keyValues l = Some l'
  ∧ table_rows l' = Some (map (restamp tableName keyValues) rows)
  ∧ (plain keyValues = true → forallb table_ok l = true → forallb table_ok l' = true).
Proof.
  revert rows. induction l as [|[v a c|ve e st|o] l IH]; intros rows H; cbn [table_rows write_tables] in *.
  - injection H as <-. by exists [].
  - destruct (Attribute NAME a) as [name|] eqn:En, (Attribute STAMP a) as [stamp|] eqn:Es, (table_rows l) as [rows'|];
      try discriminate H. injection H as <-. destruct (IH rows' eq_refl) as (l' & E & R & O). cbn [mbind option_bind].
    rewrite E. cbn [mbind option_bind]. eexists. split; [done|]. split.
    + cbn [table_rows map]. unfold restamp at 1. cbn [fst]. destruct (decide (name = tableName)).
      * by rewrite (Attribute_SetAttribute_ne NAME STAMP), En, Attribute_SetAttribute, R.
      * by rewrite En, Es, R.
    + intros Hv. cbn [forallb table_ok]. destruct c; [|done]. rewrite !andb_true_iff. intros [[Hn Ha] Ht].
      split; [split; [done|]|by apply O]. destruct (decide (name = tableName)); [by eapply SetAttribute_ok|done].
  - destruct (IH rows H) as (l' & E & R & O). rewrite E. eexists. split; [done|]. by split.
  - destruct (IH rows H) as (l' & E & R & O). rewrite E. eexists. split; [done|]. by split.
Qed.

Lemma write_root_rows tableName keyValues l a c rows : FirstChildElement l = Some (a, c) → table_rows c = Some rows →
  ∃ l' c', write_root tableName keyValues l = Some l' ∧ FirstChildElement l' = Some (a, c')
  ∧ table_rows c' = Some (map (restamp tableName keyValues) rows)
  ∧ (plain keyValues = true → config_nodes l = true → config_nodes l' = true).
Proof.
  intros H Hr. revert H. induction l as [|[v b ch|ve e st|o] l IH]; intros H; cbn [FirstChildElement write_root] in *; [done|..].
  - injection H as -> ->. destruct (write_tables_rows tableName keyValues c rows Hr) as (c' & E & R & O).
    rewrite E. cbn [mbind option_bind]. exists (Element v a c' :: l), c'. split_and!; [done..|].
    intros Hv. cbn [config_nodes]. destruct l; [|done]. rewrite !andb_true_iff. intros [? ?]. split; [done|by apply O].
  - destruct (IH H) as (l' & c' & E & R & T & O). rewrite E. cbn [mbind option_bind]. exists (Declaration ve e st :: l'), c'. split_and!; [done..|].
    intros Hv. cbn [config_nodes]. rewrite !andb_true_iff. intros [H1 H2]. split; [exact H1|by apply O].
  - destruct (IH H) as (l' & c' & E & R & T & O). rewrite E. by exists (OtherNode o :: l'), c'.
Qed.

(** ** The statements *)

Definition select_between (name lo hi : string) : string :=
  "select * from " +:+ name +:+ " where hm_update_timestamp >'" +:+ lo +:+ "' and hm_update_timestamp <='" +:+ hi +:+ "'".

Definition column_query (name : string) : string :=
  "select COLUMN_NAME from information_schema.COLUMNS where table_name='" +:+ name +:+ "'".

(** The statements for rows of a round at the time [T] of the first table: from a
    period before it up to the stamp of each table, and once more from four periods to
    two periods before. *)
Definition windows (tm_of : Z → tm) (p T : Z) (rows : list (string * string)) : list string :=
  map (λ r, select_between (fst r) (print_tm (tm_of (T - p))) (snd r)) rows
  ++ map (λ r, select_between (fst r) (print_tm (tm_of (T - 4 * p))) (print_tm (tm_of (T - 2 * p)))) rows.

(** The tables after [v] is written for those with one of the names. *)
Definition stamped (v : string) (names : list string) (rows : list (string * string)) : list (string * string) :=
  map (λ r, if decide (fst r ∈ names) then (fst r, v) else r) rows.

Lemma stamped_names v names rows : map fst (stamped v names rows) = map fst rows.
Proof. unfold stamped. rewrite map_map. apply map_ext. intros r. by case_decide. Qed.

Lemma restamp_all v names rows :
  foldl (λ rs n, map (restamp n v) rs) rows names = stamped v names rows.
Proof.
  unfold stamped.
  revert rows. induction names as [|n names IH]; intros rows; cbn [foldl].
  - rewrite <- (map_id rows) at 1. apply map_ext. intros r. rewrite decide_False; [done|apply not_elem_of_nil].
  - rewrite IH, map_map. apply map_ext. intros [m s]. unfold restamp. cbn [fst].
    destruct (decide (m = n)) as [->|]; cbn [fst].
    + rewrite (decide_True (P := n ∈ n :: names)) by (by left). by destruct (decide (n ∈ names)).
    + destruct (decide (m ∈ names)); [by rewrite decide_True by (by right)|].
      rewrite decide_False; [done|]. intros [|]%elem_of_cons; done.
Qed.

Section Clock.
(** The times of the machine's zone, back and forth, from [lo] to [hi]. *)
Context (localtime : Z → option tm) (mktime : tm → Z) (tm_of : Z → tm) (lo hi : Z).
Context (clock : ∀ z, lo <= z <= hi → localtime z = Some (tm_of z) ∧ mktime (tm_of z) = z ∧ tm_ok (tm_of z)).
Context (lo_pos : 0 <= lo) (hi_small : hi < 2 ^ 31).

Lemma stamp_read z s : lo <= z <= hi → GetTimeStampByStr mktime (padded_tm (tm_of z)) s = (s, Returns z).
Proof.
  intros H. destruct (clock z H) as (_ & M & O). unfold GetTimeStampByStr. rewrite read_padded by done.
  unfold mbind, exec_bind, or_undefined, mret, exec_ret. rewrite M, wrap_small by (zpow; lia). done.
Qed.

Lemma time_printed z s : lo <= z <= hi → GetStrFromTime localtime z s = (s, Returns (print_tm (tm_of z))).
Proof. intros H. destruct (clock z H) as (L & _). unfold GetStrFromTime. by rewrite L. Qed.

Lemma plain_small n : 0 <= n < 100 → plain (two n) = true.
Proof.
  intros H. assert (forallb (λ n, plain (two n)) (seqZ 0 100) = true) as A by (vm_compute; reflexivity).
  exact (forall_range 100 _ A n H).
Qed.

Lemma plain_year y : 1000 <= y < 10000 → plain (pretty y) = true.
Proof.
  intros H. assert (forallb (λ n, plain (pretty n)) (seqZ 0 10000) = true) as A by (vm_compute; reflexivity).
  apply (forall_range 10000 _ A y). lia.
Qed.

Lemma padded_plain t : tm_ok t → plain (padded_tm t) = true.
Proof.
  intros (Hy & Hm & Hd & Hh & Hmi & Hs). unfold padded_tm. rewrite !plain_app, plain_year, !plain_small by lia. done.
Qed.

(** [s32] changes nothing of such times. *)
Ltac clock_small :=
  repeat match goal with |- context [swrap 32 ?x] =>
    lazymatch x with context [swrap 32 _] => fail | _ => rewrite (swrap_small 32 x) by (zpow; lia) end end.

Lemma at_map {A B} (f : A → B) l pre r post s : l = pre ++ r :: post → at_ (map f l) (length pre) s = (s, Returns (f r)).
Proof. intros ->. unfold at_. rewrite map_app. rewrite lookup_app_r by (by rewrite length_map). by rewrite length_map, Nat.sub_diag. Qed.

Section Statements.
Context (rows : list (string * string)) (p T : Z).
Context (bounds : lo <= T - 4 * p ∧ T <= hi) (p_pos : 0 < p).
Context (first : map snd rows !! 0%nat = Some (padded_tm (tm_of T))).

Lemma first_stamp s : at_ (map snd rows) 0 s = (s, Returns (padded_tm (tm_of T))).
Proof. unfold at_. by rewrite first. Qed.

Lemma select_loop_windows pre rest keys curs s : rows = pre ++ rest →
  select_loop localtime mktime (map fst rows) (map snd rows) p (length pre) (length rest) keys curs s
  = (s, Returns (keys ++ map (λ r, column_query (fst r)) rest,
                 curs ++ map (λ r, select_between (fst r) (print_tm (tm_of (T - p))) (snd r)) rest)).
Proof.
  revert pre keys curs. induction rest as [|r rest IH]; intros pre keys curs E; cbn [length select_loop].
  - by rewrite !app_nil_r.
  - unfold mbind, exec_bind in *. rewrite (at_map fst _ _ _ _ _ E), first_stamp, stamp_read by lia. clock_small.
    rewrite time_printed by lia. rewrite (at_map snd _ _ _ _ _ E).
    specialize (IH (pre ++ [r]) (keys ++ [column_query (fst r)])
      (curs ++ [select_between (fst r) (print_tm (tm_of (T - p))) (snd r)])).
    rewrite length_app, Nat.add_1_r, <- !app_assoc in IH. by apply IH.
Qed.

Lemma select_loop2_windows pre rest curs s : rows = pre ++ rest →
  select_loop2 localtime mktime (map fst rows) (map snd rows) p (length pre) (length rest) curs s
  = (s, Returns (curs ++ map (λ r, select_between (fst r) (print_tm (tm_of (T - 4 * p))) (print_tm (tm_of (T - 2 * p)))) rest)).
Proof.
  revert pre curs. induction rest as [|r rest IH]; intros pre curs E; cbn [length select_loop2].
  - by rewrite app_nil_r.
  - unfold mbind, exec_bind in *. rewrite (at_map fst _ _ _ _ _ E), first_stamp, stamp_read by lia. clock_small.
    replace (p * 2) with (2 * p) by lia. replace (p * 4) with (4 * p) by lia.
    rewrite time_printed by lia. rewrite stamp_read by lia. clock_small. rewrite time_printed by lia.
    specialize (IH (pre ++ [r]) (curs ++ [select_between (fst r) (print_tm (tm_of (T - 4 * p))) (print_tm (tm_of (T - 2 * p)))])).
    rewrite length_app, Nat.add_1_r, <- !app_assoc in IH. by apply IH.
Qed.

Lemma GetSelectSql_windows s :
  GetSelectSql localtime mktime (map fst rows) (map snd rows) p s
  = (s, Returns (map column_query (map fst rows), windows tm_of p T rows)).
Proof.
  unfold GetSelectSql, mbind, exec_bind. rewrite length_map.
  pose proof (select_loop_windows [] rows [] [] s eq_refl) as E. cbn [length app] in E. rewrite E.
  pose proof (select_loop2_windows [] rows (map (λ r, select_between (fst r) (print_tm (tm_of (T - p))) (snd r)) rows) s eq_refl) as E2.
  cbn [length] in E2. rewrite E2. by rewrite map_map.
Qed.
End Statements.
End Clock.

Section Rewritten.
Context {F : Type} (LoadFile : F → option document) (SaveFile : F → document → F).
Context (reload : ∀ f d, config_document d = true → LoadFile (SaveFile f d) = Some d).

(** The file has a configuration that is read back, with these tables. *)
Definition configured (f : F) (t : string) (rows : list (string * string)) : Prop :=
  ∃ d, LoadFile f = Some d ∧ config_document d = true ∧ tables_of d = Some (t, rows).

Lemma WriteTime_configured name v f t rows : configured f t rows → plain v = true →
  ∃ f', WriteTimeUpdateXML LoadFile SaveFile name v f = Some (true, f') ∧ configured f' t (map (restamp name v) rows).
Proof.
  intros (d & L & C & T) Hv. unfold tables_of, RootElement in T.
  destruct (FirstChildElement (doc_children d)) as [[a c]|] eqn:R; cbn [mbind option_bind] in T; [|done].
  destruct (Attribute "period_time" a) as [t'|] eqn:Ha; cbn [mbind option_bind] in T; [|done].
  destruct (table_rows c) as [rows'|] eqn:Hr; cbn [mbind option_bind] in T; [|done]. injection T as <- <-.
  destruct (write_root_rows name v _ _ _ _ R Hr) as (l' & c' & E & R' & T' & O).
  unfold WriteTimeUpdateXML, RootElement. rewrite L, R, E. cbn [mbind option_bind]. eexists. split; [done|].
  eexists. split; [apply reload; by apply O|]. split; [by apply O|].
  unfold tables_of, RootElement. cbn [doc_children]. by rewrite R'; cbn [mbind option_bind]; rewrite Ha, T'.
Qed.

Lemma perform_times_configured names v f t rows : configured f t rows → plain v = true →
  ∃ f', perform_times LoadFile SaveFile (map (λ n, WriteTime n v) names) f = Some f'
  ∧ configured f' t (foldl (λ rs n, map (restamp n v) rs) rows names).
Proof.
  intros C Hv. revert f rows C. induction names as [|n names IH]; intros f rows C; cbn [map perform_times foldl].
  - by exists f.
  - destruct (WriteTime_configured n v f t rows C Hv) as (f1 & E & C1). rewrite E. cbn [mbind option_bind]. by apply IH.
Qed.

(** The list of tables of the thread that sends what the export queues. *)
Lemma care_tables_names l care rows : table_rows l = Some rows →
  care_tables l care = Some (care ++ map fst rows).
Proof.
  revert care rows. induction l as [|[v a c|ve e st|o] l IH]; intros care rows H; cbn [table_rows care_tables] in *;
    try by apply IH.
  - injection H as <-. cbn. by rewrite app_nil_r.
  - destruct (Attribute NAME a) as [name|], (Attribute STAMP a) as [stamp|], (table_rows l) as [rows'|];
      try discriminate H. injection H as <-. cbn [mbind option_bind]. rewrite (IH _ rows') by done.
    cbn. by rewrite <- app_assoc.
Qed.

Lemma configured_read f t rows g care : configured f t rows →
  InitConfig (LoadFile f) g
  = Some (negb (bool_decide (rows = [])), mk_globals (map fst rows) (map snd rows) (atoi t)) ∧
  CPreBinlog_InitConfig (LoadFile f) care = Some (negb (bool_decide (rows = [])), map fst rows).
Proof.
  intros (d & L & _ & T). rewrite L, (InitConfig_tables _ _ _ _ T). split; [done|].
  unfold tables_of in T. unfold CPreBinlog_InitConfig. destruct (RootElement d) as [[a c]|]; [|done].
  cbn [mbind option_bind] in T. destruct (Attribute "period_time" a); [|done]. cbn [mbind option_bind] in T.
  destruct (table_rows c) as [rows'|] eqn:E; [|done]. injection T as _ <-.
  rewrite (care_tables_names _ _ _ E). cbn [mbind option_bind app]. do 3 f_equal. rewrite length_map.
  apply bool_decide_ext. by rewrite length_zero_iff_nil.
Qed.
End Rewritten.

(** ** Properties *)

(** C31: the times written to the configuration file are those read from it.  For a
    file whose document is of the form of the configuration, and a [LoadFile] that
    reads back what [SaveFile] writes of such a document: writing the time [T] as
    [GetWriteXmlTime] pads it for any tables, also for names that are there twice
    or not at all, succeeds and leaves a file in which those tables have that time
    and the others their own; the export's [InitConfig] reads from it the same
    names, those times and the period, and the sender's [InitConfig] the names.
    When the first table is among those written and the zone's [mktime] inverts
    [localtime] from four periods before [T] on, [GetSelectSql] asks for the
    columns of every table, for its rows between a period before [T] and its own
    stamp, and once more for those from four to two periods before [T]: the lower
    bounds are the first table's for all. *)
Theorem configuration_reread {F : Type} (LoadFile : F → option document) SaveFile f t rows names tm_T :
  (∀ f d, config_document d = true → LoadFile (SaveFile f d) = Some d) →
  configured LoadFile f t rows → tm_ok tm_T →
  ∃ v f', GetWriteXmlTime (print_tm tm_T) = Some v ∧ read_tm v = Some tm_T ∧
  perform_times LoadFile SaveFile (map (λ n, WriteTime n v) names) f = Some f' ∧
  let rows' := stamped v names rows in
  configured LoadFile f' t rows' ∧
  (∀ g, InitConfig (LoadFile f') g
    = Some (negb (bool_decide (rows = [])), mk_globals (map fst rows) (map snd rows') (atoi t))) ∧
  (∀ care, CPreBinlog_InitConfig (LoadFile f') care = Some (negb (bool_decide (rows = [])), map fst rows)) ∧
  (∀ localtime mktime tm_of p T w,
    (∀ z, T - 4 * p <= z <= T → localtime z = Some (tm_of z) ∧ mktime (tm_of z) = z ∧ tm_ok (tm_of z)) →
    0 < p → 0 <= T - 4 * p → T < 2 ^ 31 → atoi t = p → tm_T = tm_of T → (∃ n, head (map fst rows) = Some n ∧ n ∈ names) →
    GetSelectSql localtime mktime (map fst rows) (map snd rows') p w
    = (w, Returns (map column_query (map fst rows), windows tm_of p T rows'))).
Proof.
  intros Hre C O. exists (padded_tm tm_T).
  destruct (perform_times_configured LoadFile SaveFile Hre names (padded_tm tm_T) f t rows C) as (f' & E & C');
    [by apply padded_plain|]. rewrite restamp_all in C'. exists f'.
  assert (Hnil : stamped (padded_tm tm_T) names rows = [] ↔ rows = []) by (by destruct rows).
  cbv zeta. split_and!; [by apply time_text_roundtrip|by apply read_padded|done|done|..].
  - intros g. destruct (configured_read LoadFile f' t _ g [] C') as [-> _]. rewrite stamped_names.
    by rewrite (bool_decide_ext _ _ Hnil).
  - intros care. destruct (configured_read LoadFile f' t _ (mk_globals [] [] 0) care C') as [_ ->].
    by rewrite stamped_names, (bool_decide_ext _ _ Hnil).
  - intros localtime mktime tm_of p T w Hcl Hp Hlo Hhi Ht -> (n & Hn & Hin).
    rewrite <- (stamped_names (padded_tm (tm_of T)) names rows).
    apply (GetSelectSql_windows localtime mktime tm_of (T - 4 * p) T Hcl); [done|done|lia|done|].
    destruct rows as [|[m s] rows]; [done|].
    injection Hn as ->. cbn. by rewrite decide_True.
Qed.

(** Three tables whose stamps differ, in a zone where a month has 31 days; the second
    of three rounds fails. *)
Definition sample_tm (z : Z) : tm := mk_tm 116 4 (1 + z / 86400 mod 31) (z / 3600 mod 24) (z / 60 mod 60) (z mod 60).
Definition sample_mktime (t : tm) : Z := (tm_mday t - 1) * 86400 + tm_hour t * 3600 + tm_min t * 60 + tm_sec t.
Definition sample_rows : list (string * string) :=
  [("WM_SO_HEADER", "2016-05-01 01:00:00"); ("WM_SO_DETAIL", "2016-05-01 00:10:00"); ("wm_asn_header", "2016-05-12 13:44:30")].
Definition sample_config : document :=
  mk_document true
    [Declaration "1.0" "utf-8" EmptyString;
     Element "binlogCare" [("period_time", "30")] (map (λ r, Element "table" [(NAME, fst r); (STAMP, snd r)] []) sample_rows)].

(** The time is written for two of the tables, for one of them twice, and for one
    that is not there. *)
Lemma configuration_reread_witness :
  ∃ f', perform_times Some (λ _ d, d)
    (map (λ n, WriteTime n "2016-05-01 01:00:30") ["WM_SO_HEADER"; "wm_asn_header"; "WM_SO_HEADER"; "x"]) sample_config
    = Some f'
  ∧ tables_of f' = Some ("30", [("WM_SO_HEADER", "2016-05-01 01:00:30"); ("WM_SO_DETAIL", "2016-05-01 00:10:00");
      ("wm_asn_header", "2016-05-01 01:00:30")])
  ∧ GetSelectSql (λ z, Some (sample_tm z)) sample_mktime (map fst sample_rows)
      ["2016-05-01 01:00:30"; "2016-05-01 00:10:00"; "2016-05-01 01:00:30"] 30 (mk_world 0 [] [] [])
    = (mk_world 0 [] [] [], Returns (map column_query (map fst sample_rows),
        windows sample_tm 30 3630 [("WM_SO_HEADER", "2016-05-01 01:00:30"); ("WM_SO_DETAIL", "2016-05-01 00:10:00");
          ("wm_asn_header", "2016-05-01 01:00:30")])).
Proof.
  destruct (configuration_reread Some (λ _ d, d) sample_config "30" sample_rows
    ["WM_SO_HEADER"; "wm_asn_header"; "WM_SO_HEADER"; "x"] (sample_tm 3630)) as (v & f' & Ev & _ & E & C & _ & _ & S).
  - done.
  - exists sample_config. split_and!; by vm_compute.
  - unfold tm_ok. by vm_compute.
  - assert (v = "2016-05-01 01:00:30") as -> by (vm_compute in Ev; congruence).
    exists f'. split; [exact E|]. split.
    + destruct C as (d & [= ->] & _ & R). rewrite R. by vm_compute.
    + apply (S (λ z, Some (sample_tm z)) sample_mktime sample_tm 30 3630); try done; [|eexists; split; [done|by left]].
      intros z Hz. split; [done|]. unfold tm_ok, sample_mktime, sample_tm. cbn -[Z.div Z.modulo Z.mul Z.add].
      rewrite (Z.div_small z 86400) by lia. split_and!; zdm.
Defined.
