(* ===== verification/Downstream.v ===== *)
(** From the server to a store's database: the messages the server sends to a client,
    the connection, the client's receiving thread, the threads of its handlers, the
    deque of updates and the thread that applies them, composed. *)
From S2P Require Import Prelude JsonValue JsonReader RowValue SharedQueue Messages SocketServer Dispatch ApplyMessage.

(** ** The server *)

(** The sends to the client at an address, one after the other; whether one succeeds
    is not looked at. *)
Fixpoint send_effects (fuel : nat) (addr : Z) (padding : list Z) (l : list effect) (c : sender) : run sender :=
  match l with
  | [] => Ret c
  | Send client header strData :: l =>
      if address client =? addr then
        '(_, c) ← sendMessage false fuel c header padding strData;
        send_effects fuel addr padding l c
      else send_effects fuel addr padding l c
  | _ :: l => send_effects fuel addr padding l c
  end.

(** The messages among the effects, with the bytes the header's padding has. *)
Definition messages_to (addr : Z) (padding : list Z) : list effect → list message :=
  omap (λ e, match e with
             | Send c h d => if address c =? addr then Some (mk_message (code_ h) (message_id_ h) padding d) else None
             | _ => None
             end).

(** A message of updates as [update_header] and the dispatcher make them. *)
Definition update_sent (fuel : nat) (addr : Z) (e : effect) : Prop :=
  match e with
  | Send c h d => address c = addr →
      code_ h = MSG_TYPE_UPDATE_DATABASE ∧ data_len_ h = HEADER_SIZE + Z.of_nat (length d)
      ∧ length (message_id_ h) = 33%nat ∧ no_nul d ∧ Z.of_nat (length d) < 2 ^ 31 - 45 ∧ (50 + length d ≤ fuel)%nat
  | _ => True
  end.

Lemma update_message_ok h d padding : code_ h = MSG_TYPE_UPDATE_DATABASE → length (message_id_ h) = 33%nat →
  length padding = 3%nat → no_nul d → Z.of_nat (length d) < 2 ^ 31 - 45 →
  message_ok (mk_message (code_ h) (message_id_ h) padding d).
Proof. intros -> Hi Hp Hn Hl. by split. Qed.

Lemma updates_sent fuel addr padding l c : length padding = 3%nat → Forall (update_sent fuel addr) l → willing c →
  ∃ c', send_effects fuel addr padding l c = Ret c'
  ∧ Messages.sent c' = Messages.sent c ++ concat (map frame (messages_to addr padding l)).
Proof.
  intros Hp H. revert c. induction H as [|e l He _ IH]; intros c Hw.
  { exists c. by rewrite app_nil_r. }
  destruct e as [cl h d|cl t d|st d|st d|cl]; try exact (IH c Hw). cbn [send_effects].
  unfold messages_to. cbn [omap list_omap]. fold (messages_to addr padding). cbn [update_sent] in He.
  destruct (Z.eqb_spec (address cl) addr) as [Ha|]; [|exact (IH c Hw)].
  destruct (He Ha) as (Hc & Hl & Hi & Hn & Hlen & Hf). set (m := mk_message (code_ h) (message_id_ h) padding d).
  destruct (sendMessage_ok false fuel c m) as (c1 & E1 & W1 & S1); [by apply update_message_ok|done|exact Hf|].
  assert (header_of m = h) as Eh by (unfold header_of; cbn; rewrite <- Hl; by destruct h). rewrite Eh in E1.
  cbn [m ms_padding ms_text] in E1. rewrite E1. cbn [mbind run_bind]. destruct (IH c1 W1) as (c2 & E2 & S2).
  exists c2. split; [exact E2|]. cbn [map concat]. by rewrite S2, S1, <- app_assoc.
Qed.

Lemma messages_to_ok fuel addr padding l : length padding = 3%nat → Forall (update_sent fuel addr) l →
  Forall (λ m, message_ok m ∧ ms_type m = MSG_TYPE_UPDATE_DATABASE ∧ (50 + length (ms_text m) ≤ fuel)%nat)
    (messages_to addr padding l).
Proof.
  intros Hp. unfold messages_to. induction 1 as [|e l He _ IH]; [constructor|]. cbn [omap list_omap].
  destruct e as [cl h d|cl t d|st d|st d|cl]; try exact IH.
  destruct (Z.eqb_spec (address cl) addr) as [Ha|]; [|exact IH]. constructor; [|exact IH].
  destruct (He Ha) as (Hc & Hl & Hi & Hn & Hlen & Hf). split_and!; [by apply update_message_ok|done|done].
Qed.

(** ** The client *)

(** Any number of turns receives as many messages. *)
Lemma client_turns_some malloc fuel msgs n ls :
  (∀ n, 0 <= n → ∃ l, malloc n = Some l ∧ Z.of_nat (length l) = n) →
  Forall (λ m, message_ok m ∧ ms_type m = MSG_TYPE_UPDATE_DATABASE ∧ (50 + length (ms_text m) ≤ fuel)%nat) msgs →
  nonempty ls → concat ls = concat (map frame msgs) → (n ≤ length msgs)%nat →
  ∃ ls', client_turns malloc fuel true n (pieces ls)
         = Ret (map (λ m, Message (header_of m) (ms_text m)) (take n msgs), pieces ls')
  ∧ concat ls' = concat (map frame (drop n msgs)).
Proof.
  intros Hm Hok. revert n ls. induction Hok as [|m msgs (H1 & _ & H3) _ IH]; intros n ls Hn Hc Hl.
  - replace n with O by (cbn in Hl; lia). by exists ls.
  - destruct n as [|n]; [by exists ls|]. cbn [map concat] in Hc.
    destruct (receivers_ok malloc Hm true fuel ls m _ H1 Hn Hc H3) as (l1 & _ & T & N1 & C1).
    cbn [length] in Hl. destruct (IH n l1 N1 C1 ltac:(lia)) as (l2 & E & C2). exists l2. split; [|exact C2].
    cbn [client_turns take map]. rewrite T. cbn [mbind run_bind]. by rewrite E.
Qed.

(** The thread that applies the updates, given what the consumer gives at each turn;
    an exception that is not caught ends it. *)
Section Updates.
Context (read_double : string → option (string * string)) (spare : string → string).
Context {DB : Type} (select_rows : DB → string → option nat) (run_sql : DB → string → option DB).
Context (commit_succeeds : DB → bool).

Fixpoint ThreadProcess_turns (l : list (option UpdateDbQueue.UPDATE_DATA)) (c : connection DB)
    : connection DB * list (option bool) :=
  match l with
  | [] => (c, [])
  | None :: l => ThreadProcess_turns l c
  | Some tmpData :: l =>
      match process_message read_double spare DB select_rows run_sql commit_succeeds
              (bytes_string (UpdateDbQueue.body_ tmpData)) c with
      | (c, None) => (c, [None])
      | (c, r) => let '(c, rs) := ThreadProcess_turns l c in (c, r :: rs)
      end
  end.
End Updates.

Section Applying.
Context (read_double : string → option (string * string)) (spare : string → string).
Context {DB : Type} (select_rows : DB → string → option nat) (run_sql : DB → string → option DB).
Context (commit_succeeds : DB → bool) (entries : list Z → list entry).
Context (accepted : ∀ db e, upsert select_rows run_sql db e ≠ None) (commits : ∀ db, commit_succeeds db = true).

Lemma upsert_all_app l1 l2 db :
  upsert_all select_rows run_sql db (l1 ++ l2)
  = db ← upsert_all select_rows run_sql db l1; upsert_all select_rows run_sql db l2.
Proof.
  revert db. induction l1 as [|e l1 IH]; intros db; [done|]. cbn [app upsert_all].
  destruct (upsert _ _ db e); cbn [mbind option_bind]; [apply IH|done].
Qed.

Lemma upsert_all_accepted l db : ∃ db', upsert_all select_rows run_sql db l = Some db'.
Proof.
  revert db. induction l as [|e l IH]; intros db; [by eexists|]. cbn [upsert_all].
  destruct (upsert _ _ db e) as [db1|] eqn:E; [apply IH|by destruct (accepted db e)].
Qed.

(** The tables of the updates that are taken are applied in the order of the deque,
    and are in the database that is committed. *)
Lemma updates_applied l db d :
  Forall (λ u, says read_double spare (bytes_string (UpdateDbQueue.body_ u)) (entries (UpdateDbQueue.body_ u))) (omap id l) →
  ∃ db', upsert_all select_rows run_sql db (concat (map (λ u, entries (UpdateDbQueue.body_ u)) (omap id l))) = Some db'
  ∧ ThreadProcess_turns read_double spare select_rows run_sql commit_succeeds l (mk_connection DB true db d)
    = (mk_connection DB true db' (match omap id l with [] => d | _ => db' end), replicate (length (omap id l)) (Some true)).
Proof.
  revert db d. induction l as [|[u|] l IH]; intros db d H; [by exists db| |exact (IH db d H)].
  change (omap id (Some u :: l)) with (u :: omap id l) in *. apply Forall_cons in H as [Hu Hl]. cbn [map concat].
  destruct (upsert_all_accepted (entries (UpdateDbQueue.body_ u)) db) as [db1 E1].
  destruct (IH db1 db1 Hl) as (db2 & E2 & T). exists db2.
  split; [by rewrite upsert_all_app, E1|]. cbn [ThreadProcess_turns].
  rewrite (process_ok read_double spare select_rows run_sql commit_succeeds _ (entries (UpdateDbQueue.body_ u)) db d db1)
    by (done || by apply says_statements).
  rewrite commits, T. cbn [length replicate]. f_equal. f_equal. destruct (omap id l); [|done]. cbn in E2. congruence.
Qed.
End Applying.

Definition as_update (p : SOCKET_MESSAGE_HEADER * list Z) : UpdateDbQueue.UPDATE_DATA :=
  UpdateDbQueue.mk_update_data (fst p) (snd p).

(** The handler of a received message. *)
Definition handler_of (Utf82Gbk : list Z → list Z) (m : message) : handler :=
  new_CHandlerMessage Utf82Gbk (header_of m) (ms_text m).

Lemma handlers_update Utf82Gbk msgs : Forall (λ m, ms_type m = MSG_TYPE_UPDATE_DATABASE) msgs →
  updates_of (map (handler_of Utf82Gbk) msgs) = map (λ m, (header_of m, Utf82Gbk (ms_text m))) msgs.
Proof.
  induction 1 as [|m msgs H _ IH]; [done|]. cbn [map]. rewrite updates_of_cons, IH. unfold updates_of, is_update. cbn.
  by rewrite H.
Qed.

Lemma concat_nils {A} (l : list (list A)) : Forall (λ t, t = []) l → concat l = [].
Proof. induction 1 as [|t l -> _ IH]; [done|exact IH]. Qed.

(** C3: updates reach the store's database.  The messages of updates the server sends to
    a client go over the connection as frames; however the bytes arrive, each turn of
    the client's thread receives the next of them; each is queued by a thread of its
    own, in any order of these threads; the deque is drained in its order, and the
    tables of every update taken are written and committed.  This is so while the
    deque is never full (an update that finds it full is dropped), the text of every
    update parses to tables, and the database accepts every statement and every
    commit.  So the updates the client has received are, each once, those applied, in
    the order the threads queued them in, those in the deque and those of threads that
    have not come to it yet; the bytes behind them are still in the connection. *)
Theorem updates_reach_database read_double spare {DB : Type} select_rows run_sql (commit_succeeds : DB → bool)
    malloc Utf82Gbk entries fuel addr padding effs c db d :
  (∀ n, 0 <= n → ∃ l, malloc n = Some l ∧ Z.of_nat (length l) = n) →
  (∀ db e, upsert select_rows run_sql db e ≠ None) → (∀ db, commit_succeeds db = true) →
  length padding = 3%nat → Forall (update_sent fuel addr) effs → willing c → Messages.sent c = [] →
  let msgs := messages_to addr padding effs in
  Forall (λ m, says read_double spare (bytes_string (Utf82Gbk (ms_text m))) (entries (Utf82Gbk (ms_text m)))) msgs →
  ∃ c', send_effects fuel addr padding effs c = Ret c'
  ∧ ∀ ls n, nonempty ls → concat ls = Messages.sent c' → (n ≤ length msgs)%nat →
  ∃ ls', client_turns malloc fuel true n (pieces ls)
         = Ret (map (λ m, Message (header_of m) (ms_text m)) (take n msgs), pieces ls')
  ∧ concat ls' = concat (map frame (drop n msgs))
  ∧ ∀ schedule th lq o, handled schedule = map (handler_of Utf82Gbk) (take n msgs) →
      client_execute schedule no_threads = Some th →
      entered lq = map as_update (updates (trace th)) →
      quiet UpdateDbQueue.ROWS_DATA_MAX_SIZE (λ _, true) 0 lq UpdateDbQueue.start = true →
      UpdateDbQueue.run lq UpdateDbQueue.start = Some o →
  ∃ s2 db' applied queued held, o = Next s2 ∧ deques s2 !! 0%nat = Some (map as_update queued)
  ∧ (asleep_empty s2 ≠ [] → queued = []) ∧ (Forall (λ t, t = []) (running th) → held = [])
  ∧ applied ++ queued ++ held ≡ₚ map (λ m, (header_of m, Utf82Gbk (ms_text m))) (take n msgs)
  ∧ upsert_all select_rows run_sql db (concat (map (λ p, entries (snd p)) applied)) = Some db'
  ∧ ThreadProcess_turns read_double spare select_rows run_sql commit_succeeds (of_deque 0 (returned s2))
      (mk_connection DB true db d)
    = (mk_connection DB true db' (match applied with [] => d | _ => db' end), replicate (length applied) (Some true)).
Proof.
  intros Hm Hacc Hcom Hp He Hw Hc msgs Hsays.
  destruct (updates_sent fuel addr padding effs c Hp He Hw) as (c' & E & S). fold msgs in S. rewrite Hc in S.
  exists c'. split; [done|]. intros ls n Hn Hls Hl. pose proof (messages_to_ok fuel addr padding effs Hp He) as Hok.
  fold msgs in Hok. destruct (client_turns_some malloc fuel msgs n ls Hm Hok Hn) as (ls' & T & C); [by rewrite Hls, S|done|].
  exists ls'. split_and!; [done..|]. intros schedule th lq o Hh Hth Hlq Hq Eq.
  destruct (quiet_execute _ _ 0 1 lq o ltac:(lia) Hq Eq) as (s2 & -> & P). destruct (pair_asleep _ _ _ P) as (q & Hd & Hs & Ha).
  rewrite Hlq in Hs. apply map_eq_app in Hs as (applied & queued & E1 & E2 & <-).
  pose proof (client_execute_updates schedule no_threads th Hth) as U. cbn [no_threads trace running] in U.
  rewrite Hh, handlers_update in U; [|apply Forall_take; eapply Forall_impl; [exact Hok|by intros m (_ & ? & _)]].
  rewrite E1, <- app_assoc in U. cbn [updates omap list_omap concat] in U. rewrite !app_nil_r in U.
  assert (Forall (λ u, says read_double spare (bytes_string (UpdateDbQueue.body_ u)) (entries (UpdateDbQueue.body_ u)))
    (omap id (of_deque 0 (returned s2)))) as F.
  { change (omap id (of_deque 0 (returned s2))) with (received 0 s2). rewrite <- E2. apply Forall_map.
    assert (Forall (λ p : SOCKET_MESSAGE_HEADER * list Z, says read_double spare (bytes_string (snd p)) (entries (snd p)))
      (applied ++ queued ++ updates (concat (running th)))) as G; [|by apply Forall_app in G as [G _]].
    rewrite U. apply Forall_map, Forall_take. exact Hsays. }
  destruct (updates_applied read_double spare select_rows run_sql commit_succeeds entries Hacc Hcom
    (of_deque 0 (returned s2)) db d F) as (db' & Edb & Et).
  change (omap id (of_deque 0 (returned s2))) with (received 0 s2) in *. rewrite <- E2 in Edb, Et.
  rewrite map_map in Edb. rewrite length_map in Et.
  exists s2, db', applied, queued, (updates (concat (running th))). split_and!; [done|done| | |exact U|exact Edb|].
  - intros H. by destruct queued; [|discriminate (Ha H)].
  - intros H. by rewrite concat_nils.
  - rewrite Et. by destruct applied.
Qed.

(** Two updates, of which the second is queued first and only that is taken. *)
Definition sample_text : list Z := string_bytes (witness_text [witness_entry]).
Definition sample_header (id : Z) : SOCKET_MESSAGE_HEADER :=
  mk_message_header MSG_TYPE_UPDATE_DATABASE (HEADER_SIZE + Z.of_nat (length sample_text)) (replicate 33 id).
Definition sample_sends : list effect :=
  [Send (mk_client 7 [83] [] 3 0) (sample_header 49) sample_text; PushFailed [84] [];
   Send (mk_client 8 [84] [] 4 0) (sample_header 50) [1]; Send (mk_client 7 [83] [] 3 0) (sample_header 51) sample_text].

Lemma updates_reach_database_witness :
  let apply_turns := ThreadProcess_turns witness_double witness_spare (λ _ _, Some 0%nat)
    (λ (db : list string) sql, Some (db ++ [sql])) (λ _, true) in
  let handlers := [mk_handler (sample_header 49) sample_text; mk_handler (sample_header 51) sample_text] in
  let p id := Enter (UpdateDbQueue.ProductData (sample_header id) sample_text) 0 in
  let lq := [p 51; p 49; Enter UpdateDbQueue.ConsumerData 0] in
  ∃ c' s2, send_effects 2000 7 [0; 0; 0] sample_sends (mk_sender [] [7; 20; 1]) = Ret c'
  ∧ UpdateDbQueue.run lq UpdateDbQueue.start = Some (Next s2)
  ∧ deques s2 !! 0%nat = Some [as_update (sample_header 49, sample_text)]
  ∧ apply_turns (of_deque 0 (returned s2)) (mk_connection _ true [] [])
    = (mk_connection _ true [insert_of witness_entry] [insert_of witness_entry], [Some true]).
Proof.
  intros apply_turns handlers p lq.
  assert (says witness_double witness_spare (bytes_string sample_text) (witness_reread [witness_entry])) as Hs.
  { unfold sample_text. rewrite bytes_string_bytes. apply witness_says. constructor; [apply witness_entry_plain|constructor]. }
  destruct (updates_reach_database witness_double witness_spare (λ _ _, Some 0%nat)
    (λ (db : list string) sql, Some (db ++ [sql])) (λ _, true) (λ n, Some (replicate (Z.to_nat n) 0)) (λ l, l)
    (λ _, witness_reread [witness_entry]) 2000 7 [0; 0; 0] sample_sends (mk_sender [] [7; 20; 1]) [] []) as (c' & E & H).
  - intros n Hn. eexists. split; [done|]. rewrite length_replicate. lia.
  - done.
  - done.
  - done.
  - assert (∀ id, update_sent 2000 7 (Send (mk_client 7 [83] [] 3 0) (sample_header id) sample_text)) as U.
    { intros id _. split_and!; [done|done|done|apply (bool_decide_eq_true_1 _); by vm_compute|by vm_compute|].
      apply Nat.leb_le. by vm_compute. }
    constructor; [apply U|]. constructor; [exact I|]. constructor; [intros [=]|]. constructor; [apply U|constructor].
  - by repeat constructor.
  - done.
  - constructor; [exact Hs|]. constructor; [exact Hs|constructor].
  - pose (bytes := match send_effects 2000 7 [0; 0; 0] sample_sends (mk_sender [] [7; 20; 1]) with Ret c => Messages.sent c | _ => [] end).
    assert (Messages.sent c' = bytes) as Sc by (unfold bytes; by rewrite E). vm_compute in bytes.
    destruct (H [Messages.sent c'] 2%nat) as (ls' & _ & _ & K).
    + constructor; [rewrite Sc; discriminate|constructor].
    + cbn [concat]. by rewrite app_nil_r.
    + cbn. lia.
    + destruct (K [Receive (mk_handler (sample_header 49) sample_text) true; Receive (mk_handler (sample_header 51) sample_text) true;
          Go 1; Go 0; Go 1; Go 0]
        (default no_threads (client_execute [Receive (mk_handler (sample_header 49) sample_text) true;
          Receive (mk_handler (sample_header 51) sample_text) true; Go 1; Go 0; Go 1; Go 0] no_threads))
        lq (default Undefined (UpdateDbQueue.run lq UpdateDbQueue.start)))
        as (s2 & db' & applied & queued & held & E2 & D & _ & _ & _ & Edb & Et);
        [reflexivity|reflexivity|reflexivity|reflexivity|reflexivity|].
      exists c', s2. split; [exact E|]. cbn in E2. injection E2 as <-. split_and!; [reflexivity|reflexivity|].
      unfold apply_turns. vm_compute. reflexivity.
Defined.
