(* ===== verification/Database.v ===== *)
(** The client's connection to its database: the instance of [CMysqlOperation] with its
    configuration, connection, error texts and pings ([wmsclient/wmsclient/MysqlOperation.cpp],
    and the same functions of [CMysqlQueue] in [MyslqQueue.cpp]), under the thread that
    applies updates. *)
From stdpp Require Import pretty.
From S2P Require Import Prelude JsonValue JsonReader ApplyMessage.

(** ** The instance *)

Definition MAX_PATH : nat := 260.
Definition DB_CONFIG_KEY : string := "Database Connection Info".

(** What a construction meets: whether the configuration exists and its values; the
    number and text of the error of each call of the library that fails; whether the
    thread that pings is created. *)
Record attempt := mk_attempt {
  config_found : bool;
  profile : string → string → string;
  real_connect : string → string → string → string → option (Z * string);
  set_character_set : option (Z * string);
  autocommit : option (Z * string);
  thread_created : bool;
}.

(** [m_bConnect] is with the connection ([ApplyMessage.connection]). *)
Record CMysqlOperation := mk_CMysqlOperation {
  m_host : string;
  m_username : string;
  m_password : string;
  m_database : string;
  m_bConfig : bool;
  m_threadId : Z;
  m_mysql_errorno : Z;
  m_mysql_errormsg : string;
  m_mysql_error_format : string;
  pinging : bool;
}.

Definition new_instance : CMysqlOperation :=
  mk_CMysqlOperation EmptyString EmptyString EmptyString EmptyString false 0 0 EmptyString EmptyString false.

(** [GetPrivateProfileStringA] into a buffer of [MAX_PATH] characters, with the empty
    string as the default. *)
Definition GetPrivateProfileStringA (a : attempt) (section key : string) : string :=
  String.substring 0 (MAX_PATH - 1) (profile a section key).

(** Only the length of the first value is looked at. *)
Definition initDbConfig (a : attempt) (i : CMysqlOperation) : bool * CMysqlOperation :=
  let get := GetPrivateProfileStringA a DB_CONFIG_KEY in
  let set host user password database :=
    mk_CMysqlOperation host user password database (m_bConfig i) (m_threadId i) (m_mysql_errorno i) (m_mysql_errormsg i)
      (m_mysql_error_format i) (pinging i) in
  if negb (config_found a) then (false, i)
  else
    let host := get "Host" in
    let iRv := String.length host in
    if Nat.eqb iRv 0 then (false, set host (m_username i) (m_password i) (m_database i))
    else (true, set host (get "UserName") (get "Password") (get "DatabaseName")).

Definition error_format (errorno : Z) (errormsg : string) : string :=
  EmptyString +:+ "[code:" +:+ pretty (s32 errorno) +:+ "]" +:+ errormsg.

Definition setError (e : Z * string) (i : CMysqlOperation) : CMysqlOperation :=
  mk_CMysqlOperation (m_host i) (m_username i) (m_password i) (m_database i) (m_bConfig i) (m_threadId i)
    (fst e) (snd e) (error_format (fst e) (snd e)) (pinging i).

(** A failing step sets the error and throws its text. *)
Definition checked (o : option (Z * string)) (i : CMysqlOperation) : string + CMysqlOperation :=
  match o with Some e => inl (m_mysql_error_format (setError e i)) | None => inr i end.

(** What both classes do. *)
Definition connect_steps (a : attempt) (i : CMysqlOperation) : string + CMysqlOperation :=
  match checked (real_connect a (m_host i) (m_username i) (m_password i) (m_database i)) i with
  | inl e => inl e
  | inr i =>
      match checked (set_character_set a) i with
      | inl e => inl e
      | inr i => checked (autocommit a) i
      end
  end.

(** [connectDb] of [CMysqlQueue], whose thread is commented out, and of
    [CMysqlOperation]. *)
Definition CMysqlQueue_connectDb (a : attempt) (i : CMysqlOperation) : string + bool * CMysqlOperation :=
  match connect_steps a i with inl e => inl e | inr i => inr (true, i) end.

Definition connectDb (a : attempt) (i : CMysqlOperation) : string + bool * CMysqlOperation :=
  match connect_steps a i with
  | inl e => inl e
  | inr i =>
      if thread_created a then
        inr (true, mk_CMysqlOperation (m_host i) (m_username i) (m_password i) (m_database i) (m_bConfig i) (m_threadId i)
                     (m_mysql_errorno i) (m_mysql_errormsg i) (m_mysql_error_format i) true)
      else inr (false, i)
  end.

(** The constructor: the instance and its [m_bConnect], or the exception. *)
Definition construct (a : attempt) : string + bool * CMysqlOperation :=
  let '(rv, i) := initDbConfig a new_instance in
  let i := mk_CMysqlOperation (m_host i) (m_username i) (m_password i) (m_database i) rv (m_threadId i)
             (m_mysql_errorno i) (m_mysql_errormsg i) (m_mysql_error_format i) (pinging i) in
  if rv then connectDb a i else inr (false, i).

(** ** The instance under the thread of updates *)

Section Application.
Context (read_double : string → option (string * string)) (spare : string → string).
Context {DB : Type} (select_rows : DB → string → option nat) (run_sql : DB → string → option DB).
Context (commit_succeeds : DB → bool).

(** [m_pInstance], the connection ([m_bConnect] false before there is one), and
    whether the thread of updates still runs. *)
Record application := mk_application {
  m_pInstance : option CMysqlOperation;
  m_connection : connection DB;
  updating : bool;
}.

Definition setConnectB (brv : bool) (c : connection DB) : connection DB :=
  mk_connection DB brv (working _ c) (durable _ c).

Definition updateThreadId (id : Z) (i : CMysqlOperation) : CMysqlOperation :=
  mk_CMysqlOperation (m_host i) (m_username i) (m_password i) (m_database i) (m_bConfig i) id
    (m_mysql_errorno i) (m_mysql_errormsg i) (m_mysql_error_format i) (pinging i).

(** A turn of [doPingThread], given what [mysql_ping] and [mysql_thread_id] return. *)
Definition doPingThread (rv id : Z) (s : application) : option application :=
  match m_pInstance s with
  | Some i =>
      if pinging i then
        Some (if rv =? 0 then mk_application (Some (updateThreadId id i)) (m_connection s) (updating s)
              else mk_application (Some i) (setConnectB false (m_connection s)) (updating s))
      else None
  | None => None
  end.

(** The instance is made at the first call that does not throw; a connection begins
    with what is committed. *)
Definition getInstance (a : attempt) (s : application) : string + application :=
  match m_pInstance s with
  | Some _ => inr s
  | None =>
      match construct a with
      | inl e => inl e
      | inr (b, i) =>
          let d := durable _ (m_connection s) in inr (mk_application (Some i) (mk_connection DB b d d) (updating s))
      end
  end.

(** A turn of [ThreadProcess] with the instance it asks for behind the document. *)
Definition ThreadProcess (body : string) (a : attempt) (s : application) : application * option bool :=
  match LoadJson read_double spare body with
  | inl LogicError | inl RuntimeError => (mk_application (m_pInstance s) (m_connection s) false, None)
  | inl _ => (s, Some false)
  | inr (_, st) =>
      match getInstance a s with
      | inl _ => (s, Some false)
      | inr s =>
          match execMutilSql DB select_rows run_sql commit_succeeds st (m_connection s) with
          | (c, inr _) => (mk_application (m_pInstance s) c (updating s), Some true)
          | (c, inl LogicError) | (c, inl RuntimeError) => (mk_application (m_pInstance s) c false, None)
          | (c, inl _) => (mk_application (m_pInstance s) c (updating s), Some false)
          end
      end
  end.

Inductive database_event :=
  | PingTurn (rv id : Z)
  | UpdateTurn (body : string) (a : attempt).

(** The events in the order they happen, a turn at a time ([mysql_ping] and a transaction
    exclude each other by a lock; [setConnectB] stands outside of it); what is logged for
    each update. *)
Fixpoint database_run (l : list database_event) (s : application) : option (application * list (option bool)) :=
  match l with
  | [] => Some (s, [])
  | PingTurn rv id :: l => s ← doPingThread rv id s; database_run l s
  | UpdateTurn body a :: l =>
      if updating s then
        let '(s, r) := ThreadProcess body a s in
        '(s, rs) ← database_run l s; Some (s, r :: rs)
      else None
  end.

Definition bodies : list database_event → list string :=
  omap (λ e, match e with UpdateTurn body _ => Some body | _ => None end).

(** ** Lemmas *)

(** With the instance there, a turn is that of [process_message]. *)
Lemma ThreadProcess_connected body a s i : m_pInstance s = Some i →
  ThreadProcess body a s
  = let '(c, r) := process_message read_double spare DB select_rows run_sql commit_succeeds body (m_connection s) in
    (mk_application (Some i) c (match r with None => false | _ => updating s end), r).
Proof.
  intros Hi. unfold ThreadProcess, getInstance, process_message. rewrite Hi.
  destruct (LoadJson read_double spare body) as [[]|[b st]]; try (destruct s; cbn in *; by subst).
  destruct (execMutilSql _ _ _ _ st (m_connection s)) as [c [[]|?]]; cbn; by rewrite ?Hi.
Qed.

(** Nothing is written without the connection, but an empty message commits what an
    earlier one has left. *)
Definition unwritten (c c' : connection DB) : Prop :=
  m_bConnect _ c' = false ∧ working _ c' = working _ c
  ∧ (durable _ c' = durable _ c ∨ durable _ c' = working _ c).

Lemma unwritten_trans c1 c2 c3 : unwritten c1 c2 → unwritten c2 c3 → unwritten c1 c3.
Proof. intros (_ & W1 & D1) (B & W2 & D2). split_and!; [done|congruence|]. destruct D1, D2; intuition congruence. Qed.

Lemma sql_loop_disconnected s1 s2 s3 c : m_bConnect _ c = false →
  sql_loop DB select_rows run_sql s1 s2 s3 c
  = (c, match s1, s2, s3 with _ :: _, _ :: _, _ :: _ => inl ExceptionDatabase | _, _, _ => inr () end).
Proof.
  intros H. destruct s1, s2, s3; try done. cbn [sql_loop]. unfold mbind, op_bind, getQueryRows. by rewrite H.
Qed.

Lemma process_disconnected body c : m_bConnect _ c = false →
  let '(c', r) := process_message read_double spare DB select_rows run_sql commit_succeeds body c in
  unwritten c c' ∧ ∀ e l, says read_double spare body (e :: l) → r = Some false.
Proof.
  intros H. unfold process_message. destruct (LoadJson read_double spare body) as [e|[b st]] eqn:E.
  - assert (unwritten c c) by (split_and!; [done|done|by left]).
    destruct e; (split; [done|]); intros e' l Hs; rewrite (says_statements read_double spare _ _ Hs) in E; discriminate.
  - unfold execMutilSql. unfold mbind, op_bind. rewrite sql_loop_disconnected by done.
    assert (unwritten c c) as U by (split_and!; [done|done|by left]).
    assert (N : ∀ e l, says read_double spare body (e :: l) →
      m_sql_select st ≠ [] ∧ m_sql_insert st ≠ [] ∧ m_sql_update st ≠ []).
    { intros e l Hs. rewrite (says_statements read_double spare _ _ Hs) in E. by injection E as _ <-. }
    assert (unwritten c (mk_connection DB (m_bConnect _ c) (working _ c)
      (if commit_succeeds (working _ c) then working _ c else durable _ c))) as V.
    { split_and!; [done|done|]. cbn. destruct (commit_succeeds _); [by right|by left]. }
    destruct (m_sql_select st), (m_sql_insert st), (m_sql_update st); cbn; (split; [first [exact U|exact V]|]);
      intros e l' Hs; destruct (N e l' Hs) as (N1 & N2 & N3); done.
Qed.

Lemma database_run_disconnected l s s' rs i : m_pInstance s = Some i → m_bConnect _ (m_connection s) = false →
  database_run l s = Some (s', rs) →
  unwritten (m_connection s) (m_connection s')
  ∧ Forall2 (λ body r, ∀ e es, says read_double spare body (e :: es) → r = Some false) (bodies l) rs.
Proof.
  revert s rs i. induction l as [|[rv id|body a] l IH]; intros s rs i Hi Hc E; cbn [database_run] in E.
  - injection E as <- <-. split; [|constructor]. split_and!; [done|done|by left].
  - unfold doPingThread in E. rewrite Hi in E. destruct (pinging i); [|done]. cbn [mbind option_bind] in E.
    destruct (rv =? 0).
    + by apply (IH _ rs (updateThreadId id i)) in E.
    + apply (IH _ rs i) in E as [U F]; [|done|done]. split; [|exact F].
      eapply unwritten_trans; [|exact U]. split_and!; [done|done|by left].
  - destruct (updating s); [|done]. rewrite (ThreadProcess_connected body a s i Hi) in E.
    pose proof (process_disconnected body (m_connection s) Hc) as P.
    destruct (process_message _ _ _ _ _ _ body (m_connection s)) as [c r]. destruct P as [U R].
    destruct (database_run l _) as [[s1 rs1]|] eqn:E1; [|done]. cbn in E. injection E as <- <-.
    apply (IH _ rs1 i) in E1 as [U1 F]; [|done|apply U]. split; [by eapply unwritten_trans|].
    constructor; [exact R|exact F].
Qed.
End Application.

(** ** Properties *)

(** C11: a connection that is lost is never made again.  After one ping that fails, for
    any pings, updates and whatever a construction would meet, the connection stays
    marked as lost, no statement reaches the database (an empty message may commit
    what an earlier one has left), and each update with at least one table is logged
    as failed and dropped, also when later pings succeed. *)
Theorem lost_connection_drops_updates read_double spare {DB : Type} select_rows run_sql (commit_succeeds : DB → bool)
    s i rv id l s' rs :
  m_pInstance s = Some i → rv ≠ 0 →
  database_run read_double spare select_rows run_sql commit_succeeds (PingTurn rv id :: l) s = Some (s', rs) →
  m_bConnect _ (m_connection s') = false ∧ working _ (m_connection s') = working _ (m_connection s)
  ∧ (durable _ (m_connection s') = durable _ (m_connection s) ∨ durable _ (m_connection s') = working _ (m_connection s))
  ∧ Forall2 (λ body r, ∀ e es, says read_double spare body (e :: es) → r = Some false) (bodies l) rs.
Proof.
  intros Hi Hrv E. cbn [database_run] in E. unfold doPingThread in E. rewrite Hi in E. destruct (pinging i); [|done].
  apply Z.eqb_neq in Hrv. rewrite Hrv in E. cbn [mbind option_bind] in E.
  apply (database_run_disconnected _ _ _ _ _ _ _ _ _ i) in E as [(B & W & D) F]; done.
Qed.

Definition sample_attempt : attempt :=
  mk_attempt true (λ _ k, if decide (k = "Host") then "127.0.0.1" else EmptyString) (λ _ _ _ _, None) None None true.

(** The first update makes the connection, a ping fails, the next one succeeds. *)
Lemma lost_connection_drops_updates_witness :
  let text := witness_text [witness_entry] in
  let run := database_run witness_double witness_spare (λ _ _, Some 0%nat) witness_run (λ _, true) in
  ∃ s s' rs, run [UpdateTurn text sample_attempt] (mk_application None (mk_connection _ false [] []) true) = Some (s, [Some true])
  ∧ run [PingTurn 2006 0; PingTurn 0 9; UpdateTurn text sample_attempt] s = Some (s', rs)
  ∧ working _ (m_connection s') = [insert_of witness_entry]
  ∧ (rs = [Some false]).
Proof.
  intros text run.
  pose (s := default (mk_application None (mk_connection _ false [] []) true)
    (fst <$> run [UpdateTurn text sample_attempt] (mk_application None (mk_connection _ false [] []) true))).
  pose (r := default (s, []) (run [PingTurn 2006 0; PingTurn 0 9; UpdateTurn text sample_attempt] s)).
  destruct (lost_connection_drops_updates witness_double witness_spare (λ _ _, Some 0%nat) witness_run (λ _, true)
    s (default new_instance (m_pInstance s)) 2006 0 [PingTurn 0 9; UpdateTurn text sample_attempt] (fst r) (snd r))
    as (_ & W & _ & F); [by vm_compute|done|by vm_compute|].
  exists s, (fst r), (snd r). split; [by vm_compute|]. split; [by vm_compute|]. split; [rewrite W; by vm_compute|].
  by vm_compute.
Defined.

(** Only the name of the host is asked for: a configuration without the other values
    is taken as one with empty ones. *)
Lemma host_is_enough a i : config_found a = true → profile a DB_CONFIG_KEY "Host" ≠ EmptyString →
  fst (initDbConfig a i) = true.
Proof.
  intros Hf Hh. unfold initDbConfig, GetPrivateProfileStringA. rewrite Hf. cbn [negb].
  by destruct (profile a DB_CONFIG_KEY "Host").
Qed.
