(* ===== verification/ServerStart.v ===== *)
(** The start and the end of the server: [main] of [DataSync/main.cpp], the functions it
    starts the threads with ([SocketServer.cpp], [CProcessMqData.cpp],
    [HandlerClientSocket.cpp]) and the thread that accepts connections. *)
From S2P Require Import Prelude SharedQueue Messages SocketServer Config MessageQueue.

(** ** Starting *)

(** What [main] starts: threads, and the consumers of the message queue service. *)
Inductive part :=
  | ServerThread
  | HeartbeatThread
  | ProcessThread
  | ExceptionThread
  | ConsumerOf (enumState : QUEUE_INSTANCE)
  | RawThread.

(** Which [pthread_create] succeeds. *)
Record creations := mk_creations {
  server_created : bool;
  heartbeat_created : bool;
  process_created : bool;
  exception_created : bool;
  raw_created : bool;
}.

(** An exception [main] catches, with its message (what is logged, [what()], has its
    place and its class around it); one that it does not; a null pointer. *)
Inductive failure := Threw (what : string) | Terminated | Undefined.

Record start_state := mk_start { service : world; started_parts : list part }.

Definition start (A : Type) : Type := start_state → (failure + A) * start_state.

#[export] Instance start_ret : MRet start := λ A a s, (inr a, s).
#[export] Instance start_bind : MBind start := λ A B f m s,
  match m s with (inr a, s) => f a s | (inl e, s) => (inl e, s) end.

Definition has_started (p : part) : start () := λ s, (inr (), mk_start (service s) (started_parts s ++ [p])).
Definition start_throw {A} (what : string) : start A := λ s, (inl (Threw what), s).

(** A thread is created once; [run], [StartThread] and the others throw when it cannot
    be. *)
Definition create (created : bool) (p : part) (what : string) : start () :=
  if created then has_started p else start_throw what.

Definition run (c : creations) : start () := create (server_created c) ServerThread "server thread thread failed".
Definition runHeartBeatThread (c : creations) : start bool :=
  if heartbeat_created c then (_ ← has_started HeartbeatThread; mret true) else mret false.
Definition StartThread (c : creations) : start () :=
  create (process_created c) ProcessThread "CProcessMqData thread thread failed".
Definition StartThreadException (c : creations) : start () :=
  create (exception_created c) ExceptionThread "CProcessMqData thread thread failed".
Definition StartThreadRaw (c : creations) : start () :=
  create (raw_created c) RawThread "CProcessMqData thread thread raw failed".

Section Start.
Context (config_file : option string) (throws : list (libcall * bool) → libcall → bool).

(** [AliMessageQueue::getInstance()->runServer]; its result is not looked at. *)
Definition start_consumer (enumState : QUEUE_INSTANCE) : start () := λ s,
  match (_ ← getInstance config_file; runServer config_file throws enumState) (service s) with
  | (Done true, w) => (inr (), mk_start w (started_parts s ++ [ConsumerOf enumState]))
  | (Done false, w) => (inr (), mk_start w (started_parts s))
  | (Raised (ExceptionMessageQueue what), w) => (inl (Threw what), mk_start w (started_parts s))
  | (Raised ONSClientException, w) => (inl Terminated, mk_start w (started_parts s))
  | (NullPointer, w) => (inl Undefined, mk_start w (started_parts s))
  end.

Definition main_start (c : creations) : start () :=
  _ ← run c;
  _ ← runHeartBeatThread c;
  _ ← StartThread c;
  _ ← StartThreadException c;
  _ ← start_consumer erp_final_consumer;
  _ ← start_consumer exception_thread1_consumer;
  StartThreadRaw c.
End Start.

(** ** Serving *)

(** What [accept] gives: a connection, with the address of its object and the time,
    or a failure; whether the thread of a connection is created is not looked at. *)
Record accepted := mk_accepted { ac_addr : Z; ac_socket : Z; ac_ip : list Z; ac_now : Z }.

(** The loop: the server's state, and whether the thread has ended; it goes on when the
    list ends. *)
Fixpoint accept_loop (l : list (option accepted)) (s : SocketServer) : option (SocketServer * bool) :=
  match l with
  | [] => Some (s, false)
  | None :: _ => Some (s, true)
  | Some a :: l =>
      s ← accept_client s (ac_addr a) (ac_socket a) (ac_ip a) (ac_now a); accept_loop l s
  end.

Definition threadRunServer (socket_ok bind_ok listen_ok : bool) (l : list (option accepted)) (s : SocketServer)
    : option (SocketServer * bool) :=
  if negb socket_ok || negb bind_ok || negb listen_ok then Some (s, true) else accept_loop l s.

(** [main]: it waits for the server's thread; when it returns, or after an exception it
    has logged, the process ends with all its threads. *)
Inductive main_result :=
  | Serving (s : SocketServer) (parts : list part)
  | Exited (logged : option string) (parts : list part)
  | Crashed.

Definition main (config_file : option string) (throws : list (libcall * bool) → libcall → bool) (c : creations)
    (socket_ok bind_ok listen_ok : bool) (l : list (option accepted)) : option main_result :=
  match main_start config_file throws c (mk_start (mk_world None []) []) with
  | (inl (Threw what), s) => Some (Exited (Some what) (started_parts s))
  | (inl _, _) => Some Crashed
  | (inr _, s) =>
      '(server, ended) ← threadRunServer socket_ok bind_ok listen_ok l new_SocketServer;
      Some (if (ended : bool) then Exited None (started_parts s) else Serving server (started_parts s))
  end.

(** ** Properties *)

Definition all_created : creations := mk_creations true true true true true.
Definition all_parts : list part :=
  [ServerThread; HeartbeatThread; ProcessThread; ExceptionThread; ConsumerOf erp_final_consumer;
   ConsumerOf exception_thread1_consumer; RawThread].

(** The calls that make a consumer of a topic and subscribe its listener, when [n] were
    made before. *)
Definition consumer_calls (cfg : MQ_CONFIG) (listener : MessageListener) (n : nat) : list (libcall * bool) :=
  map (λ c, (c, false))
    [SetFactoryProperty AccessKey ONS_ACCESS_KEY; SetFactoryProperty SecretKey ONS_SECRET_KEY;
     SetFactoryProperty PublishTopics (name_ cfg); SetFactoryProperty ConsumerId (consumer_id_ cfg);
     CreatePushConsumer (mk_properties ONS_ACCESS_KEY ONS_SECRET_KEY (name_ cfg) EmptyString (consumer_id_ cfg));
     Subscribe (n + 4) (name_ cfg) "*" (Some listener); StartConsumer (n + 4)].

(** The consumers, their topics and listeners. *)
Definition consumer_of (i : QUEUE_INSTANCE) : option (TOPIC_ENUM * MessageListener) :=
  match i with
  | erp_final_consumer => Some (erp_final_topic, MessageListenerErpFinal)
  | exception_thread1_consumer => Some (exception_topic, MessageListenerException)
  | _ => None
  end.

Definition consumer_info (cfg : MQ_CONFIG) : ONSFactoryProperty :=
  mk_properties ONS_ACCESS_KEY ONS_SECRET_KEY (name_ cfg) EmptyString (consumer_id_ cfg).

Lemma consumer_data_made cfg l m cs :
  consumer_data (λ _ _, false) (name_ cfg) (consumer_id_ cfg) (Some l) (mk_world m cs)
  = (Done (mk_QUEUE_DATA None (Some (length cs + 4)%nat) (Some l) (consumer_info cfg)),
     mk_world m (cs ++ take 5 (consumer_calls cfg l (length cs)))).
Proof.
  unfold consumer_data, createConsumer, set_property, library, mbind, mq_bind, mret, mq_ret. cbn.
  rewrite <- !app_assoc. cbn. by rewrite length_app.
Qed.

Lemma runServer_subscribes config_file i t l q w : consumer_of i = Some (t, l) → m_instance w = Some q →
  m_queueInfos q !! i = None → ∃ d,
  (_ ← getInstance config_file; runServer config_file (λ _ _, false) i) w
  = (Done true, mk_world (Some (mk_AliMessageQueue (<[i := d]> (m_queueInfos q)) (m_mq_config q)))
      (calls w ++ consumer_calls (topic_config q t) l (length (calls w)))).
Proof.
  intros Ht Hq Hi. destruct w as [inst cs]. cbn in Hq. subst inst.
  exists (mk_QUEUE_DATA None (Some (length cs + 4)%nat) (Some l) (consumer_info (topic_config q t))).
  unfold mbind at 1, mq_bind at 1, getInstance at 1. cbn [m_instance calls].
  unfold runServer, try_library, mbind at 1, mq_bind at 1, getProOrCon, getInstance, mbind at 1, mq_bind at 1.
  cbn [m_instance]. unfold producerIsExist. rewrite Hi, bool_decide_eq_false_2 by by intros [].
  unfold create_queue_data. destruct i; try done; injection Ht as <- <-; unfold mbind at 1, mq_bind at 1;
    rewrite consumer_data_made; unfold insert_queue, library, mbind, mq_bind, mret, mq_ret; cbn; by rewrite <- !app_assoc.
Qed.

(** With the instance and all threads every part is started, and both consumers are
    subscribed. *)
Lemma main_start_all config_file q0 :
  getInstance config_file (mk_world None []) = (Done q0, mk_world (Some q0) []) → ∃ w,
  main_start config_file (λ _ _, false) all_created (mk_start (mk_world None []) [])
    = (inr (), mk_start w all_parts)
  ∧ calls w = consumer_calls (topic_config q0 erp_final_topic) MessageListenerErpFinal 0
              ++ consumer_calls (topic_config q0 exception_topic) MessageListenerException 7.
Proof.
  intros H. pose proof (started_empty config_file q0 H) as He.
  assert ((_ ← getInstance config_file; runServer config_file (λ _ _, false) erp_final_consumer) (mk_world None [])
    = (_ ← getInstance config_file; runServer config_file (λ _ _, false) erp_final_consumer) (mk_world (Some q0) [])) as S1
    by (unfold mbind, mq_bind; by rewrite H).
  destruct (runServer_subscribes config_file erp_final_consumer erp_final_topic MessageListenerErpFinal q0
    (mk_world (Some q0) [])) as (d1 & E1); [done|done|by rewrite He, lookup_empty|].
  set (q1 := mk_AliMessageQueue _ _) in E1. set (cs := calls (mk_world (Some q0) []) ++ _) in E1.
  destruct (runServer_subscribes config_file exception_thread1_consumer exception_topic MessageListenerException q1
    (mk_world (Some q1) cs)) as (d2 & E2); [done|done|cbn; rewrite lookup_insert_ne by done; by rewrite He, lookup_empty|].
  eexists. split.
  - unfold main_start. cbn [run runHeartBeatThread StartThread StartThreadException StartThreadRaw create all_created
      server_created heartbeat_created process_created exception_created raw_created].
    unfold mbind at 1, start_bind at 1, has_started at 1. cbn [service started_parts app].
    unfold mbind at 1, start_bind at 1, mbind at 1, start_bind at 1, has_started at 1, mret at 1, start_ret at 1.
    cbn [service started_parts app]. unfold mbind at 1, start_bind at 1, has_started at 1. cbn [service started_parts app].
    unfold mbind at 1, start_bind at 1, has_started at 1. cbn [service started_parts app].
    unfold mbind at 1, start_bind at 1, start_consumer at 1. cbn [service started_parts]. rewrite S1, E1.
    unfold mbind at 1, start_bind at 1, start_consumer at 1. cbn [service started_parts]. rewrite E2. reflexivity.
  - reflexivity.
Qed.

Lemma accept_loop_all l s : NoDup (map ac_addr l) → (∀ a c, a ∈ l → c ∈ m_clients s → address c ≠ ac_addr a) →
  ∃ s', accept_loop (map Some l) s = Some (s', false)
  ∧ m_clients s' = m_clients s ++ map (λ a, new_HandlerClientSocket (ac_addr a) (ac_socket a) (ac_ip a) (ac_now a)) l
  ∧ ∀ post, accept_loop (map Some l ++ None :: post) s = Some (s', true).
Proof.
  revert s. induction l as [|a l IH]; intros s Hn Hf; cbn [map app accept_loop].
  - exists s. by rewrite app_nil_r.
  - cbn [map] in Hn. apply NoDup_cons in Hn as [Hnin Hn].
    assert (client_at s (ac_addr a) = None) as Hc.
    { unfold client_at. replace (list_find _ _) with (@None (nat * HandlerClientSocket)); [done|]. symmetry.
      apply list_find_None, Forall_forall. intros c Hin. apply (Hf a c); [by left|done]. }
    unfold accept_client. rewrite Hc.
    replace (checkClientsIpExist s (ac_ip a)) with false by (unfold checkClientsIpExist; by destruct (list_find _ _)).
    cbn [mbind option_bind]. destruct (IH (addClient s (new_HandlerClientSocket (ac_addr a) (ac_socket a) (ac_ip a) (ac_now a))) Hn)
      as (s' & E & C & P).
    + intros b c Hb. unfold addClient. cbn. intros [Hin|Hin]%elem_of_app; [apply (Hf b c); [by right|done]|].
      apply list_elem_of_singleton in Hin as ->. cbn. intros Heq. apply Hnin. rewrite Heq. by apply list_elem_of_fmap_2.
    + exists s'. split_and!; [done| |exact P]. rewrite C. cbn. by rewrite <- app_assoc.
Qed.

(** C12: the life of the server.  When the configuration lacks a value, [main] has
    started four threads by the time it reads it; the exception is logged and the
    process ends with them.  When it has all, every thread can be created and the
    library does not throw, every part is started, the two consumers are subscribed
    with their listeners to the topics of the configuration, and each connection
    that is accepted becomes a client; but the first [accept] that fails, whatever
    would come after it, ends the thread, [main] and the process. *)
Theorem server_lifetime config_file :
  (∀ what w c throws sock bound listening l,
     getInstance config_file (mk_world None []) = (Raised (ExceptionMessageQueue what), w) →
     server_created c = true → process_created c = true → exception_created c = true →
     main config_file throws c sock bound listening l
     = Some (Exited (Some what) (ServerThread :: (if heartbeat_created c then [HeartbeatThread] else [])
                                 ++ [ProcessThread; ExceptionThread])))
  ∧ ∀ q0 l, getInstance config_file (mk_world None []) = (Done q0, mk_world (Some q0) []) → NoDup (map ac_addr l) →
     ∃ w s, main_start config_file (λ _ _, false) all_created (mk_start (mk_world None []) []) = (inr (), mk_start w all_parts)
     ∧ calls w = consumer_calls (topic_config q0 erp_final_topic) MessageListenerErpFinal 0
                 ++ consumer_calls (topic_config q0 exception_topic) MessageListenerException 7
     ∧ m_clients s = map (λ a, new_HandlerClientSocket (ac_addr a) (ac_socket a) (ac_ip a) (ac_now a)) l
     ∧ main config_file (λ _ _, false) all_created true true true (map Some l) = Some (Serving s all_parts)
     ∧ ∀ post, main config_file (λ _ _, false) all_created true true true (map Some l ++ None :: post)
               = Some (Exited None all_parts).
Proof.
  split.
  - intros what w c throws sock bound listening l H H1 H2 H3. unfold main, main_start, run, runHeartBeatThread, StartThread, StartThreadException.
    rewrite H1, H2, H3. destruct (heartbeat_created c); unfold create, start_consumer, mbind, start_bind, mq_bind; cbn -[getInstance];
      by rewrite H.
  - intros q0 l H Hn. destruct (main_start_all config_file q0 H) as (w & E & C).
    destruct (accept_loop_all l new_SocketServer Hn) as (s & A & Cl & P); [intros a c _ Hin; by apply elem_of_nil in Hin|].
    exists w, s. split_and!; [done..| |].
    + unfold main. rewrite E. unfold threadRunServer. cbn [negb orb]. by rewrite A.
    + intros post. unfold main. rewrite E. unfold threadRunServer. cbn [negb orb]. by rewrite P.
Qed.

(** The configuration in the repository; and one with the three topics. *)
Lemma server_lifetime_witness :
  main (Some (file_of false (config_texts Config.mq_config))) (λ _ _, false) all_created true true true []
  = Some (Exited (Some "config MQ_RAW_TOPIC name") [ServerThread; HeartbeatThread; ProcessThread; ExceptionThread])
  ∧ main three_topics_file (λ _ _, false) all_created true true true
      [Some (mk_accepted 1 5 [49] 100); None; Some (mk_accepted 2 6 [50] 101)]
    = Some (Exited None all_parts).
Proof.
  split.
  - by apply (proj1 (server_lifetime _) "config MQ_RAW_TOPIC name" (mk_world None []) all_created); [vm_compute|..].
  - destruct (proj2 (server_lifetime three_topics_file) three_topics_queue [mk_accepted 1 5 [49] 100])
      as (w & s & _ & _ & _ & _ & P); [by vm_compute|apply NoDup_singleton|].
    exact (P [Some (mk_accepted 2 6 [50] 101)]).
Defined.
